(* ===== verification/_CoqProject ===== *)
-Q . S2P
Prelude.v
Core.v
Phrases.v
TaskGroup.v
ContextManager.v
DynamicContext.v
DynamicContextProofs.v
ContextHandler.v
ContextHandlerProofs.v
ActivityControl.v
Vad.v
LlmHandler.v
LlmHandlerProofs.v
TtsHandler.v
TtsHandlerProofs.v
BaseHandler.v
Runner.v
Shutdown.v
TransportHandler.v
Pipeline.v
SessionAudio.v
Startup.v
Audio.v
AudioProofs.v
AudioBuffers.v
AudioObjects.v
LiveKitTransport.v
LiveKitTransportProofs.v
LiveKitProvider.v
LiveKitProviderProofs.v
DeepgramStt.v
DeepgramTts.v
SpeechWire.v
Cartesia.v
ElevenLabs.v
OpenAI.v
Completion.v
McpTools.v
Json.v
ControlPlane.v
DailyTransport.v
TwilioTransport.v
WebSocketTransport.v
Factories.v
FactoriesProofs.v
Main.v
Silero.v
Logger.v
FluffWords.v
Normaliser.v
TypeGen.v
Lifecycle.v
