(* ===== verification/Prelude.v ===== *)
(** * InteractKit: a verification library for the voice-agent SDK

    InteractKit runs a telephone or web voice agent as a chain of handlers that
    exchange event packets over channels.  This library models the core of the
    program in [src/] as Rocq definitions that follow the Go code function by
    function, and proves what makes it correct.

    ** The program and its parts

    A [Runner] ([core/runner.go]) connects handlers in a line: each sends
    packets to the next one or to the top of the pipeline, from where the runner
    hands them to the first handler again.  [main.go] builds the line

    transport input, VAD, STT, user context, LLM, assistant context, TTS,
    activity control, transport output.

    Audio comes in at the transport; the VAD handler reports speech and suspects
    interruptions; the recognizer's text becomes a user message and a generation
    request; the model's output becomes tool calls and chunks of text; the TTS
    handler turns chunks into speech and simulates which word is being spoken;
    activity control holds audio back while an interruption is suspected; the
    assistant aggregator records what was really said.  The dynamic context
    manager decides which task instructions and tools the model sees and stores
    the values it collects.

    ** Files

    - [Prelude]: results ([Ok] or [Err]), Go's string functions, UTF-8, generic
      list lemmas and tactics.
    - [Core]: [core/llm.go], [core/media.go], [core/vad.go], the events of
      [core/base_events.go] and [events/], and [core/event_packet.go].
    - [Phrases]: the prompts and phrases the handlers insert.
    - [TaskGroup], [ContextManager], [DynamicContext]: [handlers/context/]: the
      descriptors, the conversation manager, the task-group manager;
      [DynamicContextProofs]: its theorems.
    - [ContextHandler], [ContextHandlerProofs]: the two aggregators of
      [context_handler.go] and tool calls.
    - [ActivityControl]: [handlers/activity_control/], with its theorems.
    - [Vad]: [handlers/vad/], with its theorems.
    - [LlmHandler], [LlmHandlerProofs]: [handlers/llm/].
    - [TtsHandler], [TtsHandlerProofs]: [handlers/tts/].
    - [BaseHandler]: [core/handler.go], and the interface [Handler] with the
      promise [RelaysEndCall] that the pipeline relies on.
    - [Runner]: [core/runner.go], [core/external_event_handler.go] and one job of
      [factories/pipeline.go]; [Shutdown]: [Stop] while the loops of runner and
      handlers, single packets and clients are still at work.
    - [TransportHandler]: [handlers/transport/] and [handlers/stt/].
    - [Pipeline]: the line of handlers of [main.go] with the state they share,
      as a transition system over the channels; [SessionAudio]: the caller's and
      the agent's audio through it; [Startup]: what starting it sets going.
    - [Audio], [AudioProofs]: [utils/audio/] as functions; [AudioBuffers]: its
      pools of buffers under conversions that run at once; [AudioObjects]: the C
      objects behind its codecs, resamplers and denoisers, and [opus_cgo.go]'s
      packet inspection.
    - [DeepgramStt], [DeepgramTts]: [services/deepgram/], with their theorems.
    - [SpeechWire]: what the streaming speech services share: base64, dial
      attempts, chunks of audio; [Cartesia], [ElevenLabs]: [services/cartesia/]
      and [services/elevenlabs/], with their theorems.
    - [OpenAI]: [services/openai/], with its theorems; [Completion]: completions
      as goroutines, with the channels to the LLM handler's event loop, resets
      and cleanups in between.
    - [Silero]: the voice classifier of [vad/silero/], with its theorems.
    - [LiveKitTransport], [LiveKitTransportProofs]: a room connection,
      [transports/livekit/transport.go]; [LiveKitProvider],
      [LiveKitProviderProofs]: the worker and its jobs, [provider.go].
    - [DailyTransport], [TwilioTransport], [WebSocketTransport]: the other
      packages of [transports/], with their theorems.
    - [McpTools]: [mcp_manager.go] and [mcp_schema.go] of [handlers/context/].
    - [Json]: decoded JSON documents and their fields.
    - [ControlPlane]: [controlplane/] and [protocol/], with their theorems.
    - [Factories], [FactoriesProofs]: [factories/]: services, sessions, settings
      and transports from their configuration.
    - [Main]: environment, job sessions and connected mode of [main.go].
    - [Logger]: [core/logger.go] and [core/storage_logger.go], with theorems.
    - [FluffWords], [Normaliser]: [utils/text/normaliser.go], its table and code.
    - [TypeGen]: the generator [cmd/typegen/main.go], with its theorems.
    - [Lifecycle]: the channels handlers make and close in [Initialize] and
      [Cleanup], and [Pipeline.Serve].

    ** How the code is modelled

    A Go struct is a record with the fields that matter, a method a function
    from the record (and the event) to the new record and the effects in order:
    packets sent, calls of a service, goroutines started.  What a service,
    a clock, a random number or an HTTP exchange answers is an argument.  An
    operation under a mutex is one step; operations of different goroutines are
    separate steps, which runs and transition systems interleave.  A timer is
    kept in its phases (pending, its function running, its signal in the
    channel) because stopping it works only in the first.  Errors are [Err];
    an [option] around a result is a Go panic (a nil dereference), or in [find_data]
    a loop that ran out of fuel.  uint64 counters wrap around at 2^64; PCM
    samples are 16 bits wide, WAV sizes 32; float32 products are rounded; sums of
    durations that the code only logs are kept as exact fractions.  Go's maps are
    finite maps, and where the order of a Go slice matters it is a list.

    Parameters stand for code outside [src/]: [Regexp] (Go's regular expressions),
    [UnicodeTables] and [UnicodeCase] (class and lower case of non-ASCII runes),
    [AudioLibs] (G.711, libopus, libsamplerate, RNNoise), [OnnxRuntime] (one
    inference of the voice model), [GoRuntime] (JSON objects, the order of a
    [range] over a map), [Uuids] (generated ids), [FloatBridge] (one call of
    libsamplerate with its float buffers), [OpusPackets] and [G711Frames] (single
    packets and samples).  Their laws are the classes
    [ResetLaws], [BridgeLaws] and [OnnxShapes], the injectivity in [Uuids] and the
    fields [iterate_perm] and those of [FloatBridge] on lengths, which concrete instances satisfy.  JSON is a decoded
    document ([Core.any]); HTTP, WebSockets, rooms and files are the answers
    they give.

    ** What the theorems show

    - The session: an [EndCallEvent] sent anywhere stops the runner under every
      interleaving, unless the transport refuses it, and then it does not
      ([Pipeline]); the recogniser is given all the caller's audio and the caller
      only the agent's, in order ([SessionAudio]); stopping is idempotent
      ([Runner]), ends whatever the goroutines are doing, and delivers nothing
      more ([Shutdown]); a session that starts has one loop per handler
      ([Startup]); failed services are replaced by the backups in order
      ([BaseHandler]).
    - The task context: instructions and tools always match the tasks in scope,
      capturing a value implements a specification, stored values are validated,
      a task whose variables are answered completes and a group can be finished
      ([DynamicContextProofs]).
    - The conversation: the assistant aggregator is a two-state machine, real
      speech rules out a stale regeneration, a confirmation follows a capture
      ([ContextHandlerProofs]).
    - Interruptions: audio is held back and released without loss or reordering
      and a suspension ends ([ActivityControl]); speech events alternate and
      respect the grace period ([Vad]); a discarded generation is silent, an
      outdated filler is ignored, the wait for a filler ends, the recorded
      response is what was spoken ([LlmHandlerProofs]).
    - Speech: the text of a response reaches the service without loss, every
      word is spoken once and in order between a start and an end
      ([TtsHandlerProofs]).
    - Audio: WAV round trip, exact channel conversion, the outcome of a format
      conversion, pooled resamplers that cannot be told from new ones, a
      denoiser that does not depend on how the stream is cut ([AudioProofs]);
      recycled buffers are not noticed ([AudioBuffers]), no C object is used
      after it was freed or freed twice ([AudioObjects]).
    - Services: the audio sent to Deepgram is what its address declares
      ([DeepgramStt]); buffered text is complete and stays under the service's
      limit when no text is too long ([DeepgramTts]); tool calls are assembled
      from any fragments ([OpenAI]); in every interleaving completions deliver
      what their answers amount to, a reset cuts them short, and they end
      ([Completion]).
    - Speech streams: no text goes to a finished Cartesia context
      ([context_protocol]), every ElevenLabs connection is one stream
      ([every_stream_opens_once]), a lost Deepgram connection is repaired
      ([lost_connection_is_repaired]), the voice classifier hears one stream
      however it is cut into packets ([classifier_hears_one_stream]).
    - Transports: only the linked participant of a room is heard, its departure
      ends the session, the tables of track readers are well formed, the state
      clients see follows the events ([LiveKitTransportProofs]); a worker
      respects its capacity, ended jobs are reported, stopping cancels every
      job ([LiveKitProviderProofs]); Daily and WebSocket media round trip.
    - Sessions: when a session can be built, which keys reach which service,
      every tool offered has a handler ([FactoriesProofs]); MCP tools are offered
      and routed, their schemas converted ([McpTools]).
    - Control plane: the server sees the registration and then accepted messages
      in order, the end of the connection is noticed ([ControlPlane]), only a
      shutdown stops a connected agent ([Main]).
    - Tools around: the session log is complete ([Logger]), normalised text is in
      normal form ([Normaliser]), generated types hold no secret and resolving
      them ends ([TypeGen]), channels are closed once ([Lifecycle]).
    - Defects of the code, as theorems: regeneration after a false positive never
      happens, a leftover signal ends the next suspicion, the cleanup of the TTS
      handler deadlocks, the normalizer joins words, converting a compressed
      chunk to its own encoding leaves it as PCM, a long text overfills the
      synthesis service ([long_text_exceeds_the_limit]), a reset transport is deaf,
      a closed control-plane client waits for ever, requests in flight overcommit
      a worker, late transcripts panic, formats with string arguments stay
      unformatted, an interleaving cuts the recorded text of a response, a reset
      misses a completion that is starting, a stopped runner panics on its closed
      channels, pooled codecs leak, and others beside the operation they concern.

    ** Bounds and fuel

    Recursion that is not structural carries fuel equal to the length of the data
    it consumes plus one: string functions and UTF-8 decoding consume a byte per
    round, [find_data] eight bytes ([find_data_total] shows the fuel suffices),
    [process_frames] 480 samples ([process_frames_fuel] shows more changes
    nothing).  [waitForFiller] takes the number of polls as fuel, and
    timeout / 10 ms + 2 is enough ([waitForFiller_terminates]).  [send_chunks] takes
    the length of the text plus one ([send_chunks_spec]); [establish] counts the
    three attempts of the code.  [windows_loop] takes the length of the buffer
    ([windows_loop_judges]), [resolveType] the length of the type and of the
    longest chain of named types ([resolveType_terminates]).  Runs of [Shutdown],
    [AudioBuffers] and [Completion] have measures that every step decreases
    ([weight], [AudioBuffers.work], [state_work]).

    ** Not modelled, and the plan

    Left out for good: what the libraries and servers do (the C bridges, ONNX
    inference, the LiveKit SDK, HTTP and WebSocket protocols, JSON text), Go's
    parser, and durations that only delay.
    Planned: readers of several sessions of one speech service at once; the
    pipeline with a LiveKit transport at both ends; generation requests with
    their fillers on top of [Completion]. *)

From stdpp Require Export base gmap list strings pretty.
From Stdlib Require Export ZArith Lia.

#[global] Open Scope Z_scope.

(** ** Result values: Go's [(T, error)] pairs *)

Inductive result (A : Type) : Type :=
| Ok (a : A)
| Err (msg : string).
Arguments Ok {A} a.
Arguments Err {A} msg.

Definition result_bind {A B} (m : result A) (k : A → result B) : result B :=
  match m with
  | Ok a => k a
  | Err e => Err e
  end.

Definition is_ok {A} (r : result A) : bool :=
  match r with
  | Ok _ => true
  | Err _ => false
  end.

Declare Scope go_scope.
Delimit Scope go_scope with go.
Notation "'let!' x := m 'in' k" := (result_bind m (λ x, k))
  (at level 10, x name, m at level 100, k at level 200) : go_scope.

Lemma result_bind_ok {A B} (m : result A) (k : A → result B) b :
  result_bind m k = Ok b ↔ ∃ a, m = Ok a ∧ k a = Ok b.
Proof. destruct m; naive_solver. Qed.

Lemma result_bind_err {A B} (m : result A) (k : A → result B) e :
  result_bind m k = Err e ↔ m = Err e ∨ ∃ a, m = Ok a ∧ k a = Err e.
Proof. destruct m; naive_solver. Qed.

(** ** Lists updated by index *)

Lemma insert_Permutation {A} (l : list A) t x y : l !! t = Some x → <[t := y]> l ≡ₚ y :: delete t l.
Proof.
  revert t. induction l as [|z l IH]; intros [|t] Ht; [done..|]. cbn. rewrite (IH t) by done. constructor.
Qed.

Lemma sum_insert {A} (f : A → nat) (l : list A) t x x' : l !! t = Some x →
  (sum_list_with f (<[t := x']> l) + f x = sum_list_with f l + f x')%nat.
Proof.
  revert t. induction l as [|y l IH]; intros [|t] Ht; try done.
  - injection Ht as ->. cbn. lia.
  - specialize (IH t Ht). change (f y + sum_list_with f (<[t := x']> l) + f x = f y + sum_list_with f l + f x')%nat. lia.
Qed.

(** ** Go's [strings] package on byte strings *)

Local Open Scope string_scope.
Local Open Scope list_scope.
Local Open Scope Z_scope.

Definition newline : string := String (Ascii.ascii_of_nat 10) EmptyString.
Definition double_quote : string := String (Ascii.ascii_of_nat 34) EmptyString.

(** Concatenation, which stdpp keeps from unfolding. *)
Lemma string_app_cons c s t : String c s +:+ t = String c (s +:+ t).
Proof. reflexivity. Qed.

Lemma string_app_assoc (a b c : string) : (a +:+ b) +:+ c = a +:+ (b +:+ c).
Proof. induction a as [|x a IH]; [done|]. by rewrite !string_app_cons, IH. Qed.

Lemma string_app_nil_r (a : string) : a +:+ "" = a.
Proof. induction a as [|x a IH]; [done|]. by rewrite string_app_cons, IH. Qed.

Lemma string_length_app a b :
  String.length (a +:+ b) = (String.length a + String.length b)%nat.
Proof. induction a as [|x a IH]; [done|]. rewrite string_app_cons. cbn. by rewrite IH. Qed.

(** [strings.HasPrefix]. *)
Definition has_prefix (p s : string) : bool := String.prefix p s.

(** The first [n] bytes dropped: [s[n:]]. *)
Fixpoint str_drop (n : nat) (s : string) : string :=
  match n, s with
  | O, _ => s
  | S n', String _ s' => str_drop n' s'
  | S _, EmptyString => EmptyString
  end.

(** [s[:n]]. *)
Fixpoint str_take (n : nat) (s : string) : string :=
  match n, s with
  | S n', String c s' => String c (str_take n' s')
  | _, _ => EmptyString
  end.

(** [strings.HasSuffix]. *)
Definition has_suffix (p s : string) : bool :=
  (Nat.leb (String.length p) (String.length s) &&
   String.eqb (str_drop (String.length s - String.length p) s) p)%bool.

(** [strings.Contains]. *)
Fixpoint str_contains (p s : string) : bool :=
  (has_prefix p s ||
   match s with
   | EmptyString => false
   | String _ s' => str_contains p s'
   end)%bool.

(** [strings.Index]: the first position of [p], [None] for Go's -1. *)
Fixpoint str_index (p s : string) : option nat :=
  if has_prefix p s then Some 0%nat else
  match s with
  | EmptyString => None
  | String _ s' => S <$> str_index p s'
  end.

(** [strings.Join]. *)
Fixpoint str_join (sep : string) (l : list string) : string :=
  match l with
  | [] => ""
  | [x] => x
  | x :: l' => x +:+ sep +:+ str_join sep l'
  end.

(** [strings.ReplaceAll] for a non-empty pattern; the fuel is the length of
    the text, every round of the loop consumes at least one byte. *)
Fixpoint replace_fuel (fuel : nat) (old new s : string) : string :=
  match fuel with
  | O => s
  | S f =>
      match s with
      | EmptyString => EmptyString
      | String c s' =>
          if has_prefix old s
          then new +:+ replace_fuel f old new (str_drop (String.length old) s)
          else String c (replace_fuel f old new s')
      end
  end.

Definition replace_all (s old new : string) : string :=
  replace_fuel (S (String.length s)) old new s.

(** UTF-8 encodings of the runes [unicode.IsSpace] accepts. *)
Definition bytes (l : list nat) : string :=
  fold_right (λ n s, String (Ascii.ascii_of_nat n) s) EmptyString l.

Definition space_encodings : list string :=
  bytes <$> [ [9]; [10]; [11]; [12]; [13]; [32]; [194;133]; [194;160];
    [225;154;128]; [226;128;128]; [226;128;129]; [226;128;130]; [226;128;131];
    [226;128;132]; [226;128;133]; [226;128;134]; [226;128;135]; [226;128;136];
    [226;128;137]; [226;128;138]; [226;128;168]; [226;128;169]; [226;128;175];
    [226;129;159]; [227;128;128] ]%nat.

(** The length of the space rune [s] starts with, if it does. *)
Definition leading_space (s : string) : option nat :=
  String.length <$> head (filter (λ p, has_prefix p s = true) space_encodings).

Definition trailing_space (s : string) : option nat :=
  String.length <$> head (filter (λ p, has_suffix p s = true) space_encodings).

Fixpoint trim_left_fuel (fuel : nat) (s : string) : string :=
  match fuel, leading_space s with
  | S f, Some n => trim_left_fuel f (str_drop n s)
  | _, _ => s
  end.

Fixpoint trim_right_fuel (fuel : nat) (s : string) : string :=
  match fuel, trailing_space s with
  | S f, Some n => trim_right_fuel f (str_take (String.length s - n) s)
  | _, _ => s
  end.

(** [strings.TrimSpace]. *)
Definition trim_space (s : string) : string :=
  let s' := trim_left_fuel (String.length s) s in
  trim_right_fuel (String.length s') s'.

(** [strings.Fields]: the maximal runs of non-space bytes.  The fuel is the
    length of the text; every step consumes at least one byte. *)
Fixpoint fields_fuel (fuel : nat) (word : string) (s : string) : list string :=
  let flush := if String.eqb word "" then [] else [word] in
  match fuel, s with
  | O, _ | _, EmptyString => flush
  | S f, String c s' =>
      match leading_space s with
      | Some n => flush ++ fields_fuel f "" (str_drop n s)
      | None => fields_fuel f (word +:+ String c EmptyString) s'
      end
  end.

Definition fields (s : string) : list string := fields_fuel (S (String.length s)) "" s.

(** Bytes of a string, and back. *)
Fixpoint str_chars (s : string) : list Ascii.ascii :=
  match s with
  | EmptyString => []
  | String c s' => c :: str_chars s'
  end.

Fixpoint str_of_chars (l : list Ascii.ascii) : string :=
  match l with
  | [] => EmptyString
  | c :: l' => String c (str_of_chars l')
  end.

(** [strings.TrimRight(s, cutset)] for an ASCII cutset. *)
Definition trim_right_set (cut : string) (s : string) : string :=
  let fix drop (l : list Ascii.ascii) :=
    match l with
    | [] => []
    | c :: l' => if bool_decide (c ∈ str_chars cut) then drop l' else l
    end in
  str_of_chars (rev (drop (rev (str_chars s)))).

(** [strconv.Itoa]. *)
Definition itoa (z : Z) : string := pretty z.

(** [strconv.Quote] (the [%q] verb) on ASCII text; bytes from 0x80 on are
    kept, which is what Go does for printable UTF-8 text. *)
Definition hex_digit (n : nat) : Ascii.ascii :=
  Ascii.ascii_of_nat (if Nat.ltb n 10 then 48 + n else 87 + n).

Definition quote_char (c : Ascii.ascii) : string :=
  let n := Ascii.nat_of_ascii c in
  if Nat.eqb n 34 then "\" +:+ double_quote
  else if Nat.eqb n 92 then "\\"
  else if Nat.eqb n 7 then "\a"
  else if Nat.eqb n 8 then "\b"
  else if Nat.eqb n 12 then "\f"
  else if Nat.eqb n 10 then "\n"
  else if Nat.eqb n 13 then "\r"
  else if Nat.eqb n 9 then "\t"
  else if Nat.eqb n 11 then "\v"
  else if (Nat.ltb n 32 || Nat.eqb n 127)%bool
  then "\x" +:+ String (hex_digit (n / 16)) (String (hex_digit (n mod 16)) EmptyString)
  else String c EmptyString.

Definition quote (s : string) : string :=
  double_quote +:+ fold_right (λ c acc, quote_char c +:+ acc) "" (str_chars s)
    +:+ double_quote.

(** A pattern occurs wherever it was concatenated. *)
Lemma has_prefix_app p s : has_prefix p (p +:+ s) = true.
Proof.
  unfold has_prefix. induction p as [|c p IH]; [by destruct s|].
  rewrite string_app_cons. cbn. destruct (Ascii.ascii_dec c c); [done|congruence].
Qed.

Lemma str_contains_prefix p s : has_prefix p s = true → str_contains p s = true.
Proof. intros H. destruct s; cbn [str_contains]; by rewrite H. Qed.

Lemma str_contains_app_l p s t : str_contains p t = true → str_contains p (s +:+ t) = true.
Proof.
  intros H. induction s as [|c s IH]; [done|]. rewrite string_app_cons. cbn [str_contains].
  by rewrite IH, orb_true_r.
Qed.

Lemma str_contains_mid p s t : str_contains p (s +:+ (p +:+ t)) = true.
Proof. apply str_contains_app_l, str_contains_prefix, has_prefix_app. Qed.

(** ** UTF-8 as Go decodes it *)

Definition byte_at (s : string) (i : nat) : nat :=
  match String.get i s with
  | Some c => Ascii.nat_of_ascii c
  | None => 0
  end.

Definition in_range (lo hi n : nat) : bool := (Nat.leb lo n && Nat.leb n hi)%bool.

(** The width of the first rune; [None] for an invalid byte, which decodes to
    U+FFFD with width one. *)
Definition rune_width (s : string) : option nat :=
  let b0 := byte_at s 0 in
  let cont i := in_range 128 191 (byte_at s i) in
  let b1 := byte_at s 1 in
  if Nat.ltb b0 128 then Some 1%nat
  else if in_range 194 223 b0 then if cont 1%nat then Some 2%nat else None
  else if in_range 224 239 b0 then
    let ok := if Nat.eqb b0 224 then in_range 160 191 b1
              else if Nat.eqb b0 237 then in_range 128 159 b1
              else in_range 128 191 b1 in
    if (ok && cont 2%nat)%bool then Some 3%nat else None
  else if in_range 240 244 b0 then
    let ok := if Nat.eqb b0 240 then in_range 144 191 b1
              else if Nat.eqb b0 244 then in_range 128 143 b1
              else in_range 128 191 b1 in
    if (ok && cont 2%nat && cont 3%nat)%bool then Some 4%nat else None
  else None.

(** The runes of a string with their encodings; the flag tells valid runes. *)
Fixpoint utf8_fuel (fuel : nat) (s : string) : list (string * bool) :=
  match fuel, s with
  | O, _ | _, EmptyString => []
  | S f, _ =>
      match rune_width s with
      | Some w => (str_take w s, true) :: utf8_fuel f (str_drop w s)
      | None => (str_take 1 s, false) :: utf8_fuel f (str_drop 1 s)
      end
  end.

Definition utf8_runes (s : string) : list (string * bool) := utf8_fuel (String.length s) s.

Example utf8_runes_ex :
  map snd (utf8_runes ("a—" +:+ bytes [255; 65]%nat)) = [true; true; false; true].
Proof. reflexivity. Qed.

Example quote_ex : quote ("a" +:+ newline) = double_quote +:+ "a\n" +:+ double_quote.
Proof. reflexivity. Qed.

Example trim_space_ex : trim_space "  a b " = "a b".
Proof. reflexivity. Qed.

Example replace_all_ex : replace_all "a_b_c" "_" " " = "a b c".
Proof. reflexivity. Qed.

Example fields_ex : fields "  a bc  d" = ["a"; "bc"; "d"].
Proof. reflexivity. Qed.

Example itoa_ex : itoa (-20) = "-20".
Proof. vm_compute. reflexivity. Qed.

(** ** Joining and cutting *)

Lemma str_join_nil_cons x xs : str_join "" (x :: xs) = x +:+ str_join "" xs.
Proof. destruct xs; cbn; [by rewrite string_app_nil_r|done]. Qed.

Lemma str_join_nil_app xs ys : str_join "" (xs ++ ys) = str_join "" xs +:+ str_join "" ys.
Proof.
  induction xs as [|x xs IH]; [done|].
  cbn [app]. by rewrite !str_join_nil_cons, IH, string_app_assoc.
Qed.

Lemma str_take_drop n s : str_take n s +:+ str_drop n s = s.
Proof.
  revert s. induction n as [|n IH]; intros [|c s]; try done.
  cbn [str_take str_drop]. by rewrite string_app_cons, IH.
Qed.

Lemma str_drop_length n s : String.length (str_drop n s) = (String.length s - n)%nat.
Proof. revert s. induction n as [|n IH]; intros [|c s]; cbn; auto. Qed.

Lemma str_take_length n s : String.length (str_take n s) = (n `min` String.length s)%nat.
Proof. revert s. induction n as [|n IH]; intros [|c s]; cbn; auto. Qed.

(** ** Lists and case analysis *)

(** Induction on lists two and four elements at a time. *)
Lemma list_ind2 {A} (P : list A → Prop) :
  P [] → (∀ x, P [x]) → (∀ x y l, P l → P (x :: y :: l)) → ∀ l, P l.
Proof.
  intros H0 H1 H2 l.
  assert (P l ∧ ∀ x, P (x :: l)) as [? _]; [|done].
  induction l as [|y l [IH IH']]; [eauto|]. split; [apply IH'|intros x; by apply H2].
Qed.

Lemma list_ind4 {A} (P : list A → Prop) :
  (∀ l, (length l < 4)%nat → P l) →
  (∀ a b c d l, P l → P (a :: b :: c :: d :: l)) → ∀ l, P l.
Proof.
  intros Hs Hstep l. remember (length l) as n eqn:E. revert l E.
  induction n as [n IH] using lt_wf_ind; intros l ->.
  destruct l as [|a [|b [|c [|d l]]]]; try (apply Hs; cbn; lia).
  apply Hstep. eapply IH; [|reflexivity]. cbn; lia.
Qed.

(** Opens conjunctions and existentials of the context. *)
Ltac destruct_all :=
  repeat match goal with
  | H : ∃ _, _ |- _ => destruct H
  | H : _ ∧ _ |- _ => destruct H
  end.
