(* ===== verification/Core.v ===== *)
(** * Core data: package [core] and the packages under [events/]

    The conversation data of [core/llm.go], the media chunks of
    [core/media.go], the events every handler exchanges ([core/base_events.go]
    and [events/]) as one inductive type, and the packets of
    [core/event_packet.go].  A packet's [Uid] comes from a third-party package
    and is never read, so it is left out. *)

From Stdlib Require Import Strings.Byte QArith.QArith_base.
From S2P Require Import Prelude.

Local Open Scope string_scope.
Local Open Scope list_scope.
Local Open Scope Z_scope.

(** ** [core/llm.go] *)

Definition LLMMessageRoleUser : string := "user".
Definition LLMMessageRoleAssistant : string := "assistant".
Definition LLMMessageRoleSystem : string := "system".
Definition LLMMessageRoleTool : string := "tool".

Record LLMMedia := mkLLMMedia { m_Data : list Byte.byte; m_MediaType : string }.

Record LLMMessage := mkLLMMessage {
  Role : string;
  Message : string;
  Media : option (list LLMMedia)
}.

Inductive LLMParamterType : Type :=
| LLMParameterTypeString
| LLMParameterTypeInteger
| LLMParameterTypeBoolean
| LLMParameterTypeObject.

Record Parameter_ := mkParameter {
  p_Name : string;
  p_Description : string;
  p_Required : bool;
  p_Example : string;
  p_Type : LLMParamterType
}.

Record LLMTool := mkLLMTool {
  tl_Name : string;
  ToolId : string;
  tl_Description : string;
  tl_Parameters : list Parameter_;
  ServerURL : string
}.

Record LLMContext := mkLLMContext {
  Messages : list LLMMessage;
  Tools : list LLMTool
}.

(** A message without media, the only form the handlers build. *)
Definition text_message (role text : string) : LLMMessage :=
  mkLLMMessage role text None.

(** [context.Messages = append(context.Messages, msg)]. *)
Definition append_message (c : LLMContext) (m : LLMMessage) : LLMContext :=
  mkLLMContext (Messages c ++ [m]) (Tools c).

Definition with_tools (c : LLMContext) (ts : list LLMTool) : LLMContext :=
  mkLLMContext (Messages c) ts.

Definition with_messages (c : LLMContext) (ms : list LLMMessage) : LLMContext :=
  mkLLMContext ms (Tools c).

Definition AddUserMessage (c : LLMContext) (text : string) : LLMContext :=
  append_message c (text_message "user" text).

Definition AddAssistantMessage (c : LLMContext) (text : string) : LLMContext :=
  append_message c (text_message "assistant" text).

(** These have no body in the source. *)
Definition AddAssistantMessageChunk (c : LLMContext) (chunk : string) : LLMContext := c.
Definition SetAssistantMessage (c : LLMContext) (text : string) : LLMContext := c.
Definition GetLastAssistantMessage (c : LLMContext) : string := "".

(** Go's [any] as JSON decoding produces it.  A float64 is kept as the text
    the [%v] verb prints for it; a map lists its entries in key order. *)
Inductive any : Type :=
| AnyNil
| AnyString (s : string)
| AnyBool (b : bool)
| AnyNumber (text : string)
| AnyList (l : list any)
| AnyMap (l : list (string * any)).

(** [fmt.Sprintf("%v", v)]. *)
Fixpoint format_v (v : any) : string :=
  match v with
  | AnyNil => "<nil>"
  | AnyString s => s
  | AnyBool b => if b then "true" else "false"
  | AnyNumber t => t
  | AnyList l => "[" +:+ str_join " " (map format_v l) +:+ "]"
  | AnyMap l =>
      "map[" +:+ str_join " " (map (λ kv, fst kv +:+ ":" +:+ format_v (snd kv)) l)
        +:+ "]"
  end.

(** [LLMToolCall]; [Parameters] is a pointer to a map, nil when absent. *)
Record LLMToolCall := mkLLMToolCall {
  tc_ToolId : string;
  tc_Parameters : option (gmap string any)
}.

(** ** [core/media.go] *)

Inductive AudioEncodingFormat : Type := PCM | ULAW | ALAW | OPUS.

Record AudioChunk := mkAudioChunk {
  Data : option (list Byte.byte);
  SampleRate : Z;
  Channels : Z;
  Format : AudioEncodingFormat;
  Timestamp : Z
}.

#[export] Instance AudioEncodingFormat_eq_dec : EqDecision AudioEncodingFormat.
Proof. solve_decision. Defined.

#[export] Instance AudioChunk_eq_dec : EqDecision AudioChunk.
Proof.
  intros x y. assert (EqDecision Byte.byte) by (intros a b; apply Byte.byte_eq_dec).
  solve_decision.
Defined.

(** The bytes behind [Data]; a nil pointer is dereferenced by the callers
    only after a check, and counts as empty here. *)
Definition chunk_bytes (ac : AudioChunk) : list Byte.byte := default [] (Data ac).

(** [GetDurationInSeconds] as the exact fraction (samples, samples per
    second) the code divides in floating point; integer division truncates
    toward zero. *)
Definition GetDurationInSeconds (ac : AudioChunk) : Z * Z :=
  if ((SampleRate ac =? 0) || (Channels ac =? 0))%bool then (0, 1)
  else (Z.quot (Z.of_nat (length (chunk_bytes ac))) (2 * Channels ac), SampleRate ac).

Record VideoChunk := mkVideoChunk {
  v_Data : option (list Byte.byte);
  FrameRate : Z;
  Resolution : string;
  v_Format : string;
  v_Timestamp : Z
}.

Record TextChunk := mkTextChunk { Text : string }.

Record MediaChunk := mkMediaChunk {
  Audio : AudioChunk;
  Video : VideoChunk;
  mc_Text : TextChunk
}.

(** A float32 confidence is kept as the rational it denotes. *)
Record VADResult := mkVADResult { Confidence : Q; Ready : bool }.

(** ** Events *)

Inductive IEvent : Type :=
(* core/base_events.go *)
| CriticalErrorEvent (Error : string)
| WarningEvent (Error : string)
| EndCallEvent (Reason : string)
(* events/llm *)
| LLMGenerateResponseEvent (Context : LLMContext)
| LLMResponseStartedEvent
| LLMResponseChunkEvent (Chunk : string) (ConsumeImmediately : bool)
| LLMResponseCompletedEvent (FullText : string)
| LLMToolInvocationRequestedEvent (ToolId : string) (Params : option (gmap string any))
| LLMToolInvocationResultEvent (ToolId : string) (Result : string)
| LLMPrepareInterimFillerEvent (PartialTranscript : string) (Context : option LLMContext)
| LLMVariableConfirmRequestEvent (ConfirmText : string)
(* events/stt *)
| STTInterimOutputEvent (Text : string)
| STTFinalOutputEvent (Text : string)
(* events/task *)
| TaskVariablesEvent (Namespace TaskID : string) (IsFinal : bool)
    (Variables : gmap string string)
(* events/transport *)
| TransportAudioInputEvent (Chunk : AudioChunk)
| TransportVideoInputEvent (Chunk : VideoChunk)
| TransportTextInputEvent (Text : string)
(* events/tts *)
| TTSOutputEvent (Chunk : AudioChunk)
| TTSSpokenTextChunkEvent (Text : string)
| TTSSpeakingStartedEvent
| TTSSpeakingEndedEvent
| TTSSpeakEvent (Text : string)
(* events/vad *)
| VADUserSpeakingEvent
| VADSilenceEvent
| VadInterruptionDetectedEvent
| VadInterruptionSuspectedEvent
| VadInterruptionConfirmedEvent
| VadUserSpeechEndedEvent
| VadUserSpeechStartedEvent
(* events/vectordb, events/video *)
| VectorDBQueryEvent (Query : string)
| VectorDBQueryResultEvent (Results : list string)
| VideoOutputEvent (Chunk : VideoChunk).

(** [GetId] of every event type. *)
Definition GetId (e : IEvent) : string :=
  match e with
  | CriticalErrorEvent _ => "shared.critical_error"
  | WarningEvent _ => "shared.warning"
  | EndCallEvent _ => "shared.end_call"
  | LLMGenerateResponseEvent _ => "llm.generate_response"
  | LLMResponseStartedEvent => "llm.response_started"
  | LLMResponseChunkEvent _ _ => "llm.response_chunk"
  | LLMResponseCompletedEvent _ => "llm.response_completed"
  | LLMToolInvocationRequestedEvent _ _ => "llm.tool_invocation_requested"
  | LLMToolInvocationResultEvent _ _ => "llm.tool_invocation_result"
  | LLMPrepareInterimFillerEvent _ _ => "llm.prepare_interim_filler"
  | LLMVariableConfirmRequestEvent _ => "llm.variable_confirm_request"
  | STTInterimOutputEvent _ => "stt.interim_output"
  | STTFinalOutputEvent _ => "stt.final_output"
  | TaskVariablesEvent _ _ _ _ => "task.variables_collected"
  | TransportAudioInputEvent _ => "serializer.audio_input"
  | TransportVideoInputEvent _ => "serializer.video_input"
  | TransportTextInputEvent _ => "serializer.text_input"
  | TTSOutputEvent _ => "tts.output"
  | TTSSpokenTextChunkEvent _ => "tts.spoken_text_chunk"
  | TTSSpeakingStartedEvent => "tts.speaking_started"
  | TTSSpeakingEndedEvent => "tts.speaking_ended"
  | TTSSpeakEvent _ => "tts.speak"
  | VADUserSpeakingEvent => "vad.user_speaking"
  | VADSilenceEvent => "vad.silence"
  | VadInterruptionDetectedEvent => "vad.interruption.detected"
  | VadInterruptionSuspectedEvent => "vad.interruption.suspected"
  | VadInterruptionConfirmedEvent => "vad.interruption.confirmed"
  | VadUserSpeechEndedEvent => "vad.user_speech.ended"
  | VadUserSpeechStartedEvent => "vad.user_speech.started"
  | VectorDBQueryEvent _ => "vectordb.query"
  | VectorDBQueryResultEvent _ => "vectordb.query_result"
  | VideoOutputEvent _ => "video.output"
  end.

(** ** [core/event_packet.go] *)

Inductive EventRelayDestination : Type :=
| EventRelayDestinationNextService
| EventRelayDestinationTopService.

#[export] Instance EventRelayDestination_eq_dec : EqDecision EventRelayDestination.
Proof. solve_decision. Defined.

Record EventPacket := mkEventPacket {
  Event : IEvent;
  Destination : EventRelayDestination;
  Relayer : string
}.

Definition NewEventPacket (event : IEvent) (destination : EventRelayDestination)
    (relayer : string) : EventPacket :=
  mkEventPacket event destination relayer.

(** A packet to the next service and one to the top of the pipeline. *)
Definition next_packet (e : IEvent) (relayer : string) : EventPacket :=
  NewEventPacket e EventRelayDestinationNextService relayer.

Definition top_packet (e : IEvent) (relayer : string) : EventPacket :=
  NewEventPacket e EventRelayDestinationTopService relayer.

(** The events of the packets sent to one destination, in order. *)
Definition events_to (d : EventRelayDestination) (ps : list EventPacket) : list IEvent :=
  Event <$> filter (λ p, Destination p = d) ps.

Lemma events_to_app d ps qs : events_to d (ps ++ qs) = (events_to d ps ++ events_to d qs)%list.
Proof. unfold events_to. by rewrite filter_app, fmap_app. Qed.

Lemma append_message_messages c m : Messages (append_message c m) = (Messages c ++ [m])%list.
Proof. reflexivity. Qed.

Lemma append_message_tools c m : Tools (append_message c m) = Tools c.
Proof. reflexivity. Qed.

Create Rewrite HintDb core_db.
#[export] Hint Rewrite append_message_messages append_message_tools
  events_to_app : core_db.
