(* ===== verification/TaskGroup.v ===== *)
(** * Task group descriptors: [handlers/context/task_group.go]

    The configuration data of a task group and the validation of a captured
    value.  Go's regular expression engine is reached through the class
    [Regexp]: [regexpCompile] is [regexp.Compile] followed by [MatchString],
    [None] for a pattern that does not compile. *)

From S2P Require Import Prelude.

Local Open Scope string_scope.
Local Open Scope list_scope.
Local Open Scope Z_scope.

Class Regexp := { regexpCompile : string → option (string → bool) }.

Record TaskVariable := mkTaskVariable {
  tv_Name : string;
  tv_Description : string;
  Regex : string;
  Enum : list string;
  Example_ : string;
  AutoConfirm : bool;
  ConfirmPhrases : list string
}.

Record TaskDef := mkTaskDef {
  ID : string;
  td_Name : string;
  Instructions : string;
  Variables : list TaskVariable;
  DisappearAfterTaskID : string;
  VisibleToolIDs : list string;
  VisibleAfterTaskID : string
}.

Record TaskGroupConfig := mkTaskGroupConfig {
  Namespace : string;
  BaseInstructions : string;
  InitialTaskID : string;
  GlobalTools : list string;
  Tasks : list TaskDef
}.

Section validation.
Context `{Regexp}.

(** [TaskVariable.Validate]. *)
Definition Validate (v : TaskVariable) (value : string) : bool :=
  match Enum v with
  | _ :: _ => existsb (λ allowed, String.eqb allowed value) (Enum v)
  | [] =>
      if negb (String.eqb (Regex v) "") then
        match regexpCompile (Regex v) with
        | None => true
        | Some match_string => match_string value
        end
      else negb (String.eqb value "")
  end.

Lemma Validate_enum v value :
  Enum v ≠ [] → Validate v value = true ↔ value ∈ Enum v.
Proof.
  unfold Validate. destruct (Enum v) as [|e es] eqn:E; [done|]. intros _.
  rewrite existsb_exists. setoid_rewrite String.eqb_eq.
  setoid_rewrite <- list_elem_of_In. naive_solver.
Qed.
End validation.
