(* ===== verification/ContextManager.v ===== *)
(** * The conversation context manager: [LLMContextManager]

    State and operations of [LLMContextManager] in
    [handlers/context/context_handler.go].  A tool handler is a Go closure
    stored in a map; the two shapes the program registers are the constructors
    of [ToolHandlerFunc]: a function of the call alone, and the closure
    [registerVariableHandlersLocked] makes for a variable, which runs
    [handleSetVariable] of the dynamic manager.  Nil maps are made on first
    registration by the code, so a map here is simply empty at first. *)

From S2P Require Import Prelude Core Phrases TaskGroup.

Local Open Scope string_scope.
Local Open Scope list_scope.
Local Open Scope Z_scope.

Inductive ToolHandlerFunc : Type :=
| PureHandler (f : LLMToolCall → string)
| SetVariableHandler (captured : string).

Inductive EventToolHandlerFunc : Type :=
| EventHandler (f : LLMToolCall → string * option IEvent).

Record VariableToolInfo := mkVariableToolInfo {
  vi_Description : string;
  vi_AutoConfirm : bool;
  vi_ConfirmPhrases : list string
}.

Record LLMContextManagerConfig := mkLLMContextManagerConfig {
  AllowContinueListening : bool;
  HumanLikeSpeech : bool
}.

Definition DefaultLLMContextManagerConfig : LLMContextManagerConfig :=
  mkLLMContextManagerConfig true true.

Record LLMContextManager := mkLLMContextManager {
  context : option LLMContext;
  toolHandlers : gmap string ToolHandlerFunc;
  eventToolHandlers : gmap string EventToolHandlerFunc;
  variableTools : gmap string VariableToolInfo;
  allowContinueListening : bool;
  humanLikeSpeech : bool;
  cleanupHook : list string;       (* names of the chained hooks, in call order *)
  eventEmitter : bool              (* whether the emitter is set *)
}.

Definition set_context (m : LLMContextManager) (c : option LLMContext) : LLMContextManager :=
  mkLLMContextManager c (toolHandlers m) (eventToolHandlers m) (variableTools m)
    (allowContinueListening m) (humanLikeSpeech m) (cleanupHook m) (eventEmitter m).

(** ** Built-in tools *)

Definition ContinueListeningToolId : string := "continue_listening".

Definition ContinueListeningTool : LLMTool :=
  mkLLMTool "" ContinueListeningToolId
    "Trigger ONLY when the user's message is clearly incomplete, cut-off mid-sentence, or trailing (e.g., ends with an ellipsis, a partial word, or an unfinished clause). Do NOT trigger for short but complete messages like one-word answers ('Yes', 'No', 'Thanks') or typical conversational fragments that are semantically self-contained. If unsure, default to false."
    [mkParameter "allow_listen"
       "Set to true to continue listening for more user input when the message appears incomplete."
       true "" LLMParameterTypeBoolean] "".

Definition EndCallToolId : string := "end_call".

Definition EndCallTool : LLMTool :=
  mkLLMTool EndCallToolId EndCallToolId
    "End the call after you have finished your closing words. Call this only when the conversation is fully complete and the caller has been properly served or transferred."
    [mkParameter "reason"
       "Brief reason the call is ending (e.g. 'estimate scheduled', 'transferred to staff', 'caller hung up')."
       false "" LLMParameterTypeString] "".

(** ** Operations *)

Definition RegisterToolHandler (m : LLMContextManager) (toolName : string)
    (handler : ToolHandlerFunc) : LLMContextManager :=
  mkLLMContextManager (context m) (<[toolName := handler]> (toolHandlers m))
    (eventToolHandlers m) (variableTools m) (allowContinueListening m)
    (humanLikeSpeech m) (cleanupHook m) (eventEmitter m).

Definition RegisterEventToolHandler (m : LLMContextManager) (toolName : string)
    (handler : EventToolHandlerFunc) : LLMContextManager :=
  mkLLMContextManager (context m) (toolHandlers m)
    (<[toolName := handler]> (eventToolHandlers m)) (variableTools m)
    (allowContinueListening m) (humanLikeSpeech m) (cleanupHook m) (eventEmitter m).

Definition registerVariableTool (m : LLMContextManager) (toolID : string)
    (info : VariableToolInfo) : LLMContextManager :=
  mkLLMContextManager (context m) (toolHandlers m) (eventToolHandlers m)
    (<[toolID := info]> (variableTools m)) (allowContinueListening m)
    (humanLikeSpeech m) (cleanupHook m) (eventEmitter m).

Definition SetCleanupHook (m : LLMContextManager) (fn : string) : LLMContextManager :=
  mkLLMContextManager (context m) (toolHandlers m) (eventToolHandlers m)
    (variableTools m) (allowContinueListening m) (humanLikeSpeech m)
    (cleanupHook m ++ [fn]) (eventEmitter m).

(** Whether a tool list names a tool id (the loops of [SetContext]). *)
Definition has_tool (id : string) (ts : list LLMTool) : bool :=
  existsb (λ t, String.eqb (ToolId t) id) ts.

Definition findToolByID (m : LLMContextManager) (toolID : string) : option LLMTool :=
  match context m with
  | None => None
  | Some c => find (λ t, String.eqb (ToolId t) toolID) (Tools c)
  end.

(** The human-like prompt appended to every system message. *)
Definition humanize (msg : LLMMessage) : LLMMessage :=
  if String.eqb (Role msg) "system"
  then mkLLMMessage (Role msg)
         (Message msg +:+ newline +:+ newline +:+ HUMAN_LIKE_RESPONSE_PROMPT) (Media msg)
  else msg.

Definition inject_tool (t : LLMTool) (ts : list LLMTool) : list LLMTool :=
  if has_tool (ToolId t) ts then ts else ts ++ [t].

Definition prepare_context (m : LLMContextManager) (ctx : LLMContext) : LLMContext :=
  let tools1 := if allowContinueListening m
                then inject_tool ContinueListeningTool (Tools ctx) else Tools ctx in
  let tools2 := inject_tool EndCallTool tools1 in
  let msgs := if humanLikeSpeech m then map humanize (Messages ctx) else Messages ctx in
  mkLLMContext msgs tools2.

Definition SetContext (m : LLMContextManager) (ctx : LLMContext) : LLMContextManager :=
  set_context m (Some (prepare_context m ctx)).

(** [decoded] is what the JSON decoder makes of the document. *)
Definition LoadContextJson (m : LLMContextManager) (decoded : result LLMContext) : LLMContextManager * result unit :=
  match decoded with
  | Err e => (m, Err e)
  | Ok ctx => (SetContext m ctx, Ok tt)
  end.

Definition GetContext (m : LLMContextManager) : option LLMContext := context m.

(** [AddToolDefinitions] dereferences the context: [None] is its panic. *)
Definition AddToolDefinitions (m : LLMContextManager) (tools : list LLMTool)
    : option LLMContextManager :=
  match context m with
  | None => None
  | Some c => Some (set_context m (Some (with_tools c (Tools c ++ tools))))
  end.

(** The handler [NewLLMContextManager] installs for [end_call]. *)
Definition run_end_call (toolInput : LLMToolCall) : string * option IEvent :=
  let reason :=
    match tc_Parameters toolInput with
    | None => "not specified"
    | Some ps =>
        match ps !! "reason" with
        | None => "not specified"
        | Some v => trim_space (replace_all (format_v v) newline " ")
        end
    end in
  ("Call ended: " +:+ reason, Some (EndCallEvent reason)).

Definition end_call_handler : EventToolHandlerFunc := EventHandler run_end_call.

Definition continue_listening_handler : ToolHandlerFunc :=
  PureHandler (λ _, "Continue listening signal sent.").

Definition NewLLMContextManager (config : LLMContextManagerConfig) : LLMContextManager :=
  mkLLMContextManager (Some (mkLLMContext [] []))
    (if AllowContinueListening config
     then {[ContinueListeningToolId := continue_listening_handler]} else ∅)
    {[EndCallToolId := end_call_handler]} ∅
    (AllowContinueListening config) (HumanLikeSpeech config) [] false.

(** [m.context.Messages = append(m.context.Messages, msg)] under the nil test
    the callers write. *)
Definition add_message (m : LLMContextManager) (msg : LLMMessage) : LLMContextManager :=
  match context m with
  | None => m
  | Some c => set_context m (Some (append_message c msg))
  end.

(** ** Lemmas *)

Lemma has_tool_app id ts us : has_tool id (ts ++ us) = has_tool id ts || has_tool id us.
Proof. apply existsb_app. Qed.

Lemma has_tool_spec id ts : has_tool id ts = true ↔ ∃ t, t ∈ ts ∧ ToolId t = id.
Proof.
  unfold has_tool. rewrite existsb_exists. setoid_rewrite String.eqb_eq.
  by setoid_rewrite <- list_elem_of_In.
Qed.

Lemma inject_tool_has t ts : has_tool (ToolId t) (inject_tool t ts) = true.
Proof.
  unfold inject_tool. destruct (has_tool (ToolId t) ts) eqn:E; [done|].
  rewrite has_tool_app. cbn. by rewrite String.eqb_refl, orb_true_r.
Qed.

Lemma inject_tool_keeps id t ts :
  has_tool id ts = true → has_tool id (inject_tool t ts) = true.
Proof.
  intros Hid. unfold inject_tool. destruct (has_tool (ToolId t) ts); [done|].
  by rewrite has_tool_app, Hid.
Qed.

Lemma inject_tool_id t ts : has_tool (ToolId t) ts = true → inject_tool t ts = ts.
Proof. unfold inject_tool. by intros ->. Qed.

Lemma inject_tool_prefix t ts : ∃ us, inject_tool t ts = ts ++ us.
Proof.
  unfold inject_tool. destruct (has_tool _ _); [exists [] | exists [t]; done].
  by rewrite app_nil_r.
Qed.

(** Ids stay distinct when a tool is injected. *)
Lemma inject_tool_NoDup t ts :
  NoDup (ToolId <$> ts) → NoDup (ToolId <$> inject_tool t ts).
Proof.
  intros Hnd. unfold inject_tool. destruct (has_tool (ToolId t) ts) eqn:E; [done|].
  rewrite fmap_app. apply NoDup_app. split_and!; [done| |apply NoDup_singleton].
  intros x (u & -> & Hu)%list_elem_of_fmap Hx.
  apply list_elem_of_singleton in Hx.
  assert (has_tool (ToolId t) ts = true) as Hc by (apply has_tool_spec; eauto).
  congruence.
Qed.

Lemma prepare_context_tools_stable m ctx :
  Tools (prepare_context m (prepare_context m ctx)) = Tools (prepare_context m ctx).
Proof.
  unfold prepare_context. cbn [Tools]. destruct (allowContinueListening m).
  - rewrite (inject_tool_id ContinueListeningTool (inject_tool EndCallTool _)).
    + apply inject_tool_id, inject_tool_has.
    + apply inject_tool_keeps, inject_tool_has.
  - apply inject_tool_id, inject_tool_has.
Qed.

Lemma add_message_tools m msg c :
  context m = Some c → context (add_message m msg) = Some (append_message c msg).
Proof. unfold add_message. by intros ->. Qed.

#[export] Hint Resolve inject_tool_has inject_tool_keeps inject_tool_NoDup : core.
