(* ===== verification/DynamicContext.v ===== *)
(** * The task-group manager: [handlers/context/dynamic_context_manager.go]

    [DynamicContextManager] layers a task group over the context manager: it
    decides which task instructions and tools the model sees, validates and
    stores the values the model reports through [set_<name>] calls, and
    completes tasks.  Every operation runs under one mutex, so an operation is
    one atomic step on the state.  [emitted] lists the events handed to the
    emitter, in the order the goroutines are spawned. *)

From S2P Require Import Prelude Core Phrases TaskGroup ContextManager.

Local Open Scope string_scope.
Local Open Scope list_scope.
Local Open Scope Z_scope.

Record DynamicContextManager := mkDynamicContextManager {
  base : LLMContextManager;
  config : option TaskGroupConfig;
  permanentTools : list LLMTool;
  toolRegistry : gmap string LLMTool;
  completedTasks : gset string;                      (* the keys mapped to true *)
  collectedVars : gmap string (gmap string string);  (* task id -> name -> value *)
  taskInstrIndex : nat;
  emitted : list IEvent
}.

Definition set_base (d : DynamicContextManager) (b : LLMContextManager) :=
  mkDynamicContextManager b (config d) (permanentTools d) (toolRegistry d)
    (completedTasks d) (collectedVars d) (taskInstrIndex d) (emitted d).
Definition set_completed (d : DynamicContextManager) (c : gset string) :=
  mkDynamicContextManager (base d) (config d) (permanentTools d) (toolRegistry d)
    c (collectedVars d) (taskInstrIndex d) (emitted d).
Definition set_collected (d : DynamicContextManager) (c : gmap string (gmap string string)) :=
  mkDynamicContextManager (base d) (config d) (permanentTools d) (toolRegistry d)
    (completedTasks d) c (taskInstrIndex d) (emitted d).
Definition set_emitted (d : DynamicContextManager) (e : list IEvent) :=
  mkDynamicContextManager (base d) (config d) (permanentTools d) (toolRegistry d)
    (completedTasks d) (collectedVars d) (taskInstrIndex d) e.

Definition NewDynamicContextManager (b : LLMContextManager) : DynamicContextManager :=
  mkDynamicContextManager b None [] ∅ ∅ ∅ 0 [].

Definition RegisterTool (d : DynamicContextManager) (tool : LLMTool)
    (handler : ToolHandlerFunc) : DynamicContextManager :=
  mkDynamicContextManager (RegisterToolHandler (base d) (ToolId tool) handler)
    (config d) (permanentTools d) (<[ToolId tool := tool]> (toolRegistry d))
    (completedTasks d) (collectedVars d) (taskInstrIndex d) (emitted d).

(** ** Which tasks are in scope *)

Definition isVisibleLocked (completed : gset string) (task : TaskDef) : bool :=
  (String.eqb (VisibleAfterTaskID task) "" ||
   bool_decide (VisibleAfterTaskID task ∈ completed))%bool.

Definition isDisappearedLocked (completed : gset string) (task : TaskDef) : bool :=
  (negb (String.eqb (DisappearAfterTaskID task) "") &&
   bool_decide (DisappearAfterTaskID task ∈ completed))%bool.

Definition in_scope (completed : gset string) (task : TaskDef) : bool :=
  (negb (bool_decide (ID task ∈ completed)) &&
   isVisibleLocked completed task && negb (isDisappearedLocked completed task))%bool.

Definition visibleTasksLocked (cfg : TaskGroupConfig) (completed : gset string)
    : list TaskDef :=
  List.filter (in_scope completed) (Tasks cfg).

Definition visible (d : DynamicContextManager) (cfg : TaskGroupConfig) : list TaskDef :=
  visibleTasksLocked cfg (completedTasks d).

(** The values collected for a task; a missing inner map reads as empty. *)
Definition collected_of (d : DynamicContextManager) (taskID : string) : gmap string string :=
  default ∅ (collectedVars d !! taskID).

Definition allVarsCollectedLocked (collected : gmap string string) (task : TaskDef) : bool :=
  forallb (λ v, bool_decide (is_Some (collected !! tv_Name v))) (Variables task).

Definition findTaskLocked (cfg : TaskGroupConfig) (id : string) : option TaskDef :=
  find (λ t, String.eqb (ID t) id) (Tasks cfg).

(** ** Instruction text *)

Definition human_enum (v : TaskVariable) : string :=
  str_join ", " (map (λ e, replace_all e "_" " ") (Enum v)).

Definition var_constraint (v : TaskVariable) : string :=
  match Enum v with
  | _ :: _ =>
      newline +:+ "For " +:+ tv_Description v +:+ ", the value must be one of: "
        +:+ human_enum v +:+ "."
  | [] =>
      if negb (String.eqb (Example_ v) "")
      then newline +:+ "For " +:+ tv_Description v +:+ ", a typical value looks like: "
             +:+ Example_ v +:+ "."
      else ""
  end.

Definition buildVarConstraintsLocked (task : TaskDef) : string :=
  match Variables task with
  | [] => newline +:+ "Complete this part of the conversation before moving on to anything else."
  | vs =>
      newline +:+ str_join "" (map var_constraint vs) +:+ newline +:+
      "Record the information using the tools available as soon as you have it. Do not ask about other topics or move the conversation forward until everything needed here is captured."
  end.

Definition wrap_up_text : string :=
  "You have everything you need. Wrap up the conversation warmly and naturally.".

Definition task_entry (i : nat) (task : TaskDef) : string :=
  itoa (Z.of_nat (S i)) +:+ ". " +:+ td_Name task +:+ newline +:+
  Instructions task +:+ buildVarConstraintsLocked task.

Definition buildTaskInstructionsLocked (tasks : list TaskDef) : string :=
  match tasks with
  | [] => wrap_up_text
  | [t] =>
      "Focus on the following right now:" +:+ newline +:+ newline +:+
      Instructions t +:+ buildVarConstraintsLocked t
  | _ =>
      "You are working through the following topics simultaneously. Collect the required information for each as the conversation progresses — complete each topic fully before moving on."
      +:+ newline +:+ newline +:+
      str_join (newline +:+ newline) (imap task_entry tasks)
  end.

(** ** Tools *)

Definition set_tool_id (name : string) : string := "set_" +:+ name.

Definition makeSetTool (v : TaskVariable) : LLMTool :=
  let paramDesc :=
    match Enum v with
    | _ :: _ => tv_Description v +:+ " (one of: " +:+ human_enum v +:+ ")"
    | [] =>
        if negb (String.eqb (Example_ v) "")
        then tv_Description v +:+ " (e.g. " +:+ Example_ v +:+ ")"
        else tv_Description v
    end in
  mkLLMTool (set_tool_id (tv_Name v)) (set_tool_id (tv_Name v)) (tv_Description v)
    [mkParameter "value" paramDesc true (Example_ v) LLMParameterTypeString] "".

(** The accumulator of the rebuild loop: tools so far and the [seen] set. *)
Definition tool_acc : Type := list LLMTool * gset string.

Definition add_registered (registry : gmap string LLMTool) (acc : tool_acc) (id : string)
    : tool_acc :=
  if bool_decide (id ∈ acc.2) then acc else
  match registry !! id with
  | Some t => (acc.1 ++ [t], {[id]} ∪ acc.2)
  | None => acc
  end.

Definition add_set_tool (collected : gmap string string) (acc : tool_acc) (v : TaskVariable)
    : tool_acc :=
  match collected !! tv_Name v with
  | Some _ => acc
  | None =>
      if bool_decide (set_tool_id (tv_Name v) ∈ acc.2) then acc
      else (acc.1 ++ [makeSetTool v], {[set_tool_id (tv_Name v)]} ∪ acc.2)
  end.

Definition add_task_tools (registry : gmap string LLMTool)
    (collected : string → gmap string string) (acc : tool_acc) (task : TaskDef) : tool_acc :=
  let acc1 := fold_left (add_registered registry) (VisibleToolIDs task) acc in
  fold_left (add_set_tool (collected (ID task))) (Variables task) acc1.

Definition global_tools (registry : gmap string LLMTool) (cfg : TaskGroupConfig) : list LLMTool :=
  omap (λ id, registry !! id) (GlobalTools cfg).

Definition task_tools (d : DynamicContextManager) (tasks : list TaskDef) : list LLMTool :=
  (fold_left (add_task_tools (toolRegistry d) (collected_of d)) tasks ([], ∅)).1.

Definition rebuilt_tools (d : DynamicContextManager) (cfg : TaskGroupConfig)
    (tasks : list TaskDef) : list LLMTool :=
  permanentTools d ++ global_tools (toolRegistry d) cfg ++ task_tools d tasks.

Definition map_context (f : LLMContext → LLMContext) (d : DynamicContextManager)
    : DynamicContextManager :=
  match context (base d) with
  | None => d
  | Some c => set_base d (set_context (base d) (Some (f c)))
  end.

Definition rebuildToolsLocked (d : DynamicContextManager) (cfg : TaskGroupConfig)
    (tasks : list TaskDef) : DynamicContextManager :=
  map_context (λ c, with_tools c (rebuilt_tools d cfg tasks)) d.

Definition clearDynamicToolsLocked (d : DynamicContextManager) : DynamicContextManager :=
  map_context (λ c, with_tools c (permanentTools d)) d.

(** Writes the text in place; nothing happens past the end of the messages. *)
Definition set_message_text (text : string) (m : LLMMessage) : LLMMessage :=
  mkLLMMessage (Role m) text (Media m).

Definition updateTaskInstructionLocked (d : DynamicContextManager) (text : string)
    : DynamicContextManager :=
  map_context (λ c, with_messages c
    (alter (set_message_text text) (taskInstrIndex d) (Messages c))) d.

(** ** Events and results *)

(** All values flattened into one map.  Go visits the tasks in an unspecified
    order; the order matters only when two tasks collected the same name. *)
Definition flatten_vars (m : gmap string (gmap string string)) : gmap string string :=
  map_fold (λ _ vars acc, vars ∪ acc) ∅ m.

Definition emitTaskEventLocked (d : DynamicContextManager) (cfg : TaskGroupConfig)
    (taskID : string) (isFinal : bool) : DynamicContextManager :=
  if eventEmitter (base d)
  then set_emitted d (emitted d ++
         [TaskVariablesEvent (Namespace cfg) taskID isFinal (flatten_vars (collectedVars d))])
  else d.

Definition onTaskCompleteLocked (d : DynamicContextManager) (taskID : string)
    : DynamicContextManager :=
  match config d with
  | None => d
  | Some cfg =>
      let d1 := set_completed d ({[taskID]} ∪ completedTasks d) in
      let d2 := emitTaskEventLocked d1 cfg taskID false in
      let nextVisible := visible d2 cfg in
      match nextVisible with
      | [] =>
          let d3 := updateTaskInstructionLocked d2 wrap_up_text in
          let d4 := clearDynamicToolsLocked d3 in
          emitTaskEventLocked d4 cfg taskID true
      | _ =>
          let d3 := updateTaskInstructionLocked d2 (buildTaskInstructionsLocked nextVisible) in
          rebuildToolsLocked d3 cfg nextVisible
      end
  end.

Definition validationMsgLocked (varName : string) (v : TaskVariable) (value : string) : string :=
  match Enum v with
  | _ :: _ =>
      "Invalid value " +:+ quote value +:+ " for " +:+ varName +:+
      ". Please choose one of: " +:+ str_join ", " (Enum v) +:+ "."
  | [] =>
      if negb (String.eqb (Regex v) "")
      then "Invalid value " +:+ quote value +:+ " for " +:+ varName +:+
           ". It must match the pattern: " +:+ Regex v +:+ "."
      else "Invalid value " +:+ quote value +:+ " for " +:+ varName +:+
           ". Please provide a non-empty value."
  end.

Definition extractParam (call : LLMToolCall) (key : string) : string :=
  match tc_Parameters call with
  | None => ""
  | Some ps => match ps !! key with None => "" | Some v => format_v v end
  end.

(** The first task of the list that owns the variable, with its definition. *)
Fixpoint find_owner (tasks : list TaskDef) (varName : string)
    : option (TaskDef * TaskVariable) :=
  match tasks with
  | [] => None
  | t :: ts =>
      match find (λ v, String.eqb (tv_Name v) varName) (Variables t) with
      | Some v => Some (t, v)
      | None => find_owner ts varName
      end
  end.

Definition pending_vars (collected : gmap string string) (task : TaskDef) : list string :=
  map tv_Name (List.filter (λ v, bool_decide (collected !! tv_Name v = None)) (Variables task)).

Definition not_loaded_msg : string := "No task group is currently loaded.".

Definition not_expected_msg (varName : string) : string :=
  "Variable " +:+ quote varName +:+ " is not expected in any currently active task.".

Definition all_collected_msg (varName value taskName : string) : string :=
  "Captured " +:+ varName +:+ "=" +:+ quote value +:+ ". All variables for " +:+
  quote taskName +:+ " are now collected — proceeding to the next step.".

Definition still_need_msg (varName value taskName : string) (pending : list string) : string :=
  "Captured " +:+ varName +:+ "=" +:+ quote value +:+ ". Still need for " +:+
  quote taskName +:+ ": " +:+ str_join ", " pending +:+ ".".

Definition store_value (d : DynamicContextManager) (taskID varName value : string)
    : DynamicContextManager :=
  set_collected d (<[taskID := <[varName := value]> (collected_of d taskID)]> (collectedVars d)).

Section operations.
Context `{Regexp}.

Definition handleSetVariable (d : DynamicContextManager) (varName : string)
    (call : LLMToolCall) : DynamicContextManager * string :=
  let value := extractParam call "value" in
  match config d with
  | None => (d, not_loaded_msg)
  | Some cfg =>
      match find_owner (visible d cfg) varName with
      | None => (d, not_expected_msg varName)
      | Some (ownerTask, varDef) =>
          if negb (Validate varDef value)
          then (d, validationMsgLocked varName varDef value)
          else
            let taskID := ID ownerTask in
            let d1 := store_value d taskID varName value in
            let d2 := rebuildToolsLocked d1 cfg (visible d1 cfg) in
            if allVarsCollectedLocked (collected_of d2 taskID) ownerTask
            then (onTaskCompleteLocked d2 taskID,
                  all_collected_msg varName value (td_Name ownerTask))
            else (d2, still_need_msg varName value (td_Name ownerTask)
                        (pending_vars (collected_of d2 taskID) ownerTask))
      end
  end.
End operations.

(** ** Loading a group and the queries *)

(** Registers one variable's handler and metadata, once per tool id. *)
Definition register_variable (acc : LLMContextManager * gset string) (v : TaskVariable)
    : LLMContextManager * gset string :=
  let toolID := set_tool_id (tv_Name v) in
  if bool_decide (toolID ∈ acc.2) then acc else
  (registerVariableTool (RegisterToolHandler acc.1 toolID (SetVariableHandler (tv_Name v)))
     toolID (mkVariableToolInfo (tv_Description v) (AutoConfirm v) (ConfirmPhrases v)),
   {[toolID]} ∪ acc.2).

Definition registerVariableHandlersLocked (m : LLMContextManager) (cfg : TaskGroupConfig)
    : LLMContextManager :=
  (fold_left register_variable (concat (map Variables (Tasks cfg))) (m, ∅)).1.

(** The number of consecutive leading system messages. *)
Fixpoint leading_system (ms : list LLMMessage) : nat :=
  match ms with
  | m :: ms' => if String.eqb (Role m) LLMMessageRoleSystem then S (leading_system ms') else 0%nat
  | [] => 0%nat
  end.

Definition LoadTaskGroup (d : DynamicContextManager) (cfg : TaskGroupConfig)
    : result DynamicContextManager :=
  match findTaskLocked cfg (InitialTaskID cfg) with
  | None => Err ("dynamicContextManager: initial task " +:+ quote (InitialTaskID cfg)
                 +:+ " not found in config")
  | Some _ =>
      let ctx := default (mkLLMContext [] []) (context (base d)) in
      let insertIdx := leading_system (Messages ctx) in
      let vis := visibleTasksLocked cfg ∅ in
      let taskMsg := text_message LLMMessageRoleSystem (buildTaskInstructionsLocked vis) in
      let ctx' := with_messages ctx
        (take insertIdx (Messages ctx) ++ [taskMsg] ++ drop insertIdx (Messages ctx)) in
      let d1 := mkDynamicContextManager (set_context (base d) (Some ctx')) (Some cfg)
        (Core.Tools ctx) (toolRegistry d) ∅ ∅ insertIdx (emitted d) in
      let d2 := rebuildToolsLocked d1 cfg vis in
      Ok (set_base d2 (registerVariableHandlersLocked (base d2) cfg))
  end.

(** [CompleteCurrentTask] and [CurrentTaskID] read the tasks of the
    configuration without a nil test: [None] is the nil dereference. *)
Definition CompleteCurrentTask (d : DynamicContextManager) : option DynamicContextManager :=
  match config d with
  | None => None
  | Some cfg =>
      match visible d cfg with
      | [] => Some d
      | t :: _ => Some (onTaskCompleteLocked d (ID t))
      end
  end.

Definition CurrentTaskID (d : DynamicContextManager) : option string :=
  match config d with
  | None => None
  | Some cfg => Some (match visible d cfg with [] => "" | t :: _ => ID t end)
  end.

Definition IsComplete (d : DynamicContextManager) : bool :=
  match config d with
  | None => false
  | Some cfg => match visible d cfg with [] => true | _ => false end
  end.

Definition CollectedVars (d : DynamicContextManager) : gmap string (gmap string string) :=
  collectedVars d.
