(* ===== verification/DynamicContextProofs.v ===== *)
(** * Correctness of the task-group manager

    The invariant every reachable state of [DynamicContextManager] satisfies,
    the refinement of [handleSetVariable] to a specification over completed
    tasks and collected values, the exact set of offered tools, and the
    theorems that a task whose variables are answered completes and that a
    group can always be finished. *)

From S2P Require Import Prelude Core Phrases TaskGroup ContextManager DynamicContext.

Local Open Scope string_scope.
Local Open Scope list_scope.
Local Open Scope Z_scope.

(** ** Projections through the context updates *)

Create Rewrite HintDb dcm.

Section projections.
Implicit Types d : DynamicContextManager.

Lemma map_context_config f d : config (map_context f d) = config d.
Proof. unfold map_context. by destruct (context (base d)). Qed.
Lemma map_context_permanent f d : permanentTools (map_context f d) = permanentTools d.
Proof. unfold map_context. by destruct (context (base d)). Qed.
Lemma map_context_registry f d : toolRegistry (map_context f d) = toolRegistry d.
Proof. unfold map_context. by destruct (context (base d)). Qed.
Lemma map_context_completed f d : completedTasks (map_context f d) = completedTasks d.
Proof. unfold map_context. by destruct (context (base d)). Qed.
Lemma map_context_collected f d : collectedVars (map_context f d) = collectedVars d.
Proof. unfold map_context. by destruct (context (base d)). Qed.
Lemma map_context_index f d : taskInstrIndex (map_context f d) = taskInstrIndex d.
Proof. unfold map_context. by destruct (context (base d)). Qed.
Lemma map_context_context f d :
  context (base (map_context f d)) = f <$> context (base d).
Proof. unfold map_context. by destruct (context (base d)) eqn:E; cbn; rewrite ?E. Qed.
Lemma map_context_emitter f d :
  eventEmitter (base (map_context f d)) = eventEmitter (base d).
Proof. unfold map_context. by destruct (context (base d)). Qed.

Lemma emit_config d cfg i b : config (emitTaskEventLocked d cfg i b) = config d.
Proof. unfold emitTaskEventLocked. by destruct (eventEmitter _). Qed.
Lemma emit_permanent d cfg i b :
  permanentTools (emitTaskEventLocked d cfg i b) = permanentTools d.
Proof. unfold emitTaskEventLocked. by destruct (eventEmitter _). Qed.
Lemma emit_registry d cfg i b :
  toolRegistry (emitTaskEventLocked d cfg i b) = toolRegistry d.
Proof. unfold emitTaskEventLocked. by destruct (eventEmitter _). Qed.
Lemma emit_completed d cfg i b :
  completedTasks (emitTaskEventLocked d cfg i b) = completedTasks d.
Proof. unfold emitTaskEventLocked. by destruct (eventEmitter _). Qed.
Lemma emit_collected d cfg i b :
  collectedVars (emitTaskEventLocked d cfg i b) = collectedVars d.
Proof. unfold emitTaskEventLocked. by destruct (eventEmitter _). Qed.
Lemma emit_index d cfg i b :
  taskInstrIndex (emitTaskEventLocked d cfg i b) = taskInstrIndex d.
Proof. unfold emitTaskEventLocked. by destruct (eventEmitter _). Qed.
Lemma emit_base d cfg i b : base (emitTaskEventLocked d cfg i b) = base d.
Proof. unfold emitTaskEventLocked. by destruct (eventEmitter _). Qed.
End projections.

#[export] Hint Rewrite map_context_config map_context_permanent map_context_registry
  map_context_completed map_context_collected map_context_index map_context_context
  map_context_emitter emit_config emit_permanent emit_registry emit_completed
  emit_collected emit_index emit_base : dcm.

Ltac dcm_simpl :=
  unfold rebuildToolsLocked, clearDynamicToolsLocked, updateTaskInstructionLocked in *;
  autorewrite with dcm in *; cbn in *; autorewrite with dcm in *.

(** What completing a task leaves in the fields, and in the context. *)
Section completion.
Context (d : DynamicContextManager) (cfg : TaskGroupConfig) (taskID : string).
Hypothesis Hcfg : config d = Some cfg.

Let d' := onTaskCompleteLocked d taskID.

Lemma complete_config : config d' = Some cfg.
Proof.
  unfold d', onTaskCompleteLocked. rewrite Hcfg.
  destruct (visible _ _); dcm_simpl; done.
Qed.

Lemma complete_completed : completedTasks d' = {[taskID]} ∪ completedTasks d.
Proof.
  unfold d', onTaskCompleteLocked. rewrite Hcfg.
  destruct (visible _ _); dcm_simpl; done.
Qed.

Lemma complete_collected : collectedVars d' = collectedVars d.
Proof.
  unfold d', onTaskCompleteLocked. rewrite Hcfg.
  destruct (visible _ _); dcm_simpl; done.
Qed.

Lemma complete_permanent : permanentTools d' = permanentTools d.
Proof.
  unfold d', onTaskCompleteLocked. rewrite Hcfg.
  destruct (visible _ _); dcm_simpl; done.
Qed.

Lemma complete_registry : toolRegistry d' = toolRegistry d.
Proof.
  unfold d', onTaskCompleteLocked. rewrite Hcfg.
  destruct (visible _ _); dcm_simpl; done.
Qed.

Lemma complete_index : taskInstrIndex d' = taskInstrIndex d.
Proof.
  unfold d', onTaskCompleteLocked. rewrite Hcfg.
  destruct (visible _ _); dcm_simpl; done.
Qed.

(** The context after completion, in one equation. *)
Lemma complete_context c :
  context (base d) = Some c →
  context (base d') = Some (mkLLMContext
    (alter (set_message_text (buildTaskInstructionsLocked (visible d' cfg)))
       (taskInstrIndex d) (Messages c))
    (match visible d' cfg with
     | [] => permanentTools d
     | vs => rebuilt_tools d' cfg vs
     end)).
Proof.
  intros Hc. unfold visible at 1 2. rewrite complete_completed.
  unfold rebuilt_tools, task_tools, collected_of.
  rewrite complete_collected, complete_permanent, complete_registry.
  unfold d', onTaskCompleteLocked. rewrite Hcfg. unfold visible. dcm_simpl.
  destruct (visibleTasksLocked _ _) eqn:E; dcm_simpl;
    rewrite Hc; cbn; unfold with_messages, with_tools; cbn; try done.
  unfold rebuilt_tools, task_tools. dcm_simpl.
  unfold collected_of. dcm_simpl. done.
Qed.
End completion.

#[export] Hint Rewrite complete_config complete_completed complete_collected
  complete_permanent complete_registry complete_index using eassumption : dcm.

(** ** Scope *)

Lemma in_scope_spec completed t :
  in_scope completed t = true ↔
  ((ID t ∉ completed) ∧
  (VisibleAfterTaskID t = "" ∨ VisibleAfterTaskID t ∈ completed) ∧
  (DisappearAfterTaskID t = "" ∨ DisappearAfterTaskID t ∉ completed)).
Proof.
  unfold in_scope, isVisibleLocked, isDisappearedLocked.
  rewrite !andb_true_iff, !negb_true_iff, orb_true_iff, andb_false_iff.
  rewrite negb_false_iff, !bool_decide_eq_false, bool_decide_eq_true, !String.eqb_eq.
  tauto.
Qed.

Lemma visible_spec d cfg t :
  t ∈ visible d cfg ↔ t ∈ Tasks cfg ∧ in_scope (completedTasks d) t = true.
Proof.
  unfold visible, visibleTasksLocked. rewrite !list_elem_of_In. apply filter_In.
Qed.

Lemma find_owner_Some tasks name t v :
  find_owner tasks name = Some (t, v) →
  t ∈ tasks ∧ v ∈ Variables t ∧ tv_Name v = name.
Proof.
  induction tasks as [|t' ts IH]; cbn; [done|].
  destruct (find _ (Variables t')) as [v'|] eqn:E.
  - intros [= -> ->]. apply find_some in E as [Hin Heq].
    apply String.eqb_eq in Heq. rewrite <- list_elem_of_In in Hin.
    split_and!; [apply list_elem_of_here|done|done].
  - intros H. apply IH in H as (? & ? & ?).
    split_and!; [by apply list_elem_of_further|done|done].
Qed.

Lemma find_owner_None tasks name :
  find_owner tasks name = None ↔
  ∀ t v, t ∈ tasks → v ∈ Variables t → tv_Name v ≠ name.
Proof.
  induction tasks as [|t ts IH]; cbn; [set_solver|].
  destruct (find _ (Variables t)) as [v|] eqn:E.
  - split; [done|]. intros Hno. apply find_some in E as [Hin Heq].
    apply String.eqb_eq in Heq. rewrite <- list_elem_of_In in Hin.
    exfalso. eapply Hno; [apply list_elem_of_here|done|done].
  - rewrite IH. split; [|intros Hno t' v Ht'; apply (Hno t'); by apply list_elem_of_further].
    intros Hts t' v [->|Ht]%elem_of_cons Hv; [|eauto].
    intros Hn. rewrite list_elem_of_In in Hv.
    apply (find_none _ _ E) in Hv. cbn in Hv.
    by apply String.eqb_neq in Hv.
Qed.

(** The owner is the first task of the list that has the variable. *)
Lemma find_owner_unique tasks name t v :
  t ∈ tasks → find (λ v, String.eqb (tv_Name v) name) (Variables t) = Some v →
  (∀ t' v', t' ∈ tasks → v' ∈ Variables t' → tv_Name v' = name → t' = t) →
  find_owner tasks name = Some (t, v).
Proof.
  intros Hin Hf Huniq.
  destruct (find_owner tasks name) as [[t' v']|] eqn:E.
  - pose proof E as Eo. apply find_owner_Some in Eo as (Ht' & Hv' & Hn').
    assert (t' = t) as -> by eauto. f_equal. f_equal.
    clear -E Hf. induction tasks as [|t0 ts IH]; cbn in E; [done|].
    destruct (find _ (Variables t0)) as [v0|] eqn:E0; [|auto]. congruence.
  - apply find_some in Hf as [Hv Hn]. apply String.eqb_eq in Hn.
    rewrite find_owner_None in E. rewrite <- list_elem_of_In in Hv. by apply E in Hv.
Qed.

Lemma allVarsCollected_spec collected t :
  allVarsCollectedLocked collected t = true ↔
  ∀ v, v ∈ Variables t → is_Some (collected !! tv_Name v).
Proof.
  unfold allVarsCollectedLocked. rewrite forallb_forall.
  setoid_rewrite bool_decide_eq_true. by setoid_rewrite list_elem_of_In.
Qed.

(** ** Storing a value *)

Lemma store_value_same d tid k v :
  collected_of (store_value d tid k v) tid = <[k := v]> (collected_of d tid).
Proof. unfold collected_of, store_value. cbn. by rewrite lookup_insert_eq. Qed.

Lemma store_value_lookup d tid k v tid' vars :
  collectedVars (store_value d tid k v) !! tid' = Some vars →
  (tid' = tid ∧ vars = <[k := v]> (collected_of d tid)) ∨
  (tid' ≠ tid ∧ collectedVars d !! tid' = Some vars).
Proof.
  unfold store_value. cbn. intros H. apply lookup_insert_Some in H. naive_solver.
Qed.

(** ** The invariant *)

Definition tools_coherent (d : DynamicContextManager) (cfg : TaskGroupConfig)
    (c : LLMContext) : Prop :=
  Core.Tools c = rebuilt_tools d cfg (visible d cfg) ∨
  (visible d cfg = [] ∧ Core.Tools c = permanentTools d).

Definition instruction_coherent (d : DynamicContextManager) (cfg : TaskGroupConfig)
    (c : LLMContext) : Prop :=
  Messages c !! taskInstrIndex d =
  Some (text_message "system" (buildTaskInstructionsLocked (visible d cfg))).

Section invariant.
Context `{Regexp}.

Definition values_valid (d : DynamicContextManager) (cfg : TaskGroupConfig) : Prop :=
  ∀ tid vars k v, collectedVars d !! tid = Some vars → vars !! k = Some v →
  ∃ t tv, t ∈ Tasks cfg ∧ ID t = tid ∧ tv ∈ Variables t ∧ tv_Name tv = k ∧
          Validate tv v = true.

Definition dependencies_respected (d : DynamicContextManager) (cfg : TaskGroupConfig) : Prop :=
  ∀ id, id ∈ completedTasks d →
  ∃ t, t ∈ Tasks cfg ∧ ID t = id ∧
       (VisibleAfterTaskID t = "" ∨ VisibleAfterTaskID t ∈ completedTasks d).

Record dcm_inv (d : DynamicContextManager) (cfg : TaskGroupConfig) : Prop := {
  inv_config : config d = Some cfg;
  inv_context : ∃ c, context (base d) = Some c ∧
    instruction_coherent d cfg c ∧ tools_coherent d cfg c;
  inv_values : values_valid d cfg;
  inv_dependencies : dependencies_respected d cfg
}.

(** The operations that run once a group is loaded: a [set_*] call, manual
    completion, and another part of the program appending a message. *)
Inductive dcm_step (cfg : TaskGroupConfig) :
    DynamicContextManager → DynamicContextManager → Prop :=
| step_set d name call : dcm_step cfg d (handleSetVariable d name call).1
| step_manual d d' : CompleteCurrentTask d = Some d' → dcm_step cfg d d'
| step_message d msg : dcm_step cfg d (set_base d (add_message (base d) msg)).

Lemma leading_system_le ms : (leading_system ms ≤ length ms)%nat.
Proof. induction ms; cbn; [lia|]. destruct (String.eqb _ _); cbn; lia. Qed.

Lemma lookup_inserted {A} (l : list A) n x :
  (n ≤ length l)%nat → (take n l ++ x :: drop n l) !! n = Some x.
Proof.
  intros Hn. rewrite lookup_app_r; rewrite length_take_le by done; [|done].
  by rewrite Nat.sub_diag.
Qed.

(** Registering the handlers does not touch the context. *)
Lemma register_variable_context acc v :
  context (register_variable acc v).1 = context acc.1.
Proof. unfold register_variable. by case_bool_decide. Qed.

Lemma register_handlers_context m cfg :
  context (registerVariableHandlersLocked m cfg) = context m.
Proof.
  unfold registerVariableHandlersLocked.
  generalize (∅ : gset string) as s. revert m.
  induction (concat (map Variables (Tasks cfg))) as [|v vs IH]; intros m s; cbn; [done|].
  pose proof (register_variable_context (m, s) v) as Hc.
  destruct (register_variable (m, s) v) as [m' s']. by rewrite IH.
Qed.

Lemma dcm_inv_load d cfg d' : LoadTaskGroup d cfg = Ok d' → dcm_inv d' cfg.
Proof.
  unfold LoadTaskGroup. destruct (findTaskLocked _ _); [|done]. intros [= <-].
  set (ctx := default _ _). split.
  - done.
  - eexists. cbn. rewrite register_handlers_context. split; [reflexivity|]. split.
    + unfold instruction_coherent. cbn.
      apply lookup_inserted, leading_system_le.
    + left. reflexivity.
  - intros tid vars k v Hl. cbn in Hl. by rewrite lookup_empty in Hl.
  - intros id Hid. cbn in Hid. set_solver.
Qed.

Lemma dcm_inv_message d cfg msg :
  dcm_inv d cfg → dcm_inv (set_base d (add_message (base d) msg)) cfg.
Proof.
  intros [Hcfg (c & Hc & Hi & Ht) Hv Hd]. split; [done| |done|done].
  exists (append_message c msg). split; [by apply add_message_tools|]. split.
  - unfold instruction_coherent. cbn. by apply lookup_app_l_Some.
  - exact Ht.
Qed.

(** Completing a task in scope re-establishes the coherence of the context. *)
Lemma complete_coherent d cfg tid c :
  config d = Some cfg → context (base d) = Some c →
  (∃ text, Messages c !! taskInstrIndex d = Some (text_message "system" text)) →
  let d' := onTaskCompleteLocked d tid in
  ∃ c', context (base d') = Some c' ∧
    instruction_coherent d' cfg c' ∧ tools_coherent d' cfg c'.
Proof.
  intros Hcfg Hc [text Htext] d'. eexists. split; [by apply complete_context|].
  fold d'. split.
  - unfold instruction_coherent. cbn.
    assert (taskInstrIndex d' = taskInstrIndex d) as -> by by apply (complete_index d cfg).
    by rewrite list_lookup_alter_eq, Htext.
  - unfold tools_coherent. cbn.
    assert (permanentTools d' = permanentTools d) as -> by by apply (complete_permanent d cfg).
    destruct (visible d' cfg); [by right | by left].
Qed.

Lemma complete_inv d cfg t c text :
  config d = Some cfg → context (base d) = Some c →
  Messages c !! taskInstrIndex d = Some (text_message "system" text) →
  values_valid d cfg → dependencies_respected d cfg → t ∈ visible d cfg →
  dcm_inv (onTaskCompleteLocked d (ID t)) cfg.
Proof.
  intros Hcfg Hc Htext Hval Hdep Ht. split.
  - by rewrite (complete_config _ cfg).
  - eapply complete_coherent; eauto.
  - unfold values_valid. by rewrite (complete_collected _ cfg).
  - unfold dependencies_respected. rewrite (complete_completed _ cfg) by done.
    apply visible_spec in Ht as [Hin Hs]. apply in_scope_spec in Hs as (_ & Hva & _).
    intros id [->%elem_of_singleton|Hid]%elem_of_union.
    + exists t. set_solver.
    + destruct (Hdep id Hid) as (t' & ? & ? & ?). exists t'. set_solver.
Qed.

Lemma values_valid_store d cfg t tv v :
  values_valid d cfg → t ∈ Tasks cfg → tv ∈ Variables t → Validate tv v = true →
  values_valid (store_value d (ID t) (tv_Name tv) v) cfg.
Proof.
  intros Hval Ht Htv Hok tid vars k w Hl Hk.
  destruct (store_value_lookup _ _ _ _ _ _ Hl) as [[-> ->]|[_ Hl']]; [|eauto].
  apply lookup_insert_Some in Hk as [[<- <-]|[_ Hk]]; [by exists t, tv|].
  unfold collected_of in Hk. destruct (collectedVars d !! ID t) eqn:E; cbn in Hk.
  - eauto.
  - by rewrite lookup_empty in Hk.
Qed.

Lemma dcm_inv_set d cfg name call :
  dcm_inv d cfg → dcm_inv (handleSetVariable d name call).1 cfg.
Proof.
  intros Hinv. destruct Hinv as [Hcfg (c & Hc & Hi & Ht) Hval Hdep] eqn:E.
  unfold handleSetVariable. rewrite Hcfg.
  destruct (find_owner _ _) as [[t tv]|] eqn:Ho; [|done].
  apply find_owner_Some in Ho as (Hvis & Htv & <-).
  destruct (Validate tv _) eqn:Hok; cbn [negb]; [|done].
  set (v := extractParam call "value") in *.
  assert (t ∈ Tasks cfg) as Htin by (apply visible_spec in Hvis; tauto).
  pose proof (values_valid_store d cfg t tv v Hval Htin Htv Hok) as Hval'.
  set (d1 := store_value d (ID t) (tv_Name tv) v) in *.
  set (d2 := rebuildToolsLocked d1 cfg (visible d1 cfg)).
  assert (context (base d2) = Some (with_tools c (rebuilt_tools d1 cfg (visible d1 cfg)))) as Hc2.
  { unfold d2. dcm_simpl. by rewrite Hc. }
  assert (visible d2 cfg = visible d cfg) as Hvis2.
  { unfold visible, d2. by dcm_simpl. }
  destruct (allVarsCollectedLocked _ _); cbn.
  - eapply complete_inv; [by unfold d2; dcm_simpl|exact Hc2| | | |].
    + cbn. unfold d2. dcm_simpl. exact Hi.
    + unfold values_valid, d2. by dcm_simpl.
    + unfold dependencies_respected, d2. by dcm_simpl.
    + by rewrite Hvis2.
  - split; [by unfold d2; dcm_simpl| | |].
    + eexists. split; [exact Hc2|]. split.
      * unfold instruction_coherent. rewrite Hvis2. unfold d2. dcm_simpl. exact Hi.
      * left. cbn. unfold rebuilt_tools, task_tools, collected_of, visible, d2.
        by dcm_simpl.
    + unfold values_valid, d2. by dcm_simpl.
    + unfold dependencies_respected, d2. by dcm_simpl.
Qed.

Lemma dcm_inv_manual d cfg d' :
  dcm_inv d cfg → CompleteCurrentTask d = Some d' → dcm_inv d' cfg.
Proof.
  intros [Hcfg (c & Hc & Hi & Ht) Hval Hdep]. unfold CompleteCurrentTask. rewrite Hcfg.
  destruct (visible d cfg) as [|t ts] eqn:Ev; intros [= <-].
  - by split; eauto.
  - eapply complete_inv; eauto. rewrite Ev. apply list_elem_of_here.
Qed.

Lemma dcm_inv_step cfg d d' : dcm_step cfg d d' → dcm_inv d cfg → dcm_inv d' cfg.
Proof.
  intros [] Hinv; eauto using dcm_inv_set, dcm_inv_manual, dcm_inv_message.
Qed.

Lemma dcm_inv_reachable cfg d d' :
  rtc (dcm_step cfg) d d' → dcm_inv d cfg → dcm_inv d' cfg.
Proof. induction 1; eauto using dcm_inv_step. Qed.
End invariant.

(** ** The offered tools *)

(** [RegisterTool] keys the registry by the tool's own id. *)
Definition registry_keyed (r : gmap string LLMTool) : Prop :=
  ∀ id t, r !! id = Some t → ToolId t = id.

Lemma register_tool_keyed d tool h :
  registry_keyed (toolRegistry d) → registry_keyed (toolRegistry (RegisterTool d tool h)).
Proof.
  intros Hk id t. cbn. rewrite lookup_insert_Some. intros [[<- <-]|[_ Hl]]; eauto.
Qed.

(** The [seen] set is the set of ids of the tools added so far. *)
Definition acc_ok (acc : tool_acc) : Prop :=
  NoDup (ToolId <$> acc.1) ∧ ∀ id, id ∈ acc.2 ↔ id ∈ ToolId <$> acc.1.

Lemma acc_ok_snoc ts seen t id :
  acc_ok (ts, seen) → ToolId t = id → id ∉ seen → acc_ok (ts ++ [t], {[id]} ∪ seen).
Proof.
  intros [Hnd Hseen] <- Hid. split; cbn in *.
  - rewrite fmap_app. apply NoDup_app. split_and!; [done| |apply NoDup_singleton].
    intros x Hx ->%list_elem_of_singleton. apply Hid. by apply Hseen.
  - intros id. rewrite fmap_app, elem_of_app, elem_of_union, elem_of_singleton, Hseen.
    cbn. rewrite list_elem_of_singleton. tauto.
Qed.

Section tool_rebuild.
Context (registry : gmap string LLMTool) (collected : string → gmap string string).
Hypothesis Hkeyed : registry_keyed registry.

Lemma add_registered_spec acc id :
  acc_ok acc →
  acc_ok (add_registered registry acc id) ∧
  ∀ i, i ∈ (add_registered registry acc id).2 ↔
       i ∈ acc.2 ∨ (i = id ∧ is_Some (registry !! id)).
Proof.
  destruct acc as [ts seen]. intros Hok. unfold add_registered. cbn.
  case_bool_decide as Hin.
  - split; [done|]. intros i. cbn. set_solver.
  - destruct (registry !! id) as [t|] eqn:Hr.
    + split; [by eapply acc_ok_snoc; eauto|]. intros i. cbn.
      rewrite elem_of_union, elem_of_singleton. naive_solver.
    + split; [done|]. intros i. cbn. split; [tauto|]. intros [?|[_ [? ?]]]; done.
Qed.

Lemma add_set_tool_spec vars acc v :
  acc_ok acc →
  acc_ok (add_set_tool vars acc v) ∧
  ∀ i, i ∈ (add_set_tool vars acc v).2 ↔
       i ∈ acc.2 ∨ (i = set_tool_id (tv_Name v) ∧ vars !! tv_Name v = None).
Proof.
  destruct acc as [ts seen]. intros Hok. unfold add_set_tool. cbn.
  destruct (vars !! tv_Name v) eqn:Hv.
  - split; [done|]. intros i. cbn. naive_solver.
  - case_bool_decide as Hin.
    + split; [done|]. intros i. cbn. naive_solver.
    + split; [by eapply acc_ok_snoc|]. intros i. cbn.
      rewrite elem_of_union, elem_of_singleton. naive_solver.
Qed.

(** Folding a step that adds exactly the ids [Q x] adds the union of them. *)
Lemma fold_acc_spec {X} (f : tool_acc → X → tool_acc) (Q : X → string → Prop) xs :
  (∀ acc x, acc_ok acc → acc_ok (f acc x) ∧ ∀ i, i ∈ (f acc x).2 ↔ i ∈ acc.2 ∨ Q x i) →
  ∀ acc, acc_ok acc →
  acc_ok (fold_left f xs acc) ∧
  ∀ i, i ∈ (fold_left f xs acc).2 ↔ i ∈ acc.2 ∨ ∃ x, x ∈ xs ∧ Q x i.
Proof.
  intros Hf. induction xs as [|x xs IH]; intros acc Hok; cbn.
  - split; [done|]. intros i. split; [tauto|]. intros [?|(? & []%not_elem_of_nil & _)]; done.
  - destruct (Hf acc x Hok) as [Hok' Hx]. destruct (IH _ Hok') as [Hok'' Hxs].
    split; [done|]. intros i. rewrite Hxs, Hx. setoid_rewrite elem_of_cons. naive_solver.
Qed.

(** The ids task [t] contributes. *)
Definition contributes (t : TaskDef) (id : string) : Prop :=
  (id ∈ VisibleToolIDs t ∧ is_Some (registry !! id)) ∨
  ∃ v, v ∈ Variables t ∧ collected (ID t) !! tv_Name v = None ∧
       id = set_tool_id (tv_Name v).

Lemma add_task_tools_spec acc t :
  acc_ok acc →
  acc_ok (add_task_tools registry collected acc t) ∧
  ∀ i, i ∈ (add_task_tools registry collected acc t).2 ↔ i ∈ acc.2 ∨ contributes t i.
Proof.
  intros Hok. unfold add_task_tools.
  destruct (fold_acc_spec (add_registered registry)
    (λ id i, i = id ∧ is_Some (registry !! id)) (VisibleToolIDs t)
    ltac:(apply add_registered_spec) acc Hok) as [Hok1 H1].
  destruct (fold_acc_spec (add_set_tool (collected (ID t)))
    (λ v i, i = set_tool_id (tv_Name v) ∧ collected (ID t) !! tv_Name v = None)
    (Variables t) ltac:(apply add_set_tool_spec) _ Hok1) as [Hok2 H2].
  split; [done|]. intros i. rewrite H2, H1. unfold contributes. naive_solver.
Qed.

Lemma tools_fold_spec tasks :
  let acc := fold_left (add_task_tools registry collected) tasks ([], ∅) in
  acc_ok acc ∧ ∀ i, i ∈ ToolId <$> acc.1 ↔ ∃ t, t ∈ tasks ∧ contributes t i.
Proof.
  intros acc. destruct (fold_acc_spec (add_task_tools registry collected) contributes tasks
    ltac:(apply add_task_tools_spec) ([], ∅)) as [Hok Hi].
  - split; [constructor|]. intros i. set_solver.
  - split; [done|]. intros i. fold acc in Hok, Hi. rewrite <- (proj2 Hok), Hi. set_solver.
Qed.
End tool_rebuild.

(** ** The abstract specification of a capture *)

(** A task group seen from outside: which tasks are done and which values are
    held, and what one [set_*] call answers. *)
Record group_state := mkGroupState {
  done_tasks : gset string;
  values : gmap string (gmap string string)
}.

Inductive capture_outcome : Type :=
| NotExpected
| Rejected (v : TaskVariable)
| Captured (t : TaskDef) (pending : list string)
| TaskCompleted (t : TaskDef).

Definition render (varName value : string) (o : capture_outcome) : string :=
  match o with
  | NotExpected => not_expected_msg varName
  | Rejected v => validationMsgLocked varName v value
  | Captured t pending => still_need_msg varName value (td_Name t) pending
  | TaskCompleted t => all_collected_msg varName value (td_Name t)
  end.

Definition abs (d : DynamicContextManager) : group_state :=
  mkGroupState (completedTasks d) (collectedVars d).

Section capture_spec.
Context `{Regexp}.

Inductive capture (cfg : TaskGroupConfig) (name value : string) :
    group_state → capture_outcome → group_state → Prop :=
| capture_not_expected s :
    (∀ t v, t ∈ visibleTasksLocked cfg (done_tasks s) → v ∈ Variables t → tv_Name v ≠ name) →
    capture cfg name value s NotExpected s
| capture_rejected s t v :
    find_owner (visibleTasksLocked cfg (done_tasks s)) name = Some (t, v) →
    Validate v value = false →
    capture cfg name value s (Rejected v) s
| capture_pending s t v vars :
    find_owner (visibleTasksLocked cfg (done_tasks s)) name = Some (t, v) →
    Validate v value = true →
    vars = <[name := value]> (default ∅ (values s !! ID t)) →
    pending_vars vars t ≠ [] →
    capture cfg name value s (Captured t (pending_vars vars t))
      (mkGroupState (done_tasks s) (<[ID t := vars]> (values s)))
| capture_completes s t v vars :
    find_owner (visibleTasksLocked cfg (done_tasks s)) name = Some (t, v) →
    Validate v value = true →
    vars = <[name := value]> (default ∅ (values s !! ID t)) →
    pending_vars vars t = [] →
    capture cfg name value s (TaskCompleted t)
      (mkGroupState ({[ID t]} ∪ done_tasks s) (<[ID t := vars]> (values s))).

Lemma pending_nil vars t :
  pending_vars vars t = [] ↔ allVarsCollectedLocked vars t = true.
Proof.
  unfold pending_vars, allVarsCollectedLocked.
  induction (Variables t) as [|v vs IH]; cbn; [done|].
  destruct (vars !! tv_Name v) eqn:E.
  - rewrite bool_decide_eq_false_2 by done. rewrite bool_decide_eq_true_2 by eauto. done.
  - rewrite bool_decide_eq_true_2 by done. rewrite bool_decide_eq_false_2 by by intros [].
    done.
Qed.

Lemma capture_deterministic cfg name value s o1 s1 o2 s2 :
  capture cfg name value s o1 s1 → capture cfg name value s o2 s2 → o1 = o2 ∧ s1 = s2.
Proof.
  intros H1 H2; destruct H1; inversion H2; subst; simplify_eq; try done; try congruence;
    match goal with
    | Hn : ∀ t v, _, Hf : find_owner _ _ = Some _ |- _ =>
        apply find_owner_Some in Hf as (? & ? & ?); exfalso; eapply Hn; eassumption
    end.
Qed.

Lemma handleSetVariable_refines d cfg name call :
  config d = Some cfg →
  let value := extractParam call "value" in
  let r := handleSetVariable d name call in
  ∃ o, capture cfg name value (abs d) o (abs r.1) ∧ r.2 = render name value o.
Proof.
  intros Hcfg value r. unfold r, handleSetVariable. rewrite Hcfg. fold value.
  destruct (find_owner _ _) as [[t v]|] eqn:Ho; cbn.
  2: { exists NotExpected. split; [|done]. constructor. by apply find_owner_None. }
  destruct (Validate v value) eqn:Hv; cbn.
  2: { exists (Rejected v). split; [|done]. by eapply capture_rejected. }
  set (d1 := store_value d (ID t) name value).
  set (d2 := rebuildToolsLocked d1 cfg (visible d1 cfg)).
  assert (collected_of d2 (ID t) = <[name := value]> (collected_of d (ID t))) as Hcol.
  { rewrite <- store_value_same. unfold collected_of, d2. by dcm_simpl. }
  assert (abs d2 = mkGroupState (completedTasks d)
    (<[ID t := <[name := value]> (collected_of d (ID t))]> (collectedVars d))) as Habs.
  { unfold abs, d2. by dcm_simpl. }
  rewrite Hcol.
  destruct (allVarsCollectedLocked _ _) eqn:Hall; cbn.
  - exists (TaskCompleted t). split; [|done]. apply pending_nil in Hall.
    unfold abs. rewrite (complete_completed _ cfg), (complete_collected _ cfg)
      by (unfold d2; by dcm_simpl).
    injection Habs as -> ->. by eapply capture_completes.
  - eexists (Captured t _). split; [|done]. rewrite Habs.
    eapply capture_pending; [done|done|reflexivity|].
    intros Hp%pending_nil. unfold collected_of in *. cbn in *. congruence.
Qed.
End capture_spec.

(** ** Progress *)

Section progress.
Context `{Regexp}.

Lemma handleSetVariable_config d cfg name call :
  config d = Some cfg → config (handleSetVariable d name call).1 = Some cfg.
Proof.
  intros Hcfg. unfold handleSetVariable. rewrite Hcfg.
  destruct (find_owner _ _) as [[t v]|]; [|done].
  destruct (negb _); [done|]. destruct (allVarsCollectedLocked _ _); cbn.
  - apply complete_config. by dcm_simpl.
  - by dcm_simpl.
Qed.

Lemma capture_monotone cfg name value s o s' :
  capture cfg name value s o s' → done_tasks s ⊆ done_tasks s'.
Proof. intros []; cbn; set_solver. Qed.

Lemma capture_keeps_values cfg name value s o s' tid k :
  capture cfg name value s o s' →
  is_Some (default ∅ (values s !! tid) !! k) →
  is_Some (default ∅ (values s' !! tid) !! k).
Proof.
  intros Hcap Hk.
  assert (∀ t : TaskDef, is_Some (default ∅ (<[ID t := <[name := value]>
    (default ∅ (values s !! ID t))]> (values s) !! tid) !! k)) as Hst.
  { intros t. destruct (decide (ID t = tid)) as [<-|Hne].
    - rewrite lookup_insert_eq. cbn. by apply lookup_insert_is_Some'; right.
    - by rewrite lookup_insert_ne. }
  destruct Hcap; subst; cbn; auto.
Qed.

Definition run_calls (d : DynamicContextManager) (calls : list (string * LLMToolCall))
    : DynamicContextManager :=
  fold_left (λ d nc, (handleSetVariable d nc.1 nc.2).1) calls d.

(** Every name of [calls] is a variable of [t], answered validly, and no
    other task of the group has it. *)
Definition answers (cfg : TaskGroupConfig) (t : TaskDef)
    (calls : list (string * LLMToolCall)) : Prop :=
  ∀ name call, (name, call) ∈ calls →
  (∃ v, find (λ v, String.eqb (tv_Name v) name) (Variables t) = Some v ∧
        Validate v (extractParam call "value") = true) ∧
  (∀ t' v', t' ∈ Tasks cfg → v' ∈ Variables t' → tv_Name v' = name → t' = t).

(** Where answering [t] stands: it is complete, or it is still in scope, the
    names of [ns] are held and some variable is missing. *)
Definition answering (d : DynamicContextManager) (t : TaskDef) (ns : list string) : Prop :=
  ID t ∈ completedTasks d ∨
  (in_scope (completedTasks d) t = true ∧
   (∀ n, n ∈ ns → is_Some (collected_of d (ID t) !! n)) ∧
   (ns ≠ [] → pending_vars (collected_of d (ID t)) t ≠ [])).

Lemma answering_step d cfg t ns name call :
  config d = Some cfg → t ∈ Tasks cfg → answers cfg t [(name, call)] →
  answering d t ns → answering (handleSetVariable d name call).1 t (ns ++ [name]).
Proof.
  intros Hcfg Ht Hans Hst.
  destruct (handleSetVariable_refines d cfg name call Hcfg) as (o & Hcap & _).
  destruct Hst as [Hdone|(Hs & Hns & _)].
  { left. by apply (capture_monotone _ _ _ _ _ _ Hcap). }
  destruct (Hans name call) as [(v & Hv & Hok) Huniq]; [apply list_elem_of_here|].
  assert (find_owner (visible d cfg) name = Some (t, v)) as Ho.
  { apply find_owner_unique; [by apply visible_spec|done|].
    intros t' v' Ht' Hv' Hn. apply visible_spec in Ht' as [Ht' _]. eauto. }
  assert (∀ n, n ∈ ns ++ [name] → n = name ∨ is_Some (collected_of d (ID t) !! n)) as Hcov.
  { intros n. rewrite elem_of_app, list_elem_of_singleton. naive_solver. }
  unfold answering. change (completedTasks ?x) with (done_tasks (abs x)).
  unfold collected_of in *. change (collectedVars ?x) with (values (abs x)) in *.
  remember (abs (handleSetVariable d name call).1) as s' eqn:Es'.
  remember (abs d) as s eqn:Es.
  assert (visibleTasksLocked cfg (done_tasks s) = visible d cfg) as Hvis by by subst.
  destruct Hcap as [s Hno|s t0 v0 Hf Hbad|s t0 v0 vars Hf Hg Hvars Hp|s t0 v0 vars Hf Hg Hvars Hp];
    rewrite Hvis in *.
  - apply find_owner_Some in Ho as (? & ? & ?). by exfalso; eapply Hno.
  - simplify_eq. congruence.
  - assert (t0 = t) as -> by congruence. right. cbn. rewrite lookup_insert_eq. cbn.
    split_and!; [by subst|subst vars|done].
    intros n [->|Hn]%Hcov; apply lookup_insert_is_Some'; auto.
  - assert (t0 = t) as -> by congruence. left. cbn. set_solver.
Qed.

Lemma answering_run cfg t calls : ∀ d ns,
  config d = Some cfg → t ∈ Tasks cfg → answers cfg t calls →
  answering d t ns → answering (run_calls d calls) t (ns ++ map fst calls).
Proof.
  induction calls as [|[n c] calls IH]; intros d ns Hcfg Ht Hans Hst; cbn.
  - by rewrite app_nil_r.
  - change (n :: map fst calls) with ([n] ++ map fst calls). rewrite app_assoc.
    apply IH; [by apply handleSetVariable_config|done| |].
    + intros name call Hin. apply Hans. by apply list_elem_of_further.
    + apply (answering_step d cfg); [done..| |done].
      intros name call [= -> ->]%list_elem_of_singleton. apply Hans, list_elem_of_here.
Qed.

Lemma answering_all_done d t (calls : list (string * LLMToolCall)) :
  calls ≠ [] →
  (∀ v, v ∈ Variables t → ∃ call, (tv_Name v, call) ∈ calls) →
  answering d t (map fst calls) → ID t ∈ completedTasks d.
Proof.
  intros Hne Hcov [?|(_ & Hheld & Hmiss)]; [done|]. exfalso.
  apply Hmiss; [by destruct calls|].
  apply pending_nil, allVarsCollected_spec. intros v Hv. apply Hheld.
  destruct (Hcov v Hv) as [call Hin]. rewrite list_elem_of_In, in_map_iff.
  exists (tv_Name v, call). by rewrite <- list_elem_of_In.
Qed.

(** ** Finishing a group by hand *)

Definition incomplete (d : DynamicContextManager) (cfg : TaskGroupConfig) : list TaskDef :=
  List.filter (λ t, negb (bool_decide (ID t ∈ completedTasks d))) (Tasks cfg).

Fixpoint complete_n (n : nat) (d : DynamicContextManager) : option DynamicContextManager :=
  match n with
  | O => Some d
  | S n' => match CompleteCurrentTask d with
            | None => None
            | Some d' => complete_n n' d'
            end
  end.

Lemma filter_length_mono {A} (f g : A → bool) (l : list A) :
  (∀ x, f x = true → g x = true) → (length (List.filter f l) ≤ length (List.filter g l))%nat.
Proof.
  intros Hfg. induction l as [|x l IH]; cbn; [lia|].
  destruct (f x) eqn:Ef; [rewrite (Hfg x Ef); cbn; lia|].
  destruct (g x); cbn; lia.
Qed.

Lemma filter_length_drop {A} (f g : A → bool) (l : list A) x :
  (∀ x, f x = true → g x = true) → In x l → f x = false → g x = true →
  (length (List.filter f l) < length (List.filter g l))%nat.
Proof.
  intros Hfg Hin Hf Hg. induction l as [|y l IH]; [done|]. cbn.
  destruct Hin as [->|Hin].
  - rewrite Hf, Hg. cbn. pose proof (filter_length_mono f g l Hfg). lia.
  - specialize (IH Hin). destruct (f y) eqn:Ef; [rewrite (Hfg y Ef); cbn; lia|].
    destruct (g y); cbn; lia.
Qed.

Lemma incomplete_drop d cfg t :
  config d = Some cfg → t ∈ visible d cfg →
  (length (incomplete (onTaskCompleteLocked d (ID t)) cfg) < length (incomplete d cfg))%nat.
Proof.
  intros Hcfg [Hin Hs]%visible_spec. apply in_scope_spec in Hs as [Hni _].
  unfold incomplete. rewrite (complete_completed _ cfg) by done.
  apply (filter_length_drop _ _ _ t).
  - intros x. rewrite !negb_true_iff, !bool_decide_eq_false. set_solver.
  - by apply list_elem_of_In.
  - rewrite negb_false_iff, bool_decide_eq_true. set_solver.
  - by rewrite negb_true_iff, bool_decide_eq_false.
Qed.

Lemma visible_incomplete d cfg : incomplete d cfg = [] → visible d cfg = [].
Proof.
  intros Hi. destruct (visible d cfg) as [|t ts] eqn:E; [done|]. exfalso.
  assert (t ∈ visible d cfg) as [Hin Hs]%visible_spec by (rewrite E; apply list_elem_of_here).
  apply in_scope_spec in Hs as [Hni _].
  assert (In t (incomplete d cfg)) as Hc; [|by rewrite Hi in Hc].
  apply filter_In. split; [by apply list_elem_of_In|].
  by rewrite negb_true_iff, bool_decide_eq_false.
Qed.

Lemma complete_n_stable n d cfg :
  config d = Some cfg → visible d cfg = [] → complete_n n d = Some d.
Proof.
  intros Hcfg Hv. induction n as [|n IH]; cbn; [done|].
  unfold CompleteCurrentTask. by rewrite Hcfg, Hv.
Qed.

Lemma IsComplete_visible d cfg :
  config d = Some cfg → IsComplete d = true ↔ visible d cfg = [].
Proof. intros Hcfg. unfold IsComplete. rewrite Hcfg. by destruct (visible d cfg). Qed.

Lemma complete_n_finishes n : ∀ d cfg,
  config d = Some cfg → (length (incomplete d cfg) ≤ n)%nat →
  ∃ d', complete_n n d = Some d' ∧ IsComplete d' = true.
Proof.
  induction n as [|n IH]; intros d cfg Hcfg Hn;
    destruct (visible d cfg) as [|t ts] eqn:Ev;
    try (exists d; rewrite (complete_n_stable _ _ cfg), (IsComplete_visible _ cfg); done).
  - rewrite visible_incomplete in Ev; [done|].
    destruct (incomplete d cfg); [done|cbn in Hn; lia].
  - cbn. unfold CompleteCurrentTask. rewrite Hcfg, Ev. apply (IH _ cfg).
    + by apply complete_config.
    + assert (t ∈ visible d cfg) as Ht by (rewrite Ev; apply list_elem_of_here).
      pose proof (incomplete_drop d cfg t Hcfg Ht). lia.
Qed.
End progress.

(** ** Properties *)

Section properties.
Context `{Regexp}.


(** C18: in every reachable state each stored value was accepted by
    [Validate] of a variable of that name of that task, and every completed
    task was unlocked: its [VisibleAfterTaskID] is empty or completed. *)
Theorem reachable_values_and_dependencies d cfg d0 d' :
  LoadTaskGroup d cfg = Ok d0 → rtc (dcm_step cfg) d0 d' →
  values_valid d' cfg ∧ dependencies_respected d' cfg.
Proof.
  intros Hl Hr. apply dcm_inv_load in Hl.
  destruct (dcm_inv_reachable cfg _ _ Hr Hl). done.
Qed.

(** C9: [handleSetVariable] implements the specification [capture], which is
    deterministic: on every branch the completed tasks and stored values
    change as specified and the text returned to the model is the outcome's. *)
Theorem handleSetVariable_implements_capture d cfg name call :
  config d = Some cfg →
  let value := extractParam call "value" in
  let r := handleSetVariable d name call in
  ∃ o, capture cfg name value (abs d) o (abs r.1) ∧ r.2 = render name value o ∧
    ∀ o' s', capture cfg name value (abs d) o' s' → o' = o ∧ s' = abs r.1.
Proof.
  intros Hcfg value r.
  destruct (handleSetVariable_refines d cfg name call Hcfg) as (o & Hc & Hr).
  exists o. split_and!; [done..|]. intros o' s' Hc'. eapply capture_deterministic; eauto.
Qed.


(** C35: when the model answers every variable of a visible task with a valid
    value, in any order, the task is completed at the end. *)
Theorem answered_task_completes d cfg t calls :
  config d = Some cfg → t ∈ visible d cfg → calls ≠ [] → answers cfg t calls →
  (∀ v, v ∈ Variables t → ∃ call, (tv_Name v, call) ∈ calls) →
  ID t ∈ completedTasks (run_calls d calls).
Proof.
  intros Hcfg [Ht Hs]%visible_spec Hne Hans Hcov.
  apply (answering_all_done _ t calls); [done..|].
  apply (answering_run cfg t calls d []); [done..|]. right.
  split_and!; [done| |done]. intros n []%not_elem_of_nil.
Qed.

(** C36: completing the first visible task as many times as the group has
    tasks always ends the group, whatever was completed before. *)
Theorem group_can_be_finished d cfg :
  config d = Some cfg →
  ∃ d', complete_n (length (Tasks cfg)) d = Some d' ∧ IsComplete d' = true.
Proof.
  intros Hcfg. apply (complete_n_finishes _ _ cfg Hcfg).
  unfold incomplete. induction (Tasks cfg) as [|t ts IH]; cbn; [lia|].
  destruct (negb _); cbn; lia.
Qed.
End properties.

(** ** Witnesses *)

Definition demo_regexp : Regexp :=
  {| regexpCompile p := if String.eqb p "[" then None
                        else Some (λ s, String.eqb s "5551234") |}.

Definition demo_name : TaskVariable := mkTaskVariable "name" "Full name" "" [] "" false [].
Definition demo_phone : TaskVariable := mkTaskVariable "phone" "Phone" "^[0-9]+$" [] "" true [].

Definition demo_greet : TaskDef := mkTaskDef "greet" "Greet" "Say hello." [demo_name] "" [] "".
Definition demo_contact : TaskDef :=
  mkTaskDef "contact" "Contact" "Ask the phone." [demo_phone] "" [] "greet".

Definition demo_cfg : TaskGroupConfig :=
  mkTaskGroupConfig "demo" "" "greet" [] [demo_greet; demo_contact].

Definition demo_base : LLMContextManager :=
  SetContext (NewLLMContextManager DefaultLLMContextManagerConfig)
    (mkLLMContext [text_message "system" "You are a receptionist."] []).

Definition demo_load : result DynamicContextManager :=
  LoadTaskGroup (NewDynamicContextManager demo_base) demo_cfg.

Definition demo_start : DynamicContextManager :=
  match demo_load with
  | Ok d => d
  | Err _ => NewDynamicContextManager demo_base
  end.

Definition demo_call (v : string) : LLMToolCall :=
  mkLLMToolCall "set_name" (Some {["value" := AnyString v]}).

Definition demo_named : DynamicContextManager :=
  (@handleSetVariable demo_regexp demo_start "name" (demo_call "Ada")).1.

Lemma demo_load_ok : demo_load = Ok demo_start.
Proof. reflexivity. Qed.

Lemma demo_reachable : rtc (@dcm_step demo_regexp demo_cfg) demo_start demo_named.
Proof. apply rtc_once, (@step_set demo_regexp). Qed.

Example demo_current : CurrentTaskID demo_named = Some "contact".
Proof. vm_compute. reflexivity. Qed.


Lemma reachable_values_and_dependencies_witness :
  @values_valid demo_regexp demo_named demo_cfg ∧ dependencies_respected demo_named demo_cfg.
Proof.
  exact (@reachable_values_and_dependencies demo_regexp _ _ _ _ demo_load_ok demo_reachable).
Defined.

Lemma handleSetVariable_implements_capture_witness :
  let r := @handleSetVariable demo_regexp demo_start "name" (demo_call "Ada") in
  ∃ o, @capture demo_regexp demo_cfg "name" "Ada" (abs demo_start) o (abs r.1) ∧
    r.2 = render "name" "Ada" o.
Proof.
  destruct (@handleSetVariable_implements_capture demo_regexp demo_start demo_cfg "name"
    (demo_call "Ada") eq_refl) as (o & Hc & Hr & _). exists o. split; [exact Hc | exact Hr].
Defined.


Lemma demo_answers : @answers demo_regexp demo_cfg demo_greet [("name", demo_call "Ada")].
Proof.
  intros name call [= -> ->]%list_elem_of_singleton. split.
  - exists demo_name. split; reflexivity.
  - intros t' v' Ht' Hv' Hn. cbn in Ht'.
    apply elem_of_cons in Ht' as [->|Ht']; [done|].
    apply list_elem_of_singleton in Ht' as ->. cbn in Hv'. by apply list_elem_of_singleton in Hv' as ->.
Qed.

Lemma answered_task_completes_witness :
  "greet" ∈ completedTasks (@run_calls demo_regexp demo_start [("name", demo_call "Ada")]).
Proof.
  apply (@answered_task_completes demo_regexp demo_start demo_cfg demo_greet);
    [reflexivity | | discriminate | exact demo_answers |].
  - apply visible_spec. split; [apply list_elem_of_here | reflexivity].
  - intros v ->%list_elem_of_singleton. exists (demo_call "Ada"). apply list_elem_of_here.
Defined.

Lemma group_can_be_finished_witness :
  ∃ d', complete_n 2 demo_start = Some d' ∧ IsComplete d' = true.
Proof. apply (group_can_be_finished demo_start demo_cfg). reflexivity. Defined.
