(* ===== verification/ContextHandler.v ===== *)
(** * The two context aggregators: [handlers/context/context_handler.go]

    [LLMUserContextAggregator] turns transcripts into user messages and
    generation requests; [LLMAssistantContextAggregator] commits what the
    assistant said, and runs the tools the model calls.  Both share one
    manager.  A handler returns its effects in order: packets sent and
    goroutines spawned.  The false-positive timer is modelled with its three
    phases (pending, its function running, its signal delivered), because
    [Timer.Stop] only tells the first from the others. *)

From Stdlib Require Import Ascii.
From S2P Require Import Prelude Core Phrases TaskGroup ContextManager DynamicContext.

Local Open Scope string_scope.
Local Open Scope list_scope.
Local Open Scope Z_scope.

Inductive effect : Type :=
| Send (p : EventPacket)
| SpawnToolCall (toolId : string) (params : option (gmap string any))
| SpawnServerCall (serverURL : string) (call : LLMToolCall).

Definition relayer_name : string := "LLMContextManager".
Definition send_next (e : IEvent) : effect := Send (next_packet e relayer_name).
Definition send_top (e : IEvent) : effect := Send (top_packet e relayer_name).

(** The packets among the effects. *)
Definition sent (es : list effect) : list EventPacket :=
  omap (λ e, match e with Send p => Some p | _ => None end) es.

(** ** [variable_phrases.go] *)

Definition pick (l : list string) (rand : nat) : string :=
  default "" (l !! (rand mod length l)%nat).

(** [fmt.Sprintf] for a template whose only verbs are [%s]. *)
Fixpoint sprintf_s (t : string) (args : list string) : string :=
  match t with
  | String "%"%char (String "s"%char t') =>
      match args with
      | a :: args' => a +:+ sprintf_s t' args'
      | [] => "%!s(MISSING)" +:+ sprintf_s t' []
      end
  | String c t' => String c (sprintf_s t' args)
  | EmptyString => EmptyString
  end.

(** [strings.IndexByte(s, c)]. *)
Definition index_byte (c : Ascii.ascii) (s : string) : option nat :=
  str_index (String c EmptyString) s.

Definition descToSpeechLabel (description : string) : string :=
  let d := match index_byte "("%char description with
           | Some (S i) => trim_space (str_take (S i) description)
           | _ => description
           end in
  trim_right_set ".,;:" d.

Definition randomVariableConfirmPhrase (rand : nat) (description value : string)
    (custom : list string) : string :=
  match custom with
  | _ :: _ => replace_all (pick custom rand) "{{value}}" value
  | [] => sprintf_s (pick variableConfirmPhrases rand) [descToSpeechLabel description; value]
  end.

Definition randomAck (rand : nat) : string := pick continueListeningAcks rand.

(** ** The user aggregator *)

Record LLMUserContextAggregator := mkUser {
  falsePositiveTimer : option LLMContext;     (* pending: its captured context *)
  timerStarted : bool;                        (* the field is set and the timer expired *)
  inFlight : list LLMContext;                 (* expired functions that have not signalled *)
  falsePositiveRegenerateChan : option (list LLMContext)   (* nil, or the buffer of size 1 *)
}.

(** As [GetUserContextAggregator] builds it: nil channel, no timer. *)
Definition GetUserContextAggregator : LLMUserContextAggregator := mkUser None false [] None.

(** [Init] makes the channel. *)
Definition user_Init (u : LLMUserContextAggregator) : LLMUserContextAggregator :=
  mkUser (falsePositiveTimer u) (timerStarted u) (inFlight u) (Some []).

(** The [falsePositiveTimer] field is non-nil. *)
Definition timer_set (u : LLMUserContextAggregator) : bool :=
  match falsePositiveTimer u with Some _ => true | None => timerStarted u end.

(** A pending timer is stopped; after an expired one the channel is drained. *)
Definition stopFalsePositiveTimer (u : LLMUserContextAggregator) : LLMUserContextAggregator :=
  match falsePositiveTimer u with
  | Some _ => mkUser None false (inFlight u) (falsePositiveRegenerateChan u)
  | None =>
      if timerStarted u
      then mkUser None false (inFlight u) (tail <$> falsePositiveRegenerateChan u)
      else u
  end.

(** The runtime starts the timer's function. *)
Definition timer_expires (u : LLMUserContextAggregator) : LLMUserContextAggregator :=
  match falsePositiveTimer u with
  | Some c => mkUser None true (inFlight u ++ [c]) (falsePositiveRegenerateChan u)
  | None => u
  end.

(** The function's non-blocking send: dropped on a nil or full channel. *)
Definition timer_signals (u : LLMUserContextAggregator) : LLMUserContextAggregator :=
  match inFlight u with
  | [] => u
  | c :: rest =>
      mkUser (falsePositiveTimer u) (timerStarted u) rest
        (match falsePositiveRegenerateChan u with
         | Some [] => Some [c]
         | ch => ch
         end)
  end.

(** The receive branch of [eventLoop]: [None] when nothing can be received. *)
Definition regenerate (u : LLMUserContextAggregator)
    : option (LLMUserContextAggregator * list effect) :=
  match falsePositiveRegenerateChan u with
  | Some (c :: rest) =>
      Some (mkUser (falsePositiveTimer u) (timerStarted u) (inFlight u) (Some rest),
            [send_next (LLMGenerateResponseEvent c)])
  | _ => None
  end.

Definition user_HandleEvent (m : LLMContextManager) (u : LLMUserContextAggregator)
    (packet : EventPacket) : LLMContextManager * LLMUserContextAggregator * list effect :=
  match Event packet with
  | VadInterruptionSuspectedEvent =>
      let u1 := stopFalsePositiveTimer u in
      let u2 := match context m with
                | Some c => mkUser (Some c) false (inFlight u1) (falsePositiveRegenerateChan u1)
                | None => u1
                end in
      (m, u2, [Send packet])
  | STTInterimOutputEvent text =>
      let '(u1, confirm) :=
        if timer_set u
        then (stopFalsePositiveTimer u, [send_next VadInterruptionConfirmedEvent])
        else (u, []) in
      (m, u1, confirm ++ [send_next (LLMPrepareInterimFillerEvent text (context m)); Send packet])
  | STTFinalOutputEvent text =>
      let u1 := stopFalsePositiveTimer u in
      let ctx := append_message (default (mkLLMContext [] []) (context m))
                   (text_message "user" text) in
      (set_context m (Some ctx), u1,
       [send_next (LLMGenerateResponseEvent ctx); Send packet])
  | _ => (m, u, [Send packet])
  end.

(** ** The assistant aggregator *)

Record LLMAssistantContextAggregator := mkAssistant {
  spokenBuffer : string;
  hasActiveTurn : bool;
  interrupted : bool
}.

Definition GetAssistantContextAggregator : LLMAssistantContextAggregator :=
  mkAssistant "" false false.

Definition isWhitespace (c : Ascii.ascii) : bool :=
  let n := Ascii.nat_of_ascii c in
  (Nat.eqb n 32 || Nat.eqb n 9 || Nat.eqb n 10 || Nat.eqb n 13)%bool.

Fixpoint last_char (s : string) : option Ascii.ascii :=
  match s with
  | EmptyString => None
  | String c EmptyString => Some c
  | String _ s' => last_char s'
  end.

(** One spoken chunk joined to the buffer, with a space where neither side
    has one. *)
Definition join_spoken (buffer text : string) : string :=
  match last_char buffer, text with
  | Some c, String t _ =>
      if (negb (isWhitespace c) && negb (isWhitespace t))%bool
      then buffer +:+ " " +:+ text else buffer +:+ text
  | _, _ => buffer +:+ text
  end.

Definition commitAssistantMessage (m : LLMContextManager) (text : string) : LLMContextManager :=
  let text' := trim_space text in
  if String.eqb text' "" then m
  else set_context m (Some (append_message (default (mkLLMContext [] []) (context m))
                              (text_message "assistant" text'))).

Definition tool_result_message (toolId result : string) : LLMMessage :=
  text_message "system" ("Tool " +:+ toolId +:+ " result: " +:+ result).

(** [None] is the nil dereference of the context in the tool-result branch. *)
Definition assistant_HandleEvent (m : LLMContextManager) (a : LLMAssistantContextAggregator)
    (rand : nat) (packet : EventPacket)
    : option (LLMContextManager * LLMAssistantContextAggregator * list effect) :=
  match Event packet with
  | LLMToolInvocationRequestedEvent toolId params =>
      if String.eqb toolId ContinueListeningToolId
      then Some (m, a, [send_next (TTSSpeakEvent (randomAck rand)); Send packet])
      else Some (m, a, [SpawnToolCall toolId params; Send packet])
  | LLMResponseStartedEvent => Some (m, mkAssistant "" true false, [Send packet])
  | TTSSpokenTextChunkEvent text =>
      let a' := if (hasActiveTurn a && negb (interrupted a))%bool
                then mkAssistant (join_spoken (spokenBuffer a) text) (hasActiveTurn a) (interrupted a)
                else a in
      Some (m, a', [Send packet])
  | VadInterruptionConfirmedEvent =>
      if hasActiveTurn a
      then Some (commitAssistantMessage m (spokenBuffer a), mkAssistant "" false true, [Send packet])
      else Some (m, a, [Send packet])
  | LLMResponseCompletedEvent fullText =>
      let m' := if (hasActiveTurn a && negb (interrupted a))%bool
                then commitAssistantMessage m fullText else m in
      Some (m', mkAssistant "" false (interrupted a), [Send packet])
  | LLMToolInvocationResultEvent toolId result =>
      let m' := if negb (String.eqb result "")
                then add_message m (tool_result_message toolId result) else m in
      if String.eqb toolId ContinueListeningToolId then Some (m', a, [Send packet])
      else match context m' with
           | None => None
           | Some c => Some (m', a, [send_top (LLMGenerateResponseEvent c); Send packet])
           end
  | _ => Some (m, a, [Send packet])
  end.

(** ** Tool calls *)

(** What the HTTP client reports for a server tool. *)
Inductive http_outcome : Type :=
| MarshalFailed
| PostFailed
| ReadFailed
| Response (status : Z) (body : string).

Definition callServerTool (o : http_outcome) : string :=
  match o with
  | MarshalFailed => "Error: failed to prepare tool call request"
  | PostFailed => "Error: failed to reach tool server"
  | ReadFailed => "Error: failed to read tool server response"
  | Response status body =>
      if ((status <? 200) || (300 <=? status))%bool
      then "Error: tool server returned status " +:+ itoa status
      else body
  end.

(** The goroutine of a server tool, once the call has come back. *)
Definition server_tool_done (toolId : string) (o : http_outcome) : list effect :=
  [send_top (LLMToolInvocationResultEvent toolId (callServerTool o))].

Definition isVariableToolError (result : string) : bool :=
  (has_prefix "Invalid" result ||
   str_contains "is not expected in any currently active task" result ||
   str_contains "No task group is currently loaded" result)%bool.

Section tool_calls.
Context `{Regexp}.

Definition run_tool_handler (d : DynamicContextManager) (h : ToolHandlerFunc)
    (call : LLMToolCall) : DynamicContextManager * string :=
  match h with
  | PureHandler f => (d, f call)
  | SetVariableHandler captured => handleSetVariable d captured call
  end.

Definition with_base (f : LLMContextManager → LLMContextManager) (d : DynamicContextManager)
    : DynamicContextManager := set_base d (f (base d)).

Definition HandleToolCall (d : DynamicContextManager) (rand : nat) (toolId : string)
    (params : option (gmap string any)) : DynamicContextManager * list effect :=
  let toolCall := mkLLMToolCall toolId params in
  match eventToolHandlers (base d) !! toolId with
  | Some (EventHandler f) =>
      let '(result, event) := f toolCall in
      let d' := if negb (String.eqb result "")
                then with_base (λ m, add_message m (tool_result_message toolId result)) d
                else d in
      (d', match event with Some e => [send_top e] | None => [] end)
  | None =>
      let server := match findToolByID (base d) toolId with
                    | Some tool => ServerURL tool
                    | None => ""
                    end in
      if negb (String.eqb server "") then (d, [SpawnServerCall server toolCall]) else
      match toolHandlers (base d) !! toolId with
      | None => (d, [])
      | Some toolHandler =>
          let '(d1, result) := run_tool_handler d toolHandler toolCall in
          match variableTools (base d1) !! toolId with
          | Some info =>
              if (vi_AutoConfirm info && negb (isVariableToolError result))%bool
              then
                let confirmText := randomVariableConfirmPhrase rand (vi_Description info)
                  (extractParam toolCall "value") (vi_ConfirmPhrases info) in
                (with_base (λ m, add_message (commitAssistantMessage m confirmText)
                   (tool_result_message toolId (result +:+ " Waiting for caller to confirm."))) d1,
                 [send_top (LLMVariableConfirmRequestEvent confirmText)])
              else (d1, [send_top (LLMToolInvocationResultEvent toolId result)])
          | None => (d1, [send_top (LLMToolInvocationResultEvent toolId result)])
          end
      end
  end.
End tool_calls.

Example confirm_phrase_ex :
  randomVariableConfirmPhrase 4 "Phone number (7 digits)." "555" [] =
  "Ok, so your Phone number is 555 — did I get that right?".
Proof. reflexivity. Qed.
