(* ===== verification/ContextHandlerProofs.v ===== *)
(** * Correctness of the context aggregators

    The assistant aggregator refines a two-state turn machine; the user
    aggregator never regenerates a response after real speech was heard; a
    value that failed validation is never read back as captured. *)

From S2P Require Import Prelude Core Phrases TaskGroup ContextManager DynamicContext.
From S2P Require Import DynamicContextProofs ContextHandler.

Local Open Scope string_scope.
Local Open Scope list_scope.
Local Open Scope Z_scope.

(** ** The turn machine *)

Inductive turn : Type :=
| Idle
| Speaking (chunks : list string).

Definition spoken (chunks : list string) : string := fold_left join_spoken chunks "".

Definition assistant_message (text : string) : list LLMMessage :=
  if String.eqb (trim_space text) "" then [] else [text_message "assistant" (trim_space text)].

(** The messages one event adds to the conversation. *)
Definition turn_step (t : turn) (e : IEvent) : turn * list LLMMessage :=
  match e, t with
  | LLMResponseStartedEvent, _ => (Speaking [], [])
  | TTSSpokenTextChunkEvent text, Speaking cs => (Speaking (cs ++ [text]), [])
  | VadInterruptionConfirmedEvent, Speaking cs => (Idle, assistant_message (spoken cs))
  | LLMResponseCompletedEvent full, Speaking _ => (Idle, assistant_message full)
  | LLMToolInvocationResultEvent toolId result, _ =>
      (t, if negb (String.eqb result "") then [tool_result_message toolId result] else [])
  | _, _ => (t, [])
  end.

Fixpoint turn_run (t : turn) (es : list IEvent) : turn * list LLMMessage :=
  match es with
  | [] => (t, [])
  | e :: es' =>
      let '(t1, ms) := turn_step t e in
      let '(t2, ms') := turn_run t1 es' in
      (t2, ms ++ ms')
  end.

Fixpoint assistant_run (m : LLMContextManager) (a : LLMAssistantContextAggregator)
    (es : list (nat * EventPacket))
    : option (LLMContextManager * LLMAssistantContextAggregator * list effect) :=
  match es with
  | [] => Some (m, a, [])
  | (r, p) :: es' =>
      match assistant_HandleEvent m a r p with
      | None => None
      | Some (m1, a1, eff) =>
          match assistant_run m1 a1 es' with
          | None => None
          | Some (m2, a2, eff') => Some (m2, a2, eff ++ eff')
          end
      end
  end.

(** The aggregator's fields represent a turn. *)
Definition represents (a : LLMAssistantContextAggregator) (t : turn) : Prop :=
  match t with
  | Idle => hasActiveTurn a = false
  | Speaking cs => hasActiveTurn a = true ∧ interrupted a = false ∧ spokenBuffer a = spoken cs
  end.

Lemma commit_spec m c text :
  context m = Some c →
  context (commitAssistantMessage m text) =
  Some (with_messages c (Messages c ++ assistant_message text)).
Proof.
  intros Hc. unfold commitAssistantMessage, assistant_message.
  destruct (String.eqb _ _); cbn; rewrite Hc; [by rewrite app_nil_r; destruct c|done].
Qed.

(** Every effect list ends with the packet forwarded. *)
Definition forwards (p : EventPacket) (effs : list effect) : Prop :=
  ∃ pre, effs = pre ++ [Send p].

Lemma assistant_step_refines m a t c r p :
  context m = Some c → represents a t →
  ∃ m' a' effs,
    assistant_HandleEvent m a r p = Some (m', a', effs) ∧ forwards p effs ∧
    represents a' (turn_step t (Event p)).1 ∧
    context m' = Some (with_messages c (Messages c ++ (turn_step t (Event p)).2)).
Proof.
  intros Hc Hr.
  assert (∀ x : LLMContext, with_messages x (Messages x ++ []) = x) as Hnil.
  { intros []. unfold with_messages. cbn. by rewrite app_nil_r. }
  assert (∀ q, forwards q [Send q]) as Hf1 by (intros q; by exists []).
  assert (∀ x q, forwards q [x; Send q]) as Hf2 by (intros x q; by exists [x]).
  unfold assistant_HandleEvent, turn_step.
  destruct (Event p) eqn:Ep;
    try (do 3 eexists; split_and!; [reflexivity|done|by destruct t|by rewrite Hnil]).
  - (* response completed *)
    destruct t as [|cs]; cbn in Hr.
    + rewrite Hr. do 3 eexists. split_and!; [reflexivity|done|done|by rewrite Hnil].
    + destruct Hr as (-> & Hi & _). rewrite Hi.
      do 3 eexists. split_and!; [reflexivity|done|done|by apply commit_spec].
  - (* tool requested *)
    destruct (String.eqb _ _); do 3 eexists; (split_and!; [reflexivity|done|by destruct t|by rewrite Hnil]).
  - (* tool result *)
    assert (∃ c', context (if negb (String.eqb Result "")
        then add_message m (tool_result_message ToolId Result) else m) = Some c' ∧
      c' = with_messages c (Messages c ++ (if negb (String.eqb Result "")
        then [tool_result_message ToolId Result] else []))) as (c' & Hc' & Heq).
    { destruct (negb _); eexists; (split; [by eauto using add_message_tools|]); [done|by rewrite Hnil]. }
    rewrite Hc'. destruct (String.eqb ToolId _); do 3 eexists;
      (split_and!; [reflexivity|done|by destruct t|destruct t; by rewrite Hc', Heq]).
  - (* spoken chunk *)
    destruct t as [|cs]; cbn in Hr.
    + rewrite Hr. do 3 eexists. split_and!; [reflexivity|done|done|by rewrite Hnil].
    + destruct Hr as (-> & Hi & Hb). rewrite Hi.
      do 3 eexists. split_and!; [reflexivity|done| |by rewrite Hnil].
      cbn. split_and!; [done..|]. unfold spoken. by rewrite fold_left_app, Hb.
  - (* confirmed interruption *)
    destruct t as [|cs]; cbn in Hr.
    + rewrite Hr. do 3 eexists. split_and!; [reflexivity|done|done|by rewrite Hnil].
    + destruct Hr as (-> & _ & ->).
      do 3 eexists. split_and!; [reflexivity|done|done|by apply commit_spec].
Qed.

Lemma assistant_run_refines es : ∀ m a t c,
  context m = Some c → represents a t →
  ∃ m' a' effs,
    assistant_run m a es = Some (m', a', effs) ∧
    represents a' (turn_run t (map (Event ∘ snd) es)).1 ∧
    context m' = Some (with_messages c
      (Messages c ++ (turn_run t (map (Event ∘ snd) es)).2)).
Proof.
  induction es as [|[r p] es IH]; intros m a t c Hc Hr; cbn.
  - do 3 eexists. split_and!; [done|done|]. rewrite app_nil_r. by destruct c.
  - destruct (assistant_step_refines m a t c r p Hc Hr)
      as (m1 & a1 & eff1 & -> & _ & Hr1 & Hc1).
    destruct (turn_step t (Event p)) as [t1 ms] eqn:Et.
    destruct (IH m1 a1 t1 _ Hc1 Hr1) as (m2 & a2 & eff2 & -> & Hr2 & Hc2).
    destruct (turn_run t1 _) as [t2 ms'] eqn:Et2.
    do 3 eexists. split_and!; [reflexivity|done|]. rewrite Hc2. cbn.
    by rewrite app_assoc.
Qed.

(** Assistant messages are paid for by response starts. *)
Definition assistant_count (ms : list LLMMessage) : nat :=
  length (List.filter (λ m, String.eqb (Role m) "assistant") ms).

Definition is_started (e : IEvent) : bool :=
  match e with
  | LLMResponseStartedEvent => true
  | _ => false
  end.

Lemma assistant_message_count text : (assistant_count (assistant_message text) ≤ 1)%nat.
Proof. unfold assistant_message. destruct (String.eqb _ _); cbn; lia. Qed.

Definition turn_credit (t : turn) : nat :=
  match t with
  | Idle => 0
  | Speaking _ => 1
  end%nat.

Lemma turn_step_credit t e :
  (assistant_count (turn_step t e).2 + turn_credit (turn_step t e).1
   ≤ turn_credit t + (if is_started e then 1 else 0))%nat.
Proof.
  destruct e, t; cbn -[assistant_count assistant_message]; try (cbn; lia);
    try (destruct (negb _); cbn; lia);
    match goal with |- context [assistant_message ?x] =>
      pose proof (assistant_message_count x); lia end.
Qed.

Lemma turn_run_credit es : ∀ t,
  (assistant_count (turn_run t es).2 ≤
   turn_credit t + length (List.filter is_started es))%nat.
Proof.
  induction es as [|e es IH]; intros t; cbn; [lia|].
  pose proof (turn_step_credit t e) as Hs. destruct (turn_step t e) as [t1 ms].
  specialize (IH t1). destruct (turn_run t1 es) as [t2 ms']. cbn in *.
  unfold assistant_count in *. rewrite List.filter_app, length_app.
  destruct (is_started e); cbn; lia.
Qed.

(** Joining words only ever adds single spaces between them. *)
Fixpoint without_spaces (s : string) : string :=
  match s with
  | EmptyString => EmptyString
  | String c s' => if isWhitespace c then without_spaces s' else String c (without_spaces s')
  end.

Lemma without_spaces_app s t :
  without_spaces (s +:+ t) = without_spaces s +:+ without_spaces t.
Proof.
  induction s as [|c s IH]; [done|]. rewrite string_app_cons. cbn [without_spaces].
  destruct (isWhitespace c); rewrite IH; done.
Qed.

Lemma join_spoken_words b t :
  without_spaces (join_spoken b t) = without_spaces b +:+ without_spaces t.
Proof.
  unfold join_spoken. destruct (last_char b), t as [|x t]; try apply without_spaces_app.
  destruct (_ && _)%bool; by rewrite !without_spaces_app.
Qed.

Lemma spoken_words_from cs : ∀ b,
  without_spaces (fold_left join_spoken cs b) =
  without_spaces b +:+ str_join "" (map without_spaces cs).
Proof.
  induction cs as [|c cs IH]; intros b; cbn.
  - symmetry. apply string_app_nil_r.
  - rewrite IH, join_spoken_words, string_app_assoc. f_equal.
    destruct cs; cbn; [|done].
    apply string_app_nil_r.
Qed.

(** ** Runs of the user aggregator *)

Inductive user_input : Type :=
| UEvent (p : EventPacket)
| UExpire                      (* the runtime starts the timer's function *)
| USignal                      (* that function reaches its send *)
| UFire                        (* both at once *)
| URegenerate.                 (* the event loop's receive branch, if ready *)

Definition user_apply (m : LLMContextManager) (u : LLMUserContextAggregator) (i : user_input)
    : LLMContextManager * LLMUserContextAggregator * list effect :=
  match i with
  | UEvent p => user_HandleEvent m u p
  | UExpire => (m, timer_expires u, [])
  | USignal => (m, timer_signals u, [])
  | UFire => (m, timer_signals (timer_expires u), [])
  | URegenerate => match regenerate u with
                   | Some (u', effs) => (m, u', effs)
                   | None => (m, u, [])
                   end
  end.

Fixpoint user_run (m : LLMContextManager) (u : LLMUserContextAggregator) (ins : list user_input)
    : LLMContextManager * LLMUserContextAggregator :=
  match ins with
  | [] => (m, u)
  | i :: ins' => let '(m', u', _) := user_apply m u i in user_run m' u' ins'
  end.

Definition is_suspected (i : user_input) : bool :=
  match i with
  | UEvent p => match Event p with VadInterruptionSuspectedEvent => true | _ => false end
  | _ => false
  end.

Definition is_stt (e : IEvent) : bool :=
  match e with
  | STTInterimOutputEvent _ | STTFinalOutputEvent _ => true
  | _ => false
  end.

(** The timer's function signals as soon as it is started. *)
Definition prompt (i : user_input) : bool :=
  match i with
  | UExpire | USignal => false
  | _ => true
  end.

Lemma user_run_preserves (P : LLMUserContextAggregator → Prop) (Q : user_input → bool) :
  (∀ m u i, P u → Q i = true → P (user_apply m u i).1.2) →
  ∀ ins m u, P u → forallb Q ins = true → P (user_run m u ins).2.
Proof.
  intros Hstep. induction ins as [|i ins IH]; intros m u Hp Hq; cbn; [done|].
  cbn in Hq. apply andb_true_iff in Hq as [Hi Hins].
  pose proof (Hstep m u i Hp Hi) as Hp'. destruct (user_apply m u i) as [[m' u'] e].
  by apply IH.
Qed.

(** Case analysis on an event, a step of the timer or a receive. *)
Ltac user_cases :=
  intros m u [p| | | |]; cbn [user_apply];
  [unfold user_HandleEvent; destruct (Event p); try (cbn; tauto) | ..];
  unfold stopFalsePositiveTimer, timer_set, timer_expires, timer_signals, regenerate;
  destruct u as [[c|] [] [|f fs] [[|r rs]|]]; destruct (context m); cbn.

(** Without [Init] the channel is nil for ever. *)
Lemma nil_channel_stays m u i :
  falsePositiveRegenerateChan u = None →
  falsePositiveRegenerateChan (user_apply m u i).1.2 = None.
Proof. revert m u i. user_cases; done. Qed.

(** With [Init] and prompt signals: the buffer holds at most one context, and
    only while an expired timer is still set. *)
Definition timer_inv (u : LLMUserContextAggregator) : Prop :=
  inFlight u = [] ∧
  (falsePositiveRegenerateChan u = Some [] ∨
   ∃ c, falsePositiveRegenerateChan u = Some [c] ∧
        falsePositiveTimer u = None ∧ timerStarted u = true).

Definition quiet (u : LLMUserContextAggregator) : Prop :=
  inFlight u = [] ∧ falsePositiveTimer u = None ∧ timerStarted u = false ∧
  falsePositiveRegenerateChan u = Some [].

Lemma timer_inv_step m u i :
  timer_inv u → prompt i = true → timer_inv (user_apply m u i).1.2.
Proof. unfold timer_inv. revert m u i. user_cases; naive_solver. Qed.

Lemma quiet_step m u i :
  quiet u → (prompt i && negb (is_suspected i))%bool = true → quiet (user_apply m u i).1.2.
Proof.
  intros (Hf & Ht & Hs & Hc). destruct u as [t s f c]. cbn in *. subst.
  destruct i as [p| | | |]; cbn; try done. unfold user_HandleEvent.
  destruct (Event p); cbn; done.
Qed.

Lemma stt_quiets m u p :
  timer_inv u → is_stt (Event p) = true → quiet (user_apply m u (UEvent p)).1.2.
Proof.
  intros [Hf Hc] Hstt. destruct u as [t s f c]. cbn in *. subst f.
  unfold user_HandleEvent, stopFalsePositiveTimer, timer_set, quiet.
  destruct (Event p); try done; cbn;
    destruct t, s; cbn; destruct Hc as [->|(? & -> & ? & ?)]; done.
Qed.

Lemma quiet_no_regenerate u : quiet u → regenerate u = None.
Proof. intros (_ & _ & _ & Hc). unfold regenerate. by rewrite Hc. Qed.

(** ** Tool calls *)

Lemma rejected_is_error name value o :
  (∀ t p, o ≠ Captured t p) → (∀ t, o ≠ TaskCompleted t) →
  isVariableToolError (render name value o) = true.
Proof.
  intros Hc Ht. unfold isVariableToolError. destruct o as [|v|t p|t]; cbn [render].
  - apply orb_true_iff. left. apply orb_true_iff. right.
    unfold not_expected_msg.
    change (" is not expected in any currently active task.") with
      (" " +:+ ("is not expected in any currently active task" +:+ ".")).
    rewrite <- !string_app_assoc. rewrite string_app_assoc. apply str_contains_mid.
  - apply orb_true_iff. left. apply orb_true_iff. left.
    unfold validationMsgLocked. destruct (Enum v); [destruct (negb _)|]; reflexivity.
  - by destruct (Hc t p).
  - by destruct (Ht t).
Qed.

Section tool_properties.
Context `{Regexp}.

(** What a call of a standard variable tool can do. *)
Lemma variable_tool_effects d cfg rand toolId name params :
  config d = Some cfg →
  eventToolHandlers (base d) !! toolId = None →
  toolHandlers (base d) !! toolId = Some (SetVariableHandler name) →
  let r := HandleToolCall d rand toolId params in
  let value := extractParam (mkLLMToolCall toolId params) "value" in
  (∃ url, r = (d, [SpawnServerCall url (mkLLMToolCall toolId params)])) ∨
  ∃ o, capture cfg name value (abs d) o (abs r.1) ∧
    (r.2 = [send_top (LLMToolInvocationResultEvent toolId (render name value o))] ∨
     ∃ text, r.2 = [send_top (LLMVariableConfirmRequestEvent text)] ∧
             isVariableToolError (render name value o) = false).
Proof.
  intros Hcfg Hev Hth r value. subst r. unfold HandleToolCall. rewrite Hev.
  destruct (negb (String.eqb _ "")); [left; by eexists|]. right.
  rewrite Hth. cbn [run_tool_handler].
  destruct (handleSetVariable_refines d cfg name (mkLLMToolCall toolId params) Hcfg)
    as (o & Hcap & Htext).
  destruct (handleSetVariable d name _) as [d1 result]. cbn [fst snd] in *.
  exists o. subst result. fold value in Hcap |- *.
  destruct (variableTools (base d1) !! toolId) as [info|]; [|by eauto].
  destruct (vi_AutoConfirm info); [|by eauto].
  destruct (isVariableToolError (render name value o)) eqn:He; cbn; [by eauto|].
  split; [exact Hcap|]. right. by eexists.
Qed.
End tool_properties.

(** ** Properties *)

(** C11: over any sequence of events the assistant aggregator is the two-state
    turn machine: it never fails, and the conversation grows by exactly the
    machine's messages (the full text of a turn that completed, the words
    spoken of a turn that was interrupted, and the tool results). *)
Theorem assistant_refines_turn_machine m c es :
  context m = Some c →
  let out := turn_run Idle (map (Event ∘ snd) es) in
  ∃ m' a' effs,
    assistant_run m GetAssistantContextAggregator es = Some (m', a', effs) ∧
    represents a' out.1 ∧
    context m' = Some (with_messages c (Messages c ++ out.2)).
Proof. intros Hc out. by apply assistant_run_refines. Qed.

(** at most one assistant message is committed per response started, and
    the words of an interrupted turn are the spoken chunks, in order, with
    nothing but single spaces added. *)
Theorem turn_commits_bounded es cs :
  (assistant_count (turn_run Idle es).2 ≤ length (List.filter is_started es))%nat ∧
  without_spaces (spoken cs) = str_join "" (map without_spaces cs).
Proof.
  split; [apply (turn_run_credit es Idle)|]. unfold spoken. by rewrite spoken_words_from.
Qed.

(** once the channel exists and expired timers signal promptly, after a
    transcript event no regeneration is pending or becomes pending until the
    next suspected interruption. *)
Theorem no_stale_regeneration m u p ins :
  timer_inv u → is_stt (Event p) = true →
  forallb (λ i, prompt i && negb (is_suspected i))%bool ins = true →
  let '(m1, u1, _) := user_HandleEvent m u p in
  regenerate (user_run m1 u1 ins).2 = None.
Proof.
  intros Hi Hp Hins. pose proof (stt_quiets m u p Hi Hp) as Hq. cbn in Hq.
  destruct (user_HandleEvent m u p) as [[m1 u1] effs]. cbn in Hq.
  apply quiet_no_regenerate.
  apply (user_run_preserves quiet (λ i, prompt i && negb (is_suspected i))%bool);
    [intros; by apply quiet_step|done|done].
Qed.

(** built as the program builds it (the [Init] method is never called), a
    user aggregator never regenerates a response: the false-positive recovery
    of a suspected interruption cannot happen. *)
Theorem regeneration_never_happens m ins :
  regenerate (user_run m GetUserContextAggregator ins).2 = None.
Proof.
  assert (falsePositiveRegenerateChan (user_run m GetUserContextAggregator ins).2 = None) as Hc.
  { apply (user_run_preserves (λ u, falsePositiveRegenerateChan u = None) (λ _, true));
      [intros; by apply nil_channel_stays|done|by induction ins]. }
  unfold regenerate. by rewrite Hc.
Qed.

Section confirmation.
Context `{Regexp}.

(** a spoken confirmation is requested only when the value was stored: a
    call that was not expected or failed validation goes back to the model as
    the tool's result. *)
Theorem confirmation_only_after_capture d cfg rand toolId name params text :
  config d = Some cfg →
  eventToolHandlers (base d) !! toolId = None →
  toolHandlers (base d) !! toolId = Some (SetVariableHandler name) →
  let r := HandleToolCall d rand toolId params in
  let value := extractParam (mkLLMToolCall toolId params) "value" in
  send_top (LLMVariableConfirmRequestEvent text) ∈ r.2 →
  ∃ o, capture cfg name value (abs d) o (abs r.1) ∧
    ((∃ t pending, o = Captured t pending) ∨ ∃ t, o = TaskCompleted t).
Proof.
  intros Hcfg Hev Hth r value Hin. subst r.
  destruct (variable_tool_effects d cfg rand toolId name params Hcfg Hev Hth)
    as [[url Hr]|(o & Hcap & [Hr|(t & Hr & He)])].
  - rewrite Hr in Hin. cbn in Hin. apply list_elem_of_singleton in Hin. done.
  - rewrite Hr in Hin. apply list_elem_of_singleton in Hin. done.
  - exists o. split; [done|]. destruct o; eauto; exfalso;
      rewrite rejected_is_error in He; done.
Qed.
End confirmation.

(** ** Witnesses *)

Definition wev (e : IEvent) : EventPacket := next_packet e "test".

Definition demo_turn : list (nat * EventPacket) :=
  map (λ e, (0%nat, wev e))
    [LLMResponseStartedEvent; TTSSpokenTextChunkEvent "Hello"; TTSSpokenTextChunkEvent "there";
     VadInterruptionConfirmedEvent; LLMResponseCompletedEvent "Hello there, how are you?"].

Example demo_turn_commits :
  (turn_run Idle (map (Event ∘ snd) demo_turn)).2 = [text_message "assistant" "Hello there"].
Proof. vm_compute. reflexivity. Qed.

Lemma assistant_refines_turn_machine_witness :
  ∃ m' a' effs,
    assistant_run demo_base GetAssistantContextAggregator demo_turn = Some (m', a', effs) ∧
    represents a' Idle.
Proof.
  destruct (assistant_refines_turn_machine demo_base
    (prepare_context (NewLLMContextManager DefaultLLMContextManagerConfig)
       (mkLLMContext [text_message "system" "You are a receptionist."] [])) demo_turn eq_refl)
    as (m' & a' & effs & Hr & Ha & _).
  exists m', a', effs. split; [exact Hr | exact Ha].
Defined.

Definition demo_user : LLMUserContextAggregator :=
  (user_run demo_base (user_Init GetUserContextAggregator)
     [UEvent (wev VadInterruptionSuspectedEvent); UFire]).2.

Lemma no_stale_regeneration_witness :
  is_Some (regenerate demo_user) ∧
  let '(m1, u1, _) := user_HandleEvent demo_base demo_user (wev (STTFinalOutputEvent "hi")) in
  regenerate (user_run m1 u1 [URegenerate; UFire]).2 = None.
Proof.
  split; [by eexists|].
  apply (no_stale_regeneration demo_base demo_user (wev (STTFinalOutputEvent "hi"))
    [URegenerate; UFire]); [|reflexivity|reflexivity].
  split; [reflexivity|]. right. eexists. split; [reflexivity|]. split; reflexivity.
Defined.

Definition demo_params : option (gmap string any) := Some {["value" := AnyString "5551234"]}.

Lemma confirmation_only_after_capture_witness :
  ∃ o, @capture demo_regexp demo_cfg "phone"
         (extractParam (mkLLMToolCall "set_phone" demo_params) "value") (abs demo_named) o
         (abs (@HandleToolCall demo_regexp demo_named 0 "set_phone" demo_params).1) ∧
    ((∃ t pending, o = Captured t pending) ∨ ∃ t, o = TaskCompleted t).
Proof.
  apply (@confirmation_only_after_capture demo_regexp demo_named demo_cfg 0 "set_phone"
    "phone" demo_params "Ok, so I've got your Phone as 5551234 — is that right?");
    [vm_compute; reflexivity | vm_compute; reflexivity | vm_compute; reflexivity |].
  vm_compute. apply list_elem_of_here.
Defined.
