(* ===== verification/ActivityControl.v ===== *)
(** * The audio gate: [handlers/activity_control/activity_control_handler.go]

    [ActivityControlHandler] forwards synthesized audio, holds it back while
    an interruption is suspected, drops it when the interruption is confirmed
    and plays it when the confirmation timer runs out.  Events and the resume
    signal are handled by one goroutine, one at a time.  A timer that expired
    is first a running function, then a signal in the one-place channel; a
    timer whose field was overwritten can no longer be stopped. *)

From S2P Require Import Prelude Core.

Local Open Scope string_scope.
Local Open Scope list_scope.
Local Open Scope Z_scope.

(** Durations in nanoseconds. *)
Record Config := mkConfig { ConfirmationTimeout : Z; RollbackDuration : Z }.

Definition millisecond : Z := 1000000.

Definition DefaultConfig : Config := mkConfig (1500 * millisecond) (1500 * millisecond).

Record ActivityControlHandler := mkActivityControl {
  cachedChunks : list EventPacket;
  speakingStartTime : option Z;          (* [None] is the zero time *)
  totalSentDuration : list (Z * Z);      (* the exact terms of the float sum *)
  isSpeaking : bool;
  isSuspended : bool;
  confirmTimer : bool;                   (* the timer in the field is pending *)
  orphanTimers : nat;                    (* pending timers no field refers to *)
  firing : nat;                          (* expired functions before their send *)
  resumeChan : bool;                     (* the one-place channel is full *)
  config : Config
}.

Definition NewActivityControlHandler (cfg : Config) : ActivityControlHandler :=
  let ct := if ConfirmationTimeout cfg =? 0 then 1500 * millisecond
            else ConfirmationTimeout cfg in
  let rd := if RollbackDuration cfg =? 0 then 1500 * millisecond
            else RollbackDuration cfg in
  mkActivityControl [] None [] false false false 0 0 false (mkConfig ct rd).

Definition set_timer (h : ActivityControlHandler) (timer : bool) (orphans fire : nat) (ch : bool) :=
  mkActivityControl (cachedChunks h) (speakingStartTime h) (totalSentDuration h) (isSpeaking h)
    (isSuspended h) timer orphans fire ch (config h).

Definition set_gate (h : ActivityControlHandler) (cached : list EventPacket) (susp : bool) :=
  mkActivityControl cached (speakingStartTime h) (totalSentDuration h) (isSpeaking h)
    susp (confirmTimer h) (orphanTimers h) (firing h) (resumeChan h) (config h).

Definition set_playback (h : ActivityControlHandler) (start : option Z) (sent : list (Z * Z))
    (speaking : bool) :=
  mkActivityControl (cachedChunks h) start sent speaking (isSuspended h)
    (confirmTimer h) (orphanTimers h) (firing h) (resumeChan h) (config h).

(** [startConfirmTimer]: a pending timer still in the field becomes an orphan. *)
Definition startConfirmTimer (h : ActivityControlHandler) : ActivityControlHandler :=
  set_timer h true (if confirmTimer h then S (orphanTimers h) else orphanTimers h)
    (firing h) (resumeChan h).

Definition stopConfirmTimer (h : ActivityControlHandler) : ActivityControlHandler :=
  set_timer h false (orphanTimers h) (firing h) (resumeChan h).

Definition relayer_name : string := "ActivityControlHandler".

(** What [TTSOutputEvent] packets carry, and the duration a packet adds. *)
Definition audio_duration (p : EventPacket) : list (Z * Z) :=
  match Event p with
  | TTSOutputEvent chunk => [GetDurationInSeconds chunk]
  | _ => []
  end.

Definition HandleEvent (now : Z) (h : ActivityControlHandler) (packet : EventPacket)
    : ActivityControlHandler * list EventPacket :=
  match Event packet with
  | TTSSpeakingStartedEvent => (set_playback h (Some now) [] true, [packet])
  | TTSSpeakingEndedEvent =>
      (set_playback h (speakingStartTime h) (totalSentDuration h) false, [packet])
  | LLMResponseStartedEvent =>
      (set_playback (set_gate h [] (isSuspended h)) None [] (isSpeaking h), [packet])
  | TTSOutputEvent chunk =>
      if isSuspended h
      then (set_gate h (cachedChunks h ++ [packet]) true, [])
      else (set_playback h (speakingStartTime h)
              (totalSentDuration h ++ [GetDurationInSeconds chunk]) (isSpeaking h), [packet])
  | VadInterruptionSuspectedEvent =>
      if isSuspended h then (h, [packet])
      else (startConfirmTimer (set_gate h (cachedChunks h) true), [packet])
  | VadInterruptionConfirmedEvent =>
      let h1 := stopConfirmTimer h in
      let wasSpeaking := isSpeaking h1 in
      let h2 := set_playback (set_gate h1 [] false) None [] false in
      (h2, (if wasSpeaking then [top_packet TTSSpeakingEndedEvent relayer_name] else [])
             ++ [packet])
  | _ => (h, [packet])
  end.

(** The runtime starts the function of the timer in the field, or of an
    orphan; the function then makes its non-blocking send. *)
Definition timer_expires (h : ActivityControlHandler) : ActivityControlHandler :=
  if confirmTimer h then set_timer h false (orphanTimers h) (S (firing h)) (resumeChan h) else h.

Definition orphan_expires (h : ActivityControlHandler) : ActivityControlHandler :=
  match orphanTimers h with
  | O => h
  | S n => set_timer h (confirmTimer h) n (S (firing h)) (resumeChan h)
  end.

Definition timer_signals (h : ActivityControlHandler) : ActivityControlHandler :=
  match firing h with
  | O => h
  | S n => set_timer h (confirmTimer h) (orphanTimers h) n true
  end.

Definition onFalsePositive (h : ActivityControlHandler)
    : ActivityControlHandler * list EventPacket :=
  let chunks := cachedChunks h in
  let h1 := set_gate h [] false in
  (set_playback h1 (speakingStartTime h1)
     (totalSentDuration h1 ++ concat (map audio_duration chunks)) (isSpeaking h1), chunks).

(** The loop's receive from [resumeChan]; it is not ready on an empty channel. *)
Definition receive_resume (h : ActivityControlHandler)
    : ActivityControlHandler * list EventPacket :=
  if resumeChan h
  then onFalsePositive (set_timer h (confirmTimer h) (orphanTimers h) (firing h) false)
  else (h, []).

Inductive input : Type :=
| IEventAt (now : Z) (p : EventPacket)
| IExpire
| IOrphanExpire
| ISignal
| IResume.

Definition step (h : ActivityControlHandler) (i : input)
    : ActivityControlHandler * list EventPacket :=
  match i with
  | IEventAt now p => HandleEvent now h p
  | IExpire => (timer_expires h, [])
  | IOrphanExpire => (orphan_expires h, [])
  | ISignal => (timer_signals h, [])
  | IResume => receive_resume h
  end.

Fixpoint run (h : ActivityControlHandler) (ins : list input)
    : ActivityControlHandler * list EventPacket :=
  match ins with
  | [] => (h, [])
  | i :: ins' =>
      let '(h1, out1) := step h i in
      let '(h2, out2) := run h1 ins' in
      (h2, out1 ++ out2)
  end.

(** ** Audio in the input and in the output *)

Definition is_audio (p : EventPacket) : bool :=
  match Event p with
  | TTSOutputEvent _ => true
  | _ => false
  end.

Definition audio (ps : list EventPacket) : list EventPacket := List.filter is_audio ps.

Definition input_packet (i : input) : list EventPacket :=
  match i with
  | IEventAt _ p => [p]
  | _ => []
  end.

Definition input_audio (ins : list input) : list EventPacket :=
  audio (concat (map input_packet ins)).

(** The inputs on which audio may be dropped. *)
Definition drops (i : input) : bool :=
  match i with
  | IEventAt _ p => match Event p with
                    | VadInterruptionConfirmedEvent | LLMResponseStartedEvent => true
                    | _ => false
                    end
  | _ => false
  end.

(** ** Lemmas *)

Lemma audio_app ps qs : audio (ps ++ qs) = audio ps ++ audio qs.
Proof. apply List.filter_app. Qed.

Lemma input_audio_cons i ins : input_audio (i :: ins) = audio (input_packet i) ++ input_audio ins.
Proof. unfold input_audio. cbn. apply audio_app. Qed.

(** The gate's invariant: the cache holds audio only, and only while
    suspended; a suspension always has something that will end it. *)
Definition gate_inv (h : ActivityControlHandler) : Prop :=
  audio (cachedChunks h) = cachedChunks h ∧
  (isSuspended h = false → cachedChunks h = []) ∧
  (isSuspended h = true → confirmTimer h = true ∨ (0 < firing h)%nat ∨ resumeChan h = true).

Lemma gate_inv_new cfg : gate_inv (NewActivityControlHandler cfg).
Proof. by split_and!. Qed.

Lemma gate_inv_event now h p : gate_inv h → gate_inv (HandleEvent now h p).1.
Proof.
  intros (Ha & Hc & Hs). unfold gate_inv, HandleEvent.
  destruct (Event p) eqn:Ep; cbn -[audio]; try done.
  - destruct (isSuspended h) eqn:Es; cbn -[audio]; rewrite ?Es; [|done].
    split_and!; [|done|by auto]. rewrite audio_app, Ha. f_equal.
    unfold audio. cbn. unfold is_audio. by rewrite Ep.
  - destruct (isSuspended h) eqn:Es; cbn -[audio]; rewrite ?Es; [done|].
    split_and!; [done|done|by left].
Qed.

Lemma gate_inv_step h i : gate_inv h → gate_inv (step h i).1.
Proof.
  destruct i as [now p| | | |]; [apply gate_inv_event|..];
    intros (Ha & Hc & Hs); unfold gate_inv; cbn.
  - unfold timer_expires. destruct (confirmTimer h) eqn:Et; cbn; [|by rewrite Et].
    split_and!; [done|done|]. intros _. right. left. lia.
  - unfold orphan_expires. destruct (orphanTimers h); cbn; [done|].
    split_and!; [done|done|]. intros H. destruct (Hs H) as [?|[?|?]]; auto with lia.
  - unfold timer_signals. destruct (firing h) eqn:Ef; cbn; [by rewrite Ef|].
    split_and!; auto.
  - unfold receive_resume. destruct (resumeChan h) eqn:Er; cbn; [by split_and!|by rewrite Er].
Qed.

Lemma run_inv ins : ∀ h, gate_inv h → gate_inv (run h ins).1.
Proof.
  induction ins as [|i ins IH]; intros h Hh; cbn; [done|].
  pose proof (gate_inv_step h i Hh) as H1. destruct (step h i) as [h1 o1].
  specialize (IH h1 H1). by destruct (run h1 ins) as [h2 o2].
Qed.

(** One step moves audio from the input to the output or the cache, in
    order; a dropping step may lose the cache. *)
Lemma step_audio h i :
  gate_inv h →
  let r := step h i in
  if drops i then audio r.2 = [] ∧ cachedChunks r.1 = []
  else audio r.2 ++ cachedChunks r.1 = cachedChunks h ++ audio (input_packet i).
Proof.
  intros (Ha & Hc & Hs). destruct i as [now p| | | |]; cbn -[audio].
  - unfold HandleEvent, audio, is_audio.
    destruct (Event p) eqn:Ep; cbn; rewrite ?Ep, ?app_nil_r; try done.
    + destruct (isSuspended h) eqn:Es; cbn; rewrite ?Ep; [done|].
      by rewrite (Hc eq_refl).
    + destruct (isSuspended h); cbn; by rewrite ?Ep.
    + destruct (isSpeaking h); cbn; by rewrite ?Ep.
  - rewrite app_nil_r. unfold timer_expires. by destruct (confirmTimer h).
  - rewrite app_nil_r. unfold orphan_expires. by destruct (orphanTimers h).
  - rewrite app_nil_r. unfold timer_signals. by destruct (firing h).
  - rewrite app_nil_r. unfold receive_resume. destruct (resumeChan h); cbn -[audio]; [|done].
    by rewrite app_nil_r.
Qed.

Lemma run_audio_sublist ins : ∀ h,
  gate_inv h →
  let r := run h ins in
  sublist (audio r.2 ++ cachedChunks r.1) (cachedChunks h ++ input_audio ins).
Proof.
  induction ins as [|i ins IH]; intros h Hh; cbn -[audio input_audio]; [by rewrite app_nil_r|].
  pose proof (gate_inv_step h i Hh) as H1. pose proof (step_audio h i Hh) as Ha.
  destruct (step h i) as [h1 o1]. specialize (IH h1 H1).
  destruct (run h1 ins) as [h2 o2]. cbn -[audio input_audio] in *.
  rewrite audio_app, input_audio_cons, <- app_assoc.
  destruct (drops i).
  - destruct Ha as [-> Hc1]. rewrite Hc1 in IH. cbn -[audio input_audio] in *.
    transitivity (input_audio ins); [done|].
    apply sublist_inserts_l, sublist_inserts_l. done.
  - rewrite (app_assoc (cachedChunks h)), <- Ha, <- app_assoc. by apply sublist_app.
Qed.

Lemma run_audio_exact ins : ∀ h,
  gate_inv h → forallb (λ i, negb (drops i)) ins = true →
  let r := run h ins in
  audio r.2 ++ cachedChunks r.1 = cachedChunks h ++ input_audio ins.
Proof.
  induction ins as [|i ins IH]; intros h Hh Hd; cbn -[audio input_audio]; [by rewrite app_nil_r|].
  cbn in Hd. apply andb_true_iff in Hd as [Hi Hd]. apply negb_true_iff in Hi.
  pose proof (gate_inv_step h i Hh) as H1. pose proof (step_audio h i Hh) as Ha.
  destruct (step h i) as [h1 o1]. specialize (IH h1 H1 Hd).
  destruct (run h1 ins) as [h2 o2]. cbn -[audio input_audio] in *. rewrite Hi in Ha.
  rewrite audio_app, input_audio_cons, <- app_assoc, IH.
  by rewrite (app_assoc (cachedChunks h)), <- Ha, <- app_assoc.
Qed.

(** The inputs that end a suspension. *)
Definition ends_suspension (i : input) : bool :=
  match i with
  | IResume => true
  | IEventAt _ p => match Event p with VadInterruptionConfirmedEvent => true | _ => false end
  | _ => false
  end.

Lemma suspended_step h i :
  isSuspended h = true → ends_suspension i = false →
  isSuspended (step h i).1 = true ∧ audio (step h i).2 = [].
Proof.
  intros Hs Hi. destruct i as [now p| | | |]; cbn in *; try done.
  - unfold HandleEvent, audio, is_audio.
    destruct (Event p) eqn:Ep; cbn in *; rewrite ?Hs; cbn; rewrite ?Ep; try done.
  - unfold timer_expires. by destruct (confirmTimer h).
  - unfold orphan_expires. by destruct (orphanTimers h).
  - unfold timer_signals. by destruct (firing h).
Qed.

Lemma suspended_run ins : ∀ h,
  isSuspended h = true → forallb (λ i, negb (ends_suspension i)) ins = true →
  isSuspended (run h ins).1 = true ∧ audio (run h ins).2 = [].
Proof.
  induction ins as [|i ins IH]; intros h Hs Hi; cbn; [done|].
  cbn in Hi. apply andb_true_iff in Hi as [Hi Hins]. apply negb_true_iff in Hi.
  destruct (suspended_step h i Hs Hi) as [Hs1 Ha1]. destruct (step h i) as [h1 o1].
  destruct (IH h1 Hs1 Hins) as [Hs2 Ha2]. destruct (run h1 ins) as [h2 o2].
  cbn -[audio] in *.
  by rewrite audio_app, Ha1, Ha2.
Qed.

(** ** Properties *)

(** C10: through any sequence of events and timer activity, the audio sent on
    followed by the audio held back is an order-preserving part of the audio
    received, and all of it as long as no interruption was confirmed and no
    new response started. *)
Theorem audio_conserved cfg ins :
  let r := run (NewActivityControlHandler cfg) ins in
  sublist (audio r.2 ++ cachedChunks r.1) (input_audio ins) ∧
  (forallb (λ i, negb (drops i)) ins = true →
   audio r.2 ++ cachedChunks r.1 = input_audio ins).
Proof.
  intros r. split.
  - apply (run_audio_sublist ins _ (gate_inv_new cfg)).
  - apply (run_audio_exact ins _ (gate_inv_new cfg)).
Qed.

(** while an interruption is suspected no audio is sent, until it is
    confirmed or the resume signal is received. *)
Theorem suspended_sends_no_audio h ins :
  isSuspended h = true → forallb (λ i, negb (ends_suspension i)) ins = true →
  audio (run h ins).2 = [].
Proof. intros Hs Hi. by apply suspended_run. Qed.

(** a suspension cannot last for ever: in every reachable suspended state,
    once the pending timer expires, signals and is received, the held audio is
    sent in order and the gate is open. *)
Theorem suspension_ends cfg ins :
  let h := (run (NewActivityControlHandler cfg) ins).1 in
  isSuspended h = true →
  let r := run h [IExpire; ISignal; IResume] in
  isSuspended r.1 = false ∧ cachedChunks r.1 = [] ∧ r.2 = cachedChunks h.
Proof.
  intros h Hs. destruct (run_inv ins _ (gate_inv_new cfg)) as (_ & _ & Hlive). fold h in Hlive.
  specialize (Hlive Hs). cbn. unfold timer_expires, timer_signals, receive_resume.
  destruct (confirmTimer h); cbn; [by rewrite app_nil_r|].
  destruct (firing h); cbn; [|by rewrite app_nil_r].
  destruct Hlive as [?|[?|Hr]]; [done|lia|]. rewrite Hr. cbn. by rewrite app_nil_r.
Qed.

(** confirming an interruption leaves nothing held back and the gate open,
    and reports the end of speech to the top of the pipeline exactly when the
    bot was speaking, before the event itself is passed on. *)
Theorem confirmation_resets now h packet :
  Event packet = VadInterruptionConfirmedEvent →
  let r := HandleEvent now h packet in
  cachedChunks r.1 = [] ∧ isSuspended r.1 = false ∧ isSpeaking r.1 = false ∧
  confirmTimer r.1 = false ∧
  r.2 = (if isSpeaking h then [top_packet TTSSpeakingEndedEvent relayer_name; packet]
         else [packet]).
Proof.
  intros He r. unfold r, HandleEvent. rewrite He. cbn.
  split_and!; [done..|]. by destruct (isSpeaking h).
Qed.

(** ** A stale signal *)

Definition ev (e : IEvent) : input := IEventAt 0 (next_packet e "test").

Definition test_chunk : EventPacket :=
  next_packet (TTSOutputEvent (mkAudioChunk (Some []) 16000 1 PCM 0)) "test".

(** The first suspicion's timer expires just before its interruption is
    confirmed; the signal stays in the channel. *)
Definition stale_history : list input :=
  [ev VadInterruptionSuspectedEvent; IExpire; ISignal; ev VadInterruptionConfirmedEvent;
   ev VadInterruptionSuspectedEvent; IEventAt 0 test_chunk; IResume].

(** a confirmation does not clear a resume signal already sent, so the next
    suspicion can be ended by it: audio is played although its own timer is
    still pending. *)
Theorem stale_signal_ends_suspicion cfg :
  let r := run (NewActivityControlHandler cfg) stale_history in
  audio r.2 = [test_chunk] ∧ isSuspended r.1 = false ∧ confirmTimer r.1 = true.
Proof. cbn. done. Qed.

(** ** Witnesses *)

Definition suspended_demo : ActivityControlHandler :=
  (run (NewActivityControlHandler DefaultConfig)
     [ev TTSSpeakingStartedEvent; ev VadInterruptionSuspectedEvent; IEventAt 0 test_chunk]).1.

Lemma suspended_sends_no_audio_witness :
  audio (run suspended_demo [IEventAt 0 test_chunk; IExpire]).2 = [].
Proof.
  apply (suspended_sends_no_audio suspended_demo [IEventAt 0 test_chunk; IExpire]); reflexivity.
Defined.

Lemma suspension_ends_witness :
  (run suspended_demo [IExpire; ISignal; IResume]).2 = [test_chunk].
Proof.
  apply (suspension_ends DefaultConfig
    [ev TTSSpeakingStartedEvent; ev VadInterruptionSuspectedEvent; IEventAt 0 test_chunk]).
  reflexivity.
Defined.

Lemma confirmation_resets_witness :
  cachedChunks (HandleEvent 0 suspended_demo (next_packet VadInterruptionConfirmedEvent "t")).1 = [].
Proof.
  apply (confirmation_resets 0 suspended_demo (next_packet VadInterruptionConfirmedEvent "t")).
  reflexivity.
Defined.

Lemma audio_conserved_witness :
  let ins := [IEventAt 0 test_chunk; ev VadInterruptionSuspectedEvent; IEventAt 0 test_chunk] in
  let r := run (NewActivityControlHandler DefaultConfig) ins in
  audio r.2 ++ cachedChunks r.1 = input_audio ins.
Proof.
  intros ins r. apply (audio_conserved DefaultConfig ins). reflexivity.
Defined.
