(* ===== verification/Vad.v ===== *)
(** * Voice activity: [handlers/vad/vad_handler.go]

    [VADHandler] turns the confidence a voice-activity service reports for
    each audio chunk into speech-started, speaking, silence and speech-ended
    events, with a grace period after the last speech and more patience after
    an interruption.  The service (behind [VADService]) is an argument: its
    answer for a chunk is part of the input.  Times are nanoseconds of the
    monotonic clock, [None] is Go's zero time. *)

From Stdlib Require Import QArith.QArith_base Sorting.Sorted.
From S2P Require Import Prelude Core.

Local Open Scope string_scope.
Local Open Scope list_scope.
Local Open Scope Z_scope.

(** ** Configuration *)

Record VADConfig := mkVADConfig {
  MinConfidence : Q;
  AllowInterruptions : bool;
  VadPatienceIncreaseOnInterruption : Q
}.

Definition second : Z := 1000000000.
Definition millisecond : Z := 1000000.

(** The float32 nearest to 0.2. *)
Definition DefaultConfig : VADConfig := mkVADConfig (1 # 2) true (13421773 # 67108864).

(** Rounding a non-negative rational to the nearest normal float32: 24 bits of
    mantissa, ties to even. *)
Definition round_half_even (n d : Z) : Z :=
  let q := n / d in
  let r := n mod d in
  if 2 * r <? d then q
  else if d <? 2 * r then q + 1
  else if Z.even q then q else q + 1.

Definition round_float32 (q : Q) : Q :=
  let n := Qnum q in
  let d := Z.pos (Qden q) in
  if n <=? 0 then q else
  let e0 := Z.log2 n - Z.log2 d in
  let e := if (if 0 <=? e0 then n <? d * 2 ^ e0 else n * 2 ^ (- e0) <? d) then e0 - 1 else e0 in
  let s := e - 23 in
  if 0 <=? s then inject_Z (round_half_even n (d * 2 ^ s) * 2 ^ s)
  else Qmake (round_half_even (n * 2 ^ (- s)) d) (Z.to_pos (2 ^ (- s))).

(** [time.Duration(x * float32(time.Second))]: a float32 product, truncated. *)
Definition float32_seconds (x : Q) : Z :=
  let p := round_float32 (Qmult x (inject_Z second)) in
  Z.quot (Qnum p) (Z.pos (Qden p)).

Example default_patience :
  float32_seconds (VadPatienceIncreaseOnInterruption DefaultConfig) = 200 * millisecond.
Proof. vm_compute. reflexivity. Qed.

(** ** State *)

Record VADHandler := mkVADHandler {
  config : VADConfig;
  lastSpeechTime : option Z;
  isInGracePeriod : bool;
  isSpeechActive : bool;
  botSpeaking : bool;
  baseGracePeriod : Z;
  currentGracePeriod : Z;
  lastInterruptionTime : option Z;
  patienceResetDuration : Z
}.

Definition NewVADHandler (cfg : VADConfig) : VADHandler :=
  mkVADHandler cfg None false false false (300 * millisecond) (300 * millisecond) None (5 * second).

Definition set_bot (h : VADHandler) (b : bool) : VADHandler :=
  mkVADHandler (config h) (lastSpeechTime h) (isInGracePeriod h) (isSpeechActive h) b
    (baseGracePeriod h) (currentGracePeriod h) (lastInterruptionTime h) (patienceResetDuration h).

Definition set_speech (h : VADHandler) (last : option Z) (grace active : bool) : VADHandler :=
  mkVADHandler (config h) last grace active (botSpeaking h)
    (baseGracePeriod h) (currentGracePeriod h) (lastInterruptionTime h) (patienceResetDuration h).

Definition set_patience (h : VADHandler) (current : Z) (last : option Z) : VADHandler :=
  mkVADHandler (config h) (lastSpeechTime h) (isInGracePeriod h) (isSpeechActive h) (botSpeaking h)
    (baseGracePeriod h) current last (patienceResetDuration h).

(** ** Handling a chunk *)

(** Patience reverts some time after the last interruption. *)
Definition reset_patience (now : Z) (h : VADHandler) : VADHandler :=
  match lastInterruptionTime h with
  | Some t => if patienceResetDuration h <? now - t
              then set_patience h (baseGracePeriod h) None else h
  | None => h
  end.

(** Whether a chunk without speech at [now] still counts as speech. *)
Definition within_grace (now : Z) (h : VADHandler) : bool :=
  match lastSpeechTime h with
  | None => false
  | Some t => now - t <=? currentGracePeriod h
  end.

Inductive vad_effect : Type :=
| Emit (e : IEvent)
| FatalError (msg : string)
| Forward (p : EventPacket).

Definition speech_chunk (now : Z) (h : VADHandler) : VADHandler * list vad_effect :=
  let h1 := set_speech h (Some now) false true in
  if isSpeechActive h then (h1, [Emit VADUserSpeakingEvent]) else
  if (botSpeaking h && AllowInterruptions (config h))%bool
  then (set_patience h1 (baseGracePeriod h +
          float32_seconds (VadPatienceIncreaseOnInterruption (config h))) (Some now),
        [Emit VadUserSpeechStartedEvent; Emit VadInterruptionSuspectedEvent;
         Emit VADUserSpeakingEvent])
  else (h1, [Emit VadUserSpeechStartedEvent; Emit VADUserSpeakingEvent]).

Definition quiet_chunk (now : Z) (h : VADHandler) : VADHandler * list vad_effect :=
  if within_grace now h
  then (set_speech h (lastSpeechTime h) true true,
        (if isSpeechActive h then [] else [Emit VadUserSpeechStartedEvent])
          ++ [Emit VADUserSpeakingEvent])
  else (set_speech h (lastSpeechTime h) false false,
        (if isSpeechActive h then [Emit VadUserSpeechEndedEvent] else [])
          ++ [Emit VADSilenceEvent]).

Definition handleTransportAudio (now : Z) (answer : result VADResult) (h : VADHandler)
    : VADHandler * list vad_effect :=
  let h1 := reset_patience now h in
  match answer with
  | Err e => (h1, [FatalError e])
  | Ok r => if Qle_bool (MinConfidence (config h1)) (Confidence r)
            then speech_chunk now h1 else quiet_chunk now h1
  end.

(** [answer] is what the service returns if the packet carries audio. *)
Definition HandleEvent (now : Z) (answer : result VADResult) (h : VADHandler)
    (packet : EventPacket) : VADHandler * list vad_effect :=
  let '(h1, out) :=
    match Event packet with
    | TransportAudioInputEvent _ => handleTransportAudio now answer h
    | TTSSpeakingStartedEvent => (set_bot h true, [])
    | TTSSpeakingEndedEvent => (set_bot h false, [])
    | _ => (h, [])
    end in
  (h1, out ++ [Forward packet]).

(** ** Runs *)

Record vad_input := mkInput { in_time : Z; in_answer : result VADResult; in_packet : EventPacket }.

Fixpoint run (h : VADHandler) (ins : list vad_input) : VADHandler * list vad_effect :=
  match ins with
  | [] => (h, [])
  | i :: ins' =>
      let '(h1, o1) := HandleEvent (in_time i) (in_answer i) h (in_packet i) in
      let '(h2, o2) := run h1 ins' in
      (h2, o1 ++ o2)
  end.

(** The run as one list of the effects of each input. *)
Fixpoint run_trace (h : VADHandler) (ins : list vad_input) : list (list vad_effect) :=
  match ins with
  | [] => []
  | i :: ins' =>
      let '(h1, o1) := HandleEvent (in_time i) (in_answer i) h (in_packet i) in
      o1 :: run_trace h1 ins'
  end.

(** Reads the started/ended events of a trace against the alternation
    automaton: [None] when a start follows a start or an end an end. *)
Definition speech_mark (e : vad_effect) : option bool :=
  match e with
  | Emit VadUserSpeechStartedEvent => Some true
  | Emit VadUserSpeechEndedEvent => Some false
  | _ => None
  end.

Fixpoint alternate (active : bool) (es : list vad_effect) : option bool :=
  match es with
  | [] => Some active
  | e :: es' =>
      match speech_mark e with
      | None => alternate active es'
      | Some b => if Bool.eqb b active then None else alternate b es'
      end
  end.

Definition is_audio_input (i : vad_input) : bool :=
  match Event (in_packet i) with
  | TransportAudioInputEvent _ => true
  | _ => false
  end.

(** The service answered with enough confidence for this audio chunk. *)
Definition speech_input (cfg : VADConfig) (i : vad_input) : bool :=
  is_audio_input i &&
  match in_answer i with
  | Ok r => Qle_bool (MinConfidence cfg) (Confidence r)
  | Err _ => false
  end.

Definition activity (e : vad_effect) : bool :=
  match e with
  | Emit VADUserSpeakingEvent | Emit VADSilenceEvent => true
  | _ => false
  end.

(** ** Lemmas *)

Lemma alternate_app es fs b :
  alternate b (es ++ fs) = (alternate b es) ≫= (λ b', alternate b' fs).
Proof.
  revert b. induction es as [|e es IH]; intros b; cbn; [done|].
  destruct (speech_mark e) as [c|]; [|done]. by destruct (Bool.eqb c b).
Qed.

Lemma reset_patience_fields now h :
  isSpeechActive (reset_patience now h) = isSpeechActive h ∧
  lastSpeechTime (reset_patience now h) = lastSpeechTime h ∧
  config (reset_patience now h) = config h ∧
  botSpeaking (reset_patience now h) = botSpeaking h ∧
  baseGracePeriod (reset_patience now h) = baseGracePeriod h.
Proof.
  unfold reset_patience. destruct (lastInterruptionTime h); [|done].
  by destruct (_ <? _).
Qed.

Lemma chunk_alternates now answer h :
  alternate (isSpeechActive h) (handleTransportAudio now answer h).2 =
  Some (isSpeechActive (handleTransportAudio now answer h).1).
Proof.
  unfold handleTransportAudio.
  destruct (reset_patience_fields now h) as (Ha & _). rewrite <- Ha.
  destruct answer as [r|e]; [|done]. destruct (Qle_bool _ _).
  - unfold speech_chunk. destruct (isSpeechActive _) eqn:E; cbn; [done|].
    by destruct (_ && _)%bool.
  - unfold quiet_chunk. destruct (within_grace _ _), (isSpeechActive _) eqn:E; cbn; done.
Qed.

Lemma event_alternates now answer h p :
  alternate (isSpeechActive h) (HandleEvent now answer h p).2 =
  Some (isSpeechActive (HandleEvent now answer h p).1).
Proof.
  unfold HandleEvent. destruct (Event p); try done.
  pose proof (chunk_alternates now answer h) as Hc.
  destruct (handleTransportAudio now answer h) as [h1 o1]. cbn in *.
  by rewrite alternate_app, Hc.
Qed.

Lemma run_alternates ins : ∀ h,
  alternate (isSpeechActive h) (run h ins).2 = Some (isSpeechActive (run h ins).1).
Proof.
  induction ins as [|i ins IH]; intros h; cbn; [done|].
  pose proof (event_alternates (in_time i) (in_answer i) h (in_packet i)) as Hs.
  destruct (HandleEvent _ _ _ _) as [h1 o1]. specialize (IH h1).
  destruct (run h1 ins) as [h2 o2]. cbn in *. by rewrite alternate_app, Hs.
Qed.

Lemma run_snoc ins : ∀ h i,
  (run h (ins ++ [i])).1 =
  (HandleEvent (in_time i) (in_answer i) (run h ins).1 (in_packet i)).1.
Proof.
  induction ins as [|j ins IH]; intros h i; cbn.
  - by destruct (HandleEvent _ _ _ _).
  - destruct (HandleEvent (in_time j) _ _ _) as [h1 o1]. specialize (IH h1 i).
    destruct (run h1 (ins ++ [i])), (run h1 ins). done.
Qed.

(** What a step does to the fields the grace period reads. *)
Lemma event_grace_fields now answer h p :
  let h' := (HandleEvent now answer h p).1 in
  config h' = config h ∧ baseGracePeriod h' = baseGracePeriod h ∧
  lastSpeechTime h' = (if speech_input (config h) (mkInput now answer p)
                       then Some now else lastSpeechTime h) ∧
  (currentGracePeriod h' = currentGracePeriod h ∨ currentGracePeriod h' = baseGracePeriod h ∨
   currentGracePeriod h' = baseGracePeriod h +
     float32_seconds (VadPatienceIncreaseOnInterruption (config h))).
Proof.
  unfold HandleEvent, speech_input, is_audio_input. cbn.
  destruct (Event p); cbn; try (by auto). unfold handleTransportAudio.
  destruct (reset_patience_fields now h) as (_ & Hl & Hc & _ & Hb).
  assert (currentGracePeriod (reset_patience now h) = currentGracePeriod h ∨
          currentGracePeriod (reset_patience now h) = baseGracePeriod h) as Hg.
  { unfold reset_patience. destruct (lastInterruptionTime h); [|auto].
    destruct (_ <? _); cbn; auto. }
  destruct answer as [r|e]; cbn; [|by rewrite Hl, Hc, Hb; tauto].
  rewrite Hc. destruct (Qle_bool _ _).
  - unfold speech_chunk. destruct (isSpeechActive _); cbn; [rewrite Hc, Hb; tauto|].
    destruct (_ && _)%bool; cbn; rewrite ?Hc, ?Hb; tauto.
  - unfold quiet_chunk. destruct (within_grace _ _); cbn; rewrite Hc, Hb, Hl; tauto.
Qed.

(** After a run in time order: the last speech time bounds every speech chunk
    and the grace period is at least the base. *)
Lemma run_grace cfg ins :
  0 ≤ float32_seconds (VadPatienceIncreaseOnInterruption cfg) →
  StronglySorted Z.le (map in_time ins) →
  let h := (run (NewVADHandler cfg) ins).1 in
  config h = cfg ∧ baseGracePeriod h = 300 * millisecond ∧
  300 * millisecond ≤ currentGracePeriod h ∧
  ∀ j, j ∈ ins → speech_input cfg j = true →
    ∃ t, lastSpeechTime h = Some t ∧ in_time j ≤ t.
Proof.
  intros Hinc. induction ins as [|i ins IH] using rev_ind; intros Hs.
  - cbn. split_and!; [done|done|lia|]. by intros j []%not_elem_of_nil.
  - cbn zeta. rewrite run_snoc. rewrite map_app in Hs.
    assert (StronglySorted Z.le (map in_time ins)) as Hs1.
    { clear -Hs. induction (map in_time ins); [constructor|]. inversion Hs; subst.
      constructor; [auto|]. by apply Forall_app in H2 as [? _]. }
    assert (∀ j, j ∈ ins → in_time j ≤ in_time i) as Hlast.
    { clear -Hs. intros j Hj. induction ins as [|k ins IH]; [by apply not_elem_of_nil in Hj|].
      cbn in Hs. inversion Hs as [|? ? Hs' Hf]; subst.
      apply elem_of_cons in Hj as [->|Hj]; [|auto].
      rewrite Forall_forall in Hf. apply Hf. apply elem_of_app. right. apply list_elem_of_here. }
    destruct (IH Hs1) as (Hc & Hb & Hg & Hsp).
    destruct (event_grace_fields (in_time i) (in_answer i) (run (NewVADHandler cfg) ins).1
      (in_packet i)) as (Hc' & Hb' & Hl' & Hg').
    rewrite Hc in *. rewrite Hb in *. split_and!; [done|done|lia|].
    intros j [Hj| ->%list_elem_of_singleton]%elem_of_app Hsj; rewrite Hl'.
    + destruct (speech_input cfg (mkInput _ _ _)); [eexists; split; [done|by apply Hlast]|].
      by apply Hsp.
    + destruct i as [t a p]. cbn in *. rewrite Hsj. eexists. split; [done|lia].
Qed.

(** ** Properties *)

(** C16: over any sequence of packets the speech-started and speech-ended events
    strictly alternate, starting with a start, and the handler's flag always
    tells which came last. *)
Theorem speech_events_alternate cfg ins :
  alternate false (run (NewVADHandler cfg) ins).2 =
  Some (isSpeechActive (run (NewVADHandler cfg) ins).1).
Proof. apply (run_alternates ins (NewVADHandler cfg)). Qed.

(** every packet is passed on last; an audio chunk yields exactly one of
    user-speaking and silence when the service answers, and only the error
    when it fails; other packets yield nothing else. *)
Theorem one_activity_per_chunk now answer h p :
  let out := (HandleEvent now answer h p).2 in
  last out = Some (Forward p) ∧
  length (List.filter activity out) =
    (if is_audio_input (mkInput now answer p) && is_ok answer then 1 else 0)%nat ∧
  (∀ msg, FatalError msg ∈ out ↔
     is_audio_input (mkInput now answer p) = true ∧ answer = Err msg).
Proof.
  unfold HandleEvent, is_audio_input. cbn.
  destruct (Event p); cbn;
    try (split_and!; [done|done|]; intros msg; rewrite list_elem_of_singleton; naive_solver).
  unfold handleTransportAudio. destruct answer as [r|e]; cbn.
  2: { split_and!; [done|done|]. intros msg. set_solver. }
  destruct (Qle_bool _ _).
  - unfold speech_chunk. destruct (isSpeechActive _); [|destruct (_ && _)%bool];
      (split_and!; [done|done|]; intros msg; cbn; set_solver).
  - unfold quiet_chunk. destruct (within_grace _ _), (isSpeechActive _);
      (split_and!; [done|done|]; intros msg; cbn; set_solver).
Qed.

(** a suspected interruption is reported exactly when a chunk with speech
    starts the user's speech while the bot is speaking and interruptions are
    allowed; it then directly follows the speech-started event. *)
Theorem interruption_suspected_iff now answer h p :
  let out := (HandleEvent now answer h p).2 in
  (Emit VadInterruptionSuspectedEvent ∈ out ↔
   speech_input (config h) (mkInput now answer p) = true ∧
   isSpeechActive h = false ∧ botSpeaking h = true ∧ AllowInterruptions (config h) = true) ∧
  (Emit VadInterruptionSuspectedEvent ∈ out →
   out = [Emit VadUserSpeechStartedEvent; Emit VadInterruptionSuspectedEvent;
          Emit VADUserSpeakingEvent; Forward p]).
Proof.
  unfold HandleEvent, speech_input, is_audio_input. cbn.
  destruct (Event p); cbn; try (set_solver).
  unfold handleTransportAudio. destruct answer as [r|e]; cbn; [|set_solver].
  destruct (reset_patience_fields now h) as (Ha & _ & Hc & Hb & _). rewrite Hc.
  destruct (Qle_bool _ _); cbn.
  - unfold speech_chunk. rewrite Ha, Hb, Hc. destruct (isSpeechActive h); cbn; [set_solver|].
    destruct (botSpeaking h), (AllowInterruptions (config h)); cbn; set_solver.
  - unfold quiet_chunk. destruct (within_grace _ _), (isSpeechActive _); cbn; set_solver.
Qed.

(** the end of speech is reported only after the base grace period of 300
    milliseconds without speech: at every earlier speech chunk of a run in time
    order at least that much time had still to pass. *)
Theorem speech_end_respects_grace cfg ins i :
  0 ≤ float32_seconds (VadPatienceIncreaseOnInterruption cfg) →
  StronglySorted Z.le (map in_time ins) →
  let h := (run (NewVADHandler cfg) ins).1 in
  Emit VadUserSpeechEndedEvent ∈ (HandleEvent (in_time i) (in_answer i) h (in_packet i)).2 →
  ∀ j, j ∈ ins → speech_input cfg j = true → in_time j + 300 * millisecond < in_time i.
Proof.
  intros Hinc Hs h Hend j Hj Hsj.
  destruct (run_grace cfg ins Hinc Hs) as (Hc & Hb & Hg & Hsp).
  destruct (Hsp j Hj Hsj) as (t & Hlt & Hjt). fold h in Hc, Hb, Hg, Hlt.
  unfold HandleEvent in Hend. destruct (Event (in_packet i)); cbn in Hend; try set_solver.
  destruct (reset_patience_fields (in_time i) h) as (Ha & Hl & _ & _ & _).
  unfold handleTransportAudio in Hend. destruct (in_answer i) as [r|e]; [|set_solver].
  destruct (Qle_bool _ _).
  - unfold speech_chunk in Hend.
    destruct (isSpeechActive _); [|destruct (_ && _)%bool]; cbn in Hend; set_solver.
  - unfold quiet_chunk in Hend. destruct (within_grace _ _) eqn:Ew.
    { destruct (isSpeechActive _); cbn in Hend; set_solver. }
    unfold within_grace in Ew. rewrite Hl, Hlt in Ew. apply Z.leb_gt in Ew.
    assert (300 * millisecond ≤ currentGracePeriod (reset_patience (in_time i) h)); [|lia].
    unfold reset_patience. destruct (lastInterruptionTime h); [|done].
    destruct (_ <? _); cbn; [rewrite Hb; lia|done].
Qed.

(** ** Witnesses *)

Definition test_audio : EventPacket :=
  next_packet (TransportAudioInputEvent (mkAudioChunk (Some []) 16000 1 PCM 0)) "test".

Definition speech_at (ms : Z) : vad_input :=
  mkInput (ms * millisecond) (Ok (mkVADResult 1 true)) test_audio.
Definition quiet_at (ms : Z) : vad_input :=
  mkInput (ms * millisecond) (Ok (mkVADResult 0 true)) test_audio.

Example demo_speech_trace :
  (run (NewVADHandler DefaultConfig) [speech_at 0; quiet_at 100; quiet_at 400]).2 =
  [Emit VadUserSpeechStartedEvent; Emit VADUserSpeakingEvent; Forward test_audio;
   Emit VADUserSpeakingEvent; Forward test_audio;
   Emit VadUserSpeechEndedEvent; Emit VADSilenceEvent; Forward test_audio].
Proof. vm_compute. reflexivity. Qed.

Lemma speech_end_respects_grace_witness :
  in_time (speech_at 0) + 300 * millisecond < in_time (quiet_at 400).
Proof.
  apply (speech_end_respects_grace DefaultConfig [speech_at 0; quiet_at 100] (quiet_at 400)).
  - vm_compute. discriminate.
  - cbn. repeat constructor; vm_compute; discriminate.
  - vm_compute. apply list_elem_of_here.
  - apply list_elem_of_here.
  - reflexivity.
Defined.
