(* ===== verification/LlmHandler.v ===== *)
(** * The language-model handler: [handlers/llm/llm_handler.go]

    [fillerState] decides which pre-generated sentence opener may be spoken;
    [LLMHandler] starts and cancels generations, and its event loop relays the
    service's output unless it is being discarded.  The model service (behind
    [LLMService]) is outside: what it produces is input to the event loop, and
    its JSON answers are arguments.  Every method of [fillerState] runs under
    its mutex, so it is one atomic step; uint64 counters wrap around. *)

From S2P Require Import Prelude Core Phrases.

Local Open Scope string_scope.
Local Open Scope list_scope.
Local Open Scope Z_scope.

(** ** [fillerState] *)

Record fillerState := mkFiller {
  enabled : bool;
  listening : bool;
  currentUtteranceID : Z;
  fillerUtteranceID : Z;
  fillerRequested : bool;
  fillerReady : bool;
  fillerConsumed : bool;
  pendingFiller : string;
  consumedFiller : string;
  activeRequestToken : Z;
  nextRequestToken : Z
}.

Definition uint64_succ (n : Z) : Z := (n + 1) mod 2 ^ 64.

Definition newFillerState (on : bool) : fillerState :=
  mkFiller on false 0 0 false false false "" "" 0 0.

Definition resetUtteranceLocked (f : fillerState) : fillerState :=
  mkFiller (enabled f) (listening f) (currentUtteranceID f) 0 false false false "" "" 0
    (nextRequestToken f).

(** The start of an utterance: the first interim after the last response. *)
Definition start_listening (f : fillerState) : fillerState :=
  if listening f then f
  else resetUtteranceLocked
    (mkFiller (enabled f) true (uint64_succ (currentUtteranceID f)) (fillerUtteranceID f)
       (fillerRequested f) (fillerReady f) (fillerConsumed f) (pendingFiller f)
       (consumedFiller f) (activeRequestToken f) (nextRequestToken f)).

(** The request of a fresh filler: (text, utterance, token). *)
Definition request_filler (f : fillerState) : fillerState :=
  mkFiller (enabled f) (listening f) (currentUtteranceID f) (currentUtteranceID f) true false
    (fillerConsumed f) "" (consumedFiller f) (uint64_succ (nextRequestToken f))
    (uint64_succ (nextRequestToken f)).

Definition onInterim (f : fillerState) (text : string)
    : fillerState * option (string * Z * Z) :=
  if negb (enabled f) then (f, None) else
  let trimmed := trim_space text in
  if String.eqb trimmed "" then (f, None) else
  let words := length (fields trimmed) in
  let f1 := start_listening f in
  if (Nat.leb words 3 || fillerConsumed f1)%bool then (f1, None) else
  let f2 := request_filler f1 in
  (f2, Some (trimmed, currentUtteranceID f2, activeRequestToken f2)).

Definition mark_consumed (f : fillerState) : fillerState :=
  mkFiller (enabled f) (listening f) (currentUtteranceID f) (fillerUtteranceID f)
    (fillerRequested f) (fillerReady f) true (pendingFiller f) (pendingFiller f)
    (activeRequestToken f) (nextRequestToken f).

Definition consumeFiller (f : fillerState) : fillerState * string :=
  if negb (enabled f) then (f, "") else
  if (fillerConsumed f || negb (fillerReady f))%bool then (f, "") else
  if String.eqb (pendingFiller f) "" then (f, "") else
  (mark_consumed f, pendingFiller f).

Definition getConsumedFiller (f : fillerState) : string :=
  if negb (enabled f) then "" else consumedFiller f.

Definition clearAfterResponse (f : fillerState) : fillerState :=
  if negb (enabled f) then f else
  mkFiller (enabled f) false (currentUtteranceID f) 0 false false false "" "" 0
    (nextRequestToken f).

(** A result is for the request the state is still waiting for. *)
Definition expects (f : fillerState) (token utteranceID : Z) : bool :=
  (negb (token =? 0) && (token =? activeRequestToken f) &&
   (utteranceID =? fillerUtteranceID f))%bool.

Definition set_result (f : fillerState) (requested ready : bool) (pending : string) : fillerState :=
  mkFiller (enabled f) (listening f) (currentUtteranceID f) (fillerUtteranceID f)
    requested ready (fillerConsumed f) pending (consumedFiller f) 0 (nextRequestToken f).

Definition storeResult (f : fillerState) (token utteranceID : Z) (filler : string) (skip : bool)
    : fillerState :=
  if negb (enabled f) then f else
  let trimmed := trim_space filler in
  if negb (expects f token utteranceID) then f else
  if (skip || String.eqb trimmed "")%bool
  then set_result f (fillerRequested f) false ""
  else set_result f (fillerRequested f) true trimmed.

Definition requestFailed (f : fillerState) (token utteranceID : Z) : fillerState :=
  if negb (enabled f) then f else
  if negb (expects f token utteranceID) then f else
  set_result f false (fillerReady f) (pendingFiller f).

(** One round of the polling loop of [waitForFiller]. *)
Inductive poll_result : Type :=
| NotRequested
| Grabbed (filler : string)
| NotYet.

Definition poll (f : fillerState) : fillerState * poll_result :=
  if negb (fillerRequested f) then (f, NotRequested) else
  if (fillerReady f && negb (fillerConsumed f) && negb (String.eqb (pendingFiller f) ""))%bool
  then (mark_consumed f, Grabbed (pendingFiller f))
  else (f, NotYet).

(** The loop itself: [clock n] is the time of the n-th deadline test and
    [env n] what other goroutines did to the state before the n-th round.
    [None] is running out of fuel. *)
Fixpoint wait_loop (fuel n : nat) (clock : nat → Z) (env : nat → fillerState → fillerState)
    (deadline : Z) (f : fillerState) : option (fillerState * string) :=
  match fuel with
  | O => None
  | S fuel' =>
      match poll (env n f) with
      | (f', NotRequested) => Some (f', "")
      | (f', Grabbed filler) => Some (f', filler)
      | (f', NotYet) =>
          if deadline <? clock n then Some (f', "")
          else wait_loop fuel' (S n) clock env deadline f'
      end
  end.

Definition waitForFiller (fuel : nat) (start timeout : Z) (clock : nat → Z)
    (env : nat → fillerState → fillerState) (f : fillerState) : option (fillerState * string) :=
  if negb (enabled f) then Some (f, "")
  else wait_loop fuel 0 clock env (start + timeout) f.

(** ** Filler generation *)

(** The last assistant message, for the filler prompt. *)
Fixpoint last_assistant (ms : list LLMMessage) (acc : string) : string :=
  match ms with
  | [] => acc
  | m :: ms' =>
      last_assistant ms' (if String.eqb (Role m) LLMMessageRoleAssistant then Message m else acc)
  end.

Definition filler_context (partial : string) (llmCtx : LLMContext) : LLMContext :=
  mkLLMContext
    [text_message LLMMessageRoleSystem FILLER_PROMPT;
     text_message LLMMessageRoleSystem
       ("Context for filler generation: " +:+ last_assistant (Messages llmCtx) "");
     text_message LLMMessageRoleUser
       ("Generate a filler for this partial transcript:" +:+ newline +:+ " " +:+ partial +:+ "...")]
    [].

Definition lower_char (c : Ascii.ascii) : Ascii.ascii :=
  let n := Ascii.nat_of_ascii c in
  if (Nat.leb 65 n && Nat.leb n 90)%bool then Ascii.ascii_of_nat (n + 32) else c.

Definition to_lower (s : string) : string := str_of_chars (map lower_char (str_chars s)).

(** Decoding the answer into the payload struct: one key after the other,
    field names matched without case, null leaves a field alone, a value of
    another type is an error. *)
Record filler_payload := mkPayload { pl_Filler : string; pl_Skip : bool; pl_Prediction : string }.

Definition decode_field (acc : option filler_payload) (kv : string * any) : option filler_payload :=
  match acc with
  | None => None
  | Some p =>
      let k := to_lower kv.1 in
      if String.eqb k "filler" then
        match kv.2 with
        | AnyString s => Some (mkPayload s (pl_Skip p) (pl_Prediction p))
        | AnyNil => acc
        | _ => None
        end
      else if String.eqb k "skip" then
        match kv.2 with
        | AnyBool b => Some (mkPayload (pl_Filler p) b (pl_Prediction p))
        | AnyNil => acc
        | _ => None
        end
      else if String.eqb k "prediction" then
        match kv.2 with
        | AnyString s => Some (mkPayload (pl_Filler p) (pl_Skip p) s)
        | AnyNil => acc
        | _ => None
        end
      else acc
  end.

(** [raw] lists the entries in key order, as re-encoding the map does. *)
Definition parseFillerResponse (raw : list (string * any)) : result (string * bool) :=
  match fold_left decode_field raw (Some (mkPayload "" false "")) with
  | None => Err "json: cannot unmarshal"
  | Some p =>
      let t := trim_space (pl_Filler p) in
      Ok (t, (pl_Skip p || String.eqb t "")%bool)
  end.

(** [generateFiller] once the service has answered. *)
Definition generateFiller (f : fillerState) (utteranceID token : Z)
    (answer : result (list (string * any))) : fillerState :=
  match answer with
  | Err _ => requestFailed f token utteranceID
  | Ok raw =>
      match parseFillerResponse raw with
      | Err _ => requestFailed f token utteranceID
      | Ok (filler, skip) => storeResult f token utteranceID filler skip
      end
  end.

(** ** The confirmation bridge *)

Definition parseConfirmBridgeResponse (raw : gmap string any) (fallback : string) : string :=
  match raw !! "text" with
  | Some (AnyString t) =>
      if negb (String.eqb (trim_space t) "") then trim_space t else fallback
  | _ => fallback
  end.

Definition bridge_context (consumed confirmText : string) : LLMContext :=
  mkLLMContext
    [text_message LLMMessageRoleSystem VARIABLE_CONFIRM_BRIDGE_PROMPT;
     text_message LLMMessageRoleUser
       ("Already spoken: " +:+ quote consumed +:+ newline +:+ "Must deliver: " +:+ quote confirmText)]
    [].

(** The text spoken: [ask] is the service, [None] when there is none. *)
Definition generateConfirmBridge (consumed confirmText : string)
    (ask : option (LLMContext → result (gmap string any))) : string :=
  if String.eqb consumed "" then confirmText else
  match ask with
  | None => confirmText
  | Some service =>
      match service (bridge_context consumed confirmText) with
      | Err _ => confirmText
      | Ok raw => parseConfirmBridgeResponse raw confirmText
      end
  end.

(** ** The handler *)

Record LLMHandlerConfig := mkLLMHandlerConfig {
  AllowToolCalls : bool;
  BreakWords : list string;
  PreEmptiveGeneration : bool;
  GenerateFillers : bool
}.

Definition DefaultConfig : LLMHandlerConfig := mkLLMHandlerConfig true [] true true.

(** [fullText] is the event loop's local variable. *)
Record LLMHandler := mkLLMHandler {
  config : LLMHandlerConfig;
  filler : fillerState;
  discarding : bool;
  fullText : string
}.

Definition NewLLMHandler (cfg : LLMHandlerConfig) : LLMHandler :=
  mkLLMHandler cfg (newFillerState (GenerateFillers cfg)) false "".

Definition set_filler (h : LLMHandler) (f : fillerState) : LLMHandler :=
  mkLLMHandler (config h) f (discarding h) (fullText h).
Definition set_discarding (h : LLMHandler) (b : bool) : LLMHandler :=
  mkLLMHandler (config h) (filler h) b (fullText h).
Definition set_fullText (h : LLMHandler) (t : string) : LLMHandler :=
  mkLLMHandler (config h) (filler h) (discarding h) t.

Inductive llm_effect : Type :=
| Send (p : EventPacket)
| ServiceReset
| SpawnGeneration (ctx : LLMContext)
| SpawnFiller (partial : string) (ctx : LLMContext) (utteranceID token : Z)
| SpawnBridge (consumed confirmText : string)
| RunCompletion (ctx : LLMContext).

Definition relayer_name : string := "LLMHandler".
Definition send_next (e : IEvent) : llm_effect := Send (next_packet e relayer_name).

(** [HandleEvent]; [None] is the nil dereference of an absent context when a
    filler is requested. *)
Definition HandleEvent (h : LLMHandler) (packet : EventPacket)
    : option (LLMHandler * list llm_effect) :=
  match Event packet with
  | LLMVariableConfirmRequestEvent confirmText =>
      let consumed := getConsumedFiller (filler h) in
      Some (set_filler h (clearAfterResponse (filler h)), [SpawnBridge consumed confirmText])
  | LLMGenerateResponseEvent ctx =>
      Some (set_discarding h false,
            [send_next LLMResponseStartedEvent; SpawnGeneration ctx; Send packet])
  | VadInterruptionSuspectedEvent =>
      Some (set_filler (set_discarding h true) (clearAfterResponse (filler h)), [Send packet])
  | VadInterruptionConfirmedEvent =>
      Some (set_filler (set_discarding h true) (clearAfterResponse (filler h)),
            [ServiceReset; Send packet])
  | LLMPrepareInterimFillerEvent partial ctx =>
      match onInterim (filler h) partial with
      | (f, None) => Some (set_filler h f, [Send packet])
      | (f, Some (text, utteranceID, token)) =>
          match ctx with
          | None => None
          | Some c => Some (set_filler h f, [SpawnFiller text c utteranceID token; Send packet])
          end
      end
  | _ => Some (h, [Send packet])
  end.

(** The goroutine of a generation, after [waitForFiller] returned [text]. *)
Definition continue_prompt (text : string) : string :=
  "The response already starts with " +:+ double_quote +:+ text +:+ double_quote +:+
  ". Do NOT repeat it. Continue seamlessly from that point. Begin your output with " +:+
  double_quote +:+ "..." +:+ double_quote +:+ " followed by the continuation.".

Definition start_generation (ctx : LLMContext) (text : string) : list llm_effect :=
  if String.eqb text "" then [ServiceReset; RunCompletion ctx]
  else [ServiceReset; send_next (LLMResponseChunkEvent text true);
        RunCompletion (append_message ctx
          (text_message LLMMessageRoleSystem (continue_prompt text)))].

(** ** The event loop *)

Inductive service_output : Type :=
| OutMessage (msg : string)
| OutToolCall (call : LLMToolCall)
| OutStart
| OutEnd.

Definition loop_step (h : LLMHandler) (o : service_output) : LLMHandler * list llm_effect :=
  match o with
  | OutMessage msg =>
      if discarding h then (h, [])
      else (set_fullText h (fullText h +:+ msg), [send_next (LLMResponseChunkEvent msg false)])
  | OutToolCall call =>
      if discarding h then (h, [])
      else (h, [send_next (LLMToolInvocationRequestedEvent (tc_ToolId call) (tc_Parameters call))])
  | OutStart =>
      if discarding h then (h, [])
      else (set_fullText h (getConsumedFiller (filler h)), [])
  | OutEnd =>
      if discarding h then (set_fullText h "", [])
      else (set_fullText (set_filler h (clearAfterResponse (filler h))) "",
            [send_next (LLMResponseCompletedEvent (fullText h))])
  end.
