(* ===== verification/LlmHandlerProofs.v ===== *)
(** * Correctness of the language-model handler

    Only the newest filler request can be answered, at most one filler is
    spoken per response, the wait for a filler ends, a cancelled generation is
    silent until the next one, and the recorded response is exactly the text
    relayed for speaking. *)

From S2P Require Import Prelude Core Phrases LlmHandler.

Local Open Scope string_scope.
Local Open Scope list_scope.
Local Open Scope Z_scope.

(** ** Operations on the filler state *)

Inductive filler_op : Type :=
| OpInterim (text : string)
| OpStore (token utteranceID : Z) (text : string) (skip : bool)
| OpFail (token utteranceID : Z)
| OpPoll
| OpConsume
| OpClear.

(** The new state and the filler handed out, if any. *)
Definition apply_op (f : fillerState) (op : filler_op) : fillerState * string :=
  match op with
  | OpInterim text => ((onInterim f text).1, "")
  | OpStore t u s k => (storeResult f t u s k, "")
  | OpFail t u => (requestFailed f t u, "")
  | OpPoll =>
      if negb (enabled f) then (f, "")
      else match poll f with
           | (f', Grabbed s) => (f', s)
           | (f', _) => (f', "")
           end
  | OpConsume => consumeFiller f
  | OpClear => (clearAfterResponse f, "")
  end.

Fixpoint run_ops (f : fillerState) (ops : list filler_op) : fillerState :=
  match ops with
  | [] => f
  | op :: ops' => run_ops (apply_op f op).1 ops'
  end.

(** How many requests a run issues, and how many fillers it hands out. *)
Definition is_request (f : fillerState) (op : filler_op) : nat :=
  match op with
  | OpInterim text => match (onInterim f text).2 with Some _ => 1 | None => 0 end
  | _ => 0
  end%nat.

Fixpoint requests (f : fillerState) (ops : list filler_op) : nat :=
  match ops with
  | [] => 0
  | op :: ops' => is_request f op + requests (apply_op f op).1 ops'
  end%nat.

Fixpoint handed_out (f : fillerState) (ops : list filler_op) : nat :=
  match ops with
  | [] => 0
  | op :: ops' =>
      (if String.eqb (apply_op f op).2 "" then 0 else 1) + handed_out (apply_op f op).1 ops'
  end%nat.

Definition is_clear (op : filler_op) : bool :=
  match op with
  | OpClear => true
  | _ => false
  end.

(** ** The invariant *)

Definition filler_inv (f : fillerState) : Prop :=
  (activeRequestToken f = 0 ∨ activeRequestToken f = nextRequestToken f) ∧
  0 ≤ nextRequestToken f < 2 ^ 64 ∧
  (listening f = false →
     activeRequestToken f = 0 ∧ fillerRequested f = false ∧ fillerReady f = false ∧
     fillerConsumed f = false) ∧
  (fillerConsumed f = false → consumedFiller f = "").

Lemma filler_inv_new b : filler_inv (newFillerState b).
Proof. unfold filler_inv. cbn. split_and!; auto; lia. Qed.

Lemma uint64_succ_range n : 0 ≤ uint64_succ n < 2 ^ 64.
Proof. apply Z.mod_pos_bound. lia. Qed.

Lemma start_listening_inv f : filler_inv f → filler_inv (start_listening f).
Proof.
  intros (Ha & Hn & Hl & Hc). unfold start_listening. destruct (listening f) eqn:E.
  - unfold filler_inv. rewrite E. auto.
  - unfold filler_inv. cbn. split_and!; auto; lia.
Qed.

Lemma start_listening_on f : listening (start_listening f) = true.
Proof. unfold start_listening. by destruct (listening f) eqn:E. Qed.

Lemma request_filler_inv f :
  filler_inv f → listening f = true → filler_inv (request_filler f).
Proof.
  intros (Ha & Hn & Hl & Hc) Hon. unfold filler_inv. cbn. rewrite Hon.
  split_and!; [by right|apply uint64_succ_range..|done|done].
Qed.

Lemma onInterim_inv f text : filler_inv f → filler_inv (onInterim f text).1.
Proof.
  intros Hf. unfold onInterim. destruct (enabled f); [|done]. cbn -[trim_space fields].
  destruct (String.eqb _ ""); [done|].
  destruct (_ || _)%bool; [by apply start_listening_inv|].
  apply request_filler_inv; [by apply start_listening_inv|apply start_listening_on].
Qed.

Lemma expects_spec f t u :
  expects f t u = true ↔ t ≠ 0 ∧ t = activeRequestToken f ∧ u = fillerUtteranceID f.
Proof.
  unfold expects. rewrite !andb_true_iff, negb_true_iff, Z.eqb_neq, !Z.eqb_eq. tauto.
Qed.

Lemma set_result_inv f r b p t u :
  filler_inv f → expects f t u = true → filler_inv (set_result f r b p).
Proof.
  intros (Ha & Hn & Hl & Hc) (Ht & Hta & _)%expects_spec. unfold filler_inv. cbn.
  split_and!; [by left|lia|lia| |done].
  intros Hoff. destruct (Hl Hoff) as (? & _). congruence.
Qed.

Lemma mark_consumed_inv f :
  filler_inv f → listening f = true → filler_inv (mark_consumed f).
Proof.
  intros (Ha & Hn & Hl & Hc) Hon. unfold filler_inv. cbn. rewrite Hon.
  split; [done|]. split; [done|]. by split.
Qed.

Lemma filler_inv_op f op : filler_inv f → filler_inv (apply_op f op).1.
Proof.
  intros Hf. assert (fillerRequested f = true ∨ fillerReady f = true → listening f = true) as Hon.
  { destruct Hf as (_ & _ & Hl & _). destruct (listening f); [done|].
    destruct (Hl eq_refl) as (_ & -> & -> & _). intros [?|?]; done. }
  destruct op as [text|t u s k|t u| | |]; cbn -[onInterim trim_space].
  - by apply onInterim_inv.
  - unfold storeResult. destruct (enabled f); [|done]. cbn -[trim_space].
    destruct (expects f t u) eqn:E; [|done]. cbn -[trim_space].
    destruct (_ || _)%bool; by eapply set_result_inv.
  - unfold requestFailed. destruct (enabled f); [|done].
    destruct (expects f t u) eqn:E; [|done]. by eapply set_result_inv.
  - destruct (enabled f); [|done]. unfold poll. cbn. destruct (fillerRequested f) eqn:E; [|done].
    cbn. destruct (_ && _)%bool; [|done]. apply mark_consumed_inv; auto.
  - unfold consumeFiller. destruct (enabled f); [|done]. cbn.
    destruct (fillerReady f) eqn:E; [|by destruct (fillerConsumed f)].
    destruct (fillerConsumed f); [done|]. cbn. destruct (String.eqb _ _); [done|].
    apply mark_consumed_inv; auto.
  - unfold clearAfterResponse. destruct (enabled f) eqn:E; [|done].
    destruct Hf as (_ & Hn & _). unfold filler_inv. cbn. split_and!; auto; lia.
Qed.

Lemma filler_inv_run ops : ∀ f, filler_inv f → filler_inv (run_ops f ops).
Proof. induction ops as [|op ops IH]; cbn; auto using filler_inv_op. Qed.

(** ** Tokens *)

(** A step leaves the token counter alone or counts one request. *)
Lemma op_token f op :
  nextRequestToken (apply_op f op).1 =
  match is_request f op with
  | O => nextRequestToken f
  | S _ => uint64_succ (nextRequestToken f)
  end.
Proof.
  destruct op as [text|t u s k|t u| | |]; cbn -[onInterim trim_space].
  - unfold onInterim. destruct (enabled f); [|done]. cbn -[trim_space fields].
    destruct (String.eqb _ ""); [done|].
    assert (nextRequestToken (start_listening f) = nextRequestToken f) as Hs.
    { unfold start_listening. by destruct (listening f). }
    destruct (_ || _)%bool; cbn; by rewrite Hs.
  - unfold storeResult. destruct (enabled f), (expects f t u); cbn -[trim_space]; try done.
    by destruct (_ || _)%bool.
  - unfold requestFailed. by destruct (enabled f), (expects f t u).
  - destruct (enabled f); [|done]. unfold poll. cbn. destruct (fillerRequested f); [|done].
    cbn. by destruct (_ && _)%bool.
  - unfold consumeFiller. destruct (enabled f); [|done].
    destruct (_ || _)%bool; [done|]. by destruct (String.eqb _ _).
  - unfold clearAfterResponse. by destruct (enabled f).
Qed.

Lemma run_token ops : ∀ f,
  0 ≤ nextRequestToken f < 2 ^ 64 →
  nextRequestToken (run_ops f ops) = (nextRequestToken f + Z.of_nat (requests f ops)) mod 2 ^ 64.
Proof.
  induction ops as [|op ops IH]; intros f Hf; cbn [run_ops requests].
  - rewrite Z.add_0_r, Z.mod_small by lia. done.
  - assert (is_request f op = 0 ∨ is_request f op = 1)%nat as Hr.
    { destruct op; cbn; auto. destruct (_.2); auto. }
    pose proof (op_token f op) as Ht. destruct Hr as [Hr|Hr]; rewrite Hr in *; cbn in Ht.
    + rewrite IH by lia. by rewrite Ht.
    + rewrite IH by (rewrite Ht; apply uint64_succ_range). rewrite Ht. unfold uint64_succ.
      rewrite Zplus_mod_idemp_l. f_equal. lia.
Qed.

(** Only the newest token can be expected. *)
Lemma old_token_unexpected f t u :
  filler_inv f → t ≠ nextRequestToken f → expects f t u = false.
Proof.
  intros (Ha & _) Ht. apply not_true_is_false. intros (Hz & He & _)%expects_spec.
  destruct Ha; congruence.
Qed.

(** ** One filler per response *)

Definition filler_credit (f : fillerState) : nat := if fillerConsumed f then 0 else 1.

Lemma start_listening_consumed f :
  filler_inv f → fillerConsumed (start_listening f) = fillerConsumed f.
Proof.
  intros (_ & _ & Hl & _). unfold start_listening. destruct (listening f); [done|].
  cbn. destruct (Hl eq_refl) as (_ & _ & _ & ->). done.
Qed.

Lemma op_credit f op :
  filler_inv f →
  ((if String.eqb (apply_op f op).2 "" then 0 else 1) + filler_credit (apply_op f op).1
   ≤ filler_credit f + (if is_clear op then 1 else 0))%nat.
Proof.
  intros Hf. destruct op as [text|t u s k|t u| | |]; cbn -[onInterim trim_space].
  - unfold onInterim. destruct (enabled f); [|cbn; lia]. cbn -[trim_space fields].
    destruct (String.eqb _ ""); [cbn; lia|].
    destruct (_ || _)%bool; unfold filler_credit; cbn;
      rewrite (start_listening_consumed f Hf); lia.
  - unfold storeResult. destruct (enabled f), (expects f t u); cbn -[trim_space]; try lia.
    destruct (_ || _)%bool; unfold filler_credit; cbn; lia.
  - unfold requestFailed, filler_credit. destruct (enabled f), (expects f t u); cbn; lia.
  - destruct (enabled f); [|cbn; lia]. unfold poll. cbn.
    destruct (fillerRequested f); [|cbn; lia]. cbn. unfold filler_credit.
    destruct (fillerReady f), (fillerConsumed f) eqn:Ec; cbn; rewrite ?Ec; try lia.
    destruct (String.eqb (pendingFiller f) "") eqn:E; cbn; rewrite ?E, ?Ec; lia.
  - unfold consumeFiller, filler_credit. destruct (enabled f); [|cbn; lia].
    destruct (fillerConsumed f) eqn:Ec, (fillerReady f); cbn; rewrite ?Ec; try lia.
    destruct (String.eqb (pendingFiller f) "") eqn:E; cbn; rewrite ?E, ?Ec; lia.
  - unfold clearAfterResponse, filler_credit. destruct (enabled f); cbn; destruct (fillerConsumed f); lia.
Qed.

Lemma run_credit ops : ∀ f,
  filler_inv f →
  (handed_out f ops ≤ filler_credit f + length (List.filter is_clear ops))%nat.
Proof.
  induction ops as [|op ops IH]; intros f Hf; cbn [handed_out]; [lia|].
  pose proof (op_credit f op Hf). pose proof (IH _ (filler_inv_op f op Hf)).
  cbn. destruct (is_clear op); cbn in *; lia.
Qed.

(** ** Waiting *)

Lemma wait_loop_ends fuel : ∀ n clock env deadline f,
  (∀ k, clock k + 10 ≤ clock (S k)) →
  deadline < clock n + 10 * Z.of_nat fuel →
  is_Some (wait_loop (S fuel) n clock env deadline f).
Proof.
  induction fuel as [|fuel IH]; intros n clock env deadline f Hclock Hd.
  - cbn. destruct (poll (env n f)) as [f' []]; eauto.
    destruct (deadline <? clock n) eqn:E; [eauto|]. apply Z.ltb_ge in E. lia.
  - remember (S fuel) as fuel1. cbn. destruct (poll (env n f)) as [f' []]; eauto.
    destruct (deadline <? clock n); [eauto|]. subst fuel1.
    apply IH; [done|]. pose proof (Hclock n). lia.
Qed.

(** ** The event loop *)

Fixpoint loop_run (h : LLMHandler) (os : list service_output) : LLMHandler * list llm_effect :=
  match os with
  | [] => (h, [])
  | o :: os' =>
      let '(h1, e1) := loop_step h o in
      let '(h2, e2) := loop_run h1 os' in
      (h2, e1 ++ e2)
  end.

Definition message_text (o : service_output) : list string :=
  match o with
  | OutMessage m => [m]
  | _ => []
  end.

Definition is_body (o : service_output) : bool :=
  match o with
  | OutMessage _ | OutToolCall _ => true
  | _ => false
  end.

(** The chunks and the recorded texts among the effects. *)
Definition chunk_text (e : llm_effect) : list string :=
  match e with
  | Send p => match Event p with LLMResponseChunkEvent c _ => [c] | _ => [] end
  | _ => []
  end.

Definition recorded_text (e : llm_effect) : list string :=
  match e with
  | Send p => match Event p with LLMResponseCompletedEvent t => [t] | _ => [] end
  | _ => []
  end.

Lemma loop_body_run os : ∀ h,
  discarding h = false → forallb is_body os = true →
  let r := loop_run h os in
  r.1 = set_fullText h (fullText h +:+ str_join "" (concat (map message_text os))) ∧
  concat (map chunk_text r.2) = concat (map message_text os) ∧
  concat (map recorded_text r.2) = [].
Proof.
  induction os as [|o os IH]; intros h Hd Hb; cbn -[str_join].
  - rewrite string_app_nil_r. by destruct h.
  - cbn in Hb. apply andb_true_iff in Hb as [Ho Hb].
    destruct o as [msg|call| |]; try done; cbn -[str_join]; rewrite Hd.
    + destruct (IH (set_fullText h (fullText h +:+ msg)) Hd Hb) as (H1 & H2 & H3).
      destruct (loop_run _ os) as [h2 e2]. cbn -[str_join] in *.
      rewrite H1, H2, H3, str_join_nil_cons. cbn. by rewrite string_app_assoc.
    + destruct (IH h Hd Hb) as (H1 & H2 & H3).
      destruct (loop_run _ os) as [h2 e2]. cbn in *. by rewrite H1, H2, H3.
Qed.

Lemma loop_run_app os os' : ∀ h,
  loop_run h (os ++ os') =
  let '(h1, e1) := loop_run h os in
  let '(h2, e2) := loop_run h1 os' in (h2, e1 ++ e2).
Proof.
  induction os as [|o os IH]; intros h; cbn.
  - by destruct (loop_run h os').
  - destruct (loop_step h o) as [h1 e1]. rewrite IH.
    destruct (loop_run h1 os) as [h2 e2]. destruct (loop_run h2 os') as [h3 e3].
    by rewrite app_assoc.
Qed.

(** ** Interleaved runs *)

Inductive llm_input : Type :=
| InEvent (p : EventPacket)
| InLoop (o : service_output)
| InFiller (op : filler_op).      (* a filler goroutine *)

(** The handler after the inputs and what the event loop sent; [None] after a
    nil dereference. *)
Fixpoint handler_run (h : LLMHandler) (ins : list llm_input)
    : option (LLMHandler * list llm_effect) :=
  match ins with
  | [] => Some (h, [])
  | InEvent p :: ins' =>
      match HandleEvent h p with
      | None => None
      | Some (h1, _) => handler_run h1 ins'
      end
  | InLoop o :: ins' =>
      let '(h1, e1) := loop_step h o in
      match handler_run h1 ins' with
      | None => None
      | Some (h2, e2) => Some (h2, e1 ++ e2)
      end
  | InFiller op :: ins' => handler_run (set_filler h (apply_op (filler h) op).1) ins'
  end.

Definition starts_generation (i : llm_input) : bool :=
  match i with
  | InEvent p => match Event p with LLMGenerateResponseEvent _ => true | _ => false end
  | _ => false
  end.

Lemma discarding_event h p h1 e1 :
  HandleEvent h p = Some (h1, e1) → discarding h = true →
  starts_generation (InEvent p) = false → discarding h1 = true.
Proof.
  unfold HandleEvent. cbn. intros He Hd Hs.
  destruct (Event p); simplify_eq; try done.
  destruct (onInterim _ _) as [f [[[t u] k]|]]; [destruct Context|]; by simplify_eq.
Qed.

Lemma discarding_loop h o : discarding h = true → (loop_step h o).2 = [] ∧ discarding (loop_step h o).1 = true.
Proof. intros Hd. destruct o; cbn; by rewrite Hd. Qed.

Lemma discarding_run ins : ∀ h h' out,
  discarding h = true → forallb (λ i, negb (starts_generation i)) ins = true →
  handler_run h ins = Some (h', out) → out = [] ∧ discarding h' = true.
Proof.
  induction ins as [|i ins IH]; intros h h' out Hd Hi Hr; cbn [handler_run] in Hr; [by simplify_eq|].
  cbn [forallb] in Hi. apply andb_true_iff in Hi as [Hi Hins]. apply negb_true_iff in Hi.
  destruct i as [p|o|op].
  - destruct (HandleEvent h p) as [[h1 e1]|] eqn:He; [|done].
    eapply IH; [eapply discarding_event; eauto|done|done].
  - destruct (discarding_loop h o Hd) as [He1 Hd1]. destruct (loop_step h o) as [h1 e1].
    destruct (handler_run h1 ins) as [[h2 e2]|] eqn:Hr2; [|done]. simplify_eq.
    cbn in He1. subst e1. eapply IH; eauto.
  - eapply IH; [|done|done]. done.
Qed.

(** ** The wait hands out what it records *)

Definition fresh_filler (f : fillerState) : Prop := filler_inv f ∧ fillerConsumed f = false.

Lemma poll_records f f' r :
  fresh_filler f → poll f = (f', r) →
  match r with
  | Grabbed s => consumedFiller f' = s ∧ enabled f' = enabled f
  | _ => f' = f
  end.
Proof.
  intros [Hi Hc] Hp. unfold poll in Hp. destruct (fillerRequested f); cbn in Hp; [|by simplify_eq].
  destruct (fillerReady f), (fillerConsumed f); cbn in Hp; simplify_eq; try done.
  by destruct (String.eqb _ _); cbn in Hp; simplify_eq.
Qed.

Lemma wait_records fuel : ∀ n clock env deadline f f' text,
  (∀ n f, fresh_filler f → fresh_filler (env n f) ∧ enabled (env n f) = enabled f) →
  fresh_filler f → enabled f = true →
  wait_loop fuel n clock env deadline f = Some (f', text) →
  getConsumedFiller f' = text.
Proof.
  induction fuel as [|fuel IH]; intros n clock env deadline f f' text Henv Hf Hon Hw; [done|].
  cbn in Hw. destruct (Henv n f Hf) as [Hf1 He1].
  destruct (poll (env n f)) as [f1 r] eqn:Hp. pose proof (poll_records _ _ _ Hf1 Hp) as Hr.
  assert (fresh_filler (env n f) → getConsumedFiller (env n f) = "") as Hempty.
  { intros [(_ & _ & _ & Hc) Hn]. unfold getConsumedFiller. rewrite (Hc Hn). by destruct (negb _). }
  destruct r.
  - simplify_eq. by apply Hempty.
  - destruct Hr as [Hr He]. simplify_eq. unfold getConsumedFiller. by rewrite He, He1, Hon.
  - subst f1. destruct (deadline <? clock n); [simplify_eq; by apply Hempty|].
    eapply IH; [done|exact Hf1|by rewrite He1|done].
Qed.

(** ** Properties *)

(** C17: from a fresh handler on, a filler request that another request has
    superseded can neither deliver nor fail: with fewer than 2^64 requests in
    between, its answer leaves the state as it is. *)
Theorem superseded_filler_ignored on ops text f' u token request ops' s skip :
  let f := run_ops (newFillerState on) ops in
  onInterim f text = (f', Some (request, u, token)) →
  let f2 := run_ops f' ops' in
  (0 < requests f' ops')%nat → Z.of_nat (requests f' ops') < 2 ^ 64 →
  storeResult f2 token u s skip = f2 ∧ requestFailed f2 token u = f2.
Proof.
  intros f Hint f2 Hpos Hlt.
  assert (filler_inv f) as Hf by (apply filler_inv_run, filler_inv_new).
  assert (filler_inv f') as Hf' by (pose proof (onInterim_inv f text Hf) as H; by rewrite Hint in H).
  assert (nextRequestToken f' = token) as <-.
  { unfold onInterim in Hint. destruct (enabled f); [|done]. cbn -[trim_space fields] in Hint.
    destruct (String.eqb _ ""); [done|]. destruct (_ || _)%bool; [done|]. by simplify_eq. }
  assert (expects f2 (nextRequestToken f') u = false) as He.
  { apply old_token_unexpected; [by apply filler_inv_run|].
    unfold f2. destruct Hf' as (_ & Hn & _). rewrite run_token by done. intros Heq.
    rewrite <- (Z.mod_small (nextRequestToken f') (2 ^ 64)) in Heq at 1 by done.
    assert (Z.of_nat (requests f' ops') mod 2 ^ 64 = 0) as Hz; [|rewrite Z.mod_small in Hz; lia].
    replace (Z.of_nat (requests f' ops')) with
      (nextRequestToken f' + Z.of_nat (requests f' ops') - nextRequestToken f') by lia.
    rewrite Zminus_mod, <- Heq, Z.sub_diag. done. }
  unfold storeResult, requestFailed. rewrite He. by destruct (enabled f2).
Qed.

(** at most one filler is handed out between two responses: over any run
    the fillers handed out are at most one more than the clears. *)
Theorem one_filler_per_response on ops :
  (handed_out (newFillerState on) ops ≤ 1 + length (List.filter is_clear ops))%nat.
Proof. apply (run_credit ops _ (filler_inv_new on)). Qed.

(** the wait for a filler always ends: with at least 10 ms between polls,
    whatever the other goroutines do, it returns within timeout / 10 ms + 2
    rounds of the loop. *)
Theorem waitForFiller_terminates start timeout clock env f :
  0 ≤ timeout → start ≤ clock 0%nat → (∀ k, clock k + 10 ≤ clock (S k)) →
  is_Some (waitForFiller (Z.to_nat (timeout / 10) + 2) start timeout clock env f).
Proof.
  intros Ht Hs Hc. unfold waitForFiller. destruct (enabled f); [|by eexists].
  cbn [negb]. replace (Z.to_nat (timeout / 10) + 2)%nat with (S (Z.to_nat (timeout / 10) + 1)) by lia.
  apply wait_loop_ends; [done|].
  pose proof (Z.div_mod timeout 10 ltac:(lia)). pose proof (Z.mod_pos_bound timeout 10 ltac:(lia)).
  assert (0 ≤ timeout / 10) by (apply Z.div_pos; lia). lia.
Qed.

(** once a generation is being discarded the event loop sends nothing, until
    the next generation request, whatever else arrives in between. *)
Theorem discarded_generation_is_silent h ins h' out :
  discarding h = true → forallb (λ i, negb (starts_generation i)) ins = true →
  handler_run h ins = Some (h', out) → out = [] ∧ discarding h' = true.
Proof. apply discarding_run. Qed.

(** When the loop receives the outputs of the service in the order they were
    sent, the text recorded for a completed response is exactly the text sent to
    be spoken: the filler the wait handed out, if any, followed by the
    service's messages in order; it is recorded once. *)
Theorem recorded_response_is_spoken fuel clock env deadline f f' text h ctx body :
  (∀ n f, fresh_filler f → fresh_filler (env n f) ∧ enabled (env n f) = enabled f) →
  fresh_filler f → enabled f = true →
  wait_loop fuel 0 clock env deadline f = Some (f', text) →
  filler h = f' → discarding h = false → forallb is_body body = true →
  let effs := start_generation ctx text ++ (loop_run h (OutStart :: body ++ [OutEnd])).2 in
  concat (map recorded_text effs) = [str_join "" (concat (map chunk_text effs))].
Proof.
  intros Henv Hf Hon Hw Hfil Hd Hb effs.
  pose proof (wait_records _ _ _ _ _ _ _ _ Henv Hf Hon Hw) as Hcons.
  assert (concat (map recorded_text (start_generation ctx text)) = [] ∧
          str_join "" (concat (map chunk_text (start_generation ctx text))) = text) as [Hr0 Hc0].
  { unfold start_generation. destruct (String.eqb text "") eqn:E; cbn; [|done].
    apply String.eqb_eq in E. by subst. }
  unfold effs. cbn [loop_run loop_step]. rewrite Hd, Hfil, Hcons, loop_run_app.
  set (h1 := set_fullText h text).
  destruct (loop_body_run body h1 Hd Hb) as (H1 & H2 & H3).
  destruct (loop_run h1 body) as [h2 e2]. cbn [fst snd] in *. subst h2.
  cbn -[str_join start_generation]. rewrite Hd. cbn -[str_join start_generation].
  rewrite !map_app, !concat_app, Hr0, H3, H2. cbn -[str_join].
  by rewrite app_nil_r, str_join_nil_app, Hc0.
Qed.

(** ** Witnesses *)

Definition first_request : fillerState * option (string * Z * Z) :=
  onInterim (newFillerState true) "I would like to book".

Lemma superseded_filler_ignored_witness :
  let f2 := run_ops first_request.1 [OpInterim "I would like to book a table"] in
  storeResult f2 1 1 "Sure thing..." false = f2.
Proof.
  apply (superseded_filler_ignored true [] "I would like to book" first_request.1 1 1
    "I would like to book" [OpInterim "I would like to book a table"] "Sure thing..." false);
    [reflexivity | vm_compute; repeat constructor | vm_compute; reflexivity].
Defined.

Lemma waitForFiller_terminates_witness :
  is_Some (waitForFiller 32 0 300 (λ n, 10 * Z.of_nat n) (λ _ f, f) first_request.1).
Proof.
  apply (waitForFiller_terminates 0 300 (λ n, 10 * Z.of_nat n) (λ _ f, f) first_request.1);
    [lia | cbn; lia | intros k; lia].
Defined.

Definition cancelled : LLMHandler := set_discarding (NewLLMHandler DefaultConfig) true.

Lemma discarded_generation_is_silent_witness :
  ∃ h', handler_run cancelled [InLoop (OutMessage "late"); InLoop OutEnd] = Some (h', []) ∧
        discarding h' = true.
Proof.
  eexists. split; [reflexivity|].
  apply (discarded_generation_is_silent cancelled [InLoop (OutMessage "late"); InLoop OutEnd] _ []);
    reflexivity.
Defined.

Definition answered : fillerState := storeResult first_request.1 1 1 "Let me see..." false.

Lemma recorded_response_is_spoken_witness :
  let effs := start_generation (mkLLMContext [] []) "Let me see..." ++
    (loop_run (set_filler (NewLLMHandler DefaultConfig) (mark_consumed answered))
       (OutStart :: [OutMessage " a table"; OutMessage " for two"] ++ [OutEnd])).2 in
  concat (map recorded_text effs) = [str_join "" (concat (map chunk_text effs))].
Proof.
  apply (recorded_response_is_spoken 1 (λ n, Z.of_nat n) (λ _ f, f) 300 answered
    (mark_consumed answered) "Let me see..."
    (set_filler (NewLLMHandler DefaultConfig) (mark_consumed answered)) (mkLLMContext [] [])
    [OutMessage " a table"; OutMessage " for two"]); try reflexivity.
  - intros n f Hf. split; [exact Hf | reflexivity].
  - split; [|reflexivity]. unfold filler_inv, answered, first_request. vm_compute.
    repeat split; try discriminate; auto.
Defined.
