(* ===== verification/TtsHandler.v ===== *)
(** * The speech-synthesis handler: [handlers/tts/]

    [TTSHandler] collects the model's chunks into speakable segments, hands
    them to the synthesis service, and simulates the moment each word is
    spoken.  The service (behind [TTSService]) answers each call with an error
    or nil; the answers to the calls of one event are an argument.  Unicode
    categories beyond ASCII come from [UnicodeTables]. *)

From S2P Require Import Prelude Core.

Local Open Scope string_scope.
Local Open Scope list_scope.
Local Open Scope Z_scope.

(** ** [tts_normalizer.go] *)

(** Whether an encoded non-ASCII rune is a letter, number, punctuation or
    separator (categories L, N, P, Z). *)
Class UnicodeTables := { is_LNPZ : string → bool }.

(** The same for ASCII: letters, digits, the space and the ASCII punctuation
    of category P (so not $ + < = > ^ ` | ~, nor control characters). *)
Definition ascii_LNPZ (n : nat) : bool :=
  in_range 48 57 n || in_range 65 90 n || in_range 97 122 n || Nat.eqb n 32 ||
  in_range 33 35 n || in_range 37 42 n || in_range 44 47 n || in_range 58 59 n ||
  in_range 63 64 n || in_range 91 93 n || Nat.eqb n 95 || Nat.eqb n 123 || Nat.eqb n 125.

(** [\s] of the regular expressions: tab, newline, form feed, return, space. *)
Definition is_re_space (c : Ascii.ascii) : bool :=
  let n := Ascii.nat_of_ascii c in
  Nat.eqb n 32 || Nat.eqb n 9 || Nat.eqb n 10 || Nat.eqb n 12 || Nat.eqb n 13.

Definition removeMarkdown (text : string) : string :=
  fold_left (λ t old, replace_all t old "") ["**"; "*"; "__"; "~~"; "`"] text.

(** [\s+] replaced by one space. *)
Fixpoint collapse_spaces (in_run : bool) (l : list Ascii.ascii) : list Ascii.ascii :=
  match l with
  | [] => []
  | c :: l' =>
      if is_re_space c
      then if in_run then collapse_spaces true l'
           else Ascii.ascii_of_nat 32 :: collapse_spaces true l'
      else c :: collapse_spaces false l'
  end.

Definition replaceMultipleSpaces (text : string) : string :=
  str_of_chars (collapse_spaces false (str_chars text)).

Fixpoint drop_re_spaces (l : list Ascii.ascii) : list Ascii.ascii :=
  match l with
  | c :: l' => if is_re_space c then drop_re_spaces l' else l
  | [] => []
  end.

Definition trimWhitespace (text : string) : string :=
  str_of_chars (rev (drop_re_spaces (rev (drop_re_spaces (str_chars text))))).

Section normalizer.
Context `{UnicodeTables}.

Definition keeps_rune (r : string * bool) : bool :=
  let n := byte_at r.1 0 in
  if Nat.ltb n 128 then ascii_LNPZ n else snd r && is_LNPZ r.1.

Definition removeEmojis (text : string) : string :=
  str_join "" (map fst (List.filter keeps_rune (utf8_runes text))).

Definition normalizeTextForTTS (text : string) : string :=
  trimWhitespace (replaceMultipleSpaces (removeEmojis (removeMarkdown text))).
End normalizer.

(** ** Configuration and state *)

Record TTSConfig := mkTTSConfig {
  ContextSize : Z;
  BreakWords : list string;
  MinTextLength : Z
}.

Definition DefaultConfig : TTSConfig := mkTTSConfig 100 [] 20.

Definition default_break_words : list string :=
  [",";".";"?";"!";";";":";"—";"-";"(";")";"[";"]";"{";"}";double_quote;"'";
   " and ";" but ";" or ";" nor ";" for ";" yet ";" so ";
   " because ";" although ";" though ";" even though ";
   " since ";" unless ";" while ";" whereas ";
   " if ";" when ";" whenever ";" before ";" after ";
   " until ";" once ";
   " that ";" which ";" who ";" whom ";" whose ";
   " however ";" therefore ";" moreover ";" furthermore ";
   " nevertheless ";" consequently ";" thus ";
   " instead ";" otherwise ";" meanwhile ";
   " as well as ";" in order to ";" so that ";
   " as soon as ";" even if "].

Record TTSHandler := mkTTS {
  config : TTSConfig;
  textBuffer : string;
  textToSpeak : list string;       (* buffered channel of capacity 100 *)
  resetSim : bool;                 (* buffered channel of capacity 1 *)
  isSpeaking : bool;
  hasBufferedSinceLastFlush : bool;
  enableSimulation : bool;
  words : list string;             (* local to [simulationLoop] *)
  timer : bool                     (* local: the timer is not nil *)
}.

Definition NewTTSHandler (cfg : TTSConfig) : TTSHandler :=
  let bw := match BreakWords cfg with [] => default_break_words | l => l end in
  let ml := if MinTextLength cfg =? 0 then 20 else MinTextLength cfg in
  mkTTS (mkTTSConfig (ContextSize cfg) bw ml) "" [] false false false true [] false.

Definition set_text (h : TTSHandler) (buffer : string) (buffered : bool) : TTSHandler :=
  mkTTS (config h) buffer (textToSpeak h) (resetSim h) (isSpeaking h) buffered
    (enableSimulation h) (words h) (timer h).
Definition set_channels (h : TTSHandler) (speak : list string) (reset : bool) : TTSHandler :=
  mkTTS (config h) (textBuffer h) speak reset (isSpeaking h) (hasBufferedSinceLastFlush h)
    (enableSimulation h) (words h) (timer h).
Definition set_sim (h : TTSHandler) (speaking : bool) (ws : list string) (t : bool) : TTSHandler :=
  mkTTS (config h) (textBuffer h) (textToSpeak h) (resetSim h) speaking
    (hasBufferedSinceLastFlush h) (enableSimulation h) ws t.

Definition DisableSimulation (h : TTSHandler) : TTSHandler :=
  mkTTS (config h) (textBuffer h) (textToSpeak h) (resetSim h) (isSpeaking h)
    (hasBufferedSinceLastFlush h) false (words h) (timer h).
Definition EnableSimulation (h : TTSHandler) : TTSHandler :=
  mkTTS (config h) (textBuffer h) (textToSpeak h) (resetSim h) (isSpeaking h)
    (hasBufferedSinceLastFlush h) true (words h) (timer h).

(** ** Events *)

Inductive tts_effect : Type :=
| BufferText (text : string)
| Flush
| Reset
| FatalError (msg : string)
| Send (p : EventPacket).

(** What the service returns to the calls one event makes. *)
Record service_answers := mkAnswers {
  buffer_err : option string;
  flush_err : option string;
  reset_err : option string
}.

Definition no_errors : service_answers := mkAnswers None None None.

Definition fatal (e : option string) : list tts_effect :=
  match e with
  | Some msg => [FatalError msg]
  | None => []
  end.

Definition speak_capacity : nat := 100.

(** The non-blocking send of a text to the simulation. *)
Definition to_simulation (h : TTSHandler) (text : string) : TTSHandler :=
  if (enableSimulation h && Nat.ltb (length (textToSpeak h)) speak_capacity)%bool
  then set_channels h (textToSpeak h ++ [text]) (resetSim h) else h.

Definition request_reset (h : TTSHandler) : TTSHandler :=
  if enableSimulation h then set_channels h (textToSpeak h) true else h.

(** Speak at once: buffer, then flush if that went well. *)
Definition speak_now (ans : service_answers) (text : string) : list tts_effect :=
  match buffer_err ans with
  | Some msg => [BufferText text; FatalError msg]
  | None => [BufferText text; Flush] ++ fatal (flush_err ans)
  end.

Definition indexOfBreakWord (text breakWord : string) : option nat := str_index breakWord text.

Definition has_break_word (cfg : TTSConfig) (text : string) : bool :=
  existsb (λ bw, match indexOfBreakWord text bw with Some _ => true | None => false end)
    (BreakWords cfg).

Definition should_flush (cfg : TTSConfig) (text : string) : bool :=
  has_break_word cfg text && (MinTextLength cfg <=? Z.of_nat (String.length text)).

Section events.
Context `{UnicodeTables}.

Definition handle_chunk (h : TTSHandler) (ans : service_answers) (chunk : string)
    : TTSHandler * list tts_effect :=
  let buffer := textBuffer h +:+ chunk in
  if should_flush (config h) buffer
  then
    let text := normalizeTextForTTS buffer in
    let ok := match buffer_err ans with None => true | Some _ => false end in
    (to_simulation (set_text h "" (ok || hasBufferedSinceLastFlush h)) text,
     BufferText text :: fatal (buffer_err ans))
  else (set_text h buffer (hasBufferedSinceLastFlush h), []).

Definition handle_immediate (h : TTSHandler) (ans : service_answers) (chunk : string)
    : TTSHandler * list tts_effect :=
  let text := normalizeTextForTTS chunk in
  if String.eqb text "" then (h, []) else (to_simulation h text, speak_now ans text).

Definition handle_completed (h : TTSHandler) (ans : service_answers)
    : TTSHandler * list tts_effect :=
  let remaining := trim_space (textBuffer h) in
  let h1 := set_text h "" (hasBufferedSinceLastFlush h) in
  let '(h2, e2) :=
    if String.eqb remaining "" then (h1, [])
    else
      let ok := match buffer_err ans with None => true | Some _ => false end in
      (to_simulation (set_text h1 "" (ok || hasBufferedSinceLastFlush h1)) remaining,
       BufferText remaining :: fatal (buffer_err ans)) in
  if hasBufferedSinceLastFlush h2
  then (match flush_err ans with
        | None => set_text h2 "" false
        | Some _ => h2
        end, e2 ++ Flush :: fatal (flush_err ans))
  else (h2, e2).

Definition HandleEvent (h : TTSHandler) (ans : service_answers) (packet : EventPacket)
    : TTSHandler * list tts_effect :=
  let '(h1, effs) :=
    match Event packet with
    | LLMResponseChunkEvent chunk true => handle_immediate h ans chunk
    | LLMResponseChunkEvent chunk false => handle_chunk h ans chunk
    | LLMResponseCompletedEvent _ => handle_completed h ans
    | VadInterruptionSuspectedEvent => (request_reset h, [])
    | VadInterruptionConfirmedEvent =>
        (request_reset (set_text h "" false), Reset :: fatal (reset_err ans))
    | LLMResponseStartedEvent => (request_reset (set_text h "" false), [])
    | TTSSpeakEvent text =>
        if String.eqb text "" then (h, []) else (to_simulation h text, speak_now ans text)
    | _ => (h, [])
    end in
  (h1, effs ++ [Send packet]).
End events.

#[global] Arguments to_simulation : simpl never.
#[global] Arguments normalizeTextForTTS {_} _ : simpl never.
#[global] Arguments should_flush : simpl never.

(** ** The simulation loop *)

Definition relayer_name : string := "TTSHandler".

Definition speaking_started : EventPacket := top_packet TTSSpeakingStartedEvent relayer_name.
Definition speaking_ended : EventPacket := top_packet TTSSpeakingEndedEvent relayer_name.
Definition spoken_word (w : string) : EventPacket :=
  next_packet (TTSSpokenTextChunkEvent w) relayer_name.

(** Clears the speaking flag, reporting the end if it was set. *)
Definition end_speaking (h : TTSHandler) : TTSHandler * list EventPacket :=
  if isSpeaking h then (set_sim h false (words h) (timer h), [speaking_ended]) else (h, []).

Definition sendNextWord (h : TTSHandler) : TTSHandler * list EventPacket :=
  match words h with
  | [] => (h, [])
  | w :: [] =>
      let '(h1, ended) := end_speaking (set_sim h (isSpeaking h) [] false) in
      (h1, spoken_word w :: ended)
  | w :: ws => (set_sim h (isSpeaking h) ws true, [spoken_word w])
  end.

Inductive sim_input : Type :=
| SimText       (* receive from [textToSpeak] *)
| SimReset      (* receive from [resetSim] *)
| SimTick.      (* the timer's channel *)

Definition receive_text (h : TTSHandler) (text : string) : TTSHandler * list EventPacket :=
  match fields text with
  | [] => (h, [])
  | newWords =>
      let starts := (negb (isSpeaking h) && match words h with [] => true | _ => false end)%bool in
      let h1 := set_sim h (starts || isSpeaking h) (words h ++ newWords) (timer h) in
      let '(h2, out) := if timer h1 then (h1, []) else sendNextWord h1 in
      (h2, (if starts then [speaking_started] else []) ++ out)
  end.

(** One round of the loop; a case that is not ready does nothing. *)
Definition sim_step (h : TTSHandler) (i : sim_input) : TTSHandler * list EventPacket :=
  match i with
  | SimText =>
      match textToSpeak h with
      | [] => (h, [])
      | text :: rest => receive_text (set_channels h rest (resetSim h)) text
      end
  | SimReset =>
      if resetSim h
      then end_speaking (set_sim (set_channels h [] false) (isSpeaking h) [] false)
      else (h, [])
  | SimTick =>
      if timer h
      then match words h with
           | _ :: _ => sendNextWord h
           | [] => end_speaking (set_sim h (isSpeaking h) [] false)
           end
      else (h, [])
  end.

(** The loop's deferred function, when its context is cancelled. *)
Definition sim_exit (h : TTSHandler) : TTSHandler * list EventPacket := end_speaking h.

(** ** [listenForAudioAndErrors] *)

Inductive session_output : Type :=
| SessionAudio (chunk : AudioChunk)
| SessionError (msg : string)
| SessionDone.

(** Forwards audio and errors until the session is done. *)
Fixpoint listenForAudioAndErrors (outs : list session_output) : list tts_effect :=
  match outs with
  | [] => []
  | SessionAudio c :: outs' =>
      Send (next_packet (TTSOutputEvent c) relayer_name) :: listenForAudioAndErrors outs'
  | SessionError e :: outs' => FatalError e :: listenForAudioAndErrors outs'
  | SessionDone :: _ => []
  end.

(** ** [Cleanup] against the simulation loop

    [Cleanup] holds [mu] while it waits for the loop, whose deferred function
    takes [mu].  Program points of the two goroutines, the mutex owner and the
    state of the loop's context. *)

Inductive cleanup_pc : Type := CStart | CLocked | CWaiting | CDone.
Inductive loop_pc : Type := LRunning | LBusy | LReturning | LFinal | LDone.
Inductive owner : Type := NoOwner | CleanupOwner | LoopOwner.

Record shutdown := mkShutdown {
  mu : owner;
  cancelled : bool;
  cleanup : cleanup_pc;
  loop : loop_pc
}.

Inductive shutdown_step : shutdown → shutdown → Prop :=
| cleanup_locks c l : shutdown_step (mkShutdown NoOwner c CStart l) (mkShutdown CleanupOwner c CLocked l)
| cleanup_cancels o c l : shutdown_step (mkShutdown o c CLocked l) (mkShutdown o true CWaiting l)
| cleanup_returns o c : shutdown_step (mkShutdown o c CWaiting LDone) (mkShutdown NoOwner c CDone LDone)
| loop_locks c p : shutdown_step (mkShutdown NoOwner c p LRunning) (mkShutdown LoopOwner c p LBusy)
| loop_unlocks o c p : shutdown_step (mkShutdown o c p LBusy) (mkShutdown NoOwner c p LRunning)
| loop_cancelled o p : shutdown_step (mkShutdown o true p LRunning) (mkShutdown o true p LReturning)
| defer_locks c p : shutdown_step (mkShutdown NoOwner c p LReturning) (mkShutdown LoopOwner c p LFinal)
| defer_unlocks o c p : shutdown_step (mkShutdown o c p LFinal) (mkShutdown NoOwner c p LDone).

(** [Cleanup] called while the loop runs, its context cancelled before or not. *)
Definition shutdown_start (already_cancelled : bool) : shutdown :=
  mkShutdown NoOwner already_cancelled CStart LRunning.
