(* ===== verification/TtsHandlerProofs.v ===== *)
(** * Correctness of the speech-synthesis handler

    The text of a response reaches the service cut into segments and never
    lost or repeated; a flush always follows buffered text; the simulation
    speaks every word once and in order between one start and one end event;
    and two defects: the normalizer joins words across line breaks, and
    [Cleanup] deadlocks with a running simulation. *)

From S2P Require Import Prelude Core TtsHandler.

Local Open Scope string_scope.
Local Open Scope list_scope.
Local Open Scope Z_scope.

(** ** Segments of a response *)

Definition buffered (e : tts_effect) : list string :=
  match e with
  | BufferText t => [t]
  | _ => []
  end.

Definition buffered_texts (es : list tts_effect) : list string := concat (map buffered es).

Section segments.
Context `{UnicodeTables}.

(** The chunks of one response, each with the service's answers. *)
Fixpoint chunks_run (h : TTSHandler) (cs : list (service_answers * string))
    : TTSHandler * list tts_effect :=
  match cs with
  | [] => (h, [])
  | (ans, c) :: cs' =>
      let '(h1, e1) := HandleEvent h ans (next_packet (LLMResponseChunkEvent c false) "LLMHandler") in
      let '(h2, e2) := chunks_run h1 cs' in
      (h2, e1 ++ e2)
  end.

Lemma to_simulation_fields h t :
  config (to_simulation h t) = config h ∧ textBuffer (to_simulation h t) = textBuffer h ∧
  hasBufferedSinceLastFlush (to_simulation h t) = hasBufferedSinceLastFlush h.
Proof. unfold to_simulation. by destruct (_ && _). Qed.

Lemma buffered_texts_app es fs : buffered_texts (es ++ fs) = buffered_texts es ++ buffered_texts fs.
Proof. unfold buffered_texts. by rewrite map_app, concat_app. Qed.

Lemma buffered_fatal e : buffered_texts (fatal e) = [].
Proof. by destruct e. Qed.

(** One chunk either grows the buffer or hands its normal form over. *)
Lemma chunk_cases h ans c :
  let p := next_packet (LLMResponseChunkEvent c false) "LLMHandler" in
  let r := HandleEvent h ans p in
  let buffer := textBuffer h +:+ c in
  config r.1 = config h ∧
  if should_flush (config h) buffer
  then textBuffer r.1 = "" ∧ buffered_texts r.2 = [normalizeTextForTTS buffer]
  else textBuffer r.1 = buffer ∧ buffered_texts r.2 = [].
Proof.
  cbn zeta. unfold HandleEvent. cbn [Event next_packet NewEventPacket]. unfold handle_chunk.
  destruct (should_flush (config h) _); cbn -[fatal].
  - match goal with |- context [to_simulation ?x ?t] =>
      destruct (to_simulation_fields x t) as (Hc & Ht & _) end.
    rewrite Hc, Ht. unfold buffered_texts. cbn -[normalizeTextForTTS fatal].
    rewrite map_app, concat_app. fold (buffered_texts (fatal (buffer_err ans))).
    by rewrite buffered_fatal.
  - done.
Qed.

(** The buffer before, then the chunks, are the segments flushed and the
    buffer left; what the service got is the segments' normal forms. *)
Lemma chunks_segments cs : ∀ h,
  let r := chunks_run h cs in
  config r.1 = config h ∧
  ∃ segs,
    textBuffer h +:+ str_join "" (map snd cs) = str_join "" segs +:+ textBuffer r.1 ∧
    buffered_texts r.2 = map normalizeTextForTTS segs ∧
    Forall (λ s, should_flush (config h) s = true) segs.
Proof.
  assert (∀ x xs, str_join "" (x :: xs) = x +:+ str_join "" xs) as Hcons.
  { intros x xs. destruct xs; cbn; [by rewrite string_app_nil_r|done]. }
  induction cs as [|[ans c] cs IH]; intros h; cbn [chunks_run map].
  - split; [done|]. exists []. cbn. rewrite string_app_nil_r. done.
  - pose proof (chunk_cases h ans c) as Hstep. cbn zeta in Hstep.
    destruct (HandleEvent h ans _) as [h1 e1]. cbn [fst snd] in Hstep.
    destruct Hstep as [Hcfg Hcase]. specialize (IH h1). cbn zeta in IH.
    destruct (chunks_run h1 cs) as [h2 e2]. cbn [fst snd] in *.
    destruct IH as [Hcfg2 (segs & Htext & Hbuf & Hall)].
    rewrite Hcfg in *. split; [done|].
    rewrite Hcons, <- string_app_assoc, buffered_texts_app, Hbuf.
    destruct (should_flush (config h) (textBuffer h +:+ c)) eqn:Hf; destruct Hcase as [Ht ->].
    + exists ((textBuffer h +:+ c) :: segs). split_and!.
      * by rewrite Hcons, (string_app_assoc (textBuffer h +:+ c)), <- Htext, Ht.
      * done.
      * by constructor.
    + exists segs. rewrite Ht in Htext. by split_and!.
Qed.
End segments.

(** ** Flush follows buffered text *)

(** [true] once something was buffered without error since the last flush. *)
Definition service_step (pending : bool) (e : tts_effect) (next : list tts_effect) : bool :=
  match e with
  | BufferText _ => match next with FatalError _ :: _ => pending | _ => true end
  | Reset => false
  | _ => pending
  end.

(** Every flush of the list happens with buffered text pending. *)
Fixpoint flushes_ok (pending : bool) (es : list tts_effect) : bool :=
  match es with
  | [] => true
  | Flush :: es' => pending && flushes_ok pending es'
  | e :: es' => flushes_ok (service_step pending e es') es'
  end.

Lemma event_flush_ok `{UnicodeTables} h ans p :
  flushes_ok (hasBufferedSinceLastFlush h) (HandleEvent h ans p).2 = true.
Proof.
  unfold HandleEvent. destruct (Event p); try done.
  - destruct ConsumeImmediately.
    + unfold handle_immediate. destruct (String.eqb _ ""); [done|].
      unfold speak_now. destruct (buffer_err ans), (flush_err ans); done.
    + unfold handle_chunk. destruct (should_flush _ _); [|done].
      by destruct (buffer_err ans).
  - unfold handle_completed. destruct (String.eqb _ ""); cbn -[trim_space].
    + destruct (hasBufferedSinceLastFlush h) eqn:E; cbn -[trim_space]; [|done].
      by destruct (flush_err ans).
    + match goal with |- context [to_simulation ?x ?t] =>
        destruct (to_simulation_fields x t) as (_ & _ & Hb) end.
      rewrite Hb. cbn -[trim_space to_simulation].
      destruct (buffer_err ans), (hasBufferedSinceLastFlush h), (flush_err ans); done.
  - destruct (String.eqb _ ""); [done|]. unfold speak_now.
    destruct (buffer_err ans), (flush_err ans); done.
  - by destruct (reset_err ans).
Qed.

(** ** The simulation *)

(** Between rounds: speaking, a timer and queued words go together. *)
Definition sim_inv (h : TTSHandler) : Prop :=
  (isSpeaking h = true ↔ words h ≠ []) ∧ (timer h = true ↔ words h ≠ []).

Lemma sim_inv_idle h : sim_inv h → words h = [] → isSpeaking h = false ∧ timer h = false.
Proof.
  intros [Hs Ht] Hw. rewrite Hw in *.
  split; apply not_true_is_false; [rewrite Hs|rewrite Ht]; by intros [].
Qed.

Lemma sim_inv_busy h : sim_inv h → words h ≠ [] → isSpeaking h = true ∧ timer h = true.
Proof. intros [Hs Ht] Hw. split; [by apply Hs|by apply Ht]. Qed.

(** The words among the packets, and the start/end events in order. *)
Definition word_of (p : EventPacket) : list string :=
  match Event p with
  | TTSSpokenTextChunkEvent w => [w]
  | _ => []
  end.

Definition words_of (ps : list EventPacket) : list string := concat (map word_of ps).

Definition speaking_mark (p : EventPacket) : option bool :=
  match Event p with
  | TTSSpeakingStartedEvent => Some true
  | TTSSpeakingEndedEvent => Some false
  | _ => None
  end.

(** Reads a packet list from a speaking state: starts and ends alternate and
    words appear only while speaking. *)
Fixpoint speech_ok (speaking : bool) (ps : list EventPacket) : option bool :=
  match ps with
  | [] => Some speaking
  | p :: ps' =>
      match speaking_mark p with
      | Some b => if Bool.eqb b speaking then None else speech_ok b ps'
      | None => match word_of p with
                | [] => speech_ok speaking ps'
                | _ => if speaking then speech_ok speaking ps' else None
                end
      end
  end.

(** Sending a word from a non-empty queue. *)
Lemma sendNextWord_spec h :
  isSpeaking h = true → words h ≠ [] →
  let r := sendNextWord h in
  sim_inv r.1 ∧ words_of r.2 ++ words r.1 = words h ∧
  speech_ok true r.2 = Some (isSpeaking r.1) ∧
  textToSpeak r.1 = textToSpeak h ∧ resetSim r.1 = resetSim h.
Proof.
  intros Hs Hw. unfold sendNextWord. destruct (words h) as [|w [|w' ws]] eqn:E; [done|..].
  - unfold end_speaking. cbn. rewrite Hs. cbn. unfold sim_inv. cbn. naive_solver.
  - cbn. rewrite Hs. unfold sim_inv. cbn. naive_solver.
Qed.

Definition sim_result_ok (h : TTSHandler) (queued : list string)
    (r : TTSHandler * list EventPacket) : Prop :=
  sim_inv r.1 ∧ words_of r.2 ++ words r.1 = words h ++ queued ∧
  speech_ok (isSpeaking h) r.2 = Some (isSpeaking r.1).

Lemma receive_text_spec h text :
  sim_inv h → sim_result_ok h (fields text) (receive_text h text).
Proof.
  intros Hinv. unfold sim_result_ok, receive_text. destruct (fields text) as [|w ws] eqn:Ef.
  - cbn. by rewrite app_nil_r.
  - destruct (words h) as [|v vs] eqn:Ew.
    + destruct (sim_inv_idle h Hinv Ew) as [Hs Ht]. rewrite Hs. cbn -[sendNextWord]. rewrite Ht.
      match goal with |- context [sendNextWord ?x] =>
        destruct (sendNextWord_spec x) as (Hi & Hwords & Hok & _); [done|done|] end.
      destruct (sendNextWord _) as [h2 out]. cbn in *. done.
    + assert (words h ≠ []) as Hne by (by rewrite Ew).
      destruct (sim_inv_busy h Hinv Hne) as [Hs Ht]. rewrite Hs. cbn -[sendNextWord]. rewrite Ht.
      cbn. split_and!; [|done|done]. unfold sim_inv. cbn. by split; split.
Qed.

Lemma tick_spec h : sim_inv h → sim_result_ok h [] (sim_step h SimTick).
Proof.
  intros Hinv. unfold sim_result_ok. rewrite app_nil_r. cbn -[sendNextWord].
  destruct (words h) as [|v vs] eqn:Ew.
  - destruct (sim_inv_idle h Hinv Ew) as [Hs Ht]. rewrite Ht. cbn. by rewrite Ew.
  - assert (words h ≠ []) as Hne by (by rewrite Ew).
    destruct (sim_inv_busy h Hinv Hne) as [Hs Ht]. rewrite Ht, Hs.
    destruct (sendNextWord_spec h Hs Hne) as (Hi & Hwords & Hok & _). by rewrite <- Ew.
Qed.

Lemma reset_spec h :
  sim_inv h → resetSim h = true →
  let r := sim_step h SimReset in
  sim_inv r.1 ∧ words r.1 = [] ∧ textToSpeak r.1 = [] ∧ words_of r.2 = [] ∧
  speech_ok (isSpeaking h) r.2 = Some (isSpeaking r.1).
Proof.
  intros Hinv Hr. cbn. rewrite Hr. unfold end_speaking. cbn.
  destruct (isSpeaking h) eqn:Es; cbn; unfold sim_inv; cbn; naive_solver.
Qed.

(** Runs of the loop in which texts arrive: the other goroutine's sends are
    inputs too. *)
Inductive loop_input : Type :=
| Arrive (text : string)     (* a send on [textToSpeak] that found room *)
| AskReset                   (* a send on [resetSim] *)
| Round (i : sim_input).

Definition loop_apply (h : TTSHandler) (i : loop_input) : TTSHandler * list EventPacket :=
  match i with
  | Arrive t => (set_channels h (textToSpeak h ++ [t]) (resetSim h), [])
  | AskReset => (set_channels h (textToSpeak h) true, [])
  | Round r => sim_step h r
  end.

Fixpoint loop_run (h : TTSHandler) (ins : list loop_input) : TTSHandler * list EventPacket :=
  match ins with
  | [] => (h, [])
  | i :: ins' =>
      let '(h1, o1) := loop_apply h i in
      let '(h2, o2) := loop_run h1 ins' in
      (h2, o1 ++ o2)
  end.

Definition arrived (i : loop_input) : list string :=
  match i with
  | Arrive t => fields t
  | _ => []
  end.

Definition no_reset (i : loop_input) : bool :=
  match i with
  | AskReset => false
  | _ => true
  end.

Lemma loop_apply_inv h i :
  sim_inv h →
  sim_inv (loop_apply h i).1 ∧
  speech_ok (isSpeaking h) (loop_apply h i).2 = Some (isSpeaking (loop_apply h i).1).
Proof.
  intros Hinv. destruct i as [t| |[]]; try by cbn.
  - cbn. destruct (textToSpeak h) as [|t ts]; [done|].
    destruct (receive_text_spec (set_channels h ts (resetSim h)) t Hinv) as (? & _ & ?). done.
  - destruct (resetSim h) eqn:Er.
    + destruct (reset_spec h Hinv Er) as (? & _ & _ & _ & ?). done.
    + cbn. by rewrite Er.
  - destruct (tick_spec h Hinv) as (? & _ & ?). done.
Qed.

Lemma speech_ok_app ps qs b :
  speech_ok b (ps ++ qs) = speech_ok b ps ≫= (λ b', speech_ok b' qs).
Proof.
  revert b. induction ps as [|p ps IH]; intros b; cbn; [done|].
  destruct (speaking_mark p) as [c|]; [by destruct (Bool.eqb c b)|].
  destruct (word_of p); [done|]. by destruct b.
Qed.

Lemma loop_run_speech ins : ∀ h,
  sim_inv h →
  sim_inv (loop_run h ins).1 ∧
  speech_ok (isSpeaking h) (loop_run h ins).2 = Some (isSpeaking (loop_run h ins).1).
Proof.
  induction ins as [|i ins IH]; intros h Hinv; cbn [loop_run]; [done|].
  destruct (loop_apply_inv h i Hinv) as [H1 Hok]. destruct (loop_apply h i) as [h1 o1].
  destruct (IH h1 H1) as [H2 Hok2]. destruct (loop_run h1 ins) as [h2 o2]. cbn in *.
  split; [done|]. by rewrite speech_ok_app, Hok.
Qed.

(** Words still to be spoken: the queue, then the texts in the channel. *)
Definition unspoken (h : TTSHandler) : list string :=
  words h ++ concat (map fields (textToSpeak h)).

Lemma words_of_app ps qs : words_of (ps ++ qs) = words_of ps ++ words_of qs.
Proof. unfold words_of. by rewrite map_app, concat_app. Qed.

Lemma receive_channels h text :
  textToSpeak (receive_text h text).1 = textToSpeak h ∧
  resetSim (receive_text h text).1 = resetSim h.
Proof.
  unfold receive_text. destruct (fields text); [done|]. cbn -[sendNextWord].
  destruct (timer h); [done|].
  unfold sendNextWord, end_speaking. destruct (words _) as [|? []]; cbn; [done| |done].
  by destruct (_ || _).
Qed.

Lemma loop_apply_words h i :
  sim_inv h → resetSim h = false → no_reset i = true →
  resetSim (loop_apply h i).1 = false ∧
  words_of (loop_apply h i).2 ++ unspoken (loop_apply h i).1 = unspoken h ++ arrived i.
Proof.
  intros Hinv Hr Hi. unfold unspoken. destruct i as [t| |[]]; try done; cbn [loop_apply arrived].
  - cbn. rewrite map_app, concat_app. cbn. by rewrite app_nil_r, app_assoc.
  - rewrite app_nil_r. cbn [sim_step]. destruct (textToSpeak h) as [|t ts] eqn:Et; [cbn; by rewrite Et|].
    destruct (receive_text_spec (set_channels h ts (resetSim h)) t Hinv) as (_ & Hw & _).
    destruct (receive_channels (set_channels h ts (resetSim h)) t) as [Hc Hrr].
    rewrite Hc, Hrr. split; [done|]. rewrite app_assoc, Hw. cbn. by rewrite <- app_assoc.
  - cbn. by rewrite Hr, app_nil_r.
  - rewrite app_nil_r. destruct (tick_spec h Hinv) as (_ & Hw & _). rewrite app_nil_r in Hw.
    assert (textToSpeak (sim_step h SimTick).1 = textToSpeak h ∧
            resetSim (sim_step h SimTick).1 = resetSim h) as [Hc Hrr].
    { cbn -[sendNextWord]. destruct (timer h); [|done].
      unfold sendNextWord, end_speaking. destruct (words h) as [|? []]; cbn; try done;
        by destruct (isSpeaking h). }
    rewrite Hc, Hrr. split; [done|]. by rewrite app_assoc, Hw.
Qed.

Lemma loop_run_words ins : ∀ h,
  sim_inv h → resetSim h = false → forallb no_reset ins = true →
  words_of (loop_run h ins).2 ++ unspoken (loop_run h ins).1 =
  unspoken h ++ concat (map arrived ins).
Proof.
  induction ins as [|i ins IH]; intros h Hinv Hr Hi; cbn [loop_run map concat].
  - by rewrite app_nil_r.
  - cbn in Hi. apply andb_true_iff in Hi as [Hi Hins].
    destruct (loop_apply_words h i Hinv Hr Hi) as [Hr1 Hw1].
    destruct (loop_apply_inv h i Hinv) as [H1 _]. destruct (loop_apply h i) as [h1 o1].
    specialize (IH h1 H1 Hr1 Hins). destruct (loop_run h1 ins) as [h2 o2]. cbn [fst snd] in *.
    rewrite words_of_app, <- app_assoc, IH, app_assoc, Hw1. by rewrite <- app_assoc.
Qed.

(** ** Shutdown *)

(** Without an earlier cancellation: who owns the mutex and where the loop is
    at each point of [Cleanup]. *)
Definition shutdown_inv (s : shutdown) : Prop :=
  match cleanup s with
  | CStart =>
      cancelled s = false ∧ ((loop s = LRunning ∧ mu s = NoOwner) ∨ (loop s = LBusy ∧ mu s = LoopOwner))
  | CLocked => mu s = CleanupOwner ∧ cancelled s = false ∧ loop s = LRunning
  | CWaiting => mu s = CleanupOwner ∧ (loop s = LRunning ∨ loop s = LReturning)
  | CDone => False
  end.

Lemma shutdown_inv_step s s' : shutdown_step s s' → shutdown_inv s → shutdown_inv s'.
Proof.
  intros Hstep. destruct Hstep; unfold shutdown_inv; cbn;
    repeat match goal with p : cleanup_pc |- _ => destruct p; cbn end; naive_solver.
Qed.

Lemma shutdown_inv_reachable s s' : rtc shutdown_step s s' → shutdown_inv s → shutdown_inv s'.
Proof. induction 1; eauto using shutdown_inv_step. Qed.

(** ** Properties *)

Section response_text.
Context `{UnicodeTables}.

(** the text of a response reaches the service without loss or repetition:
    the chunks, concatenated, are segments followed by a rest; the service is
    given the normal form of each segment in order, then the trimmed rest; and
    each segment has a break word and the minimum length. *)
Theorem response_reaches_service h cs ans full :
  textBuffer h = "" →
  let '(h1, e1) := chunks_run h cs in
  let '(h2, e2) := HandleEvent h1 ans (next_packet (LLMResponseCompletedEvent full) "LLMHandler") in
  ∃ segs rest,
    str_join "" (map snd cs) = str_join "" segs +:+ rest ∧
    buffered_texts (e1 ++ e2) =
      map normalizeTextForTTS segs ++ (if String.eqb (trim_space rest) "" then [] else [trim_space rest]) ∧
    Forall (λ s, should_flush (config h) s = true) segs ∧ textBuffer h2 = "".
Proof.
  intros Hh. pose proof (chunks_segments cs h) as Hseg. cbn zeta in Hseg.
  destruct (chunks_run h cs) as [h1 e1]. cbn [fst snd] in Hseg.
  destruct Hseg as [_ (segs & Htext & Hbuf & Hall)].
  unfold HandleEvent. cbn [Event next_packet NewEventPacket]. unfold handle_completed.
  assert (∀ x, buffered_texts (Flush :: fatal x) = []) as Hfl by (by intros []).
  assert (∀ x t, buffered_texts (BufferText t :: fatal x) = [t]) as Hbt by (by intros []).
  assert (∀ p, buffered_texts [Send p] = []) as Hsd by done.
  destruct (String.eqb (trim_space (textBuffer h1)) "") eqn:Er.
  - cbn [hasBufferedSinceLastFlush set_text].
    destruct (hasBufferedSinceLastFlush h1); [destruct (flush_err ans) eqn:Ef|];
      exists segs, (textBuffer h1); rewrite Er, !buffered_texts_app, Hbuf;
      rewrite Hh in Htext; by split_and!.
  - match goal with |- context [to_simulation ?x ?t] =>
      destruct (to_simulation_fields x t) as (_ & Ht2 & _);
      set (h2 := to_simulation x t) in * end.
    destruct (hasBufferedSinceLastFlush h2); [destruct (flush_err ans) eqn:Ef|];
      exists segs, (textBuffer h1);
      rewrite Er, !buffered_texts_app, Hbuf, ?Hbt, ?Hfl, ?Hsd, ?app_nil_r;
      rewrite Hh in Htext; by split_and!.
Qed.
End response_text.

(** the simulation reports speech correctly for any arrival of texts and
    resets: start and end events alternate, words are reported only in
    between, and the flag tells which came last. *)
Theorem simulated_speech_well_bracketed cfg ins :
  let r := loop_run (NewTTSHandler cfg) ins in
  speech_ok false r.2 = Some (isSpeaking r.1).
Proof.
  intros r. apply (loop_run_speech ins (NewTTSHandler cfg)). unfold sim_inv. cbn. by split; split.
Qed.

(** C19: without resets every word of every text that arrived is spoken exactly
    once and in order: the words spoken, the words queued and the words of the
    texts still in the channel are together the words that arrived. *)
Theorem every_word_spoken_once cfg ins :
  forallb no_reset ins = true →
  let r := loop_run (NewTTSHandler cfg) ins in
  words_of r.2 ++ unspoken r.1 = concat (map arrived ins).
Proof.
  intros Hi r. apply (loop_run_words ins (NewTTSHandler cfg)); [|done|done].
  unfold sim_inv. cbn. by split; split.
Qed.

(** [Cleanup] cannot return while the simulation loop runs: it waits for the
    loop holding the mutex the loop's deferred function needs.  When the
    context was cancelled just before, as [Runner.Stop] does, the same deadlock
    is still reachable. *)
Theorem cleanup_deadlocks :
  (∀ s, rtc shutdown_step (shutdown_start false) s → cleanup s ≠ CDone) ∧
  ∃ s, rtc shutdown_step (shutdown_start true) s ∧ cleanup s = CWaiting ∧
       (∀ s', shutdown_step s s' → False).
Proof.
  split.
  - intros s Hr. apply shutdown_inv_reachable in Hr; [|cbn; auto].
    unfold shutdown_inv in Hr. by destruct (cleanup s).
  - exists (mkShutdown CleanupOwner true CWaiting LReturning). split_and!; [|done|by inversion 1].
    eapply rtc_l; [apply cleanup_locks|]. eapply rtc_l; [apply cleanup_cancels|].
    apply rtc_once, loop_cancelled.
Qed.

Section normalizer_text.
Context `{UnicodeTables}.

(** whatever the Unicode tables are, the normalizer deletes line breaks
    before it collapses white space, so the words around a line break are run
    together. *)
Theorem normalizer_joins_lines :
  normalizeTextForTTS ("Hello" +:+ newline +:+ "world") = "Helloworld" ∧
  normalizeTextForTTS "costs $5 + **tax**" = "costs 5 tax".
Proof. split; vm_compute; reflexivity. Qed.
End normalizer_text.

(** ** Witnesses *)

Definition no_tables : UnicodeTables := {| is_LNPZ _ := false |}.

Definition demo_chunks : list (service_answers * string) :=
  map (λ c, (no_errors, c)) ["I can book "; "that table for you, "; "just a moment."; " Ok"].

Lemma response_reaches_service_witness :
  let '(h1, e1) := @chunks_run no_tables (NewTTSHandler DefaultConfig) demo_chunks in
  let '(h2, e2) := @HandleEvent no_tables h1 no_errors
    (next_packet (LLMResponseCompletedEvent "") "LLMHandler") in
  ∃ segs rest,
    str_join "" (map snd demo_chunks) = str_join "" segs +:+ rest ∧
    buffered_texts (e1 ++ e2) = map (@normalizeTextForTTS no_tables) segs ++
      (if String.eqb (trim_space rest) "" then [] else [trim_space rest]) ∧
    Forall (λ s, should_flush (config (NewTTSHandler DefaultConfig)) s = true) segs ∧
    textBuffer h2 = "".
Proof.
  apply (@response_reaches_service no_tables (NewTTSHandler DefaultConfig) demo_chunks no_errors "").
  reflexivity.
Defined.

Lemma every_word_spoken_once_witness :
  let r := loop_run (NewTTSHandler DefaultConfig) [Arrive "one two"; Round SimText; Round SimTick] in
  words_of r.2 ++ unspoken r.1 = ["one"; "two"].
Proof.
  apply (every_word_spoken_once DefaultConfig [Arrive "one two"; Round SimText; Round SimTick]).
  reflexivity.
Defined.
