(* ===== verification/BaseHandler.v ===== *)
(** * The base of every handler: [core/handler.go]

    Sending a packet by its destination, the fatal-error loop that replaces a
    failed service by the next backup, and the interface [Handler] through
    which the pipeline sees a handler.  Services are identified by a number;
    whether [Initialize] of a service succeeds is an argument. *)

From S2P Require Import Prelude Core.

Local Open Scope string_scope.
Local Open Scope list_scope.
Local Open Scope Z_scope.

(** ** Sending *)

(** An output channel as the sender finds it. *)
Inductive channel : Type :=
| NilChannel
| ReadyChannel        (* a receiver is waiting or the buffer has room *)
| FullChannel.

Inductive send_outcome : Type :=
| SentNext
| SentTop
| Dropped             (* the packet is discarded *)
| Blocked.            (* the sender waits for a receiver or for the context *)

(** [None] stands for an integer that is neither destination. *)
Definition SendPacket (ctx_done : bool) (next top : channel)
    (destination : option EventRelayDestination) : send_outcome :=
  if ctx_done then Dropped else
  match destination with
  | Some EventRelayDestinationNextService =>
      match next with NilChannel => Dropped | ReadyChannel => SentNext | FullChannel => Blocked end
  | Some EventRelayDestinationTopService =>
      match top with NilChannel => Dropped | ReadyChannel => SentTop | FullChannel => Blocked end
  | None =>
      match next with ReadyChannel => SentNext | _ => Dropped end
  end.

(** ** Services and backups *)

Record BaseHandler := mkBaseHandler {
  Service : nat;
  BackupServices : list nat;
  fatalLoop : bool                  (* [fatalErrorHandlerLoop] is running *)
}.

Definition NewBaseHandler (service : nat) (backups : list nat) : BaseHandler :=
  mkBaseHandler service backups true.

Definition WithBackupService (h : BaseHandler) (service : nat) : BaseHandler :=
  mkBaseHandler (Service h) (BackupServices h ++ [service]) (fatalLoop h).

(** The method handlers override. *)
Definition base_HandleEvent (p : EventPacket) : result unit := Err "HandleEvent not implemented".

(** [HandleError]: a place in the channel of fatal errors. *)
Definition HandleError (queued : list string) (err : string) : list string := queued ++ [err].

(** [handlerErrorLoop] logs what it receives until the channel is closed, which
    is [None]. *)
Fixpoint handlerErrorLoop (received : list (option string)) : list string :=
  match received with
  | Some err :: rest => ("Handler error: " +:+ err) :: handlerErrorLoop rest
  | None :: _ | [] => []
  end.

Section backups.
Context (initialize : nat → result unit).

(** A service that fails to initialize stays in place and in the list. *)
Definition SwitchToBackupService (h : BaseHandler) : BaseHandler * result unit :=
  match BackupServices h with
  | [] => (h, Err "no backup services available")
  | s :: rest =>
      match initialize s with
      | Err e => (mkBaseHandler s (s :: rest) (fatalLoop h), Err e)
      | Ok _ => (mkBaseHandler s rest (fatalLoop h), Ok tt)
      end
  end.

(** One error received by [fatalErrorHandlerLoop]. *)
Definition fatal_error (h : BaseHandler) (err : string) : BaseHandler * list EventPacket :=
  if negb (fatalLoop h) then (h, []) else
  match SwitchToBackupService h with
  | (h', Ok _) => (h', [])
  | (h', Err _) =>
      (mkBaseHandler (Service h') (BackupServices h') false,
       [top_packet (CriticalErrorEvent err) "BaseHandler"])
  end.

Fixpoint fatal_errors (h : BaseHandler) (errs : list string) : BaseHandler * list EventPacket :=
  match errs with
  | [] => (h, [])
  | e :: errs' =>
      let '(h1, o1) := fatal_error h e in
      let '(h2, o2) := fatal_errors h1 errs' in
      (h2, o1 ++ o2)
  end.

(** The backups that initialize, up to the first that does not. *)
Fixpoint usable (backups : list nat) : list nat :=
  match backups with
  | [] => []
  | s :: rest => if is_ok (initialize s) then s :: usable rest else []
  end.

Lemma fatal_errors_dead errs : ∀ h, fatalLoop h = false → fatal_errors h errs = (h, []).
Proof.
  induction errs as [|e errs IH]; intros h Hd; cbn; [done|].
  unfold fatal_error. rewrite Hd. cbn. by rewrite IH.
Qed.

Lemma fatal_errors_spec errs : ∀ h,
  fatalLoop h = true →
  let r := fatal_errors h errs in
  let good := usable (BackupServices h) in
  r.2 = match errs !! length good with
        | Some e => [top_packet (CriticalErrorEvent e) "BaseHandler"]
        | None => []
        end ∧
  fatalLoop r.1 = bool_decide (length errs ≤ length good)%nat ∧
  ((length errs ≤ length good)%nat → 
   Service r.1 = default (Service h) (last (take (length errs) good))).
Proof.
  induction errs as [|e errs IH]; intros h Hl; cbn zeta; cbn [fatal_errors].
  - rewrite lookup_nil. split_and!; [done| |done]. by rewrite bool_decide_eq_true_2 by (cbn; lia).
  - unfold fatal_error. rewrite Hl. cbn [negb]. unfold SwitchToBackupService.
    destruct (BackupServices h) as [|s rest]; cbn [usable].
    + rewrite fatal_errors_dead by done. cbn. split_and!; [done|done|lia].
    + destruct (initialize s) eqn:Ei; cbn [is_ok].
      * specialize (IH (mkBaseHandler s rest (fatalLoop h)) Hl). cbn zeta in IH.
        destruct (fatal_errors _ errs) as [h2 o2]. cbn [fst snd BackupServices Service] in *.
        destruct IH as (H1 & H2 & H3). cbn [length lookup list_lookup app]. split_and!.
        -- exact H1.
        -- rewrite H2. apply bool_decide_ext. cbn. lia.
        -- cbn [firstn take]. intros Hle. rewrite H3 by lia. rewrite last_cons.
           by destruct (last (take (length errs) (usable rest))).
      * rewrite fatal_errors_dead by done. cbn. split_and!; [done|done|lia].
Qed.
End backups.

(** ** The handler loop *)

Inductive handler_result : Type :=
| Handled
| HandlerFailed (msg : string).

(** An error of [HandleEvent] goes to the handler-error channel, or is logged
    when that is full or closed; it never stops the loop. *)
Fixpoint HandlerLoop {S : Type} (handle : S → EventPacket → S * handler_result)
    (s : S) (ps : list EventPacket) : S * list string :=
  match ps with
  | [] => (s, [])
  | p :: ps' =>
      let '(s1, r) := handle s p in
      let '(s2, errs) := HandlerLoop handle s1 ps' in
      (s2, match r with Handled => errs | HandlerFailed e => e :: errs end)
  end.

(** ** The interface the pipeline relies on

    [hstep] is a handler's [HandleEvent] reduced to its state and the packets
    it sends, [None] a panic.  A handler promises to pass [EndCallEvent] on
    unchanged, as its only packet, in every state. *)
Class Handler (S : Type) := {
  hstep : S → EventPacket → option (S * list EventPacket)
}.

Class RelaysEndCall (S : Type) `{Handler S} := {
  relays_end_call : ∀ (s : S) (reason : string) (d : EventRelayDestination) (relayer : string),
    ∃ s', hstep s (mkEventPacket (EndCallEvent reason) d relayer) =
          Some (s', [mkEventPacket (EndCallEvent reason) d relayer])
}.

(** ** Properties *)

(** C25: fatal service errors are absorbed one per usable backup, each moving to
    the next backup in order; the first error beyond them is reported once as
    a critical error, and no later error is. *)
Theorem backups_absorb_errors initialize service backups errs :
  let h := NewBaseHandler service backups in
  let r := fatal_errors initialize h errs in
  let good := usable initialize backups in
  r.2 = match errs !! length good with
        | Some e => [top_packet (CriticalErrorEvent e) "BaseHandler"]
        | None => []
        end ∧
  ((length errs ≤ length good)%nat →
   Service r.1 = default service (last (take (length errs) good))).
Proof.
  intros h r good. destruct (fatal_errors_spec initialize errs h eq_refl) as (H1 & _ & H3). done.
Qed.

Lemma backups_absorb_errors_witness :
  let init n := if Nat.eqb n 3 then Err "down" else Ok tt in
  Service (fatal_errors init (NewBaseHandler 0 [1; 2; 3])%nat ["a"; "b"]).1 = 2%nat.
Proof.
  intros init. apply (backups_absorb_errors init 0%nat [1; 2; 3]%nat ["a"; "b"]). cbn. lia.
Defined.
