(* ===== verification/Runner.v ===== *)
(** * The runner: [core/runner.go], [core/external_event_handler.go],
    [factories/pipeline.go]

    How a pipeline is wired, how packets leave it, how it stops; the bridge to
    external WebSocket clients; and one job of [Pipeline.Run].  Handlers are
    numbered by their position; whether their [Initialize], [Reset] and
    [Cleanup] succeed is an argument. *)

From S2P Require Import Prelude Core BaseHandler.

Local Open Scope string_scope.
Local Open Scope list_scope.
Local Open Scope Z_scope.

(** ** Wiring *)

Inductive chan_name : Type :=
| InputChan (i : nat)
| LastOutput
| TopOutput.

Record handler_wiring := mkWiring {
  w_input : chan_name;
  w_next : chan_name;
  w_top : chan_name
}.

Definition wire (n i : nat) : handler_wiring :=
  mkWiring (InputChan i) (if Nat.ltb i (n - 1) then InputChan (S i) else LastOutput) TopOutput.

(** ** State *)

Record Runner := mkRunner {
  Handlers : nat;                (* how many *)
  Started : bool;
  cancelled : bool;              (* the runner's context *)
  Finished : nat;                (* signals in the buffered channel of size 5 *)
  initialized : list nat;        (* handlers initialized, in order *)
  launched : bool;               (* handler goroutines and listener started *)
  cleaned : list nat;            (* handlers cleaned up, in order *)
  channels_closed : bool
}.

Definition NewRunner (n : nat) : Runner := mkRunner n false false 0 [] false [] false.

Definition first_error (rs : list (result unit)) : result unit :=
  match List.filter (λ r, negb (is_ok r)) rs with
  | Err e :: _ => Err e
  | _ => Ok tt
  end.

(** The initialization loop: the handlers done, and the first error. *)
Fixpoint init_loop (initialize : nat → result unit) (is_ : list nat) : list nat * option string :=
  match is_ with
  | [] => ([], None)
  | i :: rest =>
      match initialize i with
      | Err e => ([], Some e)
      | Ok _ => let '(l, e) := init_loop initialize rest in (i :: l, e)
      end
  end.

Definition Start (initialize : nat → result unit) (r : Runner) : Runner * result unit :=
  if Nat.eqb (Handlers r) 0
  then (mkRunner 0 (Started r) (cancelled r) 0 [] false (cleaned r) (channels_closed r), Ok tt)
  else
    let '(l, e) := init_loop initialize (seq 0 (Handlers r)) in
    match e with
    | Some msg => (mkRunner (Handlers r) true true 1 l false (cleaned r) (channels_closed r), Err msg)
    | None => (mkRunner (Handlers r) true false 0 l true (cleaned r) (channels_closed r), Ok tt)
    end.

(** A non-blocking send on the [Finished] channel. *)
Definition signal (n : nat) : nat := if Nat.ltb n 5 then S n else n.

Definition Stop (cleanup : nat → result unit) (r : Runner) : Runner * result unit :=
  if negb (Started r) then (r, Ok tt) else
  (mkRunner (Handlers r) false true (signal (Finished r)) (initialized r) (launched r)
     (cleaned r ++ seq 0 (Handlers r)) true,
   first_error (map cleanup (seq 0 (Handlers r)))).

Definition Reset (reset : nat → result unit) (r : Runner) : result unit :=
  first_error (map reset (seq 0 (Handlers r))).

(** ** Leaving the pipeline *)

Inductive runner_effect : Type :=
| SpawnStop
| Broadcast (p : EventPacket)
| SpawnHandle (i : nat) (p : EventPacket).   (* [go r.Handlers[i].HandleEvent(p)] *)

Definition processFinalOutput (p : EventPacket) : list runner_effect :=
  match Event p with
  | EndCallEvent _ => [SpawnStop]
  | _ => []
  end.

(** Every event satisfies the [IExternalOutputEvent] interface, which has the
    methods of [IEvent] only, so every packet is broadcast. *)
Definition processTopOutput (p : EventPacket) : list runner_effect :=
  Broadcast p ::
  match Event p with
  | CriticalErrorEvent _ => [SpawnStop]
  | _ => [SpawnHandle 0 (mkEventPacket (Event p) EventRelayDestinationNextService (Relayer p))]
  end.

(** ** The external event bridge *)

(** What the JSON decoder finds in a client's message. *)
Record WireEvent := mkWireEvent { we_ID : string; Payload : string }.

Record ExternalEventHandler := mkExternal {
  clients : list nat;
  inputRegistry : gmap string (string → option IEvent)   (* id -> decode a payload *)
}.

Definition NewExternalEventHandler : ExternalEventHandler := mkExternal [] ∅.

Definition RegisterInputEvent (e : ExternalEventHandler) (id : string)
    (factory : string → option IEvent) : ExternalEventHandler :=
  mkExternal (clients e) (<[id := factory]> (inputRegistry e)).

(** The clients a broadcast writes to; a failed write does not stop it. *)
Definition broadcast (e : ExternalEventHandler) (data : string) : list (nat * string) :=
  map (λ c, (c, data)) (clients e).

(** [Broadcast]: [encode] is the JSON encoder; an event it refuses goes to
    nobody. *)
Definition broadcast_output (e : ExternalEventHandler) (encode : IEvent → result string) (p : EventPacket)
    : list (nat * string) :=
  match encode (Event p) with
  | Err _ => []
  | Ok wire => broadcast e wire
  end.

Definition SendInput (ev : IEvent) (relayer : string) : EventPacket := top_packet ev relayer.

Definition connect_client (e : ExternalEventHandler) (c : nat) : ExternalEventHandler :=
  mkExternal (c :: clients e) (inputRegistry e).
Definition disconnect_client (e : ExternalEventHandler) (c : nat) : ExternalEventHandler :=
  mkExternal (List.filter (λ c', negb (Nat.eqb c' c)) (clients e)) (inputRegistry e).

(** One message of [handleWS]: [None] when the envelope does not decode. *)
Definition handle_message (e : ExternalEventHandler) (msg : option WireEvent) : list EventPacket :=
  match msg with
  | None => []
  | Some wire =>
      match inputRegistry e !! we_ID wire with
      | None => []
      | Some factory =>
          match factory (Payload wire) with
          | None => []
          | Some ev => [SendInput ev "external-ws"]
          end
      end
  end.

(** ** One job of [Pipeline.Run] *)

Inductive wake_up : Type := CtxDone | TimerFired | RunnerFinished.

Inductive job_result : Type :=
| JobSkipped
| JobFailed (msg : string)       (* building or starting failed *)
| JobOk
| JobDeadline.                   (* context.DeadlineExceeded *)

(** [wake] is what the final select receives; the timer exists only for a
    positive timeout.  The second component is whether [Stop] was called. *)
Definition Run (ctx_done svc_nil : bool) (builder : result nat) (initialize : nat → result unit)
    (wake : wake_up) : job_result * bool :=
  if ctx_done then (JobSkipped, false) else
  if svc_nil then (JobSkipped, false) else
  match builder with
  | Err e => (JobFailed e, false)
  | Ok n =>
      match Start initialize (NewRunner n) with
      | (_, Err e) => (JobFailed e, false)
      | (_, Ok _) =>
          match wake with
          | CtxDone => (JobOk, true)
          | TimerFired => (JobDeadline, true)
          | RunnerFinished => (JobOk, false)
          end
      end
  end.

(** ** Lemmas *)

Lemma init_loop_ok initialize l :
  (∀ i, i ∈ l → is_ok (initialize i) = true) → init_loop initialize l = (l, None).
Proof.
  induction l as [|i l IH]; intros Hok; cbn; [done|].
  pose proof (Hok i (list_elem_of_here _ _)) as Hi. destruct (initialize i); [|done].
  rewrite IH; [done|]. intros j Hj. apply Hok. by apply list_elem_of_further.
Qed.

Lemma stop_stopped cleanup r : Started r = false → Stop cleanup r = (r, Ok tt).
Proof. intros Hs. unfold Stop. by rewrite Hs. Qed.

Fixpoint stop_n (cleanup : nat → result unit) (n : nat) (r : Runner) : Runner :=
  match n with
  | O => r
  | S n' => stop_n cleanup n' (Stop cleanup r).1
  end.

Lemma stop_n_stopped cleanup n r : Started r = false → stop_n cleanup n r = r.
Proof. intros Hs. induction n as [|n IH]; cbn; [done|]. by rewrite stop_stopped. Qed.

(** ** Properties *)

(** The handlers are wired into one chain: each handler but the last sends
    to exactly the input its successor reads, the last to the runner, and all
    share the top channel. *)
Theorem wiring_is_a_chain n i :
  (i < n)%nat →
  w_input (wire n i) = InputChan i ∧ w_top (wire n i) = TopOutput ∧
  ((S i < n)%nat → w_next (wire n i) = w_input (wire n (S i))) ∧
  (S i = n → w_next (wire n i) = LastOutput).
Proof.
  intros Hi. unfold wire. cbn [w_input w_next w_top]. split_and!; [done|done| |].
  - intros Hs. by rewrite (proj2 (Nat.ltb_lt i (n - 1))) by lia.
  - intros <-. by rewrite (proj2 (Nat.ltb_ge i (S i - 1))) by lia.
Qed.

(** stopping is idempotent: after a successful start of a non-empty
    pipeline any number of calls of [Stop] cleans every handler up exactly
    once, in order, cancels the context, closes the channels and signals
    completion once. *)
Theorem stop_is_idempotent initialize cleanup n k :
  (0 < n)%nat → (∀ i, (i < n)%nat → is_ok (initialize i) = true) →
  let r := (Start initialize (NewRunner n)).1 in
  let s := stop_n cleanup (S k) r in
  cleaned s = seq 0 n ∧ cancelled s = true ∧ channels_closed s = true ∧
  Started s = false ∧ Finished s = 1%nat.
Proof.
  intros Hn Hok r s. unfold s, r, Start. cbn [NewRunner Handlers].
  destruct (Nat.eqb n 0) eqn:En; [apply Nat.eqb_eq in En; lia|].
  rewrite init_loop_ok.
  2: { intros i Hi. apply elem_of_seq in Hi. apply Hok. lia. }
  cbn [stop_n fst]. unfold Stop at 1. cbn. rewrite stop_n_stopped by done. done.
Qed.

(** ** Witnesses *)

Lemma wiring_is_a_chain_witness : w_next (wire 3 0) = w_input (wire 3 1).
Proof. apply (wiring_is_a_chain 3 0); lia. Defined.

Lemma stop_is_idempotent_witness :
  cleaned (stop_n (λ _, Err "boom") 3 (Start (λ _, Ok tt) (NewRunner 2)).1) = [0; 1]%nat.
Proof.
  apply (stop_is_idempotent (λ _, Ok tt) (λ _, Err "boom") 2 2); [lia|]. intros i _. reflexivity.
Defined.
