(* ===== verification/Shutdown.v ===== *)
(** * Stopping a runner whose goroutines are still at work

    [Runner.Stop] cancels the context, cleans the handlers up and closes the
    channels while the loops of the handlers ([HandlerLoop] of
    [core/handler.go], the [eventLoop]s of [handlers/context] and
    [handlers/activity_control]), the listener of [core/runner.go], goroutines
    that handle one packet, and WebSocket clients ([SendInput] of
    [core/external_event_handler.go]) go on.  The channels are unbuffered; a
    [select] with several ready cases takes any of them, so which one is part of
    the event.  What a handler sends for a packet is [Pipeline]; here it may be
    anything. *)

From stdpp Require Import relations.
From S2P Require Import Prelude Core BaseHandler Runner.

Local Open Scope string_scope.
Local Open Scope list_scope.
Local Open Scope nat_scope.

#[export] Instance chan_name_eq_dec : EqDecision chan_name.
Proof. solve_decision. Defined.

(** ** Goroutines *)

(** One send still to be made: [checked] for [SendPacket], which looks at the
    context first, not for [SendInput]. *)
Record send := mkSend { to_chan : chan_name; packet : EventPacket; checked : bool }.

Inductive program_point : Type :=
| AtSelect                                    (* a loop about to select *)
| Waiting                                     (* a loop asleep in its select *)
| Received (p : option EventPacket)           (* [HandlerLoop] before it looks at the context *)
| Busy (todo : list send)                     (* handling, with packets to send *)
| Sending (s : send) (todo : list send)       (* about to select on a send *)
| Asleep (s : send) (todo : list send)        (* asleep in the select of a send *)
| Exited
| Crashed.                                    (* a panic nothing recovers *)

(** [guarded]: the loop is [HandlerLoop].  [once]: a goroutine that ends when its
    packets are sent.  [inbox]: messages waiting in the loop's other channels
    (timers, the service). *)
Record goroutine := mkGoroutine {
  reads : list chan_name;
  guarded : bool;
  once : bool;
  inbox : nat;
  pc : program_point
}.

Definition at_pc (g : goroutine) (p : program_point) : goroutine :=
  mkGoroutine (reads g) (guarded g) (once g) (inbox g) p.
Definition with_inbox (g : goroutine) (n : nat) : goroutine :=
  mkGoroutine (reads g) (guarded g) (once g) n (pc g).

Inductive stop_state : Type :=
| NotStopped
| Cleaning (next : nat)                 (* the handler to clean up next *)
| Closing (rest : list chan_name)
| Stopped.

#[export] Instance stop_state_eq_dec : EqDecision stop_state.
Proof. solve_decision. Defined.

Record system := mkSystem {
  handlers : nat;
  ctx_done : bool;
  closed : list chan_name;
  stop : stop_state;
  goroutines : list goroutine;
  delivered : list (chan_name * EventPacket)
}.

Definition put (y : system) (t : nat) (g : goroutine) : system :=
  mkSystem (handlers y) (ctx_done y) (closed y) (stop y) (<[t := g]> (goroutines y)) (delivered y).
Definition set_stop (y : system) (st : stop_state) : system :=
  mkSystem (handlers y) (ctx_done y) (closed y) st (goroutines y) (delivered y).

(** Cancelling wakes every goroutine that sleeps in a select: its case of the
    context is the one that became ready. *)
Definition wake (g : goroutine) : goroutine :=
  match pc g with
  | Waiting => at_pc g Exited
  | Asleep _ todo => at_pc g (Busy todo)
  | _ => g
  end.

Definition cancel (y : system) : system :=
  mkSystem (handlers y) true (closed y) (stop y) (map wake (goroutines y)) (delivered y).

(** The channels [Stop] closes, in its order. *)
Definition all_chans (n : nat) : list chan_name := TopOutput :: LastOutput :: map InputChan (seq 0 n).

(** ** Events *)

Inductive choice : Type :=
| FromDone                                    (* the case of the context *)
| Meet (r : nat)                              (* a partner asleep in its select *)
| FromClosed (c : chan_name)
| FromInbox (sends : list (chan_name * EventPacket))   (* another case, and what it makes the loop send *)
| Sleep.                                      (* no case is ready *)

Inductive event : Type :=
(** from outside *)
| Spawn (c : chan_name) (p : EventPacket) (check : bool)   (* a goroutine with one packet *)
| Signal (t : nat)                            (* a message for a loop *)
| CallStop
| StartFails                                  (* a handler's [Start] returns an error *)
(** of the goroutines *)
| CleanUp
| CloseNext
| Select (t : nat) (c : choice)
| LookAtContext (t : nat) (sends : list (chan_name * EventPacket))
| NextSend (t : nat).

Definition sends_of (l : list (chan_name * EventPacket)) : list send :=
  map (λ x, mkSend x.1 x.2 true) l.

(** A packet meets a loop: [HandlerLoop] looks at the context first, the other
    loops handle it. *)
Definition receive (g : goroutine) (p : EventPacket) (todo : list send) : goroutine :=
  at_pc g (if guarded g then Received (Some p) else Busy todo).

Definition waits_for (c : chan_name) (g : goroutine) : bool :=
  match pc g with Waiting => bool_decide (c ∈ reads g) | _ => false end.
Definition offers (cs : list chan_name) (g : goroutine) : bool :=
  match pc g with Asleep s _ => bool_decide (to_chan s ∈ cs) | _ => false end.

Section shutdown.
(** Whether the clean-up of a handler comes back. *)
Context (cleanup_returns : nat → bool).

(** The select of a loop. *)
Definition select_loop (y : system) (t : nat) (g : goroutine) (c : choice) : option system :=
  match c with
  | FromDone => if ctx_done y then Some (put y t (at_pc g Exited)) else None
  | Meet r =>
      match goroutines y !! r with
      | Some g' =>
          match pc g' with
          | Asleep s todo =>
              if bool_decide (to_chan s ∈ reads g)
              then let y1 := put (put y r (at_pc g' (Busy todo))) t (receive g (packet s) []) in
                   Some (mkSystem (handlers y1) (ctx_done y1) (closed y1) (stop y1) (goroutines y1)
                           (delivered y1 ++ [(to_chan s, packet s)]))
              else None
          | _ => None
          end
      | None => None
      end
  | FromClosed ch =>
      (* a receive from a closed channel yields nil, which [HandleEvent] and
         the runner dereference *)
      if bool_decide (ch ∈ reads g) && bool_decide (ch ∈ closed y)
      then Some (put y t (at_pc g (if guarded g then Received None else Crashed)))
      else None
  | FromInbox l =>
      match inbox g with
      | O => None
      | S n => Some (put y t (at_pc (with_inbox g n) (Busy (sends_of l))))
      end
  | Sleep =>
      if ctx_done y || existsb (offers (reads g)) (goroutines y) ||
         existsb (λ ch, bool_decide (ch ∈ closed y)) (reads g) || negb (Nat.eqb (inbox g) 0)
      then None else Some (put y t (at_pc g Waiting))
  end.

(** The select of [SendPacket] and [SendInput]. *)
Definition select_send (y : system) (t : nat) (g : goroutine) (s : send) (todo : list send) (c : choice)
    : option system :=
  match c with
  | FromDone => if ctx_done y then Some (put y t (at_pc g (Busy todo))) else None
  | Meet r =>
      match goroutines y !! r with
      | Some g' =>
          if waits_for (to_chan s) g' && negb (bool_decide (to_chan s ∈ closed y))
          then let y1 := put (put y t (at_pc g (Busy todo))) r (receive g' (packet s) []) in
               Some (mkSystem (handlers y1) (ctx_done y1) (closed y1) (stop y1) (goroutines y1)
                       (delivered y1 ++ [(to_chan s, packet s)]))
          else None
      | None => None
      end
  | FromClosed ch =>
      if bool_decide (ch = to_chan s) && bool_decide (ch ∈ closed y)
      then Some (put y t (at_pc g Crashed)) else None
  | FromInbox _ => None
  | Sleep =>
      if ctx_done y || existsb (waits_for (to_chan s)) (goroutines y) || bool_decide (to_chan s ∈ closed y)
      then None else Some (put y t (at_pc g (Asleep s todo)))
  end.

Definition fire (y : system) (e : event) : option system :=
  match e with
  | Spawn c p check =>
      Some (mkSystem (handlers y) (ctx_done y) (closed y) (stop y)
              (goroutines y ++ [mkGoroutine [] false true 0 (Busy [mkSend c p check])]) (delivered y))
  | Signal t =>
      match goroutines y !! t with
      | Some g =>
          match pc g with
          | Exited | Crashed => None
          | Waiting => Some (put y t (at_pc (with_inbox g (S (inbox g))) AtSelect))
          | _ => Some (put y t (with_inbox g (S (inbox g))))
          end
      | None => None
      end
  | CallStop =>
      match stop y with
      | NotStopped => Some (set_stop (cancel y) (Cleaning 0))
      | _ => Some y
      end
  | StartFails => Some (cancel y)
  | CleanUp =>
      match stop y with
      | Cleaning i =>
          if Nat.ltb i (handlers y)
          then if cleanup_returns i then Some (set_stop y (Cleaning (S i))) else None
          else Some (set_stop y (Closing (all_chans (handlers y))))
      | _ => None
      end
  | CloseNext =>
      match stop y with
      | Closing (c :: cs) =>
          Some (mkSystem (handlers y) (ctx_done y) (c :: closed y) (Closing cs) (goroutines y) (delivered y))
      | Closing [] => Some (set_stop y Stopped)
      | _ => None
      end
  | Select t c =>
      match goroutines y !! t with
      | Some g =>
          match pc g with
          | AtSelect => select_loop y t g c
          | Sending s todo => select_send y t g s todo c
          | _ => None
          end
      | None => None
      end
  | LookAtContext t l =>
      match goroutines y !! t with
      | Some g =>
          match pc g with
          | Received p =>
              Some (put y t (at_pc g (if ctx_done y then Exited
                                      else match p with
                                           | Some _ => Busy (sends_of l)
                                           | None => Crashed
                                           end)))
          | _ => None
          end
      | None => None
      end
  | NextSend t =>
      match goroutines y !! t with
      | Some g =>
          match pc g with
          | Busy [] => Some (put y t (at_pc g (if once g then Exited else AtSelect)))
          | Busy (s :: todo) =>
              Some (put y t (at_pc g (if checked s && ctx_done y then Busy todo else Sending s todo)))
          | _ => None
          end
      | None => None
      end
  end.

Definition outside (e : event) : bool :=
  match e with Spawn _ _ _ | Signal _ | CallStop | StartFails => true | _ => false end.

Definition step (y y' : system) : Prop := ∃ e, fire y e = Some y'.
(** A step of the goroutines themselves. *)
Definition own_step (y y' : system) : Prop := ∃ e, outside e = false ∧ fire y e = Some y'.

(** ** A runner that has started *)

Definition loop (reads : list chan_name) (guarded : bool) : goroutine :=
  mkGoroutine reads guarded false 0 AtSelect.

(** One loop per handler, the listener, and the [own] loops of handlers that read
    no channel of the runner. *)
Definition started (guards : list bool) (own : nat) : system :=
  mkSystem (length guards) false [] NotStopped
    (imap (λ i g, loop [InputChan i] g) guards ++ [loop [LastOutput; TopOutput] false] ++
     replicate own (loop [] true)) [].

(** The nine handlers of [main.go]: the two aggregators and activity control have
    loops of their own, the others [HandlerLoop]; the loops for the results of
    the recogniser, the model and the synthesis. *)
Definition voice_pipeline : system :=
  started [true; true; true; false; true; false; true; false; true] 3.

Definition reachable (y : system) : Prop := ∃ guards own, rtc step (started guards own) y.

(** ** What holds throughout *)

Definition asleep (g : goroutine) : bool :=
  match pc g with Waiting | Asleep _ _ => true | _ => false end.

Record ok (y : system) : Prop := mkOk {
  ok_awake : ctx_done y = true → Forall (λ g, asleep g = false) (goroutines y);
  ok_closed : closed y ≠ [] → ctx_done y = true;
  ok_stop : stop y ≠ NotStopped → ctx_done y = true;
  ok_none : Forall (λ g, pc g = Received None → ctx_done y = true) (goroutines y)
}.

Lemma wake_awake g : asleep (wake g) = false.
Proof. unfold wake, asleep. destruct (pc g) eqn:E; cbn; by rewrite ?E. Qed.

Lemma cancel_ok y : ok y → ok (cancel y).
Proof.
  intros [H1 H2 H3 H4]. split; cbn; [|done|done|].
  - intros _. apply Forall_map, Forall_forall. intros g _. apply wake_awake.
  - apply Forall_forall. done.
Qed.

Lemma put_ok y t g g' : ok y → goroutines y !! t = Some g →
  (ctx_done y = true → asleep g' = false) → (pc g' = Received None → ctx_done y = true) → ok (put y t g').
Proof.
  intros [H1 H2 H3 H4] Hg Ha Hr. split; cbn; [|done|done|].
  - intros Hc. apply Forall_insert; [by apply H1|by apply Ha].
  - apply Forall_insert; [exact H4|exact Hr].
Qed.

Lemma started_ok guards own : ok (started guards own).
Proof.
  split; cbn; [done|done|done|]. apply Forall_app. split.
  - apply Forall_forall. intros g (i & b & -> & _)%elem_of_lookup_imap. done.
  - constructor; [done|]. by apply Forall_replicate.
Qed.

Lemma asleep_at y t g : ok y → ctx_done y = true → goroutines y !! t = Some g → asleep g = false.
Proof. intros Ho Hc Hg. exact (Forall_lookup_1 _ _ _ _ (ok_awake _ Ho Hc) Hg). Qed.

(** Nobody sleeps once the context is done, so no two goroutines meet. *)
Lemma select_loop_done y t g c y' : ok y → ctx_done y = true → select_loop y t g c = Some y' →
  (∃ g', y' = put y t g' ∧
     (g' = at_pc g Exited ∨
      (∃ ch, ch ∈ reads g ∧ g' = at_pc g (if guarded g then Received None else Crashed)) ∨
      (∃ n l, inbox g = S n ∧ g' = at_pc (with_inbox g n) (Busy (sends_of l))))).
Proof.
  intros Ho Hc. destruct c as [|r|ch|l|]; cbn [select_loop]; rewrite ?Hc.
  - intros [= <-]. eexists. split; [done|]. by left.
  - destruct (goroutines y !! r) as [g'|] eqn:E; [|done]. pose proof (asleep_at _ _ _ Ho Hc E) as Ha.
    unfold asleep in Ha. by destruct (pc g').
  - case_match eqn:Eb; [|done]. apply andb_true_iff in Eb as [Eb%bool_decide_eq_true _].
    intros [= <-]. eexists. split; [done|]. right. left. by exists ch.
  - destruct (inbox g) as [|n] eqn:En; [done|]. intros [= <-]. eexists. split; [done|]. right. right. by exists n, l.
  - done.
Qed.

Lemma select_send_done y t g s todo c y' : ok y → ctx_done y = true → select_send y t g s todo c = Some y' →
  ∃ g', y' = put y t g' ∧ (g' = at_pc g (Busy todo) ∨ g' = at_pc g Crashed).
Proof.
  intros Ho Hc. destruct c as [|r|ch|l|]; cbn [select_send]; rewrite ?Hc.
  - intros [= <-]. eexists. split; [done|]. by left.
  - destruct (goroutines y !! r) as [g'|] eqn:E; [|done]. pose proof (asleep_at _ _ _ Ho Hc E) as Ha.
    unfold waits_for, asleep in *. by destruct (pc g').
  - case_match; [|done]. intros [= <-]. eexists. split; [done|]. by right.
  - done.
  - done.
Qed.

(** *** The invariant is kept *)

Lemma meet_ok y t g g' r h h' d : ok y → ctx_done y = false → goroutines y !! t = Some g → goroutines y !! r = Some h →
  pc g' ≠ Received None → pc h' ≠ Received None →
  ok (mkSystem (handlers y) (ctx_done y) (closed y) (stop y) (<[r := h']> (<[t := g']> (goroutines y))) d).
Proof.
  intros [H1 H2 H3 H4] Hc Ht Hr Hg Hh. split; cbn; [by rewrite Hc|done|done|].
  apply Forall_insert; [apply Forall_insert|]; done.
Qed.

Lemma not_cancelled_if_asleep y t g : ok y → goroutines y !! t = Some g → asleep g = true → ctx_done y = false.
Proof.
  intros Ho Hg Ha. destruct (ctx_done y) eqn:E; [|done]. by rewrite (asleep_at _ _ _ Ho E Hg) in Ha.
Qed.

Lemma receive_pc g p todo : pc (receive g p todo) ≠ Received None.
Proof. unfold receive. by destruct (guarded g). Qed.

Lemma select_loop_ok y t g c y' : ok y → goroutines y !! t = Some g → pc g = AtSelect →
  select_loop y t g c = Some y' → ok y'.
Proof.
  intros Ho Hg Hpc. destruct c as [|r|ch|l|]; cbn [select_loop].
  - case_match; [|done]. intros [= <-]. eapply put_ok; by try done.
  - destruct (goroutines y !! r) as [h|] eqn:E; [|done]. destruct (pc h) eqn:Eh; try done.
    case_match; [|done]. intros [= <-]. cbn. apply (meet_ok y r h _ t g); [done| |done|done|done|apply receive_pc].
    eapply not_cancelled_if_asleep; [done|exact E|]. unfold asleep. by rewrite Eh.
  - case_match eqn:Eb; [|done]. intros [= <-].
    apply andb_true_iff in Eb as [_ Eb%bool_decide_eq_true].
    assert (ctx_done y = true) as Hc by (apply (ok_closed _ Ho); intros Ez; rewrite Ez in Eb; by apply elem_of_nil in Eb).
    eapply put_ok; [done|done|by destruct (guarded g)|done].
  - destruct (inbox g) as [|n]; [done|]. intros [= <-]. by eapply put_ok.
  - case_match eqn:Eb; [done|]. intros [= <-]. apply orb_false_iff in Eb as [Eb _].
    apply orb_false_iff in Eb as [Eb _]. apply orb_false_iff in Eb as [Eb _]. eapply put_ok; [done|done| |done].
    by rewrite Eb.
Qed.

Lemma select_send_ok y t g s todo c y' : ok y → goroutines y !! t = Some g →
  select_send y t g s todo c = Some y' → ok y'.
Proof.
  intros Ho Hg. destruct c as [|r|ch|l|]; cbn [select_send].
  - case_match; [|done]. intros [= <-]. by eapply put_ok.
  - destruct (goroutines y !! r) as [h|] eqn:E; [|done]. case_match eqn:Eb; [|done]. intros [= <-]. cbn.
    apply (meet_ok y t g _ r h); [done| |done|done|done|apply receive_pc].
    apply andb_true_iff in Eb as [Eb _]. eapply not_cancelled_if_asleep; [done|exact E|].
    unfold waits_for, asleep in *. by destruct (pc h).
  - case_match; [|done]. intros [= <-]. by eapply put_ok.
  - done.
  - case_match eqn:Eb; [done|]. intros [= <-]. apply orb_false_iff in Eb as [Eb _]. apply orb_false_iff in Eb as [Eb _].
    eapply put_ok; [done|done| |done]. by rewrite Eb.
Qed.

Lemma set_stop_ok y st : ok y → stop y ≠ NotStopped → ok (set_stop y st).
Proof. intros [H1 H2 H3 H4] Hs. split; cbn; [done|done|by intros _; apply H3|done]. Qed.

Lemma signal_ok y t y' : ok y → fire y (Signal t) = Some y' → ok y'.
Proof.
  intros Ho Hf. cbn [fire] in Hf. destruct (goroutines y !! t) as [g|] eqn:Eg; [|done].
  pose proof (Forall_lookup_1 _ _ _ _ (ok_none _ Ho) Eg) as Hn. cbn in Hn.
  assert (ctx_done y = true → asleep g = false) as Ha by (intros Hc; exact (asleep_at _ _ _ Ho Hc Eg)).
  unfold asleep in Ha.
  destruct (pc g) eqn:Ep; simplify_eq; (eapply put_ok; [done|done| |]); unfold asleep; cbn; rewrite ?Ep; done.
Qed.

Lemma own_event_ok y e y' : ok y → fire y e = Some y' →
  match e with Select _ _ | LookAtContext _ _ | NextSend _ => True | _ => False end → ok y'.
Proof.
  intros Ho Hf He. destruct e as [| | | | | |t c|t l|t]; try done; cbn [fire] in Hf;
    (destruct (goroutines y !! t) as [g|] eqn:Eg; [|done]); destruct (pc g) as [| |p|[|s todo]|s todo| | |] eqn:Ep; try done.
  - by eapply select_loop_ok.
  - by eapply select_send_ok.
  - injection Hf as <-. eapply put_ok; [done|done| |]; cbn; unfold asleep; cbn; destruct (ctx_done y); try done; by destruct p.
  - injection Hf as <-. eapply put_ok; [done|done| |]; cbn; unfold asleep; cbn; by destruct (once g).
  - injection Hf as <-. eapply put_ok; [done|done| |]; cbn; unfold asleep; cbn; by destruct (checked s), (ctx_done y).
Qed.

Lemma fire_ok y e y' : ok y → fire y e = Some y' → ok y'.
Proof.
  intros Ho Hf. destruct e as [c p chk|t| | | | |t c|t l|t]; [| | | | | |by eapply own_event_ok..].
  - cbn in Hf. injection Hf as <-. destruct Ho as [H1 H2 H3 H4]. split; cbn; [|done|done|].
    + intros Hc. apply Forall_app. split; [by apply H1|by repeat constructor].
    + apply Forall_app. split; [done|by repeat constructor].
  - by eapply signal_ok.
  - cbn in Hf. destruct (stop y) eqn:E; simplify_eq; try done. destruct (cancel_ok y Ho) as [H1 H2 H3 H4]. by split.
  - cbn in Hf. injection Hf as <-. by apply cancel_ok.
  - cbn in Hf. destruct (stop y) eqn:E; try done. repeat case_match; simplify_eq; apply set_stop_ok; try done; by rewrite E.
  - cbn in Hf. destruct (stop y) as [| |[|c cs]|] eqn:E; simplify_eq; [apply set_stop_ok; [done|by rewrite E]|].
    pose proof Ho as [H1 H2 H3 H4]. assert (ctx_done y = true) as Hc by (apply H3; by rewrite E). by split.
Qed.

Lemma steps_ok y y' : rtc step y y' → ok y → ok y'.
Proof. induction 1 as [|y y1 y' [e He] _ IH]; [done|]. intros Ho. apply IH. by eapply fire_ok. Qed.

Lemma reachable_ok y : reachable y → ok y.
Proof. intros (guards & own & Hr). eapply steps_ok; [exact Hr|]. apply started_ok. Qed.

(** ** Every goroutine ends *)

(** How much a goroutine can still do when nobody meets. *)
Definition size (g : goroutine) : nat :=
  match pc g with
  | AtSelect | Waiting => 2
  | Received _ => 1
  | Busy todo => 2 * length todo + 3
  | Sending _ todo | Asleep _ todo => 2 * length todo + 4
  | Exited | Crashed => 0
  end.

Definition stop_size (n : nat) (st : stop_state) : nat :=
  match st with
  | NotStopped | Stopped => 0
  | Cleaning i => (n - i) + S (S (length (all_chans n)))
  | Closing rest => S (length rest)
  end.

Definition inboxes (y : system) : nat := sum_list_with inbox (goroutines y).
Definition weight (y : system) : nat := sum_list_with size (goroutines y) + stop_size (handlers y) (stop y).

Definition decreases (y y' : system) : Prop :=
  inboxes y' < inboxes y ∨ inboxes y' = inboxes y ∧ weight y' < weight y.

Lemma put_decreases y t g g' : goroutines y !! t = Some g →
  inbox g' < inbox g ∨ inbox g' = inbox g ∧ size g' < size g → decreases y (put y t g').
Proof.
  intros Hg Hd. pose proof (sum_insert inbox _ _ _ g' Hg). pose proof (sum_insert size _ _ _ g' Hg).
  unfold decreases, inboxes, weight. cbn. lia.
Qed.

Lemma own_step_decreases y e y' : ok y → ctx_done y = true → outside e = false → fire y e = Some y' →
  decreases y y' ∧ ctx_done y' = true.
Proof.
  intros Ho Hc He Hf. destruct e as [| | | | | |t c|t l|t]; try done; cbn [fire] in Hf.
  1: { destruct (stop y) as [|i| |] eqn:E; try done. destruct (Nat.ltb_spec i (handlers y)); [case_match; [|done]|];
       injection Hf as <-; (split; [right; split; [done|]; unfold weight; rewrite E; cbn [set_stop goroutines handlers stop stop_size length]; lia|done]). }
  1: { destruct (stop y) as [| |[|c cs]|] eqn:E; try done; injection Hf as <-;
       (split; [right; split; [done|]; unfold weight; rewrite E; cbn [set_stop goroutines handlers stop stop_size length]; lia|done]). }
  all: destruct (goroutines y !! t) as [g|] eqn:Eg; [|done];
    destruct (pc g) as [| |p|[|s todo]|s todo| | |] eqn:Ep; try done.
  - destruct (select_loop_done _ _ _ _ _ Ho Hc Hf) as (g' & -> & Hg'). split; [|done].
    eapply put_decreases; [done|]. unfold size. rewrite Ep.
    destruct Hg' as [->|[(ch & _ & ->)|(n & l & Hn & ->)]]; cbn; [lia|destruct (guarded g); lia|lia].
  - destruct (select_send_done _ _ _ _ _ _ _ Ho Hc Hf) as (g' & -> & Hg'). split; [|done].
    eapply put_decreases; [done|]. unfold size. rewrite Ep. destruct Hg' as [->| ->]; cbn; lia.
  - injection Hf as <-. rewrite Hc. split; [|done]. eapply put_decreases; [done|]. unfold size. rewrite Ep. cbn. lia.
  - injection Hf as <-. split; [|done]. eapply put_decreases; [done|]. unfold size. rewrite Ep. cbn.
    destruct (once g); lia.
  - injection Hf as <-. split; [|done]. eapply put_decreases; [done|]. unfold size. rewrite Ep. cbn.
    rewrite Hc. destruct (checked s); cbn; lia.
Qed.

Lemma own_steps_end y : ok y → ctx_done y = true → Acc (flip own_step) y.
Proof.
  remember (inboxes y) as n eqn:En. revert y En. induction (lt_wf n) as [n _ IHn]. intros y En.
  remember (weight y) as m eqn:Em. revert y En Em. induction (lt_wf m) as [m _ IHm]. intros y -> -> Ho Hc.
  constructor. intros y' (e & He & Hf). pose proof (fire_ok _ _ _ Ho Hf) as Ho'.
  destruct (own_step_decreases _ _ _ Ho Hc He Hf) as [[Hi|[Hi Hw]] Hc'].
  - by apply (IHn (inboxes y') Hi y' eq_refl).
  - by apply (IHm (weight y') Hw y').
Qed.

(** A goroutine that has not ended can go on. *)
Lemma can_go_on y t g : ok y → ctx_done y = true → goroutines y !! t = Some g →
  pc g ≠ Exited → pc g ≠ Crashed → ∃ y', own_step y y'.
Proof.
  intros Ho Hc Hg H1 H2. pose proof (asleep_at _ _ _ Ho Hc Hg) as Ha. unfold asleep in Ha.
  destruct (pc g) as [| |p|[|s todo]|s todo| | |] eqn:Ep; try done.
  - eexists. exists (Select t FromDone). split; [done|]. cbn [fire]. rewrite Hg, Ep. cbn. by rewrite Hc.
  - eexists. exists (LookAtContext t []). split; [done|]. cbn [fire]. by rewrite Hg, Ep.
  - eexists. exists (NextSend t). split; [done|]. cbn [fire]. by rewrite Hg, Ep.
  - eexists. exists (NextSend t). split; [done|]. cbn [fire]. by rewrite Hg, Ep.
  - eexists. exists (Select t FromDone). split; [done|]. cbn [fire]. rewrite Hg, Ep. cbn. by rewrite Hc.
Qed.

Lemma stop_goes_on y : (∀ i, cleanup_returns i = true) → stop y ≠ NotStopped → stop y ≠ Stopped → ∃ y', own_step y y'.
Proof.
  intros Hr H1 H2. destruct (stop y) as [|i|[|c cs]|] eqn:E; try done.
  - destruct (Nat.ltb i (handlers y)) eqn:Ei; eexists; exists CleanUp; (split; [done|]); cbn [fire]; by rewrite E, Ei, ?Hr.
  - eexists. exists CloseNext. split; [done|]. cbn. by rewrite E.
  - eexists. exists CloseNext. split; [done|]. cbn. by rewrite E.
Qed.

(** ** Who can still panic *)

(** A send that does not look at the context, or one past that look. *)
Definition unchecked (s : send) : bool := negb (checked s).

Definition straggler (g : goroutine) : bool :=
  match pc g with
  | AtSelect | Waiting => negb (guarded g) && negb (bool_decide (reads g = []))
  | Busy todo => existsb unchecked todo || (negb (guarded g) && negb (bool_decide (reads g = [])))
  | Sending _ _ | Asleep _ _ => true
  | Received _ | Exited => false
  | Crashed => true
  end.

Definition quiet (y : system) : Prop := Forall (λ g, straggler g = false) (goroutines y).

Lemma put_quiet y t g : quiet y → straggler g = false → quiet (put y t g).
Proof. intros Hq Hg. by apply Forall_insert. Qed.

Lemma sends_of_checked l : existsb unchecked (sends_of l) = false.
Proof. induction l as [|x l IH]; [done|]. exact IH. Qed.

(** Nothing makes a straggler of a goroutine once the context is done. *)
Lemma own_step_quiet y e y' : ok y → ctx_done y = true → outside e = false → fire y e = Some y' →
  quiet y → quiet y' ∧ delivered y' = delivered y.
Proof.
  intros Ho Hc He Hf Hq. destruct e as [| | | | | |t c|t l|t]; try done; cbn [fire] in Hf.
  1: { destruct (stop y); try done. by repeat case_match; simplify_eq. }
  1: { destruct (stop y) as [| |[|c cs]|]; by simplify_eq. }
  all: destruct (goroutines y !! t) as [g|] eqn:Eg; [|done];
    pose proof (Forall_lookup_1 _ _ _ _ Hq Eg) as Hg; unfold straggler in Hg;
    destruct (pc g) as [| |p|[|s todo]|s todo| | |] eqn:Ep; try done.
  - destruct (select_loop_done _ _ _ _ _ Ho Hc Hf) as (g' & -> & Hg'). split; [|done]. apply put_quiet; [done|].
    destruct Hg' as [->|[(ch & Hch & ->)|(n & l & Hn & ->)]]; [done| |].
    + unfold straggler. cbn. destruct (guarded g); [done|]. cbn in Hg. case_bool_decide as E; [|done].
      rewrite E in Hch. by apply elem_of_nil in Hch.
    + unfold straggler. cbn. by rewrite sends_of_checked.
  - injection Hf as <-. split; [|done]. apply put_quiet; [done|]. by rewrite Hc.
  - injection Hf as <-. split; [|done]. apply put_quiet; [done|]. unfold straggler. cbn. by destruct (once g).
  - injection Hf as <-. split; [|done]. apply put_quiet; [done|]. rewrite Hc. cbn in Hg. apply orb_false_iff in Hg as [Hg1 Hg2].
    apply orb_false_iff in Hg1 as [Hs Ht]. unfold unchecked in Hs. apply negb_false_iff in Hs. rewrite Hs.
    unfold straggler. cbn. by rewrite Ht, Hg2.
Qed.

(** A goroutine spawned late that uses [SendPacket] is no straggler. *)
Definition checks (e : event) : bool := match e with Spawn _ _ check => check | _ => true end.

Definition late_step (y y' : system) : Prop := ∃ e, checks e = true ∧ fire y e = Some y'.

Lemma late_step_quiet y y' : ok y → ctx_done y = true → quiet y → late_step y y' →
  ok y' ∧ ctx_done y' = true ∧ quiet y' ∧ delivered y' = delivered y.
Proof.
  intros Ho Hc Hq (e & He & Hf). split; [by eapply fire_ok|].
  destruct (outside e) eqn:Eo.
  - destruct e as [c p chk|t| | | | | | |]; try done; cbn [fire] in Hf.
    + injection Hf as <-. split; [done|]. split; [|done]. apply Forall_app. split; [done|]. cbn in He. subst chk.
      by repeat constructor.
    + destruct (goroutines y !! t) as [g|] eqn:Eg; [|done]. pose proof (Forall_lookup_1 _ _ _ _ Hq Eg) as Hg.
      pose proof (asleep_at _ _ _ Ho Hc Eg) as Ha. unfold asleep in Ha. cbn in Hg. unfold straggler in Hg.
      destruct (pc g) eqn:Ep; simplify_eq; (split; [done|]; split; [|done]); apply put_quiet; try done;
        unfold straggler; cbn; by rewrite ?Ep.
    + assert (quiet (cancel y)) as Hq'.
      { apply Forall_map. eapply Forall_impl; [exact Hq|]. intros g Hg. cbn. unfold straggler, wake in *.
        destruct (pc g) eqn:Ep; cbn; rewrite ?Ep; try done. }
      by destruct (stop y); simplify_eq.
    + injection Hf as <-. split; [done|]. split; [|done].
      apply Forall_map. eapply Forall_impl; [exact Hq|]. intros g Hg. cbn. unfold straggler, wake in *.
      destruct (pc g) eqn:Ep; cbn; rewrite ?Ep; try done.
  - destruct (own_step_decreases _ _ _ Ho Hc Eo Hf) as [_ Hc']. destruct (own_step_quiet _ _ _ Ho Hc Eo Hf Hq). done.
Qed.

Lemma late_steps_quiet y y' : rtc late_step y y' → ok y → ctx_done y = true → quiet y →
  quiet y' ∧ delivered y' = delivered y.
Proof.
  induction 1 as [|y y1 y' Hs _ IH]; [done|]. intros Ho Hc Hq.
  destruct (late_step_quiet _ _ Ho Hc Hq Hs) as (Ho1 & Hc1 & Hq1 & <-). by apply IH.
Qed.

(** Once the context is done no packet changes hands, whoever still tries. *)
Lemma done_delivers_nothing y e y' : ok y → ctx_done y = true → fire y e = Some y' →
  ctx_done y' = true ∧ delivered y' = delivered y.
Proof.
  intros Ho Hc Hf. destruct e as [c p chk|t| | | | |t c|t l|t]; cbn [fire] in Hf.
  - by injection Hf as <-.
  - destruct (goroutines y !! t) as [g|]; [|done]. by destruct (pc g); simplify_eq.
  - by destruct (stop y); simplify_eq.
  - by injection Hf as <-.
  - destruct (stop y); try done. by repeat case_match; simplify_eq.
  - by destruct (stop y) as [| |[|c cs]|]; simplify_eq.
  - destruct (goroutines y !! t) as [g|] eqn:Eg; [|done]. destruct (pc g); try done.
    + by destruct (select_loop_done _ _ _ _ _ Ho Hc Hf) as (g' & -> & _).
    + by destruct (select_send_done _ _ _ _ _ _ _ Ho Hc Hf) as (g' & -> & _).
  - destruct (goroutines y !! t) as [g|]; [|done]. by destruct (pc g); simplify_eq.
  - destruct (goroutines y !! t) as [g|]; [|done]. by destruct (pc g) as [| | |[]| | | |]; simplify_eq.
Qed.

Lemma steps_deliver_nothing y y' : rtc step y y' → ok y → ctx_done y = true → delivered y' = delivered y.
Proof.
  induction 1 as [|y y1 y' [e Hf] _ IH]; [done|]. intros Ho Hc.
  destruct (done_delivers_nothing _ _ _ Ho Hc Hf) as [Hc1 <-]. apply IH; [by eapply fire_ok|done].
Qed.

Lemma own_steps_keep y y' : rtc own_step y y' → ok y → ctx_done y = true →
  ok y' ∧ ctx_done y' = true ∧ (stop y ≠ NotStopped → stop y' ≠ NotStopped).
Proof.
  induction 1 as [|y y1 y' (e & He & Hf) _ IH]; [done|]. intros Ho Hc.
  destruct (done_delivers_nothing _ _ _ Ho Hc Hf) as [Hc1 _].
  destruct (IH (fire_ok _ _ _ Ho Hf) Hc1) as (H1 & H2 & H3). split; [done|]. split; [done|]. intros Hs. apply H3.
  destruct e as [| | | | | |t c|t l|t]; try done; cbn [fire] in Hf.
  - destruct (stop y); try done. by repeat case_match; simplify_eq.
  - by destruct (stop y) as [| |[|c cs]|]; simplify_eq.
  - destruct (goroutines y !! t) as [g|] eqn:Eg; [|done]. destruct (pc g); try done.
    + by destruct (select_loop_done _ _ _ _ _ Ho Hc Hf) as (g' & -> & _).
    + by destruct (select_send_done _ _ _ _ _ _ _ Ho Hc Hf) as (g' & -> & _).
  - destruct (goroutines y !! t) as [g|]; [|done]. by destruct (pc g); simplify_eq.
  - destruct (goroutines y !! t) as [g|]; [|done]. by destruct (pc g) as [| | |[]| | | |]; simplify_eq.
Qed.

(** ** Properties *)


End shutdown.

(** ** Runs *)

Fixpoint run (cleanup_returns : nat → bool) (y : system) (es : list event) : option system :=
  match es with
  | [] => Some y
  | e :: es' => fire cleanup_returns y e ≫= λ y', run cleanup_returns y' es'
  end.

Lemma run_steps c es : ∀ y y', run c y es = Some y' → rtc (step c) y y'.
Proof.
  induction es as [|e es IH]; intros y y'; cbn [run]; [by intros [= <-]|].
  destruct (fire c y e) as [y1|] eqn:E; [|done]. intros Hr. eapply rtc_l; [by exists e|by apply IH].
Qed.

Lemma run_late_steps c es : ∀ y y', forallb checks es = true → run c y es = Some y' → rtc (late_step c) y y'.
Proof.
  induction es as [|e es IH]; intros y y'; cbn [run forallb]; [by intros _ [= <-]|].
  intros [He Hes]%andb_true_iff. destruct (fire c y e) as [y1|] eqn:E; [|done].
  intros Hr. eapply rtc_l; [by exists e|by apply IH].
Qed.

Definition all_return : nat → bool := λ _, true.
Definition some_packet : EventPacket := top_packet VadUserSpeechStartedEvent "VADHandler".

(** [Stop] from its first step to its last. *)
Definition whole_stop : list event := CallStop :: replicate 10 CleanUp ++ replicate 12 CloseNext.

(** The listener (number 9) takes a packet from a goroutine and is still at it
    when [Stop] runs; then the context and the closed channels are all ready. *)
Definition busy_listener : list event :=
  [Select 9 Sleep; Spawn TopOutput some_packet true; NextSend 13; Select 13 (Meet 9)] ++ whole_stop ++
  [NextSend 9; Select 9 (FromClosed TopOutput)].

(** A listener that is busy while [Stop] runs can be handed the nil packet of a
    closed channel, which it dereferences: the process ends, with every session
    in it. *)
Theorem busy_listener_can_crash :
  ∃ y, run all_return voice_pipeline busy_listener = Some y ∧ stop y = Stopped ∧
    (pc <$> goroutines y !! 9%nat) = Some Crashed.
Proof. eexists. split; [vm_compute; reflexivity|]. by vm_compute. Qed.

(** A message of a WebSocket client that arrives after [Stop] can panic too:
    [SendInput] does not look at the context before it selects, and the
    connections outlive the server. *)
Theorem late_client_can_crash :
  ∃ y, run all_return voice_pipeline
         (whole_stop ++ [Spawn TopOutput some_packet false; NextSend 13; Select 13 (FromClosed TopOutput)]) = Some y ∧
    (pc <$> goroutines y !! 13%nat) = Some Crashed.
Proof. eexists. split; [vm_compute; reflexivity|]. by vm_compute. Qed.

(** An aggregator that is busy while [Stop] runs can be handed the nil packet as
    well. *)
Theorem busy_aggregator_can_crash :
  ∃ y, run all_return voice_pipeline
         ([Select 3 Sleep; Spawn (InputChan 3) some_packet true; NextSend 13; Select 13 (Meet 3)] ++ whole_stop ++
          [NextSend 3; Select 3 (FromClosed (InputChan 3))]) = Some y ∧
    (pc <$> goroutines y !! 3%nat) = Some Crashed.
Proof. eexists. split; [vm_compute; reflexivity|]. by vm_compute. Qed.

(** ** Witnesses *)

(** A stop while the recogniser's handler sends, to the end. *)
Definition orderly_stop : list event :=
  [Select 3 Sleep; Spawn (InputChan 3) some_packet true; NextSend 13; Select 13 (Meet 3); NextSend 3; NextSend 13] ++
  [CallStop] ++ map (λ t, Select t FromDone) [0; 1; 2; 3; 4; 5; 6; 7; 8; 9; 10; 11; 12]%nat ++
  replicate 10 CleanUp ++ replicate 12 CloseNext.

Definition state_after (es : list event) : system := default voice_pipeline (run all_return voice_pipeline es).

Lemma state_after_reachable es : is_Some (run all_return voice_pipeline es) →
  reachable all_return (state_after es).
Proof.
  intros [y Hy]. unfold state_after. rewrite Hy. exists [true; true; true; false; true; false; true; false; true], 3%nat.
  by eapply run_steps.
Qed.

Definition cancelled_state : system := state_after (take 7 orderly_stop).


Definition stopped_state : system := state_after orderly_stop.

