(* ===== verification/TransportHandler.v ===== *)
(** * Transport and speech-to-text handlers

    [handlers/transport/transport_handler.go]: the two ends of a pipeline share
    one service and one [connected] flag; [handlers/stt/stt_handler.go]: audio
    goes to the recognition service, its results come back as events. *)

From S2P Require Import Prelude Core BaseHandler.

Local Open Scope string_scope.
Local Open Scope list_scope.
Local Open Scope Z_scope.

(** ** Transport *)

Record TransportConfig := mkTransportConfig {
  OutSampleRate : Z;
  OutChannels : Z;
  OutAudioFormat : AudioEncodingFormat
}.

Definition DefaultConfig : TransportConfig := mkTransportConfig 24000 1 PCM.

Record TransportHandlerWrapper := mkWrapper {
  service : nat;
  backupServices : list nat;
  config : TransportConfig;
  connected : bool
}.

Definition NewTransportHandlerWrapper (svc : nat) (cfg : TransportConfig) : TransportHandlerWrapper :=
  mkWrapper svc [] cfg false.

Definition wrapper_WithBackupService (w : TransportHandlerWrapper) (svc : nat)
    : TransportHandlerWrapper :=
  mkWrapper (service w) (backupServices w ++ [svc]) (config w) (connected w).

Definition GetInputHandler (w : TransportHandlerWrapper) : BaseHandler :=
  NewBaseHandler (service w) (backupServices w).
Definition GetOutputHandler (w : TransportHandlerWrapper) : BaseHandler :=
  NewBaseHandler (service w) (backupServices w).

Definition set_connected (w : TransportHandlerWrapper) (b : bool) : TransportHandlerWrapper :=
  mkWrapper (service w) (backupServices w) (config w) b.

(** [Initialize] of either handler: the service's [Initialize], then one
    [Connect] for both; the last component is whether it was called. *)
Definition transport_Initialize (initialize connect : result unit) (w : TransportHandlerWrapper)
    : TransportHandlerWrapper * result unit * bool :=
  match initialize with
  | Err e => (w, Err e, false)
  | Ok _ =>
      if connected w then (w, Ok tt, false)
      else match connect with
           | Err e => (w, Err e, true)
           | Ok _ => (set_connected w true, Ok tt, true)
           end
  end.

Definition output_Cleanup (w : TransportHandlerWrapper) : TransportHandlerWrapper :=
  if connected w then set_connected w false else w.

Definition input_relayer : string := "TransportInputHandler".

(** One packet per medium present, in this order. *)
Definition processAudio (m : MediaChunk) : list EventPacket :=
  (match Data (Audio m) with
   | Some _ => [next_packet (TransportAudioInputEvent (Audio m)) input_relayer]
   | None => []
   end) ++
  (match v_Data (Video m) with
   | Some _ => [next_packet (TransportVideoInputEvent (Video m)) input_relayer]
   | None => []
   end) ++
  (if String.eqb (Text (mc_Text m)) "" then []
   else [next_packet (TransportTextInputEvent (Text (mc_Text m))) input_relayer]).

Definition input_HandleEvent (packet : EventPacket) : list EventPacket := [packet].

(** [send] is what [SendEvent] of the service returns for the event: on an
    error the packet goes no further and the error to the handler loop. *)
Definition output_HandleEvent (send : result unit) (packet : EventPacket)
    : list EventPacket * handler_result :=
  match send with
  | Err e => ([], HandlerFailed e)
  | Ok _ => ([packet], Handled)
  end.

(** ** Speech to text *)

Inductive stt_effect : Type :=
| SendTranscriptionAudio (chunk : AudioChunk)
| FlushTranscription
| SttFatal (msg : string)
| SttSend (p : EventPacket).

(** The error of [SendTranscriptionAudio] is not looked at. *)
Definition stt_HandleEvent (flush : result unit) (packet : EventPacket) : list stt_effect :=
  (match Event packet with
   | TransportAudioInputEvent chunk => [SendTranscriptionAudio chunk]
   | VadUserSpeechEndedEvent =>
       FlushTranscription :: match flush with Ok _ => [] | Err e => [SttFatal e] end
   | _ => []
   end) ++ [SttSend packet].

Definition stt_sent (es : list stt_effect) : list EventPacket :=
  omap (λ e, match e with SttSend p => Some p | _ => None end) es.

Inductive transcription : Type :=
| FinalResult (text : string)
| InterimResult (text : string).

(** One result received by [eventLoop]. *)
Definition stt_loop_step (t : transcription) : EventPacket :=
  match t with
  | FinalResult text => next_packet (STTFinalOutputEvent text) "STTHandler"
  | InterimResult text => next_packet (STTInterimOutputEvent text) "STTHandler"
  end.

(** ** Properties *)

(** The two ends of a pipeline share one connection: when the services
    initialize, the input and output handlers together call [Connect] of the
    transport exactly once, whichever is initialized first, and both find it
    connected; a refused connection is reported by the first of them and tried
    again by the second. *)
Theorem one_connection (w : TransportHandlerWrapper) (connect1 connect2 : result unit) :
  let '(w1, r1, called1) := transport_Initialize (Ok tt) connect1 (set_connected w false) in
  let '(w2, r2, called2) := transport_Initialize (Ok tt) connect2 w1 in
  r1 = connect1 ∧ called1 = true ∧
  match connect1 with
  | Ok _ => r2 = Ok tt ∧ called2 = false ∧ connected w2 = true
  | Err _ => r2 = connect2 ∧ called2 = true ∧ connected w2 = is_ok connect2
  end.
Proof.
  unfold transport_Initialize, set_connected. cbn.
  destruct connect1 as [[]|e1]; cbn; [done|]. destruct connect2 as [[]|e2]; done.
Qed.
