(* ===== verification/Pipeline.v ===== *)
(** * The voice pipeline: the handlers of [main.go] under [core/runner.go]

    The nine handlers that [runWorkerMode] builds, in their order, with the
    state they share, as one transition system.  Every channel keeps the whole
    sequence of packets ever sent on it and how many its reader has taken, so
    the order of packets is part of the state.  A step is one event handled by
    one handler, one packet read by the runner, one goroutine of the runner, or
    one round of a handler's own loop; steps of different handlers interleave
    freely. *)

From S2P Require Import Prelude Core TaskGroup ContextManager DynamicContext.
From S2P Require Import ContextHandler ActivityControl Vad LlmHandler TtsHandler.
From S2P Require Import LlmHandlerProofs BaseHandler Runner TransportHandler.

Local Open Scope string_scope.
Local Open Scope list_scope.
Local Open Scope Z_scope.

(** ** Each handler behind the interface [Handler]

    A handler's outside answers (clock, service results, random numbers) are
    parameters of its instance. *)

Definition vad_packets (es : list vad_effect) : list EventPacket :=
  omap (λ e, match e with
             | Emit ev => Some (next_packet ev "VADHandler")
             | Vad.Forward p => Some p
             | Vad.FatalError _ => None
             end) es.
Definition llm_packets (es : list llm_effect) : list EventPacket :=
  omap (λ e, match e with LlmHandler.Send p => Some p | _ => None end) es.
Definition tts_packets (es : list tts_effect) : list EventPacket :=
  omap (λ e, match e with TtsHandler.Send p => Some p | _ => None end) es.

(** The outside answers to one event. *)
Record answers := mkEnv {
  now : Z;
  vad_answer : result VADResult;
  stt_flush : result unit;
  tts_answer : service_answers;
  rand : nat;
  transport_send : result unit
}.

Section pipeline.
Context `{Regexp} `{UnicodeTables}.

Section handlers.
Context (a : answers).

Record TransportInput := mkTransportInput { ti_wrapper : TransportHandlerWrapper }.
Record SpeechToText := mkSpeechToText {}.

#[export] Instance transport_input_handler : Handler TransportInput :=
  {| hstep s p := Some (s, input_HandleEvent p) |}.
#[export] Instance vad_handler : Handler VADHandler :=
  {| hstep h p := let '(h', out) := Vad.HandleEvent (now a) (vad_answer a) h p in
                  Some (h', vad_packets out) |}.
#[export] Instance stt_handler : Handler SpeechToText :=
  {| hstep s p := Some (s, stt_sent (stt_HandleEvent (stt_flush a) p)) |}.
(** The aggregators work on the context manager they share. *)
#[export] Instance user_handler : Handler (LLMContextManager * LLMUserContextAggregator) :=
  {| hstep s p := let '(m, u, out) := user_HandleEvent s.1 s.2 p in Some ((m, u), sent out) |}.
#[export] Instance llm_handler : Handler LLMHandler :=
  {| hstep h p := match LlmHandler.HandleEvent h p with
                  | Some (h', out) => Some (h', llm_packets out)
                  | None => None
                  end |}.
#[export] Instance assistant_handler : Handler (LLMContextManager * LLMAssistantContextAggregator) :=
  {| hstep s p := match assistant_HandleEvent s.1 s.2 (rand a) p with
                  | Some (m, g, out) => Some ((m, g), sent out)
                  | None => None
                  end |}.
#[export] Instance tts_handler : Handler TTSHandler :=
  {| hstep h p := let '(h', out) := TtsHandler.HandleEvent h (tts_answer a) p in
                  Some (h', tts_packets out) |}.
#[export] Instance activity_handler : Handler ActivityControlHandler :=
  {| hstep h p := Some (ActivityControl.HandleEvent (now a) h p) |}.

(** Every handler but the transport output keeps the promise. *)
#[export] Instance transport_input_relays : RelaysEndCall TransportInput.
Proof. split. intros. by eexists. Qed.
#[export] Instance vad_relays : RelaysEndCall VADHandler.
Proof. split. intros. by eexists. Qed.
#[export] Instance stt_relays : RelaysEndCall SpeechToText.
Proof. split. intros. by eexists. Qed.
#[export] Instance user_relays : RelaysEndCall (LLMContextManager * LLMUserContextAggregator).
Proof. split. intros. by eexists. Qed.
#[export] Instance llm_relays : RelaysEndCall LLMHandler.
Proof. split. intros. by eexists. Qed.
#[export] Instance assistant_relays : RelaysEndCall (LLMContextManager * LLMAssistantContextAggregator).
Proof. split. intros. by eexists. Qed.
#[export] Instance tts_relays : RelaysEndCall TTSHandler.
Proof. split. intros. by eexists. Qed.
#[export] Instance activity_relays : RelaysEndCall ActivityControlHandler.
Proof. split. intros. by eexists. Qed.
End handlers.

(** ** The pipeline's state *)

Inductive stage : Type :=
| TransportInputStage | VadStage | SttStage | UserContextStage | LlmStage
| AssistantContextStage | TtsStage | ActivityControlStage | TransportOutputStage
| LastOutputStage.     (* the runner, reading [lastOutputChan] *)

#[export] Instance stage_eq_dec : EqDecision stage.
Proof. solve_decision. Defined.

(** The order in which [runWorkerMode] lists the handlers. *)
Definition next (st : stage) : stage :=
  match st with
  | TransportInputStage => VadStage
  | VadStage => SttStage
  | SttStage => UserContextStage
  | UserContextStage => LlmStage
  | LlmStage => AssistantContextStage
  | AssistantContextStage => TtsStage
  | TtsStage => ActivityControlStage
  | ActivityControlStage => TransportOutputStage
  | TransportOutputStage | LastOutputStage => LastOutputStage
  end.

Record Session := mkSession {
  s_transport : TransportInput;
  s_vad : VADHandler;
  s_stt : SpeechToText;
  s_manager : DynamicContextManager;
  s_user : LLMUserContextAggregator;
  s_llm : LLMHandler;
  s_assistant : LLMAssistantContextAggregator;
  s_tts : TTSHandler;
  s_activity : ActivityControlHandler
}.

Definition put_vad (s : Session) v := mkSession (s_transport s) v (s_stt s) (s_manager s)
  (s_user s) (s_llm s) (s_assistant s) (s_tts s) (s_activity s).
Definition put_user (s : Session) (x : LLMContextManager * LLMUserContextAggregator) :=
  mkSession (s_transport s) (s_vad s) (s_stt s) (set_base (s_manager s) x.1)
    x.2 (s_llm s) (s_assistant s) (s_tts s) (s_activity s).
Definition put_llm (s : Session) l := mkSession (s_transport s) (s_vad s) (s_stt s) (s_manager s)
  (s_user s) l (s_assistant s) (s_tts s) (s_activity s).
Definition put_assistant (s : Session) (x : LLMContextManager * LLMAssistantContextAggregator) :=
  mkSession (s_transport s) (s_vad s) (s_stt s) (set_base (s_manager s) x.1)
    (s_user s) (s_llm s) x.2 (s_tts s) (s_activity s).
Definition put_tts (s : Session) t := mkSession (s_transport s) (s_vad s) (s_stt s) (s_manager s)
  (s_user s) (s_llm s) (s_assistant s) t (s_activity s).
Definition put_activity (s : Session) h := mkSession (s_transport s) (s_vad s) (s_stt s)
  (s_manager s) (s_user s) (s_llm s) (s_assistant s) (s_tts s) h.
Definition put_manager (s : Session) d := mkSession (s_transport s) (s_vad s) (s_stt s) d
  (s_user s) (s_llm s) (s_assistant s) (s_tts s) (s_activity s).

(** One handler's step as a step of the session. *)
Definition within {T} (r : option (T * list EventPacket)) (put : T → Session)
    : option (Session * list EventPacket) :=
  match r with
  | Some (t, out) => Some (put t, out)
  | None => None
  end.

Definition handle_stage (a : answers) (st : stage) (s : Session) (p : EventPacket)
    : option (Session * list EventPacket) :=
  match st with
  | TransportInputStage => within (hstep (s_transport s) p) (λ _, s)
  | VadStage => within (hstep (Handler := vad_handler a) (s_vad s) p) (put_vad s)
  | SttStage => within (hstep (Handler := stt_handler a) (s_stt s) p) (λ _, s)
  | UserContextStage => within (hstep (base (s_manager s), s_user s) p) (put_user s)
  | LlmStage => within (hstep (s_llm s) p) (put_llm s)
  | AssistantContextStage =>
      within (hstep (Handler := assistant_handler a) (base (s_manager s), s_assistant s) p)
        (put_assistant s)
  | TtsStage => within (hstep (Handler := tts_handler a) (s_tts s) p) (put_tts s)
  | ActivityControlStage =>
      within (hstep (Handler := activity_handler a) (s_activity s) p) (put_activity s)
  | TransportOutputStage => Some (s, (output_HandleEvent (transport_send a) p).1)
  | LastOutputStage => Some (s, [])
  end.

(** What the handlers' own goroutines do and send, each at any time. *)
Inductive background : stage → Session → Session → list EventPacket → Prop :=
| bg_media s m : background TransportInputStage s s (processAudio m)
| bg_stt s t : background SttStage s s [stt_loop_step t]
| bg_user_expires s :
    background UserContextStage s
      (put_user s (base (s_manager s), ContextHandler.timer_expires (s_user s))) []
| bg_user_signals s :
    background UserContextStage s
      (put_user s (base (s_manager s), ContextHandler.timer_signals (s_user s))) []
| bg_regenerate s u out :
    regenerate (s_user s) = Some (u, out) →
    background UserContextStage s (put_user s (base (s_manager s), u)) (sent out)
| bg_generation s ctx timeout_text :
    background LlmStage s s (llm_packets (start_generation ctx timeout_text))
| bg_llm_output s o h out :
    loop_step (s_llm s) o = (h, out) → background LlmStage s (put_llm s h) (llm_packets out)
| bg_filler s op :
    background LlmStage s
      (put_llm s (set_filler (s_llm s) (apply_op (filler (s_llm s)) op).1)) []
| bg_bridge s consumed confirm ask :
    background LlmStage s s
      [next_packet (TTSSpeakEvent (generateConfirmBridge consumed confirm ask))
         LlmHandler.relayer_name]
| bg_tool s rand id params d out :
    HandleToolCall (s_manager s) rand id params = (d, out) →
    background AssistantContextStage s (put_manager s d) (sent out)
| bg_server_tool s id o : background AssistantContextStage s s (sent (server_tool_done id o))
| bg_simulation s i h out :
    sim_step (s_tts s) i = (h, out) → background TtsStage s (put_tts s h) out
| bg_synthesis s outs : background TtsStage s s (tts_packets (listenForAudioAndErrors outs))
| bg_activity s i h out :
    input_packet i = [] → ActivityControl.step (s_activity s) i = (h, out) →
    background ActivityControlStage s (put_activity s h) out
| bg_fatal st s err :
    background st s s [top_packet (CriticalErrorEvent err) "BaseHandler"].

(** ** Channels and the runner *)

Record world := mkWorld {
  session : Session;
  sent_to : stage → list EventPacket;    (* everything ever sent on the input channel *)
  taken : stage → nat;                   (* how much of it has been handled *)
  top_sent : list EventPacket;           (* the same for [topOutputChan] *)
  top_taken : nat;
  relays : list EventPacket;             (* [go r.Handlers[0].HandleEvent(p)] not yet run *)
  rejected : list EventPacket;           (* refused by the transport *)
  stop_requested : bool                  (* [go r.Stop()] *)
}.

Definition upd {A} (f : stage → A) (st : stage) (x : A) : stage → A :=
  λ st', if decide (st' = st) then x else f st'.

Definition to_next (out : list EventPacket) : list EventPacket :=
  filter (λ q, Destination q = EventRelayDestinationNextService) out.
Definition to_top (out : list EventPacket) : list EventPacket :=
  filter (λ q, Destination q = EventRelayDestinationTopService) out.

(** [SendPacket] of the handler at [st] for each packet, the context alive. *)
Definition route (w : world) (st : stage) (s : Session) (out : list EventPacket) : world :=
  mkWorld s (upd (sent_to w) (next st) (sent_to w (next st) ++ to_next out)) (taken w)
    (top_sent w ++ to_top out) (top_taken w) (relays w) (rejected w) (stop_requested w).

Definition take_one (w : world) (st : stage) : world :=
  mkWorld (session w) (sent_to w) (upd (taken w) st (S (taken w st)))
    (top_sent w) (top_taken w) (relays w) (rejected w) (stop_requested w).

Definition reject (w : world) (ps : list EventPacket) : world :=
  mkWorld (session w) (sent_to w) (taken w) (top_sent w) (top_taken w) (relays w)
    (rejected w ++ ps) (stop_requested w).

(** The runner's effects on one packet it has read. *)
Definition runner_act (w : world) (es : list runner_effect) : world :=
  mkWorld (session w) (sent_to w) (taken w) (top_sent w) (top_taken w)
    (relays w ++ omap (λ e, match e with SpawnHandle _ p => Some p | _ => None end) es)
    (rejected w)
    (stop_requested w || existsb (λ e, match e with SpawnStop => true | _ => false end) es).

Definition read_top (w : world) : world :=
  mkWorld (session w) (sent_to w) (taken w) (top_sent w) (S (top_taken w)) (relays w)
    (rejected w) (stop_requested w).

Definition drop_relay (w : world) (rest : list EventPacket) : world :=
  mkWorld (session w) (sent_to w) (taken w) (top_sent w) (top_taken w) rest
    (rejected w) (stop_requested w).

Definition send_top_event (w : world) (p : EventPacket) : world :=
  mkWorld (session w) (sent_to w) (taken w) (top_sent w ++ [p]) (top_taken w) (relays w)
    (rejected w) (stop_requested w).

Definition refused (a : answers) (st : stage) (p : EventPacket) : list EventPacket :=
  match st, transport_send a with
  | TransportOutputStage, Err _ => [p]
  | _, _ => []
  end.

Inductive step : world → world → Prop :=
| step_handle w a st p s out :
    st ≠ LastOutputStage → sent_to w st !! taken w st = Some p →
    handle_stage a st (session w) p = Some (s, out) →
    step w (reject (route (take_one w st) st s out) (refused a st p))
| step_last w p :
    sent_to w LastOutputStage !! taken w LastOutputStage = Some p →
    step w (runner_act (take_one w LastOutputStage) (processFinalOutput p))
| step_top w p :
    top_sent w !! top_taken w = Some p →
    step w (runner_act (read_top w) (processTopOutput p))
| step_relay w a p l1 l2 s out :
    relays w = l1 ++ p :: l2 → handle_stage a TransportInputStage (session w) p = Some (s, out) →
    step w (route (drop_relay w (l1 ++ l2)) TransportInputStage s out)
| step_background w st s out :
    background st (session w) s out → step w (route w st s out)
| step_external w ev relayer : step w (send_top_event w (SendInput ev relayer)).

(** A session as it starts: nothing sent. *)
Definition start (s : Session) : world :=
  mkWorld s (λ _, []) (λ _, 0%nat) [] 0 [] [] false.

Inductive reachable (s : Session) : world → Prop :=
| reachable_start : reachable s (start s)
| reachable_step w w' : reachable s w → step w w' → reachable s w'.

(** Everything sent has been handled. *)
Definition quiescent (w : world) : Prop :=
  (∀ st, taken w st = length (sent_to w st)) ∧ top_taken w = length (top_sent w) ∧ relays w = [].

(** ** An [EndCallEvent] through the pipeline *)

Definition is_end (p : EventPacket) : Prop := ∃ reason, Event p = EndCallEvent reason.

Definition as_next (p : EventPacket) : EventPacket :=
  mkEventPacket (Event p) EventRelayDestinationNextService (Relayer p).

(** What has been handled at a stage. *)
Definition handled (w : world) (st : stage) : list EventPacket := take (taken w st) (sent_to w st).

Record end_inv (w : world) : Prop := mkInv {
  inv_taken st : (taken w st ≤ length (sent_to w st))%nat;
  inv_top : (top_taken w ≤ length (top_sent w))%nat;
  inv_dest st p : p ∈ sent_to w st ∨ p ∈ relays w → Destination p = EventRelayDestinationNextService;
  inv_passed st p :
    st ≠ LastOutputStage → p ∈ handled w st → is_end p →
    p ∈ sent_to w (next st) ∨ p ∈ rejected w;
  inv_stopped p : p ∈ handled w LastOutputStage → is_end p → stop_requested w = true;
  inv_relayed p :
    p ∈ take (top_taken w) (top_sent w) → is_end p →
    as_next p ∈ relays w ∨ as_next p ∈ sent_to w VadStage
}.

Lemma within_relays {T} (Hd : Handler T) (Hr : RelaysEndCall T) (s : T) reason d relayer put s' out :
  within (hstep s (mkEventPacket (EndCallEvent reason) d relayer)) put = Some (s', out) →
  out = [mkEventPacket (EndCallEvent reason) d relayer].
Proof.
  destruct (relays_end_call s reason d relayer) as [s1 E]. rewrite E. cbn. by intros [= _ <-].
Qed.

(** Every stage passes it on; the transport output may refuse it. *)
Lemma stage_relays a st s p s' out :
  st ≠ LastOutputStage → is_end p → handle_stage a st s p = Some (s', out) →
  out = [p] ∨ refused a st p = [p].
Proof.
  intros Hst [reason He] Hh. destruct p as [ev d relayer]. cbn in He. subst ev.
  destruct st; cbn [handle_stage] in Hh; try done;
    try (left; revert Hh; apply (within_relays _ _)).
  cbn in *. destruct (transport_send a); cbn in Hh; simplify_eq; auto.
Qed.

Lemma to_next_dest p out : p ∈ to_next out → Destination p = EventRelayDestinationNextService.
Proof. unfold to_next. rewrite list_elem_of_filter. tauto. Qed.

Lemma upd_at {A} (f : stage → A) st x : upd f st x st = x.
Proof. unfold upd. by rewrite decide_True. Qed.
Lemma upd_ne {A} (f : stage → A) st st' x : st' ≠ st → upd f st x st' = f st'.
Proof. intros. unfold upd. by rewrite decide_False. Qed.

Lemma sent_route w st s out st' :
  ∃ ext, sent_to (route w st s out) st' = sent_to w st' ++ ext ∧
         (st' = next st → ext = to_next out) ∧
         ∀ p, p ∈ ext → Destination p = EventRelayDestinationNextService.
Proof.
  cbn. destruct (decide (st' = next st)) as [->|Hne].
  - rewrite upd_at. eexists. split; [done|]. split; [done|]. by intros p ?%to_next_dest.
  - rewrite upd_ne by done. exists []. rewrite app_nil_r. split; [done|].
    split; [done|]. intros p Hp. by apply elem_of_nil in Hp.
Qed.

(** Sending more changes nothing for what has been handled. *)
Lemma route_inv w st s out : end_inv w → end_inv (route w st s out).
Proof.
  intros [H1 H2 H3 H4 H5 H6].
  assert (∀ st', handled (route w st s out) st' = handled w st') as Hh.
  { intros st'. unfold handled. destruct (sent_route w st s out st') as (ext & -> & _).
    cbn [taken route]. by apply take_app_le. }
  assert (∀ p st', p ∈ sent_to w st' → p ∈ sent_to (route w st s out) st') as Hs.
  { intros p st' Hp. destruct (sent_route w st s out st') as (ext & -> & _).
    apply elem_of_app. auto. }
  split.
  - intros st'. destruct (sent_route w st s out st') as (ext & -> & _).
    cbn [taken route]. rewrite length_app. specialize (H1 st'). lia.
  - cbn. rewrite length_app. lia.
  - intros st' p [Hp|Hp]; [|by apply (H3 st'); right].
    destruct (sent_route w st s out st') as (ext & E & _ & Hd). rewrite E in Hp.
    apply elem_of_app in Hp as [Hp|Hp]; [by apply (H3 st'); left|by apply Hd].
  - intros st' p Hst Hp He. rewrite Hh in Hp. destruct (H4 st' p Hst Hp He); auto.
  - intros p Hp He. rewrite Hh in Hp. by apply (H5 p).
  - intros p Hp He. cbn [top_taken top_sent route] in Hp. rewrite take_app_le in Hp by done.
    destruct (H6 p Hp He); auto.
Qed.

Lemma reject_inv w ps : end_inv w → end_inv (reject w ps).
Proof.
  intros [H1 H2 H3 H4 H5 H6]. split; try done.
  intros st p Hst Hp He. destruct (H4 st p Hst Hp He); [by left|right]. apply elem_of_app. auto.
Qed.

(** Taking a packet only enlarges what is handled, by that packet. *)
Lemma handled_take w st p st' q :
  sent_to w st !! taken w st = Some p → q ∈ handled (take_one w st) st' →
  q ∈ handled w st' ∨ (st' = st ∧ q = p).
Proof.
  intros Hp Hq. unfold handled in *. cbn in Hq. destruct (decide (st' = st)) as [->|Hne].
  - rewrite upd_at, (take_S_r _ _ p Hp) in Hq.
    apply elem_of_app in Hq as [Hq|Hq]; [by left|right]. by apply list_elem_of_singleton in Hq.
  - rewrite upd_ne in Hq by done. by left.
Qed.

(** The invariant after taking [p], given what its handling is owed. *)
Lemma take_one_inv w st p :
  end_inv w → sent_to w st !! taken w st = Some p →
  (is_end p →
   if decide (st = LastOutputStage) then stop_requested w = true
   else p ∈ sent_to w (next st) ∨ p ∈ rejected w) →
  end_inv (take_one w st).
Proof.
  intros [H1 H2 H3 H4 H5 H6] Hp Howed. split; try done.
  - intros st'. cbn. destruct (decide (st' = st)) as [->|Hne]; [|by rewrite upd_ne].
    rewrite upd_at. apply lookup_lt_Some in Hp. lia.
  - intros st' q Hst Hq He. destruct (handled_take w st p st' q Hp Hq) as [Hq'|[-> ->]].
    + by apply H4.
    + specialize (Howed He). by rewrite decide_False in Howed.
  - intros q Hq He. destruct (handled_take w st p _ q Hp Hq) as [Hq'|[<- ->]].
    + by apply (H5 q).
    + specialize (Howed He). by rewrite decide_True in Howed.
Qed.

Lemma runner_act_inv w es :
  (∀ p i, SpawnHandle i p ∈ es → Destination p = EventRelayDestinationNextService) →
  end_inv w → end_inv (runner_act w es).
Proof.
  intros Hes [H1 H2 H3 H4 H5 H6]. split; try done.
  - intros st p [Hp|Hp]; [by apply (H3 st); left|]. cbn in Hp.
    apply elem_of_app in Hp as [Hp|Hp]; [by apply (H3 st); right|].
    apply list_elem_of_omap in Hp as (e & He & Ee). destruct e; simplify_eq. eauto.
  - intros p Hp He. cbn. rewrite (H5 p) by done. done.
  - intros p Hp He. destruct (H6 p Hp He); [left|by right]. cbn. apply elem_of_app. auto.
Qed.

Lemma route_at w st s p out :
  Destination p = EventRelayDestinationNextService → p ∈ out →
  p ∈ sent_to (route w st s out) (next st).
Proof.
  intros Hd Hp. cbn. rewrite upd_at. apply elem_of_app. right.
  unfold to_next. by apply list_elem_of_filter.
Qed.

(** [take_one] and [route] commute up to the fields the invariant reads. *)
Lemma take_route w st s out : take_one (route w st s out) st = route (take_one w st) st s out.
Proof. reflexivity. Qed.

Lemma step_handle_inv w a st p s out :
  end_inv w → st ≠ LastOutputStage → sent_to w st !! taken w st = Some p →
  handle_stage a st (session w) p = Some (s, out) →
  end_inv (reject (route (take_one w st) st s out) (refused a st p)).
Proof.
  intros Hi Hst Hp Hh.
  assert (Destination p = EventRelayDestinationNextService) as Hd.
  { apply (inv_dest w Hi st). left. by eapply list_elem_of_lookup_2. }
  rewrite <-take_route.
  change (reject (take_one (route w st s out) st) (refused a st p))
    with (take_one (reject (route w st s out) (refused a st p)) st).
  eapply (take_one_inv _ st p).
  - by apply reject_inv, route_inv.
  - cbn [sent_to reject taken route].
    destruct (sent_route w st s out st) as (ext & E & _). cbn [sent_to route] in E. rewrite E.
    apply lookup_app_l_Some. exact Hp.
  - intros He. rewrite decide_False by done.
    destruct (stage_relays a st _ p s out Hst He Hh) as [->|Er].
    + left. apply (route_at w st s p [p]); [done|by apply list_elem_of_singleton].
    + right. cbn. rewrite Er. apply elem_of_app. right. by apply list_elem_of_singleton.
Qed.

Lemma step_top_inv w p :
  end_inv w → top_sent w !! top_taken w = Some p →
  end_inv (runner_act (read_top w) (processTopOutput p)).
Proof.
  intros Hi Hp.
  assert (∀ q i, SpawnHandle i q ∈ processTopOutput p →
            Destination q = EventRelayDestinationNextService) as Hes.
  { intros q i Hq. unfold processTopOutput in Hq.
    destruct (Event p); rewrite !elem_of_cons in Hq; destruct_or!;
      by (congruence || apply elem_of_nil in Hq || (simplify_eq; done)). }
  pose proof (runner_act_inv w _ Hes Hi) as [H1 H2 H3 H4 H5 H6].
  split; try done.
  - cbn. apply lookup_lt_Some in Hp. lia.
  - intros q Hq He. cbn in Hq. rewrite (take_S_r _ _ p Hp) in Hq.
    apply elem_of_app in Hq as [Hq|Hq]; [by apply H6|]. apply list_elem_of_singleton in Hq as ->.
    left. cbn. apply elem_of_app. right. destruct He as [r Er]. unfold processTopOutput.
    rewrite Er. cbn. apply list_elem_of_singleton. unfold as_next. by rewrite Er.
Qed.

Lemma step_relay_inv w a p l1 l2 s out :
  end_inv w → relays w = l1 ++ p :: l2 →
  handle_stage a TransportInputStage (session w) p = Some (s, out) →
  end_inv (route (drop_relay w (l1 ++ l2)) TransportInputStage s out).
Proof.
  intros Hi Hl Hh.
  assert (out = [p]) as -> by (cbn in Hh; by simplify_eq).
  destruct (route_inv w TransportInputStage s [p] Hi) as [H1 H2 H3 H4 H5 H6].
  split; try done.
  - intros st q [Hq|Hq]; [by apply (H3 st); left|]. apply (H3 st). right. cbn in *. rewrite Hl.
    rewrite elem_of_app in Hq. rewrite elem_of_app, elem_of_cons. tauto.
  - intros q Hq He. destruct (H6 q Hq He) as [Hr|Hr]; [|by right]. cbn in Hr. rewrite Hl in Hr.
    rewrite elem_of_app, elem_of_cons in Hr. destruct Hr as [Hr|[Hr|Hr]].
    + left. cbn. apply elem_of_app. auto.
    + right. apply (route_at (drop_relay w (l1 ++ l2)) TransportInputStage s (as_next q) [p]);
        [done|]. rewrite Hr. by apply list_elem_of_singleton.
    + left. cbn. apply elem_of_app. auto.
Qed.

Lemma step_inv w w' : end_inv w → step w w' → end_inv w'.
Proof.
  intros Hi Hs. destruct Hs as [w a st p s out Hst Hp Hh|w p Hp|w p Hp|w a p l1 l2 s out Hl Hh
    |w st s out _|w ev relayer].
  - by eapply step_handle_inv.
  - change (runner_act (take_one w LastOutputStage) (processFinalOutput p))
      with (take_one (runner_act w (processFinalOutput p)) LastOutputStage).
    eapply take_one_inv; [|exact Hp|].
    + apply runner_act_inv; [|done]. intros q i Hq. unfold processFinalOutput in Hq.
      destruct (Event p); rewrite ?elem_of_cons in Hq; destruct_or?;
        by (congruence || apply elem_of_nil in Hq).
    + intros [r Er]. rewrite decide_True by done. cbn. unfold processFinalOutput. rewrite Er.
      cbn. by rewrite orb_true_r.
  - by apply step_top_inv.
  - by eapply step_relay_inv.
  - by apply route_inv.
  - destruct Hi as [H1 H2 H3 H4 H5 H6]. split; try done.
    + cbn. rewrite length_app. lia.
    + intros q Hq He. cbn in Hq. rewrite take_app_le in Hq by done. by apply H6.
Qed.

Lemma reachable_inv s w : reachable s w → end_inv w.
Proof.
  induction 1 as [|w w' _ IH Hs]; [|by eapply step_inv].
  split; cbn; try done; try lia.
  - intros st p [Hp|Hp]; by apply elem_of_nil in Hp.
  - intros st p _ Hp. unfold handled in Hp. cbn in Hp. by apply elem_of_nil in Hp.
  - intros p Hp. unfold handled in Hp. cbn in Hp. by apply elem_of_nil in Hp.
  - intros p Hp. by apply elem_of_nil in Hp.
Qed.

Definition distance (st : stage) : nat :=
  match st with
  | TransportInputStage => 9 | VadStage => 8 | SttStage => 7 | UserContextStage => 6
  | LlmStage => 5 | AssistantContextStage => 4 | TtsStage => 3 | ActivityControlStage => 2
  | TransportOutputStage => 1 | LastOutputStage => 0
  end%nat.

Lemma quiescent_handled w st p : quiescent w → p ∈ sent_to w st → p ∈ handled w st.
Proof. intros [Hq _] Hp. unfold handled. by rewrite Hq, take_ge. Qed.

(** In a quiescent state what was sent anywhere has reached the end. *)
Lemma reaches_the_end w st p :
  end_inv w → quiescent w → is_end p → p ∈ sent_to w st →
  p ∈ sent_to w LastOutputStage ∨ p ∈ rejected w.
Proof.
  intros Hi Hq He. remember (distance st) as n eqn:En. revert st En.
  induction n as [|n IH]; intros st En Hp.
  - left. by destruct st.
  - assert (st ≠ LastOutputStage) as Hst by (by destruct st).
    destruct (inv_passed w Hi st p Hst) as [Hn|Hr]; [by apply quiescent_handled|done| |by right].
    apply (IH (next st)); [|done]. by destruct st; cbn in *; simplify_eq.
Qed.

(** C1: However the handlers' goroutines, the runner and the external clients
    interleave: once everything sent in a session has been handled, an
    [EndCallEvent] that was sent anywhere in the pipeline or to its top has
    stopped the runner, unless the transport refused to deliver that event.
    No handler swallows, duplicates over or loses it on the way. *)
Theorem end_call_stops_the_session (s : Session) (w : world) (p : EventPacket)
    (Hreach : reachable s w) (Hquiet : quiescent w) (Hend : is_end p)
    (Hsent : p ∈ top_sent w ∨ ∃ st, p ∈ sent_to w st) :
  stop_requested w = true ∨ ∃ q, q ∈ rejected w ∧ Event q = Event p.
Proof.
  pose proof (reachable_inv s w Hreach) as Hi.
  assert (∃ q st, Event q = Event p ∧ q ∈ sent_to w st) as (q & st & Eq & Hq).
  { destruct Hsent as [Ht|[st Hp]]; [|by exists p, st].
    destruct Hquiet as (_ & Ht' & Hr).
    destruct (inv_relayed w Hi p) as [H1|H1]; [by rewrite Ht', take_ge|done| |].
    - rewrite Hr in H1. by apply elem_of_nil in H1.
    - by exists (as_next p), VadStage. }
  assert (is_end q) as Heq by (destruct Hend as [r Hr]; exists r; congruence).
  destruct (reaches_the_end w st q Hi Hquiet Heq Hq) as [Hl|Hl]; [left|right; eauto].
  apply (inv_stopped w Hi q); [|done]. by apply quiescent_handled.
Qed.
End pipeline.

(** ** Concrete runs *)

Definition accept_nothing : Regexp :=
  {| regexpCompile := λ _, None |}.
Definition ascii_only : UnicodeTables := {| is_LNPZ _ := false |}.

Definition demo_session : Session :=
  mkSession (mkTransportInput (NewTransportHandlerWrapper 0 TransportHandler.DefaultConfig))
    (NewVADHandler Vad.DefaultConfig) mkSpeechToText
    (NewDynamicContextManager (NewLLMContextManager DefaultLLMContextManagerConfig))
    GetUserContextAggregator (NewLLMHandler LlmHandler.DefaultConfig)
    GetAssistantContextAggregator (NewTTSHandler TtsHandler.DefaultConfig)
    (NewActivityControlHandler ActivityControl.DefaultConfig).

Definition demo_answers (send : result unit) : answers :=
  mkEnv 0 (Err "no audio") (Ok tt) no_errors 0 send.

#[local] Existing Instances accept_nothing ascii_only.

(** One step at a stage, if it can take one. *)
Definition handle_once (a : answers) (w : world) (st : stage) : world :=
  match sent_to w st !! taken w st with
  | Some p =>
      match st with
      | LastOutputStage => runner_act (take_one w st) (processFinalOutput p)
      | _ => match handle_stage a st (session w) p with
             | Some (s, out) => reject (route (take_one w st) st s out) (refused a st p)
             | None => w
             end
      end
  | None => w
  end.

Definition top_once (w : world) : world :=
  match top_sent w !! top_taken w with
  | Some p => runner_act (read_top w) (processTopOutput p)
  | None => w
  end.

Definition relay_once (a : answers) (w : world) : world :=
  match relays w with
  | p :: l =>
      match handle_stage a TransportInputStage (session w) p with
      | Some (s, out) => route (drop_relay w l) TransportInputStage s out
      | None => w
      end
  | [] => w
  end.

Lemma reachable_handle_once s a w st : reachable s w → reachable s (handle_once a w st).
Proof.
  intros Hr. unfold handle_once. destruct (sent_to w st !! taken w st) as [p|] eqn:Ep; [|done].
  destruct (decide (st = LastOutputStage)) as [->|Hne].
  - eapply reachable_step; [done|]. by apply step_last.
  - destruct (handle_stage a st (session w) p) as [[s' out]|] eqn:Eh.
    + destruct st; try done; (eapply reachable_step; [done|]; by eapply step_handle).
    + by destruct st.
Qed.

Lemma reachable_top_once s w : reachable s w → reachable s (top_once w).
Proof.
  intros Hr. unfold top_once. case_match; [|done]. eapply reachable_step; [done|]. by apply step_top.
Qed.

Lemma reachable_relay_once s a w : reachable s w → reachable s (relay_once a w).
Proof.
  intros Hr. unfold relay_once. destruct (relays w) as [|p l] eqn:El; [done|].
  destruct (handle_stage _ _ _ _) as [[s' out]|] eqn:Eh; [|done].
  eapply reachable_step; [done|]. by eapply (step_relay w a p [] l).
Qed.

Definition all_stages : list stage :=
  [VadStage; SttStage; UserContextStage; LlmStage; AssistantContextStage; TtsStage;
   ActivityControlStage; TransportOutputStage; LastOutputStage].

(** An external client ends the call; every goroutine then runs once. *)
Definition hang_up (send : result unit) : world :=
  fold_left (handle_once (demo_answers send)) all_stages
    (relay_once (demo_answers send) (top_once
      (send_top_event (start demo_session) (SendInput (EndCallEvent "bye") "external-ws")))).

Lemma hang_up_reachable send : reachable demo_session (hang_up send).
Proof.
  unfold hang_up, all_stages. cbn [fold_left].
  do 9 apply reachable_handle_once. apply reachable_relay_once, reachable_top_once.
  eapply reachable_step; [apply reachable_start|]. apply step_external.
Qed.

Lemma hang_up_quiescent send : quiescent (hang_up send).
Proof.
  split; [|by destruct send].
  intros st. by destruct send, st.
Qed.

Lemma end_call_stops_the_session_witness :
  stop_requested (hang_up (Ok tt)) = true ∨
  ∃ q, q ∈ rejected (hang_up (Ok tt)) ∧ Event q = EndCallEvent "bye".
Proof.
  apply (end_call_stops_the_session demo_session (hang_up (Ok tt))
           (SendInput (EndCallEvent "bye") "external-ws")).
  - apply hang_up_reachable.
  - apply hang_up_quiescent.
  - exists "bye". reflexivity.
  - left. apply list_elem_of_here.
Defined.

(** When the transport cannot deliver an [EndCallEvent], the session does
    not end: there is a run in which everything sent has been handled, the
    event was refused by the transport output, and nothing has asked the
    runner to stop. *)
Theorem refused_end_call_keeps_the_session :
  ∃ w, reachable demo_session w ∧ quiescent w ∧ stop_requested w = false ∧
       rejected w = [as_next (SendInput (EndCallEvent "bye") "external-ws")].
Proof.
  exists (hang_up (Err "connection closed")).
  split; [apply hang_up_reachable|]. split; [apply hang_up_quiescent|]. split; reflexivity.
Qed.
