(* ===== verification/SessionAudio.v ===== *)
(** * Audio through the whole pipeline

    [Pipeline] run with a log of what the transport received and what the
    synthesis produced: what reaches the recogniser, and what the caller gets
    back, whatever the handlers' goroutines, the runner and the clients do in
    between. *)

From S2P Require Import Prelude Core TaskGroup ContextManager DynamicContext.
From S2P Require Import ContextHandler ActivityControl Vad LlmHandler TtsHandler.
From S2P Require Import LlmHandlerProofs BaseHandler Runner TransportHandler Pipeline.

Local Open Scope string_scope.
Local Open Scope list_scope.
Local Open Scope Z_scope.

(** ** Audio among packets *)

Definition is_input (p : EventPacket) : Prop :=
  match Event p with TransportAudioInputEvent _ => True | _ => False end.
Definition is_speech (p : EventPacket) : Prop :=
  match Event p with TTSOutputEvent _ => True | _ => False end.
Definition is_media (p : EventPacket) : Prop := is_input p ∨ is_speech p.

#[export] Instance is_input_dec p : Decision (is_input p).
Proof. unfold is_input. destruct (Event p); apply _. Defined.
#[export] Instance is_speech_dec p : Decision (is_speech p).
Proof. unfold is_speech. destruct (Event p); apply _. Defined.
#[export] Instance is_media_dec p : Decision (is_media p).
Proof. unfold is_media. apply _. Defined.

Definition heard (ps : list EventPacket) : list EventPacket := filter is_input ps.
Definition speech (ps : list EventPacket) : list EventPacket := filter is_speech ps.
Definition media (ps : list EventPacket) : list EventPacket := filter is_media ps.

Definition heard_chunks (ps : list EventPacket) : list AudioChunk :=
  omap (λ p, match Event p with TransportAudioInputEvent c => Some c | _ => None end) ps.
Definition speech_chunks (ps : list EventPacket) : list AudioChunk :=
  omap (λ p, match Event p with TTSOutputEvent c => Some c | _ => None end) ps.

(** What the transport received, and what the listener's [select] took from the
    synthesis sessions. *)
Definition caller_chunks (ms : list MediaChunk) : list AudioChunk :=
  omap (λ m, match Data (Audio m) with Some _ => Some (Audio m) | None => None end) ms.
Definition synthesized (outs : list (list session_output)) : list AudioChunk :=
  speech_chunks (concat (map (λ o, tts_packets (listenForAudioAndErrors o)) outs)).

(** What the recogniser is given for the packets its handler has handled. *)
Definition to_recognizer (ps : list EventPacket) : list AudioChunk :=
  omap (λ e, match e with SendTranscriptionAudio c => Some c | _ => None end)
    (concat (map (stt_HandleEvent (Ok tt)) ps)).

Lemma to_recognizer_heard ps : to_recognizer ps = heard_chunks ps.
Proof.
  induction ps as [|p ps IH]; [done|]. unfold to_recognizer in *. cbn [map concat].
  rewrite omap_app, IH. unfold stt_HandleEvent. by destruct (Event p) eqn:E; cbn; rewrite ?E.
Qed.

Lemma heard_chunks_heard ps : heard_chunks ps = heard_chunks (heard ps).
Proof.
  induction ps as [|p ps IH]; [done|]. unfold heard, heard_chunks in *. rewrite filter_cons. cbn [omap list_omap].
  destruct (decide (is_input p)) as [Hp|Hp]; unfold is_input in Hp; destruct (Event p) eqn:E; try done;
    cbn [omap list_omap]; rewrite ?E; by rewrite IH.
Qed.

Lemma speech_chunks_speech ps : speech_chunks ps = speech_chunks (speech ps).
Proof.
  induction ps as [|p ps IH]; [done|]. unfold speech, speech_chunks in *. rewrite filter_cons. cbn [omap list_omap].
  destruct (decide (is_speech p)) as [Hp|Hp]; unfold is_speech in Hp; destruct (Event p) eqn:E; try done;
    cbn [omap list_omap]; rewrite ?E; by rewrite IH.
Qed.

Lemma speech_audio ps : speech ps = ActivityControl.audio ps.
Proof.
  induction ps as [|p ps IH]; [done|]. unfold speech, audio in *. rewrite filter_cons. cbn.
  unfold is_audio at 1. destruct (decide (is_speech p)) as [Hp|Hp]; unfold is_speech in Hp;
    destruct (Event p); try done; by rewrite IH.
Qed.

Lemma heard_media ps : heard ps = heard (media ps).
Proof.
  unfold heard, media. rewrite list_filter_filter. apply list_filter_iff. intros p. unfold is_media. tauto.
Qed.

Lemma speech_media ps : speech ps = speech (media ps).
Proof.
  unfold speech, media. rewrite list_filter_filter. apply list_filter_iff. intros p. unfold is_media. tauto.
Qed.

Lemma media_next out p : media out = media [p] → Destination p = EventRelayDestinationNextService →
  media (to_next out) = media [p] ∧ media (to_top out) = [].
Proof.
  intros Hm Hd.
  assert (∀ d, media (filter (λ q, Destination q = d) out) = filter (λ q, Destination q = d) (media out)) as Hc.
  { intros d. unfold media. rewrite !list_filter_filter. apply list_filter_iff. tauto. }
  unfold to_next, to_top. rewrite !Hc, Hm. unfold media. rewrite !filter_cons, !filter_nil.
  destruct (decide (is_media p)); [|done]. rewrite !filter_cons, filter_nil. by rewrite !Hd.
Qed.

Section session.
Context `{Regexp} `{UnicodeTables}.

(** ** No handler makes audio *)

Lemma media_app ps qs : media (ps ++ qs) = media ps ++ media qs.
Proof. apply filter_app. Qed.

Lemma media_none ps : (∀ p, p ∈ ps → ¬ is_media p) → media ps = [].
Proof.
  induction ps as [|p ps IH]; intros Hn; [done|]. unfold media. rewrite filter_cons_False by (apply Hn; by left).
  apply IH. intros q Hq. apply Hn. by right.
Qed.

Lemma vad_audio_media now answer h : media (vad_packets (handleTransportAudio now answer h).2) = [].
Proof.
  unfold handleTransportAudio, speech_chunk, quiet_chunk. destruct answer as [r|]; [|done].
  case_match; [destruct (isSpeechActive _); [done|]; by destruct (_ && _)|].
  by destruct (within_grace _ _), (isSpeechActive _).
Qed.

Lemma vad_media now answer h p : media (vad_packets (Vad.HandleEvent now answer h p).2) = media [p].
Proof.
  unfold Vad.HandleEvent.
  assert (∀ (x : VADHandler * list vad_effect), media (vad_packets x.2) = [] →
    media (vad_packets (let '(h1, out) := x in (h1, out ++ [Vad.Forward p])).2) = media [p]) as Hx.
  { intros [h1 out] Ho. cbn [snd] in *. unfold vad_packets in *. by rewrite omap_app, media_app, Ho. }
  apply Hx. destruct (Event p); try done. apply vad_audio_media.
Qed.

Lemma user_media m u p : media (sent (user_HandleEvent m u p).2) = media [p].
Proof.
  unfold user_HandleEvent. destruct (Event p) eqn:E; try done; cbn [sent omap list_omap snd].
  by destruct (timer_set u).
Qed.

Lemma llm_media h p h' out : LlmHandler.HandleEvent h p = Some (h', out) → media (llm_packets out) = media [p].
Proof.
  unfold LlmHandler.HandleEvent. destruct (Event p) eqn:E; try (by intros [= <- <-]).
  - destruct (onInterim _ _) as [f [[[text u] tok]|]]; [case_match; [|done]|]; by intros [= <- <-].
  - intros [= <- <-]. trans (@nil EventPacket); [done|]. symmetry. apply media_none. intros q ->%list_elem_of_singleton [Hq|Hq];
      [unfold is_input in Hq|unfold is_speech in Hq]; by rewrite E in Hq.
Qed.

Lemma assistant_media m g rand p m' g' out :
  assistant_HandleEvent m g rand p = Some (m', g', out) → media (sent out) = media [p].
Proof.
  unfold assistant_HandleEvent. destruct (Event p) eqn:E; try (by intros [= <- <- <-]).
  - destruct (String.eqb _ _); by intros [= <- <- <-].
  - destruct (String.eqb _ ContinueListeningToolId); [by intros [= <- <- <-]|].
    case_match; [|done]. by intros [= <- <- <-].
  - destruct (hasActiveTurn g); by intros [= <- <- <-].
Qed.

Lemma fatal_packets e : tts_packets (fatal e) = [].
Proof. by destruct e. Qed.

Lemma speak_now_packets ans text : tts_packets (speak_now ans text) = [].
Proof. unfold speak_now. destruct (buffer_err ans); [done|]. by destruct (flush_err ans). Qed.

Lemma completed_packets h ans : tts_packets (handle_completed h ans).2 = [].
Proof.
  unfold handle_completed.
  assert (∀ (x : TTSHandler * list tts_effect), tts_packets x.2 = [] →
    tts_packets (let '(h2, e2) := x in
      if hasBufferedSinceLastFlush h2
      then (match flush_err ans with None => set_text h2 "" false | Some _ => h2 end, e2 ++ Flush :: fatal (flush_err ans))
      else (h2, e2)).2 = []) as Hx.
  { intros [h2 e2] He. cbn [snd] in He. destruct (hasBufferedSinceLastFlush h2); [|exact He].
    cbn [snd]. unfold tts_packets in *. rewrite omap_app, He. apply fatal_packets. }
  apply Hx. destruct (String.eqb _ _); [done|]. apply fatal_packets.
Qed.

Lemma tts_media h ans p : media (tts_packets (TtsHandler.HandleEvent h ans p).2) = media [p].
Proof.
  unfold TtsHandler.HandleEvent.
  assert (∀ (x : TTSHandler * list tts_effect), tts_packets x.2 = [] →
    media (tts_packets (let '(h1, effs) := x in (h1, effs ++ [Send p])).2) = media [p]) as Hx.
  { intros [h1 out] Ho. cbn [snd] in *. unfold tts_packets in *. by rewrite omap_app, Ho. }
  apply Hx. destruct (Event p) as [| | | | |c b| | | | | | | | | | | | | | | | | | | | | | | | | |]; try done.
  - destruct b; cbn [snd].
    + unfold handle_immediate. destruct (String.eqb _ _); [done|]. apply speak_now_packets.
    + unfold handle_chunk. destruct (should_flush _ _); [|done]. apply fatal_packets.
  - apply completed_packets.
  - case_match; [done|]. apply speak_now_packets.
  - apply fatal_packets.
Qed.

(** A handler other than the gate and the two ends of the line hands on the
    audio it is given, and no other. *)
Lemma stage_media a st s p s' out : handle_stage a st s p = Some (s', out) →
  st ≠ ActivityControlStage → st ≠ TransportOutputStage → st ≠ LastOutputStage →
  media out = media [p] ∧ s_activity s' = s_activity s.
Proof.
  intros Hh H1 H2 H3. destruct st; try done; cbn in Hh.
  - by simplify_eq.
  - pose proof (vad_media (now a) (vad_answer a) (s_vad s) p) as Hm.
    destruct (Vad.HandleEvent _ _ _ _) as [h' o]. cbn in Hh. by simplify_eq.
  - simplify_eq. split; [|done]. unfold stt_HandleEvent. destruct (Event p); try done. by destruct (stt_flush a).
  - pose proof (user_media (base (s_manager s)) (s_user s) p) as Hm.
    destruct (user_HandleEvent _ _ _) as [[m u] o]. cbn in Hh. by simplify_eq.
  - destruct (LlmHandler.HandleEvent (s_llm s) p) as [[h' o]|] eqn:E; [|done]. cbn in Hh. simplify_eq.
    split; [by eapply llm_media|done].
  - destruct (assistant_HandleEvent _ _ _ _) as [[[m g] o]|] eqn:E; [|done]. cbn in Hh. simplify_eq.
    split; [by eapply assistant_media|done].
  - pose proof (tts_media (s_tts s) (tts_answer a) p) as Hm.
    destruct (TtsHandler.HandleEvent _ _ _) as [h' o]. cbn in Hh. by simplify_eq.
Qed.

(** ** Runs with a log *)

(** A run of the pipeline: [ms] is what the transport received and [outs] what
    the synthesis session produced, in order.  Tools and clients make no audio
    of their own. *)
Inductive logged (s0 : Session) : list MediaChunk → list (list session_output) → world → Prop :=
| log_start : logged s0 [] [] (start s0)
| log_media ms outs w m :
    logged s0 ms outs w →
    logged s0 (ms ++ [m]) outs (route w TransportInputStage (session w) (processAudio m))
| log_synthesis ms outs w o :
    logged s0 ms outs w →
    logged s0 ms (outs ++ [o]) (route w TtsStage (session w) (tts_packets (listenForAudioAndErrors o)))
| log_handle ms outs w a st p s out :
    logged s0 ms outs w → st ≠ LastOutputStage → sent_to w st !! taken w st = Some p →
    handle_stage a st (session w) p = Some (s, out) →
    logged s0 ms outs (reject (route (take_one w st) st s out) (refused a st p))
| log_last ms outs w p :
    logged s0 ms outs w → sent_to w LastOutputStage !! taken w LastOutputStage = Some p →
    logged s0 ms outs (runner_act (take_one w LastOutputStage) (processFinalOutput p))
| log_top ms outs w p :
    logged s0 ms outs w → top_sent w !! top_taken w = Some p →
    logged s0 ms outs (runner_act (read_top w) (processTopOutput p))
| log_relay ms outs w a p l1 l2 s out :
    logged s0 ms outs w → relays w = l1 ++ p :: l2 →
    handle_stage a TransportInputStage (session w) p = Some (s, out) →
    logged s0 ms outs (route (drop_relay w (l1 ++ l2)) TransportInputStage s out)
| log_background ms outs w st s out :
    logged s0 ms outs w → background st (session w) s out →
    (st = ActivityControlStage ∨ media out = []) →
    logged s0 ms outs (route w st s out)
| log_external ms outs w ev relayer :
    logged s0 ms outs w → media [SendInput ev relayer] = [] →
    logged s0 ms outs (send_top_event w (SendInput ev relayer)).

Lemma logged_reachable s0 ms outs w : logged s0 ms outs w → reachable s0 w.
Proof.
  induction 1 as [|? ? w m _ IH|? ? w o _ IH|? ? w a st p s out _ IH H1 H2 H3|? ? w p _ IH H1|? ? w p _ IH H1
    |? ? w a p l1 l2 s out _ IH H1 H2|? ? w st s out _ IH H1 _|? ? w ev r _ IH _].
  - constructor.
  - eapply reachable_step; [done|]. apply step_background. constructor.
  - eapply reachable_step; [done|]. apply step_background. constructor.
  - eapply reachable_step; [done|]. by apply step_handle.
  - eapply reachable_step; [done|]. by apply step_last.
  - eapply reachable_step; [done|]. by apply step_top.
  - eapply reachable_step; [done|]. by eapply step_relay.
  - eapply reachable_step; [done|]. by apply step_background.
  - eapply reachable_step; [done|]. by apply step_external.
Qed.

(** ** Where the audio is *)

Definition next_dest (ps : list EventPacket) : Prop :=
  ∀ p, p ∈ ps → Destination p = EventRelayDestinationNextService.

Record audio_inv (ms : list MediaChunk) (outs : list (list session_output)) (w : world) : Prop := mkAudioInv {
  ai_top : media (top_sent w) = [];
  ai_relays : media (relays w) = [];
  ai_vad : heard (sent_to w VadStage) = heard (concat (map processAudio ms));
  ai_stt : heard (sent_to w SttStage) = heard (handled w VadStage);
  ai_up : ∀ st, next st ≠ ActivityControlStage → st ≠ ActivityControlStage → st ≠ TransportOutputStage →
    st ≠ LastOutputStage → speech (sent_to w (next st)) = [];
  ai_activity : speech (sent_to w ActivityControlStage) =
    speech (concat (map (λ o, tts_packets (listenForAudioAndErrors o)) outs));
  ai_gate : gate_inv (s_activity (session w));
  ai_cached : next_dest (cachedChunks (s_activity (session w)));
  ai_out : sublist (speech (sent_to w TransportOutputStage) ++ cachedChunks (s_activity (session w)))
    (speech (handled w ActivityControlStage))
}.

(** What a step at [st] that has taken [k] and sends [out] owes. *)
Record owes (ms ms' : list MediaChunk) (outs outs' : list (list session_output)) (w : world) (st : stage)
    (k : list EventPacket) (s : Session) (out : list EventPacket) : Prop := mkOwes {
  ow_top : media (to_top out) = [];
  ow_in : heard (concat (map processAudio ms')) =
    heard (concat (map processAudio ms)) ++ (if decide (st = TransportInputStage) then heard (to_next out) else []);
  ow_vad : st = VadStage → heard (to_next out) = heard k;
  ow_up : next st ≠ ActivityControlStage → st ≠ ActivityControlStage → st ≠ TransportOutputStage →
    st ≠ LastOutputStage → speech (to_next out) = [];
  ow_tts : speech (concat (map (λ o, tts_packets (listenForAudioAndErrors o)) outs')) =
    speech (concat (map (λ o, tts_packets (listenForAudioAndErrors o)) outs)) ++
    (if decide (st = TtsStage) then speech (to_next out) else []);
  ow_gate : gate_inv (s_activity s) ∧ next_dest (cachedChunks (s_activity s));
  ow_out : if decide (st = ActivityControlStage)
    then sublist (speech (to_next out) ++ cachedChunks (s_activity s))
           (cachedChunks (s_activity (session w)) ++ speech k)
    else cachedChunks (s_activity s) = cachedChunks (s_activity (session w))
}.

(** [w1] is [w] after [k] was taken at [st]. *)
Record took (w w1 : world) (st : stage) (k : list EventPacket) : Prop := mkTook {
  tk_sent : ∀ st', sent_to w1 st' = sent_to w st';
  tk_top : top_sent w1 = top_sent w;
  tk_relays : media (relays w1) = [];
  tk_handled : ∀ st', handled w1 st' = handled w st' ++ (if decide (st' = st) then k else []);
  tk_bound : ∀ st', (taken w1 st' <= length (sent_to w1 st'))%nat
}.

Lemma heard_app ps qs : heard (ps ++ qs) = heard ps ++ heard qs.
Proof. apply filter_app. Qed.
Lemma speech_app ps qs : speech (ps ++ qs) = speech ps ++ speech qs.
Proof. apply filter_app. Qed.

Lemma route_audio ms ms' outs outs' w w1 st k s out : audio_inv ms outs w → took w w1 st k →
  owes ms ms' outs outs' w st k s out → audio_inv ms' outs' (route w1 st s out).
Proof.
  intros [I1 I2 I3 I4 I5 I6 I7 I8 I9] [T1 T2 T3 T4 T5] [O1 O2 O3 O4 O5 [O6 O7] O8].
  assert (∀ st', handled (route w1 st s out) st' = handled w1 st') as Hh.
  { intros st'. unfold handled at 1. destruct (sent_route w1 st s out st') as (ext & -> & _).
    cbn [taken route]. by apply take_app_le. }
  assert (∀ st', sent_to (route w1 st s out) st' =
    sent_to w st' ++ (if decide (st' = next st) then to_next out else [])) as Hs.
  { intros st'. cbn. unfold upd. destruct (decide (st' = next st)) as [->|]; [by rewrite T1|by rewrite app_nil_r, T1]. }
  split.
  - cbn. by rewrite T2, media_app, I1, O1.
  - done.
  - rewrite Hs, heard_app, I3, O2. f_equal. by destruct st.
  - rewrite Hs, Hh, T4, !heard_app, I4. f_equal. destruct st; try done. by apply O3.
  - intros st' H1 H2 H3 H4. rewrite Hs, speech_app, I5 by done. cbn [app].
    destruct (decide (next st' = next st)) as [E|E]; [|reflexivity]. apply O4; [by rewrite <-E|..]; by destruct st, st'.
  - rewrite Hs, speech_app, I6, O5. f_equal. by destruct st.
  - done.
  - done.
  - cbn [session route]. rewrite Hs, Hh, T4, !speech_app. destruct (decide (st = ActivityControlStage)) as [->|Hne].
    + cbn in O8 |- *. rewrite <-app_assoc. etransitivity; [by apply sublist_app; [|exact O8]|].
      rewrite app_assoc. by apply sublist_app.
    + rewrite O8.
      rewrite (decide_False (P := TransportOutputStage = next st)) by (by destruct st).
      rewrite (decide_False (P := ActivityControlStage = st)) by done.
      cbn. by rewrite !app_nil_r.
Qed.

(** ** Every step pays what it owes *)

Lemma took_nothing ms outs w st : audio_inv ms outs w → end_inv w → took w w st [].
Proof.
  intros Hi He. split; try done; [by apply ai_relays with ms outs| |by apply inv_taken].
  intros st'. destruct (decide (st' = st)); by rewrite app_nil_r.
Qed.

Lemma took_one ms outs w st p : audio_inv ms outs w → end_inv w → sent_to w st !! taken w st = Some p →
  took w (take_one w st) st [p].
Proof.
  intros Hi He Hp. split; try done; [exact (ai_relays _ _ _ Hi)| |].
  - intros st'. unfold handled, take_one, upd. cbn [taken sent_to]. destruct (decide (st' = st)) as [->|]; [by apply take_S_r|by rewrite app_nil_r].
  - intros st'. unfold take_one, upd. cbn [taken sent_to]. destruct (decide (st' = st)) as [->|]; [|by apply inv_taken].
    by apply lookup_lt_Some in Hp.
Qed.

Lemma heard_of_media ps qs : media ps = media qs → heard ps = heard qs.
Proof. intros Hm. by rewrite heard_media, Hm, <-heard_media. Qed.
Lemma speech_of_media ps qs : media ps = media qs → speech ps = speech qs.
Proof. intros Hm. by rewrite speech_media, Hm, <-speech_media. Qed.

(** Steps at other stages than the gate and the ends: what is taken is handed on,
    [k] being what was taken. *)
Lemma owes_plain ms outs w st k s out : audio_inv ms outs w → s_activity s = s_activity (session w) →
  media (to_next out) = media k → media (to_top out) = [] →
  (st = TransportInputStage → media k = []) → (st = TtsStage → speech k = []) →
  (next st ≠ ActivityControlStage → st ≠ ActivityControlStage → st ≠ TransportOutputStage →
    st ≠ LastOutputStage → speech k = []) →
  st ≠ ActivityControlStage → owes ms ms outs outs w st k s out.
Proof.
  intros Hi Hs Hn Ht Hin Htts Hup Hne. split.
  - done.
  - case_decide as E; [|by rewrite app_nil_r]. rewrite (heard_of_media (to_next out) k Hn).
    rewrite (heard_of_media k [] (Hin E)). by rewrite app_nil_r.
  - intros _. by apply heard_of_media.
  - intros H1 H2 H3 H4. rewrite (speech_of_media _ _ Hn). by apply Hup.
  - case_decide as E; [|by rewrite app_nil_r]. by rewrite (speech_of_media _ _ Hn), Htts, app_nil_r.
  - rewrite Hs. split; [by apply ai_gate with ms outs|by apply ai_cached with ms outs].
  - rewrite decide_False by done. by rewrite Hs.
Qed.

(** The gate sends on what it holds or is given, and reports that are no
    audio. *)
Lemma gate_sends h i q : q ∈ (ActivityControl.step h i).2 ∨ q ∈ cachedChunks (ActivityControl.step h i).1 →
  is_media q → q ∈ cachedChunks h ∨ q ∈ input_packet i.
Proof.
  intros Hq Hm. destruct i as [now p| | | |]; cbn [ActivityControl.step input_packet fst snd] in *.
  - destruct Hq as [Hq|Hq]; unfold ActivityControl.HandleEvent in Hq.
    + destruct (Event p); try (by right); repeat case_match; try (by right); try (by apply elem_of_nil in Hq).
      cbn in Hq. apply elem_of_cons in Hq as [->|Hq]; [by destruct Hm|by right].
    + destruct (Event p); repeat case_match; cbn in Hq; try (by left); try (by apply elem_of_nil in Hq).
      apply elem_of_app in Hq as [Hq|Hq]; [by left|by right].
  - destruct Hq as [Hq|Hq]; [by apply elem_of_nil in Hq|]. unfold ActivityControl.timer_expires in Hq.
    left. by destruct (confirmTimer h).
  - destruct Hq as [Hq|Hq]; [by apply elem_of_nil in Hq|]. unfold orphan_expires in Hq.
    left. by destruct (orphanTimers h).
  - destruct Hq as [Hq|Hq]; [by apply elem_of_nil in Hq|]. unfold ActivityControl.timer_signals in Hq.
    left. by destruct (firing h).
  - unfold receive_resume, onFalsePositive in Hq. destruct (resumeChan h); cbn in Hq.
    + destruct Hq as [Hq|Hq]; [by left|by apply elem_of_nil in Hq].
    + destruct Hq as [Hq|Hq]; [by apply elem_of_nil in Hq|by left].
Qed.

Lemma speech_to_next out : (∀ q, q ∈ out → is_media q → Destination q = EventRelayDestinationNextService) →
  speech (to_next out) = speech out ∧ media (to_top out) = [].
Proof.
  intros Hd. unfold speech, media, to_next, to_top. split.
  - rewrite list_filter_filter. induction out as [|q out IH]; [done|].
    assert (filter (λ x, is_speech x ∧ Destination x = EventRelayDestinationNextService) out = filter is_speech out) as E
      by (apply IH; intros; apply Hd; [by right|done]).
    rewrite !filter_cons, E. destruct (decide (is_speech q)) as [Hs|Hs].
    + rewrite decide_True; [done|]. split; [done|]. apply Hd; [by left|by right].
    + rewrite decide_False; [done|]. tauto.
  - apply media_none. intros q [Ht Hq]%list_elem_of_filter Hm. rewrite (Hd q Hq Hm) in Ht. done.
Qed.

(** The gate: an event taken, or a round of its own. *)
Lemma gate_owes ms outs w i s h out : audio_inv ms outs w →
  next_dest (input_packet i) → cachedChunks h = speech (cachedChunks h) →
  ActivityControl.step (s_activity (session w)) i = (h, out) → s_activity s = h →
  owes ms ms outs outs w ActivityControlStage (input_packet i) s out.
Proof.
  intros Hi Hk Hsp Hstep <-. pose proof (ai_gate _ _ _ Hi) as Hg. pose proof (ai_cached _ _ _ Hi) as Hc.
  pose proof (gate_inv_step _ i Hg) as Hg'. pose proof (step_audio _ i Hg) as Ha.
  pose proof (gate_sends (s_activity (session w)) i) as Hs. rewrite Hstep in Hg', Ha, Hs. cbn [fst snd] in *.
  destruct (speech_to_next out) as [En Et].
  { intros q Hq Hm. destruct (Hs q (or_introl Hq) Hm); [by apply Hc|by apply Hk]. }
  split; try done.
  - by rewrite app_nil_r.
  - by rewrite app_nil_r.
  - split; [done|]. intros q Hq. assert (is_media q) as Hm.
    { right. rewrite Hsp in Hq. by apply list_elem_of_filter in Hq as [? _]. }
    destruct (Hs q (or_intror Hq) Hm); [by apply Hc|by apply Hk].
  - rewrite decide_True by done. rewrite En, !speech_audio. destruct (drops i).
    + destruct Ha as [-> ->]. apply sublist_nil_l.
    + by rewrite Ha.
Qed.

Lemma gate_cached h : gate_inv h → cachedChunks h = speech (cachedChunks h).
Proof. intros (Ha & _ & _). by rewrite speech_audio, Ha. Qed.

(** Work of the other handlers leaves the gate alone. *)
Lemma background_activity st s s' out : background st s s' out → st ≠ ActivityControlStage →
  s_activity s' = s_activity s.
Proof. by destruct 1. Qed.

Lemma media_split out : media out = [] → media (to_next out) = [] ∧ media (to_top out) = [].
Proof.
  intros Hm. assert (∀ P `{∀ q, Decision (P q)}, media (filter P out) = []) as Hf; [|by split; apply Hf].
  intros P HP. apply media_none. intros q [_ Hq]%list_elem_of_filter Hq2.
  assert (q ∈ media out) as Hin by (by apply list_elem_of_filter). rewrite Hm in Hin. by apply elem_of_nil in Hin.
Qed.

Lemma route_plain ms outs w w1 st k s out : audio_inv ms outs w → took w w1 st k →
  s_activity s = s_activity (session w) → media (to_next out) = media k → media (to_top out) = [] →
  (st = TransportInputStage → media k = []) → (st = TtsStage → speech k = []) →
  (next st ≠ ActivityControlStage → st ≠ ActivityControlStage → st ≠ TransportOutputStage →
    st ≠ LastOutputStage → speech k = []) →
  st ≠ ActivityControlStage → audio_inv ms outs (route w1 st s out).
Proof. intros. eapply route_audio; [done|done|]. by apply owes_plain. Qed.

(** *** One lemma per kind of step *)

Lemma processAudio_heard m : heard (to_next (processAudio m)) = heard (processAudio m) ∧
  media (to_top (processAudio m)) = [] ∧ speech (processAudio m) = [].
Proof. unfold processAudio. destruct (Data (Audio m)), (v_Data (Video m)), (String.eqb _ _); done. Qed.

Lemma media_step ms outs w m : audio_inv ms outs w → end_inv w →
  audio_inv (ms ++ [m]) outs (route w TransportInputStage (session w) (processAudio m)).
Proof.
  intros Hi He. destruct (processAudio_heard m) as (Hn & Ht & Hs).
  eapply route_audio; [exact Hi|by eapply (took_nothing _ _ _ TransportInputStage)|]. split; try done.
  - rewrite map_app, concat_app, heard_app. cbn [map concat]. by rewrite app_nil_r, decide_True, Hn.
  - intros _ _ _ _. unfold speech, to_next. rewrite list_filter_filter.
    rewrite (list_filter_iff _ (λ q, Destination q = EventRelayDestinationNextService ∧ is_speech q)) by tauto.
    rewrite <-list_filter_filter. fold (speech (processAudio m)). by rewrite Hs.
  - by rewrite app_nil_r.
  - split; [by apply ai_gate with ms outs|by apply ai_cached with ms outs].
Qed.

Lemma synthesis_packets o : to_next (tts_packets (listenForAudioAndErrors o)) = tts_packets (listenForAudioAndErrors o) ∧
  media (to_top (tts_packets (listenForAudioAndErrors o))) = [].
Proof.
  induction o as [|[c|e|] o [IH1 IH2]]; [done| | |done]; unfold tts_packets, to_next, to_top in *;
    cbn [listenForAudioAndErrors omap list_omap]; [|done].
  rewrite filter_cons_True, filter_cons_False by done. by rewrite IH1.
Qed.

Lemma synthesis_step ms outs w o : audio_inv ms outs w → end_inv w →
  audio_inv ms (outs ++ [o]) (route w TtsStage (session w) (tts_packets (listenForAudioAndErrors o))).
Proof.
  intros Hi He. destruct (synthesis_packets o) as [Hn Ht].
  eapply route_audio; [exact Hi|by eapply (took_nothing _ _ _ TtsStage)|]. split; try done.
  - by rewrite app_nil_r.
  - by rewrite decide_True, map_app, concat_app, speech_app, Hn by done; cbn [map concat]; rewrite app_nil_r.
  - split; [by apply ai_gate with ms outs|by apply ai_cached with ms outs].
Qed.

Lemma reject_audio ms outs w ps : audio_inv ms outs w → audio_inv ms outs (reject w ps).
Proof. by intros [H1 H2 H3 H4 H5 H6 H7 H8 H9]. Qed.

(** Speech does not come to the stages before the gate. *)
Lemma no_speech_taken ms outs w st p : audio_inv ms outs w → sent_to w st !! taken w st = Some p →
  st ≠ TransportInputStage → st ≠ ActivityControlStage → st ≠ TransportOutputStage → st ≠ LastOutputStage →
  speech [p] = [].
Proof.
  intros Hi Hp H1 H2 H3 H4. assert (speech (sent_to w st) = []) as Hs.
  { destruct st; try done;
      [exact (ai_up _ _ _ Hi TransportInputStage ltac:(done) ltac:(done) ltac:(done) ltac:(done))
      |exact (ai_up _ _ _ Hi VadStage ltac:(done) ltac:(done) ltac:(done) ltac:(done))
      |exact (ai_up _ _ _ Hi SttStage ltac:(done) ltac:(done) ltac:(done) ltac:(done))
      |exact (ai_up _ _ _ Hi UserContextStage ltac:(done) ltac:(done) ltac:(done) ltac:(done))
      |exact (ai_up _ _ _ Hi LlmStage ltac:(done) ltac:(done) ltac:(done) ltac:(done))
      |exact (ai_up _ _ _ Hi AssistantContextStage ltac:(done) ltac:(done) ltac:(done) ltac:(done))]. }
  unfold speech. rewrite filter_cons, filter_nil. destruct (decide (is_speech p)) as [Hq|]; [|done].
  assert (p ∈ speech (sent_to w st)) as Hin by (apply list_elem_of_filter; split; [done|by eapply list_elem_of_lookup_2]).
  rewrite Hs in Hin. by apply elem_of_nil in Hin.
Qed.

Lemma no_input_at_start w st p : end_inv w → sent_to w TransportInputStage = [] →
  sent_to w st !! taken w st = Some p → st ≠ TransportInputStage.
Proof. intros He Hn Hp ->. by rewrite Hn in Hp. Qed.

(** Nothing is ever sent to the transport input's own channel. *)
Lemma input_channel_unused s0 w : reachable s0 w → sent_to w TransportInputStage = [].
Proof.
  induction 1 as [|w w' _ IH Hs]; [done|]. assert (∀ w1 st s out, sent_to w1 TransportInputStage = [] →
    sent_to (route w1 st s out) TransportInputStage = []) as Hr.
  { intros w1 st s out H1. cbn. unfold upd. by destruct (decide (TransportInputStage = next st)) as [E|]; [destruct st|]. }
  destruct Hs; try done; by apply Hr.
Qed.

Lemma handle_step ms outs w a st p s out : audio_inv ms outs w → end_inv w → sent_to w TransportInputStage = [] →
  st ≠ LastOutputStage → sent_to w st !! taken w st = Some p → handle_stage a st (session w) p = Some (s, out) →
  audio_inv ms outs (route (take_one w st) st s out).
Proof.
  intros Hi He Hin Hst Hp Hh. pose proof (took_one _ _ _ _ _ Hi He Hp) as Ht.
  assert (Destination p = EventRelayDestinationNextService) as Hd.
  { apply (inv_dest w He st). left. by eapply list_elem_of_lookup_2. }
  pose proof (no_input_at_start _ _ _ He Hin Hp) as Hn.
  destruct (decide (st = ActivityControlStage)) as [->|Ha].
  - cbn in Hh. destruct (ActivityControl.HandleEvent (now a) (s_activity (session w)) p) as [h o] eqn:E.
    injection Hh as <- <-. eapply route_audio; [exact Hi|exact Ht|].
    apply (gate_owes _ _ _ (IEventAt (now a) p) _ h o Hi); [by intros q ->%list_elem_of_singleton| |exact E|done].
    apply gate_cached. pose proof (gate_inv_event (now a) _ p (ai_gate _ _ _ Hi)) as Hg. by rewrite E in Hg.
  - destruct (decide (st = TransportOutputStage)) as [->|Ho].
    + eapply route_audio; [exact Hi|exact Ht|]. cbn in Hh. injection Hh as <- <-.
      assert (media (to_top (output_HandleEvent (transport_send a) p).1) = []) as Hm.
      { destruct (transport_send a); [|done]. by destruct (media_next [p] p eq_refl Hd). }
      split; try done; [by rewrite app_nil_r|by rewrite app_nil_r|].
      split; [by apply ai_gate with ms outs|by apply ai_cached with ms outs].
    + destruct (stage_media _ _ _ _ _ _ Hh Ha Ho Hst) as [Hm Hs]. destruct (media_next _ _ Hm Hd) as [H1 H2].
      eapply route_plain; [exact Hi|exact Ht|done|done|done|done| | |done].
      * intros Hs'. apply (no_speech_taken _ _ _ _ _ Hi Hp); subst; done.
      * intros Hs'. intros. by apply (no_speech_taken _ _ _ _ _ Hi Hp).
Qed.

Lemma took_taken ms outs w st p : audio_inv ms outs w → sent_to w st !! taken w st = Some p →
  st ≠ VadStage → st ≠ ActivityControlStage → audio_inv ms outs (take_one w st).
Proof.
  intros [I1 I2 I3 I4 I5 I6 I7 I8 I9] Hp H1 H2.
  assert (∀ st', st' ≠ st → handled (take_one w st) st' = handled w st') as Hh.
  { intros st' Hne. unfold handled, take_one, upd. cbn [taken sent_to]. by rewrite decide_False. }
  by split; try done; rewrite Hh.
Qed.

Lemma relays_audio ms outs w w' : audio_inv ms outs w → session w' = session w → sent_to w' = sent_to w →
  taken w' = taken w → media (top_sent w') = [] → media (relays w') = [] → audio_inv ms outs w'.
Proof.
  intros [I1 I2 I3 I4 I5 I6 I7 I8 I9] E1 E2 E3 Ht Hr. split; unfold handled; rewrite ?E1, ?E2, ?E3; done.
Qed.

Lemma media_elem ps p : media ps = [] → p ∈ ps → ¬ is_media p.
Proof.
  intros Hm Hp Hq. assert (p ∈ media ps) as Hin by (by apply list_elem_of_filter). rewrite Hm in Hin.
  by apply elem_of_nil in Hin.
Qed.

Lemma last_step ms outs w p : audio_inv ms outs w → sent_to w LastOutputStage !! taken w LastOutputStage = Some p →
  audio_inv ms outs (runner_act (take_one w LastOutputStage) (processFinalOutput p)).
Proof.
  intros Hi Hp. eapply (relays_audio _ _ (take_one w LastOutputStage)); try done; [by eapply took_taken|apply Hi|].
  cbn. rewrite media_app, (ai_relays _ _ _ Hi). unfold processFinalOutput. by destruct (Event p).
Qed.

Lemma top_step ms outs w p : audio_inv ms outs w → top_sent w !! top_taken w = Some p →
  audio_inv ms outs (runner_act (read_top w) (processTopOutput p)).
Proof.
  intros Hi Hp. eapply (relays_audio _ _ w); try done; [apply Hi|].
  cbn. rewrite media_app, (ai_relays _ _ _ Hi). apply media_none. intros q Hq Hm.
  assert (Event q = Event p) as E.
  { unfold processTopOutput in Hq. destruct (Event p) eqn:Ep; cbn in Hq;
      (by apply list_elem_of_singleton in Hq as ->) || by apply elem_of_nil in Hq. }
  apply (media_elem _ p (ai_top _ _ _ Hi)); [by eapply list_elem_of_lookup_2|].
  unfold is_media, is_input, is_speech in *. by rewrite E in Hm.
Qed.

Lemma relay_step ms outs w a p l1 l2 s out : audio_inv ms outs w → end_inv w → relays w = l1 ++ p :: l2 →
  handle_stage a TransportInputStage (session w) p = Some (s, out) →
  audio_inv ms outs (route (drop_relay w (l1 ++ l2)) TransportInputStage s out).
Proof.
  intros Hi He Hr Hh. cbn in Hh. injection Hh as <- <-. pose proof (ai_relays _ _ _ Hi) as Hm. rewrite Hr in Hm.
  assert (media [p] = []) as Hp.
  { apply media_none. intros q ->%list_elem_of_singleton. apply (media_elem _ p Hm). set_solver. }
  destruct (media_split [p] Hp) as [Hn Ht].
  eapply (route_plain _ _ w _ _ []); [exact Hi| |done|exact Hn|exact Ht|done|done|done|done].
  pose proof (took_nothing _ _ _ TransportInputStage Hi He) as [T1 T2 _ T4 T5]. split; try done.
  cbn. rewrite media_app in Hm. apply app_nil in Hm as [H1 H2]. rewrite media_app, H1. cbn [app].
  unfold media in H2. rewrite filter_cons in H2. by destruct (decide (is_media p)).
Qed.

Lemma background_step ms outs w st s out : audio_inv ms outs w → end_inv w → background st (session w) s out →
  (st = ActivityControlStage ∨ media out = []) → audio_inv ms outs (route w st s out).
Proof.
  intros Hi He Hb Hm. pose proof (took_nothing _ _ _ st Hi He) as Ht.
  destruct (decide (st = ActivityControlStage)) as [->|Ha].
  - inversion Hb as [| | | | | | | | | | | | |s0 i h o Hk Hstep|st0 s0 err]; subst.
    + rewrite <-Hk in Ht. eapply route_audio; [exact Hi|exact Ht|].
      eapply (gate_owes _ _ _ i _ h out Hi); [by rewrite Hk; intros q ?%elem_of_nil| |exact Hstep|done].
      apply gate_cached. pose proof (gate_inv_step _ i (ai_gate _ _ _ Hi)) as Hg. by rewrite Hstep in Hg.
    + eapply route_audio; [exact Hi|exact Ht|]. split; try done; [by rewrite app_nil_r|by rewrite app_nil_r| |].
      * split; [by apply ai_gate with ms outs|by apply ai_cached with ms outs].
      * rewrite decide_True by done. change (speech []) with (@nil EventPacket). by rewrite app_nil_r.
  - destruct Hm as [?|Hm]; [done|]. destruct (media_split out Hm) as [H1 H2].
    eapply route_plain; [exact Hi|exact Ht|by eapply background_activity|done..].
Qed.

Lemma start_audio s0 : gate_inv (s_activity s0) → cachedChunks (s_activity s0) = [] → audio_inv [] [] (start s0).
Proof.
  intros Hg Hc. split; cbn; try done.
  - rewrite Hc. by intros p ?%elem_of_nil.
  - by rewrite Hc.
Qed.

Lemma logged_audio s0 ms outs w : gate_inv (s_activity s0) → cachedChunks (s_activity s0) = [] →
  logged s0 ms outs w → audio_inv ms outs w.
Proof.
  intros Hg Hc Hl. induction Hl as [|ms outs w m Hl IH|ms outs w o Hl IH|ms outs w a st p s out Hl IH H1 H2 H3
    |ms outs w p Hl IH H1|ms outs w p Hl IH H1|ms outs w a p l1 l2 s out Hl IH H1 H2|ms outs w st s out Hl IH H1 H2
    |ms outs w ev r Hl IH H1]; [by apply start_audio|..];
    pose proof (logged_reachable _ _ _ _ Hl) as Hr; pose proof (reachable_inv _ _ Hr) as He.
  - by apply media_step.
  - by apply synthesis_step.
  - apply reject_audio. eapply handle_step; try done. by eapply input_channel_unused.
  - by apply last_step.
  - by apply top_step.
  - by eapply relay_step.
  - by apply background_step.
  - eapply (relays_audio _ _ w); try done; [|apply IH]. cbn. by rewrite media_app, (ai_top _ _ _ IH), H1.
Qed.
End session.

(** ** What the two ends get *)

Lemma heard_chunks_received ms : heard_chunks (concat (map processAudio ms)) = caller_chunks ms.
Proof.
  induction ms as [|m ms IH]; [done|]. cbn [map concat]. unfold heard_chunks in *. rewrite omap_app, IH.
  unfold caller_chunks. cbn [omap list_omap]. unfold processAudio.
  by destruct (Data (Audio m)) eqn:E, (v_Data (Video m)), (String.eqb _ _).
Qed.

Lemma heard_chunks_prefix ps qs : ps `prefix_of` qs → heard_chunks ps `prefix_of` heard_chunks qs.
Proof. intros [k ->]. unfold heard_chunks. rewrite omap_app. by apply prefix_app_r. Qed.

Lemma sublist_omap {A B} (f : A → option B) xs ys : sublist xs ys → sublist (omap f xs) (omap f ys).
Proof.
  induction 1 as [|x xs ys _ IH|y xs ys _ IH]; [constructor| |]; cbn [omap list_omap]; destruct (f _);
    by (apply sublist_skip || idtac); try by apply sublist_cons.
Qed.

Lemma sublist_speech ps qs : sublist ps qs → sublist (speech_chunks ps) (speech_chunks qs).
Proof. apply sublist_omap. Qed.

Lemma prefix_sublist {A} (ps qs : list A) : ps `prefix_of` qs → sublist ps qs.
Proof. intros [k ->]. by apply sublist_inserts_r. Qed.

Lemma handled_prefix w st : handled w st `prefix_of` sent_to w st.
Proof. exists (drop (taken w st) (sent_to w st)). unfold handled. by rewrite take_drop. Qed.

Section line.
Context `{Regexp} `{UnicodeTables}.

(** A gate as a session starts with it: nothing held. *)
Definition fresh_gate (h : ActivityControlHandler) : Prop := gate_inv h ∧ cachedChunks h = [].

(** C2: However the handlers' goroutines, the runner, the clients and the tools
    interleave, the recogniser is given the audio the transport received, in the
    order it came, with nothing lost, repeated or added, whatever the voice
    activity detector makes of it; and once everything sent has been handled, it has been
    given all of it. *)
Theorem recognizer_hears_caller s0 ms outs w : fresh_gate (s_activity s0) → logged s0 ms outs w →
  to_recognizer (handled w SttStage) `prefix_of` caller_chunks ms ∧
  (quiescent w → to_recognizer (handled w SttStage) = caller_chunks ms).
Proof.
  intros [Hg Hc] Hl. pose proof (logged_audio _ _ _ _ Hg Hc Hl) as Hi.
  assert (heard_chunks (sent_to w SttStage) = heard_chunks (handled w VadStage)) as E1.
  { by rewrite (heard_chunks_heard (sent_to _ _)), (ai_stt _ _ _ Hi), <-heard_chunks_heard. }
  assert (heard_chunks (sent_to w VadStage) = caller_chunks ms) as E2.
  { by rewrite heard_chunks_heard, (ai_vad _ _ _ Hi), <-heard_chunks_heard, heard_chunks_received. }
  rewrite to_recognizer_heard. split.
  - etransitivity; [apply heard_chunks_prefix, handled_prefix|]. rewrite E1, <-E2.
    apply heard_chunks_prefix, handled_prefix.
  - intros (Hq & _). unfold handled in *. by rewrite Hq, firstn_all, E1, Hq, firstn_all, E2.
Qed.

End line.

(** ** A call *)

#[local] Existing Instances accept_nothing ascii_only.

Lemma logged_handle_once s ms outs a w st : logged s ms outs w → logged s ms outs (handle_once a w st).
Proof.
  intros Hl. unfold handle_once. destruct (sent_to w st !! taken w st) as [p|] eqn:Ep; [|done].
  destruct (decide (st = LastOutputStage)) as [->|Hne]; [by apply log_last|].
  destruct (handle_stage a st (session w) p) as [[s' out]|] eqn:Eh.
  - destruct st; try done; by eapply log_handle.
  - by destruct st.
Qed.

Lemma logged_rounds s ms outs a sts w : logged s ms outs w → logged s ms outs (fold_left (handle_once a) sts w).
Proof. revert w. induction sts as [|st sts IH]; intros w Hl; [done|]. apply IH, logged_handle_once, Hl. Qed.

Definition caller_audio : AudioChunk := mkAudioChunk (Some [Byte.x01; Byte.x02]) 16000 1 PCM 0.
Definition agent_audio : AudioChunk := mkAudioChunk (Some [Byte.x03]) 16000 1 PCM 0.
Definition caller_media : MediaChunk := mkMediaChunk caller_audio (mkVideoChunk None 0 "" "" 0) (mkTextChunk "").
Definition agent_outputs : list session_output := [SessionAudio agent_audio; SessionDone].

(** The caller says something while the agent speaks; every goroutine then runs
    until nothing is left to do. *)
Definition call : world :=
  let w := route (start demo_session) TransportInputStage demo_session (processAudio caller_media) in
  fold_left (handle_once (demo_answers (Ok tt))) (all_stages ++ all_stages)
    (route w TtsStage (session w) (tts_packets (listenForAudioAndErrors agent_outputs))).

Lemma call_logged : logged demo_session [caller_media] [agent_outputs] call.
Proof. apply logged_rounds. apply (log_synthesis _ _ []), (log_media _ [] []), log_start. Qed.

Lemma demo_gate : fresh_gate (s_activity demo_session).
Proof. split; [apply gate_inv_new|reflexivity]. Qed.

Lemma call_quiescent : quiescent call.
Proof. split; [by intros []|done]. Qed.

Lemma recognizer_hears_caller_witness : to_recognizer (handled call SttStage) = [caller_audio].
Proof.
  apply (recognizer_hears_caller demo_session [caller_media] [agent_outputs] call);
    [exact demo_gate|exact call_logged|exact call_quiescent].
Defined.

