(* ===== verification/Startup.v ===== *)
(** * Starting a session: [Runner.Start] with the nine handlers of [main.go]

    What [Initialize] and [Start] of each handler set going, in the order of
    [core/runner.go], and what is left behind when one of them fails.  The
    goroutines of a session that has started are those that [Shutdown] stops. *)

From S2P Require Import Prelude Core BaseHandler TransportHandler Pipeline.
From S2P Require Runner Shutdown.

Local Open Scope string_scope.
Local Open Scope list_scope.
Local Open Scope nat_scope.

(** ** What a session is given *)

Record start_answers := mkStartAnswers {
  service_Initialize : stage → result unit;
  transport_Connect : result unit;
  StartTTSSession : result unit;
  has_filler_service : bool;
  enableSimulation : bool
}.

Inductive start_effect : Type :=
| GoErrorLoops (st : stage)               (* [fatalErrorHandlerLoop] and [handlerErrorLoop] *)
| InitService (st : stage)
| InitFiller
| Connects
| GoHandlerLoop (i : nat)                 (* reads the handler's input channel *)
| GoEventLoop (st : stage) (i : option nat)   (* so does this one, when [i] is given *)
| GoReceiving                             (* [StartReceiving] of the transport *)
| ReceiveLoop                             (* [Start] of the transport input itself *)
| GoSimulation
| GoListenForAudio
| StartTranscription
| StartSynthesis
| ReportFatal (msg : string)
| ServeClients
| GoListener.

(** ** [Initialize] *)

Definition base_Initialize (st : stage) : list start_effect := [GoErrorLoops st; InitService st].

Definition go_HandlerLoop (r : result unit) (i : nat) : list start_effect := if is_ok r then [GoHandlerLoop i] else [].

Definition init_result : Type := TransportHandlerWrapper * list start_effect * result unit.

Section handlers.
Context (a : start_answers).

(** Either end of the line; one [Connect] for both. *)
Definition input_Initialize (w : TransportHandlerWrapper) (i : nat) : init_result :=
  let r := service_Initialize a TransportInputStage in
  let '(w1, r1, called) := transport_Initialize r (transport_Connect a) w in
  (w1, base_Initialize TransportInputStage ++ go_HandlerLoop r i ++ (if called then [Connects] else []), r1).

Definition output_Initialize (w : TransportHandlerWrapper) (i : nat) : init_result :=
  let r := service_Initialize a TransportOutputStage in
  let '(w1, r1, called) := transport_Initialize r (transport_Connect a) w in
  (w1, base_Initialize TransportOutputStage ++ go_HandlerLoop r i ++ (if called then [Connects] else []), r1).

Definition vad_Initialize (w : TransportHandlerWrapper) (i : nat) : init_result :=
  let r := service_Initialize a VadStage in (w, base_Initialize VadStage ++ go_HandlerLoop r i, r).

Definition stt_Initialize (w : TransportHandlerWrapper) (i : nat) : init_result :=
  let r := service_Initialize a SttStage in (w, base_Initialize SttStage ++ go_HandlerLoop r i, r).

Definition tts_Initialize (w : TransportHandlerWrapper) (i : nat) : init_result :=
  let r := service_Initialize a TtsStage in (w, base_Initialize TtsStage ++ go_HandlerLoop r i, r).

(** The filler service is initialized whatever the service answered. *)
Definition llm_Initialize (w : TransportHandlerWrapper) (i : nat) : init_result :=
  let r := service_Initialize a LlmStage in
  (w, base_Initialize LlmStage ++ (if has_filler_service a then [InitFiller] else []) ++ go_HandlerLoop r i, r).

(** The aggregators and activity control have a service that does nothing, and
    no [HandlerLoop]. *)
Definition activity_Initialize (st : stage) (w : TransportHandlerWrapper) : init_result :=
  (w, base_Initialize st, Ok tt).

(** The handler at [st], number [i]. *)
Definition handler_Initialize (w : TransportHandlerWrapper) (st : stage) (i : nat) : init_result :=
  match st with
  | TransportInputStage => input_Initialize w i
  | VadStage => vad_Initialize w i
  | SttStage => stt_Initialize w i
  | LlmStage => llm_Initialize w i
  | TtsStage => tts_Initialize w i
  | TransportOutputStage => output_Initialize w i
  | UserContextStage | AssistantContextStage | ActivityControlStage | LastOutputStage => activity_Initialize st w
  end.

(** ** [Start] *)

(** [None]: it returns when the context ends. *)
Definition start_result : Type := list start_effect * option (result unit).

Definition input_Start : start_result := ([GoReceiving; ReceiveLoop], None).
Definition output_Start : start_result := ([], None).
Definition vad_Start : start_result := ([], Some (Ok tt)).

(** What [StartTranscriptionSession] returns is not looked at. *)
Definition stt_Start : start_result := ([GoEventLoop SttStage None; StartTranscription], Some (Ok tt)).
Definition llm_Start : start_result := ([GoEventLoop LlmStage None], Some (Ok tt)).
Definition user_Start (i : nat) : start_result := ([GoEventLoop UserContextStage (Some i)], Some (Ok tt)).
Definition assistant_Start (i : nat) : start_result := ([GoEventLoop AssistantContextStage (Some i)], Some (Ok tt)).
Definition activity_Start (i : nat) : start_result := ([GoEventLoop ActivityControlStage (Some i)], Some (Ok tt)).

Definition tts_Start : start_result :=
  let sim := if enableSimulation a then [GoSimulation] else [] in
  match StartTTSSession a with
  | Err e => (sim ++ [StartSynthesis; ReportFatal e], Some (Err e))
  | Ok _ => (sim ++ [StartSynthesis; GoListenForAudio], Some (Ok tt))
  end.

Definition handler_Start (st : stage) (i : nat) : start_result :=
  match st with
  | TransportInputStage => input_Start
  | VadStage => vad_Start
  | SttStage => stt_Start
  | UserContextStage => user_Start i
  | LlmStage => llm_Start
  | AssistantContextStage => assistant_Start i
  | TtsStage => tts_Start
  | ActivityControlStage => activity_Start i
  | TransportOutputStage | LastOutputStage => output_Start
  end.
End handlers.

(** ** [Runner.Start] *)

Definition handlers : list stage :=
  [TransportInputStage; VadStage; SttStage; UserContextStage; LlmStage; AssistantContextStage; TtsStage;
   ActivityControlStage; TransportOutputStage].

(** The handlers from number [i] on, up to the first error. *)
Fixpoint initialize_from (a : start_answers) (w : TransportHandlerWrapper) (i : nat) (l : list stage)
    : TransportHandlerWrapper * list start_effect * result unit :=
  match l with
  | [] => (w, [], Ok tt)
  | st :: l' =>
      match handler_Initialize a w st i with
      | (w1, effs, Err e) => (w1, effs, Err e)
      | (w1, effs, Ok _) =>
          let '(w2, effs2, r) := initialize_from a w1 (S i) l' in (w2, effs ++ effs2, r)
      end
  end.

Record session_start := mkSessionStart {
  wrapper : TransportHandlerWrapper;
  effects : list start_effect;
  outcome : result unit;
  context_cancelled : bool;
  finished_signals : nat
}.

Definition failed (r : option (result unit)) : bool := match r with Some (Err _) => true | _ => false end.

(** The handlers start in goroutines of their own, here one after the other. *)
Definition start_session (a : start_answers) (w : TransportHandlerWrapper) : session_start :=
  match initialize_from a w 0 handlers with
  | (w1, effs, Err e) => mkSessionStart w1 effs (Err e) true 1
  | (w1, effs, Ok _) =>
      let starts := imap (λ i st, handler_Start a st i) handlers in
      mkSessionStart w1 (effs ++ ServeClients :: concat (map fst starts) ++ [GoListener]) (Ok tt)
        (existsb failed (map snd starts)) 0
  end.

(** ** The goroutines it leaves behind *)

(** The loops that [Shutdown] follows: those that read a channel of the runner,
    and those that read channels of their own. *)
Definition started_loop (e : start_effect) : option Shutdown.goroutine :=
  match e with
  | GoHandlerLoop i => Some (Shutdown.loop [Runner.InputChan i] true)
  | GoEventLoop _ (Some i) => Some (Shutdown.loop [Runner.InputChan i] false)
  | GoListener => Some (Shutdown.loop [Runner.LastOutput; Runner.TopOutput] false)
  | GoEventLoop _ None | ReceiveLoop | GoSimulation | GoListenForAudio => Some (Shutdown.loop [] true)
  | _ => None
  end.

Definition loops (s : session_start) : list Shutdown.goroutine := omap started_loop (effects s).

Definition connections (effs : list start_effect) : nat :=
  length (omap (λ e, match e with Connects => Some tt | _ => None end) effs).

Definition guards : list bool := [true; true; true; false; true; false; true; false; true].

Definition all_initialize (a : start_answers) : Prop :=
  (∀ st, service_Initialize a st = Ok tt) ∧ transport_Connect a = Ok tt.

(** The start of a session whose services answer as [Hs] says. *)
Ltac run_start Hs :=
  unfold start_session; cbn [handlers initialize_from handler_Initialize];
  unfold input_Initialize, vad_Initialize, stt_Initialize, llm_Initialize, tts_Initialize, output_Initialize;
  cbn [service_Initialize transport_Connect]; rewrite !Hs.

(** Two lists of the same elements, each written out. *)
Ltac match_heads :=
  let rec find x before after :=
    lazymatch after with
    | x :: ?after' => apply (Permutation_cons_app before after'); cbn [app]
    | ?y :: ?after' => let b := eval cbn [app] in (before ++ [y]) in find x b after'
    end in
  lazymatch goal with
  | |- @nil ?A ≡ₚ [] => constructor
  | |- ?x :: ?l ≡ₚ ?r => find x (@nil Shutdown.goroutine) r; match_heads
  end.

(** A session whose services initialize has, whether it speaks, simulates or has a
    filler service, the goroutines of [Shutdown.started]: one loop on the input
    channel of every handler, which looks at the context before it handles
    exactly where [Shutdown] says so, and the listener; the transport is
    connected by the first handler only. *)
Theorem started_session_is_followed (a : start_answers) (w : TransportHandlerWrapper) :
  all_initialize a → connected w = false →
  let s := start_session a w in
  outcome s = Ok tt ∧ connected (wrapper s) = true ∧ finished_signals s = 0 ∧
  connections (effects s) = 1 ∧
  context_cancelled s = negb (is_ok (StartTTSSession a)) ∧
  ∃ own, loops s ≡ₚ Shutdown.goroutines (Shutdown.started guards own).
Proof.
  intros [Hs Hc] Hw. destruct a as [svc conn syn fil sim], w as [sv bk cf cn]. cbn in Hs, Hc, Hw. subst conn cn.
  run_start Hs. cbn.
  set (own := 3 + (if sim then 1 else 0) + (if is_ok syn then 1 else 0)).
  destruct syn as [[]|e], sim, fil; cbn in own |- *; (split_and!; try done); exists own; unfold own; cbn;
    match_heads.
Qed.

(** ** When something fails *)

(** Nothing undoes the handlers that were initialized before the one that
    fails: the transport stays connected, and their loops are left to the
    cancelled context. *)
Theorem failed_start_keeps_connection (a : start_answers) (w : TransportHandlerWrapper) (e : string) :
  (∀ st, service_Initialize a st = if decide (st = TtsStage) then Err e else Ok tt) → transport_Connect a = Ok tt →
  let s := start_session a w in
  outcome s = Err e ∧ context_cancelled s = true ∧ connected (wrapper s) = true ∧
  Runner.Run false false (Ok 9) (λ i, if Nat.eqb i 6 then Err e else Ok tt) Runner.CtxDone = (Runner.JobFailed e, false).
Proof.
  intros Hs Hc. destruct a as [svc conn syn fil sim], w as [sv bk cf cn]. cbn in Hs, Hc. subst conn.
  run_start Hs. cbn. by destruct cn.
Qed.

(** A synthesis session that cannot be started is reported as fatal, for which
    the handler has its backups, and also cancels the context of the whole
    session; nobody signals that the session has finished. *)
Theorem failed_synthesis_cancels_session (a : start_answers) (w : TransportHandlerWrapper) (e : string) :
  all_initialize a → StartTTSSession a = Err e →
  let s := start_session a w in
  outcome s = Ok tt ∧ context_cancelled s = true ∧ finished_signals s = 0 ∧ ReportFatal e ∈ effects s.
Proof.
  intros [Hs Hc] He. destruct a as [svc conn syn fil sim], w as [sv bk cf cn]. cbn in Hs, Hc, He. subst conn syn.
  run_start Hs. destruct cn, fil, sim; cbn; (split_and!; [done..|set_solver]).
Qed.

(** ** A session *)

Definition demo_start : start_answers := mkStartAnswers (λ _, Ok tt) (Ok tt) (Ok tt) true true.

Lemma started_session_is_followed_witness :
  ∃ own, loops (start_session demo_start (NewTransportHandlerWrapper 0 DefaultConfig)) ≡ₚ
         Shutdown.goroutines (Shutdown.started guards own).
Proof.
  apply (started_session_is_followed demo_start (NewTransportHandlerWrapper 0 DefaultConfig)); [|reflexivity].
  split; [intros st; reflexivity|reflexivity].
Defined.
