(* ===== verification/Audio.v ===== *)
(** * Audio conversion: [utils/audio/]

    WAV framing, channel and format conversion on 16-bit little-endian PCM
    ([audio.go]), the pooled Opus encoders and decoders ([opus_cgo.go]), the
    pooled resamplers ([resample_cgo.go]) and the denoiser ([rnnoise_cgo.go]).
    The C libraries and the G.711 package are outside: they are the fields of
    [AudioLibs].  The byte-buffer pools only recycle memory and are left out;
    the pools of codecs and resamplers hand out objects with a state and are
    modelled. *)

From Stdlib Require Import Strings.Byte.
From S2P Require Import Prelude Core.

Local Open Scope string_scope.
Local Open Scope list_scope.
Local Open Scope Z_scope.

Abbreviation bytes_ := (list Byte.byte).

(** ** Bytes and samples *)

Definition byte_val (b : Byte.byte) : Z := Z.of_N (Byte.to_N b).

(** The low byte of an integer. *)
Definition byte_of (z : Z) : Byte.byte := default x00 (Byte.of_N (Z.to_N (z mod 256))).

Definition ascii_bytes (s : string) : bytes_ :=
  map (λ c, byte_of (Z.of_nat (Ascii.nat_of_ascii c))) (str_chars s).

Definition le16 (z : Z) : bytes_ := [byte_of z; byte_of (z / 256)].
Definition le32 (z : Z) : bytes_ :=
  [byte_of z; byte_of (z / 256); byte_of (z / 65536); byte_of (z / 16777216)].

(** [binary.LittleEndian.Uint16] and [Uint32] on exactly that many bytes. *)
Definition uint16 (bs : bytes_) : Z :=
  match bs with
  | [b0; b1] => byte_val b0 + 256 * byte_val b1
  | _ => 0
  end.
Definition uint32 (bs : bytes_) : Z :=
  match bs with
  | [b0; b1; b2; b3] =>
      byte_val b0 + 256 * byte_val b1 + 65536 * byte_val b2 + 16777216 * byte_val b3
  | _ => 0
  end.

(** Reading a uint16 as int16. *)
Definition int16 (z : Z) : Z := if z <? 32768 then z else z - 65536.

Definition len (bs : bytes_) : Z := Z.of_nat (length bs).

(** ** Validation and durations *)

Definition ValidatePCMData (pcm : bytes_) (numChannels : Z) : result unit :=
  if negb (len pcm mod 2 =? 0) then Err "PCM data must have even length (16-bit samples)"
  else if len pcm =? 0 then Err "PCM data is empty"
  else if numChannels <=? 0 then Err "invalid number of channels"
  else if negb (len pcm mod (2 * numChannels) =? 0)
  then Err "PCM data length doesn't match channel count"
  else Ok tt.

Definition GetPCMSampleCount (pcm : bytes_) : Z :=
  if negb (len pcm mod 2 =? 0) then 0 else len pcm / 2.

(** The exact fraction (frames, rate) of the returned duration. *)
Definition GetPCMDurationSeconds (pcm : bytes_) (numChannels sampleRate : Z) : result (Z * Z) :=
  (let! _ := ValidatePCMData pcm numChannels in
   if sampleRate <=? 0 then Err "invalid sample rate"
   else Ok (GetPCMSampleCount pcm / numChannels, sampleRate))%go.

(** ** WAV *)

Definition wav_header (dataSize numChannels sampleRate : Z) : bytes_ :=
  let blockAlign := numChannels * 16 / 8 in
  ascii_bytes "RIFF" ++ le32 (36 + dataSize) ++ ascii_bytes "WAVE" ++
  ascii_bytes "fmt " ++ le32 16 ++ le16 1 ++ le16 numChannels ++ le32 sampleRate ++
  le32 (sampleRate * blockAlign) ++ le16 blockAlign ++ le16 16 ++
  ascii_bytes "data" ++ le32 dataSize.

Definition PCMBytesToWavBytes (pcm : bytes_) (numChannels sampleRate : Z) : result bytes_ :=
  if len pcm =? 0 then Err "PCM data is empty"
  else if (numChannels <=? 0) || (2 <? numChannels)
  then Err "only mono (1) or stereo (2) channels supported"
  else if sampleRate <=? 0 then Err "sample rate must be positive"
  else if negb (len pcm mod (2 * numChannels) =? 0)
  then Err "PCM data length doesn't match channel count"
  else Ok (wav_header (len pcm) numChannels sampleRate ++ pcm).

(** [chunk[i:j]]. *)
Definition slice (bs : bytes_) (i j : nat) : bytes_ := take (j - i) (drop i bs).

Definition bytes_eqb (a b : bytes_) : bool := bool_decide (map byte_val a = map byte_val b).

(** The subchunk loop from position [i]; [None] is running out of fuel. *)
Fixpoint find_data (fuel : nat) (chunk : bytes_) (i : nat) : option (result bytes_) :=
  match fuel with
  | O => None
  | S fuel' =>
      if Nat.leb (i + 8) (length chunk)
      then
        let chunkSize := uint32 (slice chunk (i + 4) (i + 8)) in
        let next := (i + 8 + Z.to_nat chunkSize)%nat in
        if bytes_eqb (slice chunk i (i + 4)) (ascii_bytes "data")
        then if Nat.ltb (length chunk) next
             then Some (Err "invalid WAV: data chunk exceeds buffer length")
             else Some (Ok (slice chunk (i + 8) next))
        else
          let next' := if Z.odd chunkSize then S next else next in
          if Nat.ltb (length chunk) next'
          then Some (Err "invalid WAV: data chunk not found")
          else find_data fuel' chunk next'
      else Some (Err "invalid WAV: data chunk not found")
  end.

Definition is_wav (chunk : bytes_) : bool :=
  (Nat.leb 12 (length chunk) && bytes_eqb (take 4 chunk) (ascii_bytes "RIFF") &&
   bytes_eqb (slice chunk 8 12) (ascii_bytes "WAVE"))%bool.

(** Every subchunk is at least eight bytes, so the length is enough fuel. *)
Definition StripWAVHeaderIfPresent (chunk : bytes_) : option (result bytes_) :=
  if is_wav chunk then find_data (S (length chunk)) chunk 12 else Some (Ok chunk).

(** ** Channels *)

(** Left and right from each mono sample; an odd last byte is dropped. *)
Fixpoint monoToStereo (mono : bytes_) : bytes_ :=
  match mono with
  | b0 :: b1 :: rest => b0 :: b1 :: b0 :: b1 :: monoToStereo rest
  | _ => []
  end.

(** The average of two samples; Go's division truncates toward zero. *)
Definition average (left right : Z) : Z := Z.quot (left + right) 2.

Fixpoint stereoToMono (stereo : bytes_) : bytes_ :=
  match stereo with
  | l0 :: l1 :: r0 :: r1 :: rest =>
      le16 (average (int16 (uint16 [l0; l1])) (int16 (uint16 [r0; r1])) mod 65536)
        ++ stereoToMono rest
  | _ => []
  end.

Definition convertChannels (pcm : bytes_) (fromChannels toChannels : Z) : result bytes_ :=
  if fromChannels =? toChannels then Ok pcm
  else if (fromChannels =? 1) && (toChannels =? 2) then Ok (monoToStereo pcm)
  else if (fromChannels =? 2) && (toChannels =? 1) then Ok (stereoToMono pcm)
  else Err ("unsupported channel conversion: " +:+ itoa fromChannels +:+ " to " +:+ itoa toChannels).

(** ** The C libraries *)

(** What the bridges call: G.711, libopus, libsamplerate and RNNoise.  A
    [None] is the negative return code or the null handle. *)
Class AudioLibs := {
  ulaw_decode : bytes_ → bytes_;
  ulaw_encode : bytes_ → bytes_;
  alaw_decode : bytes_ → bytes_;
  alaw_encode : bytes_ → bytes_;
  opus_enc : Type;
  opus_encoder_create : Z → Z → option opus_enc;          (* rate, channels *)
  opus_encode : opus_enc → bytes_ → Z → Z → opus_enc * option bytes_;
  opus_dec : Type;
  opus_decoder_create : Z → Z → option opus_dec;
  opus_decode : opus_dec → bytes_ → Z → opus_dec * option bytes_;
  src_state : Type;
  resampler_new : Z → Z → Z → Z → option src_state;       (* channels, quality, in, out *)
  resampler_get_output_len : src_state → Z → Z;
  resampler_process : src_state → bytes_ → Z → Z → src_state * option bytes_;
  resampler_reset : src_state → src_state;
  rn_state : Type;
  rn_sample : Type;
  rn_zero : rn_sample;
  rnnoise_create : option rn_state;
  rnnoise_process_frame : rn_state → list rn_sample → rn_state * list rn_sample;
  pcm16_to_float : bytes_ → list rn_sample;
  float_to_pcm16 : list rn_sample → bytes_
}.

Section conversion.
Context `{AudioLibs}.

Definition PCMBytesToULaw (pcm : bytes_) : result bytes_ :=
  if negb (len pcm mod 2 =? 0)
  then Err "PCM byte slice length must be even (16-bit samples)" else Ok (ulaw_encode pcm).

Definition PCMBytesToALaw (pcm : bytes_) : result bytes_ :=
  if negb (len pcm mod 2 =? 0)
  then Err "PCM byte slice length must be even (16-bit samples)" else Ok (alaw_encode pcm).

(** ** Opus *)

Record CgoOpusEncoder := mkEncoder { enc_handle : opus_enc; enc_channels : Z }.
Record CgoOpusDecoder := mkDecoder { dec_handle : opus_dec; dec_channels : Z; dec_frameSize : Z }.

Definition opusMaxPacketSize : Z := 4000.
Definition opusFrameSizeMs : Z := 60.

Definition NewCgoOpusEncoder (sampleRate channels : Z) : result CgoOpusEncoder :=
  match opus_encoder_create sampleRate channels with
  | None => Err "failed to create Opus encoder"
  | Some h => Ok (mkEncoder h channels)
  end.

(** [EncodeBytes] and [Encode]; the encoder is not closed while it is pooled.
    [None] is the panic of [&pcm[0]] on an empty slice. *)
Definition EncodeBytes (e : CgoOpusEncoder) (pcm : bytes_)
    : option (CgoOpusEncoder * result bytes_) :=
  if negb (len pcm mod 2 =? 0) then Some (e, Err "PCM bytes must have even length")
  else if len pcm =? 0 then None
  else
    let '(h, out) := opus_encode (enc_handle e) pcm (len pcm / 2 / enc_channels e) opusMaxPacketSize in
    Some (mkEncoder h (enc_channels e),
          match out with None => Err "opus encode failed" | Some bs => Ok bs end).

Definition NewCgoOpusDecoder (sampleRate channels : Z) : result CgoOpusDecoder :=
  match opus_decoder_create sampleRate channels with
  | None => Err "failed to create Opus decoder"
  | Some h => Ok (mkDecoder h channels (sampleRate * opusFrameSizeMs / 1000 * channels))
  end.

Definition DecodeToBytes (d : CgoOpusDecoder) (data : bytes_) : CgoOpusDecoder * result bytes_ :=
  let '(h, out) := opus_decode (dec_handle d) data (dec_frameSize d / dec_channels d) in
  (mkDecoder h (dec_channels d) (dec_frameSize d),
   match out with None => Err "opus decode failed" | Some bs => Ok bs end).

(** ** Resampler *)

Record Resampler := mkResampler { rs_state : src_state; rs_channels : Z }.

(** [ResamplerQuality], an int counted from [QualityBest]. *)
Definition QualityFast : Z := 2.
Definition QualityLinear : Z := 3.

Definition NewResampler (channels quality inputRate outputRate : Z) : result Resampler :=
  if (channels <=? 0) || (8 <? channels) then Err ("invalid channel count: " +:+ itoa channels)
  else if (inputRate <=? 0) || (outputRate <=? 0)
  then Err ("invalid sample rates: in=" +:+ itoa inputRate +:+ ", out=" +:+ itoa outputRate)
  else match resampler_new channels quality inputRate outputRate with
       | None => Err "failed to create resampler"
       | Some st => Ok (mkResampler st channels)
       end.

(** [None] is the panic of [&outputPCM[0]] when the library produced no frame. *)
Definition Resample (r : Resampler) (pcm : bytes_) : option (Resampler * result bytes_) :=
  if len pcm =? 0 then Some (r, Ok [])
  else if negb (len pcm mod (2 * rs_channels r) =? 0)
  then Some (r, Err ("input PCM length " +:+ itoa (len pcm) +:+ " invalid for " +:+
                itoa (rs_channels r) +:+ " channels"))
  else
    let inputFrames := len pcm / 2 / rs_channels r in
    let outputFrames := resampler_get_output_len (rs_state r) inputFrames in
    if outputFrames <=? 0 then Some (r, Err "invalid output frame calculation")
    else
      let '(st, out) := resampler_process (rs_state r) pcm inputFrames outputFrames in
      let r' := mkResampler st (rs_channels r) in
      match out with
      | None => Some (r', Err "resampling failed")
      | Some [] => None
      | Some bs => Some (r', Ok bs)
      end.

Definition resampler_Reset (r : Resampler) : Resampler :=
  mkResampler (resampler_reset (rs_state r)) (rs_channels r).

(** ** The pools

    One pool of free objects per configuration; [Get] takes a free object or
    calls [New], whose failure is the nil value. *)

Record Pools := mkPools {
  encoders : gmap (Z * Z) (list CgoOpusEncoder);
  decoders : gmap (Z * Z) (list CgoOpusDecoder);
  resamplers : gmap (Z * Z * Z * Z) (list Resampler)
}.

Definition no_pools : Pools := mkPools ∅ ∅ ∅.

Definition pool_get {A} (free : list A) (new : result A) : option (A * list A) :=
  match free with
  | x :: rest => Some (x, rest)
  | [] => match new with Ok x => Some (x, []) | Err _ => None end
  end.

Definition free_of `{Countable K} {A} (m : gmap K (list A)) (k : K) : list A := default [] (m !! k).

Definition set_encoders (ps : Pools) m : Pools := mkPools m (decoders ps) (resamplers ps).
Definition set_decoders (ps : Pools) m : Pools := mkPools (encoders ps) m (resamplers ps).
Definition set_resamplers (ps : Pools) m : Pools := mkPools (encoders ps) (decoders ps) m.

Definition PCMBytesToOpus (ps : Pools) (pcm : bytes_) (sampleRate channels : Z)
    : option (Pools * result bytes_) :=
  match ValidatePCMData pcm channels with
  | Err e => Some (ps, Err e)
  | Ok _ =>
      let key := (sampleRate, channels) in
      match pool_get (free_of (encoders ps) key) (NewCgoOpusEncoder sampleRate channels) with
      | None => Some (ps, Err "failed to create pooled Opus encoder")
      | Some (e, rest) =>
          match EncodeBytes e pcm with
          | None => None
          | Some (e', r) => Some (set_encoders ps (<[key := e' :: rest]> (encoders ps)), r)
          end
      end
  end.

Definition OpusBytesToPCM (ps : Pools) (data : bytes_) (sampleRate channels : Z)
    : Pools * result bytes_ :=
  if len data =? 0 then (ps, Err "empty Opus data")
  else
    let key := (sampleRate, channels) in
    match pool_get (free_of (decoders ps) key) (NewCgoOpusDecoder sampleRate channels) with
    | None => (ps, Err "failed to create pooled Opus decoder")
    | Some (d, rest) =>
        let '(d', r) := DecodeToBytes d data in
        (set_decoders ps (<[key := d' :: rest]> (decoders ps)), r)
    end.

(** The resampler is reset before it goes back to its pool. *)
Definition ResamplePCMBytes (ps : Pools) (pcm : bytes_) (channels inputRate outputRate quality : Z)
    : option (Pools * result bytes_) :=
  let key := (channels, inputRate, outputRate, quality) in
  match pool_get (free_of (resamplers ps) key) (NewResampler channels quality inputRate outputRate) with
  | None => Some (ps, Err "failed to create pooled resampler")
  | Some (x, rest) =>
      match Resample x pcm with
      | None => None
      | Some (x', r) =>
          Some (set_resamplers ps (<[key := resampler_Reset x' :: rest]> (resamplers ps)), r)
      end
  end.

(** ** ConvertAudioChunk *)

Definition convertToPCM (ps : Pools) (format : AudioEncodingFormat) (data : bytes_)
    (sampleRate channels : Z) : Pools * result bytes_ :=
  match format with
  | ULAW => (ps, Ok (ulaw_decode data))
  | ALAW => (ps, Ok (alaw_decode data))
  | OPUS => OpusBytesToPCM ps data sampleRate channels
  | PCM => (ps, Err "unsupported format for PCM conversion")
  end.

Definition convertFromPCM (ps : Pools) (pcm : bytes_) (channels sampleRate : Z)
    (target : AudioEncodingFormat) : option (Pools * result bytes_) :=
  match target with
  | ULAW => Some (ps, PCMBytesToULaw pcm)
  | ALAW => Some (ps, PCMBytesToALaw pcm)
  | OPUS => PCMBytesToOpus ps pcm sampleRate channels
  | PCM => Some (ps, Err "unsupported target format")
  end.

(** The input struct with its data and one more field replaced. *)
Definition set_data (c : AudioChunk) (d : bytes_) : AudioChunk :=
  mkAudioChunk (Some d) (SampleRate c) (Channels c) (Format c) (Timestamp c).
Definition set_format (c : AudioChunk) (f : AudioEncodingFormat) : AudioChunk :=
  mkAudioChunk (Data c) (SampleRate c) (Channels c) f (Timestamp c).
Definition set_channels (c : AudioChunk) (n : Z) : AudioChunk :=
  mkAudioChunk (Data c) (SampleRate c) n (Format c) (Timestamp c).
Definition set_rate (c : AudioChunk) (n : Z) : AudioChunk :=
  mkAudioChunk (Data c) n (Channels c) (Format c) (Timestamp c).

(** One guarded step: convert the data ([None]: the nil pointer is read, or the
    resampler panics) and update the struct, or stop at the first error. *)
Definition Step : Type := Pools → AudioChunk → option (Pools * result AudioChunk).

Definition step_if (b : bool) (conv : Pools → AudioChunk → bytes_ → option (Pools * result bytes_))
    (upd : AudioChunk → AudioChunk) : Step := λ ps c,
  if b
  then match Data c with
       | None => None
       | Some d =>
           match conv ps c d with
           | None => None
           | Some (ps', Ok d') => Some (ps', Ok (upd (set_data c d')))
           | Some (ps', Err e) => Some (ps', Err e)
           end
       end
  else Some (ps, Ok c).

Definition step_then (a b : Step) : Step := λ ps c,
  match a ps c with
  | Some (ps', Ok c') => b ps' c'
  | other => other
  end.

Definition ConvertAudioChunk (ps : Pools) (input : AudioChunk) (targetFormat : AudioEncodingFormat)
    (targetChannels targetSampleRate : Z) : option (Pools * result AudioChunk) :=
  let needFormat := negb (bool_decide (Format input = targetFormat)) in
  let needRate := negb (SampleRate input =? targetSampleRate) in
  let needChannels := negb (Channels input =? targetChannels) in
  if negb needFormat && negb needRate && negb needChannels
  then Some (ps, Ok input)
  else
    step_then
      (step_if (negb (bool_decide (Format input = PCM)))
         (λ ps c d, Some (convertToPCM ps (Format c) d (SampleRate c) (Channels c)))
         (λ c, set_format c PCM))
   (step_then
      (step_if needChannels
         (λ ps c d, Some (ps, convertChannels d (Channels c) targetChannels))
         (λ c, set_channels c targetChannels))
   (step_then
      (step_if needRate
         (λ ps c d, ResamplePCMBytes ps d (Channels c) (SampleRate c) targetSampleRate QualityLinear)
         (λ c, set_rate c targetSampleRate))
      (step_if (needFormat && negb (bool_decide (targetFormat = PCM)))
         (λ ps c d, convertFromPCM ps d (Channels c) (SampleRate c) targetFormat)
         (λ c, set_format c targetFormat)))) ps input.

(** ** RNNoiseDenoiser *)

Definition rnnoiseTargetSampleRate : Z := 48000.
Definition rnnoiseFrameSize : nat := 480.

Record RNNoiseDenoiser := mkDenoiser {
  model : rn_state;
  inputSR : Z;
  inputCh : Z;
  upsampler : option Resampler;
  downsampler : option Resampler;
  inBuf : list rn_sample
}.

Definition NewRNNoiseDenoiser (sampleRate channels : Z) : result RNNoiseDenoiser :=
  if negb (channels =? 1) && negb (channels =? 2)
  then Err ("rnnoise: unsupported channel count " +:+ itoa channels +:+ " (must be 1 or 2)")
  else if sampleRate <=? 0 then Err ("rnnoise: invalid sample rate " +:+ itoa sampleRate)
  else match rnnoise_create with
  | None => Err "rnnoise: failed to allocate DenoiseState"
  | Some st =>
      if negb (sampleRate =? rnnoiseTargetSampleRate)
      then
        match NewResampler 1 QualityFast sampleRate rnnoiseTargetSampleRate with
        | Err e => Err ("rnnoise: failed to create upsampler: " +:+ e)
        | Ok up =>
            match NewResampler 1 QualityFast rnnoiseTargetSampleRate sampleRate with
            | Err e => Err ("rnnoise: failed to create downsampler: " +:+ e)
            | Ok down => Ok (mkDenoiser st sampleRate channels (Some up) (Some down) [])
            end
        end
      else Ok (mkDenoiser st sampleRate channels None None [])
  end.

Definition set_inBuf (d : RNNoiseDenoiser) (m : rn_state) (buf : list rn_sample) : RNNoiseDenoiser :=
  mkDenoiser m (inputSR d) (inputCh d) (upsampler d) (downsampler d) buf.

(** [None] is a panic: a nil resampler read at another rate, which the
    constructor rules out, or the one of [Resample]. *)
Definition toTargetRate (d : RNNoiseDenoiser) (pcm : bytes_)
    : option (RNNoiseDenoiser * result bytes_) :=
  if inputSR d =? rnnoiseTargetSampleRate then Some (d, Ok pcm)
  else match upsampler d with
  | None => None
  | Some u =>
      match Resample u pcm with
      | None => None
      | Some (u', r) =>
          Some (mkDenoiser (model d) (inputSR d) (inputCh d) (Some u') (downsampler d) (inBuf d),
                match r with
                | Ok bs => Ok bs
                | Err e => Err ("rnnoise: upsampling failed: " +:+ e)
                end)
      end
  end.

Definition fromTargetRate (d : RNNoiseDenoiser) (pcm : bytes_)
    : option (RNNoiseDenoiser * result bytes_) :=
  if inputSR d =? rnnoiseTargetSampleRate then Some (d, Ok pcm)
  else match downsampler d with
  | None => None
  | Some u =>
      match Resample u pcm with
      | None => None
      | Some (u', r) =>
          Some (mkDenoiser (model d) (inputSR d) (inputCh d) (upsampler d) (Some u') (inBuf d),
                match r with
                | Ok bs => Ok bs
                | Err e => Err ("rnnoise: downsampling failed: " +:+ e)
                end)
      end
  end.

(** The frame loop: the model after it, the output samples, the samples left.
    The length of the buffer is enough fuel. *)
Fixpoint process_frames (fuel : nat) (m : rn_state) (buf : list rn_sample)
    : rn_state * list rn_sample * list rn_sample :=
  match fuel with
  | O => (m, [], buf)
  | S fuel' =>
      if Nat.leb rnnoiseFrameSize (length buf)
      then
        let '(m1, frame) := rnnoise_process_frame m (take rnnoiseFrameSize buf) in
        let '(m2, out, rest) := process_frames fuel' m1 (drop rnnoiseFrameSize buf) in
        (m2, frame ++ out, rest)
      else (m, [], buf)
  end.

(** Back to the caller's rate and channels. *)
Definition deliver (d : RNNoiseDenoiser) (out : list rn_sample)
    : option (RNNoiseDenoiser * result bytes_) :=
  match fromTargetRate d (float_to_pcm16 out) with
  | None => None
  | Some (d', Err e) => Some (d', Err e)
  | Some (d', Ok mono) => Some (d', Ok (if inputCh d =? 2 then monoToStereo mono else mono))
  end.

Definition Denoise (d : RNNoiseDenoiser) (pcm : bytes_) : option (RNNoiseDenoiser * result bytes_) :=
  if len pcm =? 0 then Some (d, Ok [])
  else if negb (len pcm mod 2 =? 0)
  then Some (d, Err "rnnoise: PCM data must have even byte length")
  else
    let workPCM := if inputCh d =? 2 then stereoToMono pcm else pcm in
    match toTargetRate d workPCM with
    | None => None
    | Some (d1, Err e) => Some (d1, Err e)
    | Some (d1, Ok monoAt48k) =>
        let buf := inBuf d1 ++ pcm16_to_float monoAt48k in
        let '(m, out, rest) := process_frames (S (length buf)) (model d1) buf in
        let d2 := set_inBuf d1 m rest in
        match out with
        | [] => Some (d2, Ok [])
        | _ => deliver d2 out
        end
    end.

Definition Flush (d : RNNoiseDenoiser) : option (RNNoiseDenoiser * result bytes_) :=
  match inBuf d with
  | [] => Some (d, Ok [])
  | buf =>
      let '(m, out) := rnnoise_process_frame (model d)
                         (buf ++ replicate (rnnoiseFrameSize - length buf) rn_zero) in
      deliver (set_inBuf d m []) out
  end.

Definition denoiser_Reset (d : RNNoiseDenoiser) : RNNoiseDenoiser :=
  mkDenoiser (model d) (inputSR d) (inputCh d)
    (resampler_Reset <$> upsampler d) (resampler_Reset <$> downsampler d) [].

Definition DenoiseChunk (d : RNNoiseDenoiser) (chunk : AudioChunk)
    : option (RNNoiseDenoiser * result AudioChunk) :=
  if negb (bool_decide (Format chunk = PCM))
  then Some (d, Err "rnnoise: chunk must be PCM format")
  else match Data chunk with
  | None | Some [] => Some (d, Ok chunk)
  | Some data =>
      if negb (SampleRate chunk =? inputSR d) || negb (Channels chunk =? inputCh d)
      then Some (d, Err ("rnnoise: chunk has rate=" +:+ itoa (SampleRate chunk) +:+ " ch=" +:+
             itoa (Channels chunk) +:+ " but denoiser was created for rate=" +:+
             itoa (inputSR d) +:+ " ch=" +:+ itoa (inputCh d)))
      else match Denoise d data with
      | None => None
      | Some (d', Err e) => Some (d', Err e)
      | Some (d', Ok bs) =>
          Some (d', Ok (mkAudioChunk (Some bs) (SampleRate chunk) (Channels chunk) PCM
                          (Timestamp chunk)))
      end
  end.
End conversion.

Example wav_header_44 : length (wav_header 8 1 8000) = 44%nat.
Proof. reflexivity. Qed.

Example strip_ex :
  StripWAVHeaderIfPresent (wav_header 4 1 8000 ++ [x01; x02; x03; x04]) =
  Some (Ok [x01; x02; x03; x04]).
Proof. vm_compute. reflexivity. Qed.
