(* ===== verification/AudioProofs.v ===== *)
(** * Audio conversion: theorems

    WAV framing round trips and its parser terminates, channel conversion
    inverts, [ConvertAudioChunk] reaches its target, pooled resamplers give
    what fresh ones give, and the denoiser's output does not depend on how the
    stream is cut into chunks. *)

From Stdlib Require Import Strings.Byte.
From S2P Require Import Prelude Core Audio.

Local Open Scope string_scope.
Local Open Scope list_scope.
Local Open Scope Z_scope.

(** ** Bytes *)

Lemma byte_val_range b : 0 <= byte_val b < 256.
Proof. unfold byte_val. pose proof (Byte.to_N_bounded b). lia. Qed.

Lemma byte_val_of z : byte_val (byte_of z) = z mod 256.
Proof.
  unfold byte_of, byte_val.
  pose proof (Z.mod_pos_bound z 256 ltac:(lia)).
  destruct (Byte.of_N (Z.to_N (z mod 256))) as [b|] eqn:E; cbn.
  - apply Byte.to_of_N in E. rewrite E. lia.
  - apply Byte.of_N_None_iff in E. lia.
Qed.

Lemma byte_val_inj a b : byte_val a = byte_val b → a = b.
Proof.
  unfold byte_val. intros E. apply N2Z.inj in E.
  pose proof (Byte.of_to_N a) as Ha. pose proof (Byte.of_to_N b) as Hb. congruence.
Qed.

Lemma byte_of_val b : byte_of (byte_val b) = b.
Proof.
  apply byte_val_inj. rewrite byte_val_of. apply Z.mod_small, byte_val_range.
Qed.

Lemma byte_of_mod z : byte_of (z mod 256) = byte_of z.
Proof. apply byte_val_inj. by rewrite !byte_val_of, Z.mod_mod. Qed.

Lemma uint32_le32 z : 0 <= z < 4294967296 → uint32 (le32 z) = z.
Proof.
  intros Hz. cbn [uint32 le32]. rewrite !byte_val_of.
  pose proof (Z.div_mod z 256 ltac:(lia)).
  pose proof (Z.div_mod (z / 256) 256 ltac:(lia)).
  pose proof (Z.div_mod (z / 65536) 256 ltac:(lia)).
  assert (z / 65536 = z / 256 / 256) by (rewrite Z.div_div; [done|lia|lia]).
  assert (z / 16777216 = z / 65536 / 256) by (rewrite Z.div_div; [done|lia|lia]).
  assert (0 <= z / 16777216 < 256)
    by (split; [apply Z.div_pos; lia | apply Z.div_lt_upper_bound; lia]).
  rewrite (Z.mod_small (z / 16777216)) by lia. lia.
Qed.

Lemma le16_uint16 b0 b1 : le16 (uint16 [b0; b1]) = [b0; b1].
Proof.
  pose proof (byte_val_range b0). pose proof (byte_val_range b1).
  unfold le16. cbn [uint16]. f_equal; [|f_equal].
  - apply byte_val_inj. rewrite byte_val_of.
    rewrite (Z.mul_comm 256), Z.mod_add, Z.mod_small; lia.
  - apply byte_val_inj. rewrite byte_val_of, (Z.mul_comm 256), Z.div_add, Z.div_small by lia.
    rewrite Z.mod_small; lia.
Qed.

Lemma uint16_range b0 b1 : 0 <= uint16 [b0; b1] < 65536.
Proof. cbn. pose proof (byte_val_range b0). pose proof (byte_val_range b1). lia. Qed.

Lemma uint16_le16 z : 0 <= z < 65536 → uint16 (le16 z) = z.
Proof.
  intros Hz. cbn [uint16 le16]. rewrite !byte_val_of.
  rewrite (Z.mod_small (z / 256)) by (split; [apply Z.div_pos; lia|apply Z.div_lt_upper_bound; lia]).
  pose proof (Z.div_mod z 256 ltac:(lia)). lia.
Qed.

Lemma int16_range z : 0 <= z < 65536 → -32768 <= int16 z <= 32767.
Proof. unfold int16. case_match; lia. Qed.

Lemma int16_mod z : 0 <= z < 65536 → int16 z mod 65536 = z.
Proof.
  intros ?. unfold int16. case_match; [apply Z.mod_small; lia|].
  replace (z - 65536) with (z + (-1) * 65536) by lia. rewrite Z.mod_add, Z.mod_small; lia.
Qed.

Lemma int16_of_mod z : -32768 <= z <= 32767 → int16 (z mod 65536) = z.
Proof.
  intros ?. unfold int16. destruct (decide (0 <= z)).
  - rewrite Z.mod_small by lia. case_match; lia.
  - assert (z mod 65536 = z + 65536) as ->.
    { symmetry. apply Z.mod_unique with (-1); lia. }
    case_match; lia.
Qed.

(** ** WAV *)

Lemma bytes_eqb_spec a b : bytes_eqb a b = true ↔ a = b.
Proof.
  unfold bytes_eqb. rewrite bool_decide_eq_true. split; [|by intros ->].
  revert b. induction a as [|x a IH]; intros [|y b] E; try done.
  cbn in E. injection E as E1 E2. f_equal; [by apply byte_val_inj|by apply IH].
Qed.

(** The loop stops with at most one round for every eight bytes. *)
Lemma find_data_total fuel chunk i :
  (length chunk - i < fuel)%nat → is_Some (find_data fuel chunk i).
Proof.
  revert i. induction fuel as [|fuel IH]; intros i Hf; [lia|]. cbn [find_data].
  repeat case_match; eauto; apply IH;
    match goal with
    | H : Nat.ltb _ _ = false |- _ => apply Nat.ltb_ge in H
    end;
    match goal with H : Nat.leb _ _ = true |- _ => apply Nat.leb_le in H end; lia.
Qed.

Lemma find_data_slice fuel chunk i d :
  find_data fuel chunk i = Some (Ok d) → ∃ pre post, chunk = pre ++ d ++ post.
Proof.
  revert i. induction fuel as [|fuel IH]; intros i E; [done|]. cbn [find_data] in E.
  repeat case_match; try done; eauto.
  injection E as <-. unfold slice.
  eexists (take (i + 8) chunk), (drop _ (drop (i + 8) chunk)).
  by rewrite take_drop, take_drop.
Qed.

Lemma slice_app_exact (a b c : bytes_) i j :
  i = length a → j = (i + length b)%nat → slice (a ++ b ++ c) i j = b.
Proof.
  intros -> ->. unfold slice. rewrite drop_app_length.
  replace (length a + length b - length a)%nat with (length b) by lia. apply take_app_length.
Qed.

Section wav_theorems.

(** [StripWAVHeaderIfPresent] terminates on every input, and what it
    returns without an error is a contiguous part of the input: no byte is
    invented and no index leaves the buffer, whatever the subchunk sizes say. *)
Theorem strip_wav_total (chunk : bytes_) :
  ∃ r, StripWAVHeaderIfPresent chunk = Some r ∧
       ∀ d, r = Ok d → ∃ pre post, chunk = pre ++ d ++ post.
Proof.
  unfold StripWAVHeaderIfPresent. destruct (is_wav chunk).
  - destruct (find_data_total (S (length chunk)) chunk 12) as [r E]; [lia|].
    exists r. split; [done|]. intros d ->. by eapply find_data_slice.
  - exists (Ok chunk). split; [done|]. intros d [= <-]. exists [], []. by rewrite app_nil_r.
Qed.

(** The header as its three parts: the container, the format, the data. *)
Definition fmt_body (ch rate : Z) : bytes_ :=
  le16 1 ++ le16 ch ++ le32 rate ++ le32 (rate * (ch * 16 / 8)) ++ le16 (ch * 16 / 8) ++ le16 16.
Definition riff_part (n : Z) : bytes_ := ascii_bytes "RIFF" ++ le32 (36 + n) ++ ascii_bytes "WAVE".
Definition fmt_part (ch rate : Z) : bytes_ := ascii_bytes "fmt " ++ le32 16 ++ fmt_body ch rate.

Lemma wav_header_split n ch rate :
  wav_header n ch rate = riff_part n ++ fmt_part ch rate ++ ascii_bytes "data" ++ le32 n.
Proof. unfold wav_header, riff_part, fmt_part, fmt_body. by rewrite <-!app_assoc. Qed.

Lemma le32_length z : length (le32 z) = 4%nat. Proof. reflexivity. Qed.
Lemma riff_length n : length (riff_part n) = 12%nat. Proof. reflexivity. Qed.
Lemma fmt_length ch rate : length (fmt_part ch rate) = 24%nat. Proof. reflexivity. Qed.
Lemma ascii4_length a b c d :
  length (ascii_bytes (String a (String b (String c (String d ""))))) = 4%nat.
Proof. reflexivity. Qed.

(** One round over a subchunk that is not the data, and the data round. *)
Lemma find_data_skip fuel (pre id : bytes_) n body post :
  length id = 4%nat → id ≠ ascii_bytes "data" → 0 <= n < 4294967296 →
  Z.of_nat (length body) = n → Z.odd n = false →
  find_data (S fuel) (pre ++ (id ++ le32 n ++ body) ++ post) (length pre) =
  find_data fuel (pre ++ (id ++ le32 n ++ body) ++ post) (length pre + 8 + Z.to_nat n)%nat.
Proof.
  intros Hid Hne Hn Hb Hodd.
  assert (length (le32 n) = 4%nat) as Hl by apply le32_length.
  cbn [find_data].
  replace (Nat.leb _ _) with true
    by (symmetry; apply Nat.leb_le; rewrite !length_app; lia).
  rewrite <-!app_assoc.
  rewrite (slice_app_exact pre id) by lia.
  assert (slice (pre ++ id ++ le32 n ++ body ++ post) (length pre + 4) (length pre + 8) = le32 n)
    as -> by (rewrite app_assoc; apply slice_app_exact; rewrite ?length_app; lia).
  rewrite uint32_le32, Hodd by done.
  destruct (bytes_eqb id _) eqn:E; [by apply bytes_eqb_spec in E|].
  replace (Nat.ltb _ _) with false; [done|].
  symmetry. apply Nat.ltb_ge. rewrite !length_app. lia.
Qed.

Lemma find_data_found fuel (pre id body : bytes_) n :
  id = ascii_bytes "data" → 0 <= n < 4294967296 → Z.of_nat (length body) = n →
  find_data (S fuel) (pre ++ id ++ le32 n ++ body) (length pre) = Some (Ok body).
Proof.
  intros Ed Hn Hb.
  assert (length (le32 n) = 4%nat) as Hl by apply le32_length.
  assert (length id = 4%nat) as Hid by (rewrite Ed; apply ascii4_length).
  assert (bytes_eqb id (ascii_bytes "data") = true) as He by by apply bytes_eqb_spec.
  clear Ed.
  cbn [find_data].
  replace (Nat.leb _ _) with true by (symmetry; apply Nat.leb_le; rewrite !length_app; lia).
  rewrite (slice_app_exact pre id) by lia. rewrite He.
  assert (slice (pre ++ id ++ le32 n ++ body) (length pre + 4) (length pre + 8) = le32 n) as ->.
  { rewrite app_assoc. apply slice_app_exact; rewrite ?length_app; lia. }
  rewrite uint32_le32 by done.
  replace (Nat.ltb _ _) with false by (symmetry; apply Nat.ltb_ge; rewrite !length_app; lia).
  do 2 f_equal.
  assert (pre ++ id ++ le32 n ++ body = (pre ++ id ++ le32 n) ++ body ++ []) as ->
    by by rewrite app_nil_r, <-!app_assoc.
  apply slice_app_exact; rewrite ?length_app; lia.
Qed.

(** C31: Wrapping PCM in a WAV file and stripping it again gives the PCM back,
    for every buffer whose length fits the 32-bit size field, and the file is
    the 44-byte header and the samples. *)
Theorem wav_roundtrip (pcm wav : bytes_) (numChannels sampleRate : Z)
    (Hwav : PCMBytesToWavBytes pcm numChannels sampleRate = Ok wav)
    (Hlen : len pcm < 4294967296) :
  StripWAVHeaderIfPresent wav = Some (Ok pcm) ∧ len wav = 44 + len pcm.
Proof.
  unfold PCMBytesToWavBytes in Hwav. repeat case_match; try done.
  assert (wav = wav_header (len pcm) numChannels sampleRate ++ pcm) as -> by congruence.
  clear -Hlen.
  assert (0 <= len pcm) by (unfold len; lia).
  split; [|unfold len; by rewrite length_app, Nat2Z.inj_add].
  rewrite wav_header_split.
  set (n := len pcm) in *. set (tail := ascii_bytes "data" ++ le32 n ++ pcm).
  assert ((riff_part n ++ fmt_part numChannels sampleRate ++ ascii_bytes "data" ++ le32 n) ++ pcm =
          riff_part n ++ fmt_part numChannels sampleRate ++ tail) as ->
    by (unfold tail; by rewrite <-!app_assoc).
  assert (is_wav (riff_part n ++ fmt_part numChannels sampleRate ++ tail) = true) as Hw
    by reflexivity.
  unfold StripWAVHeaderIfPresent. rewrite Hw.
  pose proof (find_data_skip (length (riff_part n ++ fmt_part numChannels sampleRate ++ tail))
                (riff_part n) (ascii_bytes "fmt ") 16 (fmt_body numChannels sampleRate) tail) as E.
  rewrite riff_length in E. unfold fmt_part at 2. rewrite E by (done || reflexivity || lia).
  fold (fmt_part numChannels sampleRate).
  destruct (length (_ ++ _)) as [|f] eqn:Ef;
    [rewrite length_app, riff_length in Ef; lia|].
  rewrite app_assoc.
  replace (12 + 8 + Z.to_nat 16)%nat
    with (length (riff_part n ++ fmt_part numChannels sampleRate)) by reflexivity.
  by apply find_data_found.
Qed.

Lemma wav_roundtrip_witness :
  PCMBytesToWavBytes [x01; x02; x03; x04] 2 16000 =
    Ok (wav_header 4 2 16000 ++ [x01; x02; x03; x04]) ∧
  StripWAVHeaderIfPresent (wav_header 4 2 16000 ++ [x01; x02; x03; x04]) =
    Some (Ok [x01; x02; x03; x04]).
Proof.
  split; [reflexivity|].
  apply (wav_roundtrip [x01; x02; x03; x04] _ 2 16000); reflexivity.
Defined.
End wav_theorems.

(** ** Channels *)

Lemma monoToStereo_app a b :
  Nat.Even (length a) → monoToStereo (a ++ b) = monoToStereo a ++ monoToStereo b.
Proof.
  induction a as [|x|x y a IH] using list_ind2; intros He; [done| |].
  - exfalso. cbn in He. destruct He; lia.
  - cbn. rewrite IH; [done|]. destruct He as [k He]. cbn in He. exists (k - 1)%nat. lia.
Qed.

Lemma stereoToMono_app a b k :
  length a = (4 * k)%nat → stereoToMono (a ++ b) = stereoToMono a ++ stereoToMono b.
Proof.
  revert k. induction a as [a Hs|x0 x1 y0 y1 a IH] using list_ind4; intros k Hk.
  - assert (length a = 0%nat) as ?%nil_length_inv by lia. by subst.
  - cbn in Hk |- *. by rewrite (IH (k - 1)%nat) by lia.
Qed.

Lemma stereoToMono_length a k : length a = (4 * k)%nat → length (stereoToMono a) = (2 * k)%nat.
Proof.
  revert k. induction a as [a Hs|x0 x1 y0 y1 a IH] using list_ind4; intros k Hk.
  - assert (length a = 0%nat) as E%nil_length_inv by lia. subst. cbn in *. lia.
  - cbn in Hk |- *. rewrite (IH (k - 1)%nat) by lia. lia.
Qed.

Lemma average_range l r :
  -32768 <= l <= 32767 → -32768 <= r <= 32767 → -32768 <= average l r <= 32767.
Proof. unfold average. intros. pose proof (Z.quot_rem' (l + r) 2). 
  pose proof (Z.rem_bound_abs (l + r) 2 ltac:(lia)). lia. Qed.

Lemma average_same l : average l l = l.
Proof. unfold average. replace (l + l) with (l * 2) by lia. by apply Z.quot_mul. Qed.

Lemma monoToStereo_stereoToMono a :
  Nat.Even (length a) → stereoToMono (monoToStereo a) = a.
Proof.
  induction a as [|x|x y a IH] using list_ind2; intros He; [done| |].
  - exfalso. cbn in He. destruct He; lia.
  - cbn [monoToStereo stereoToMono]. rewrite average_same, int16_mod by apply uint16_range.
    rewrite le16_uint16. cbn. rewrite IH; [done|].
    destruct He as [k He]. cbn in He. exists (k - 1)%nat. lia.
Qed.

(** The samples of a PCM buffer. *)
Fixpoint samples (pcm : bytes_) : list Z :=
  match pcm with
  | b0 :: b1 :: rest => int16 (uint16 [b0; b1]) :: samples rest
  | _ => []
  end.

(** Neighbouring samples averaged. *)
Fixpoint averages (l : list Z) : list Z :=
  match l with
  | x :: y :: rest => average x y :: averages rest
  | _ => []
  end.

(** Channel conversion on 16-bit samples.  The mono buffer holds, sample by
    sample, the average of the left and right samples; the average of two
    16-bit values never leaves the 16-bit range, so nothing wraps around.
    Spreading a mono buffer over two channels and averaging it again gives the
    buffer back. *)
Theorem channel_conversion_exact (pcm : bytes_) :
  samples (stereoToMono pcm) = averages (samples pcm) ∧
  Forall (λ s, -32768 <= s <= 32767) (averages (samples pcm)) ∧
  (len pcm mod 2 = 0 →
   match convertChannels pcm 1 2 with
   | Ok stereo => convertChannels stereo 2 1 = Ok pcm
   | Err _ => False
   end).
Proof.
  split; [|split].
  - induction pcm as [a Hs|x0 x1 y0 y1 a IH] using list_ind4.
    + destruct a as [|? [|? [|? [|? ?]]]]; try done; cbn in Hs; lia.
    + cbn [stereoToMono samples averages app].
      pose proof (average_range (int16 (uint16 [x0; x1])) (int16 (uint16 [y0; y1]))
        (int16_range _ (uint16_range x0 x1)) (int16_range _ (uint16_range y0 y1))) as Hr.
      set (z := average _ _) in *.
      change (le16 (z mod 65536)) with [byte_of (z mod 65536); byte_of (z mod 65536 / 256)].
      cbn [app samples]. change [byte_of (z mod 65536); byte_of (z mod 65536 / 256)]
        with (le16 (z mod 65536)).
      rewrite uint16_le16, int16_of_mod by (done || apply Z.mod_pos_bound; lia).
      by rewrite IH.
  - induction pcm as [a Hs|x0 x1 y0 y1 a IH] using list_ind4.
    + destruct a as [|? [|? [|? [|? ?]]]]; cbn in *; try constructor; lia.
    + cbn [samples averages]. constructor; [|done].
      apply average_range; apply int16_range, uint16_range.
  - intros He. cbn. f_equal. apply monoToStereo_stereoToMono.
    unfold len in He. apply Z.mod_divide in He as [k Hk]; [|lia]. exists (Z.to_nat k). lia.
Qed.

(** ** ConvertAudioChunk *)

Section conversion_theorems.
Context `{AudioLibs}.

Lemma step_then_ok a b ps c ps' c' :
  step_then a b ps c = Some (ps', Ok c') →
  ∃ ps1 c1, a ps c = Some (ps1, Ok c1) ∧ b ps1 c1 = Some (ps', Ok c').
Proof. unfold step_then. intros. repeat case_match; naive_solver. Qed.

Lemma step_if_ok b conv upd ps c ps' c' :
  step_if b conv upd ps c = Some (ps', Ok c') →
  if b then ∃ d d', Data c = Some d ∧ conv ps c d = Some (ps', Ok d') ∧ c' = upd (set_data c d')
  else ps' = ps ∧ c' = c.
Proof. unfold step_if. intros. destruct b; repeat case_match; naive_solver. Qed.

(** The encoding a conversion ends in: the requested one, except that a
    compressed chunk whose encoding is already the requested one is decoded to
    change its rate or channels and never encoded again. *)
Definition resulting_format (input : AudioChunk) (format : AudioEncodingFormat)
    (channels rate : Z) : AudioEncodingFormat :=
  if bool_decide (Format input = format) &&
     negb ((SampleRate input =? rate) && (Channels input =? channels))
  then PCM else format.

Lemma converted_chunk ps input format channels rate ps' out :
  ConvertAudioChunk ps input format channels rate = Some (ps', Ok out) →
  Format out = resulting_format input format channels rate ∧
  Channels out = channels ∧ SampleRate out = rate ∧ Timestamp out = Timestamp input.
Proof.
  unfold ConvertAudioChunk, resulting_format.
  destruct (bool_decide_reflect (Format input = format)) as [Ef|Ef],
    (Z.eqb_spec (SampleRate input) rate) as [Er|Er],
    (Z.eqb_spec (Channels input) channels) as [Ec|Ec]; cbn [negb andb];
    [by intros [= <- <-]; rewrite Ef|..];
    intros (ps1 & c1 & E1%step_if_ok & (ps2 & c2 & E2%step_if_ok &
      (ps3 & c3 & E3%step_if_ok & E4%step_if_ok)%step_then_ok)%step_then_ok)%step_then_ok;
    destruct (bool_decide_reflect (Format input = PCM)), (bool_decide_reflect (format = PCM));
    cbn in *; destruct_all; subst; cbn in *; repeat split; congruence.
Qed.

(** A chunk that [ConvertAudioChunk] returns without an error has the
    requested rate and channel count and the timestamp of its input.  Its
    encoding is the requested one unless the input already had that encoding
    and only its rate or channels changed: then it is left as PCM.  A chunk that
    is already in the requested form comes back untouched, and a chunk without
    data is a panic in every other case, whatever the target. *)
Theorem conversion_reaches_target (ps : Pools) (input : AudioChunk)
    (format : AudioEncodingFormat) (channels rate : Z) :
  (∀ ps' out, ConvertAudioChunk ps input format channels rate = Some (ps', Ok out) →
     Format out = resulting_format input format channels rate ∧
     Channels out = channels ∧ SampleRate out = rate ∧ Timestamp out = Timestamp input) ∧
  (Format input = format ∧ Channels input = channels ∧ SampleRate input = rate →
     ConvertAudioChunk ps input format channels rate = Some (ps, Ok input)) ∧
  (Data input = None →
     ConvertAudioChunk ps input format channels rate = None ∨
     Format input = format ∧ Channels input = channels ∧ SampleRate input = rate).
Proof.
  split; [exact (converted_chunk ps input format channels rate)|].
  unfold ConvertAudioChunk. split.
  - intros (-> & -> & ->). by rewrite bool_decide_true, !Z.eqb_refl.
  - intros Hn. unfold step_then.
    destruct (bool_decide_reflect (Format input = format)) as [Ef|Ef],
      (Z.eqb_spec (SampleRate input) rate) as [Er|Er],
      (Z.eqb_spec (Channels input) channels) as [Ec|Ec],
      (bool_decide_reflect (Format input = PCM)),
      (bool_decide_reflect (format = PCM)); unfold step_if; cbn; rewrite ?Hn; cbn;
      rewrite ?Hn; auto; try (exfalso; congruence); tauto.
Qed.
End conversion_theorems.

(** ** Pooled resamplers *)

(** What libsamplerate documents of [src_reset]: it brings a converter back to
    its initial state, whatever it has processed. *)
Class ResetLaws `{AudioLibs} : Prop := {
  reset_new channels quality inp out st :
    resampler_new channels quality inp out = Some st → resampler_reset st = st;
  reset_process st pcm n k :
    resampler_reset (fst (resampler_process st pcm n k)) = resampler_reset st
}.

Section pool_theorems.
Context `{ResetLaws}.

(** Every free resampler is as a new one of its configuration. *)
Definition fresh_pools (ps : Pools) : Prop :=
  ∀ ch i o q, Forall (λ r, NewResampler ch q i o = Ok r) (free_of (resamplers ps) (ch, i, o, q)).

Lemma resampler_Reset_fresh ch q i o r :
  NewResampler ch q i o = Ok r → resampler_Reset r = r.
Proof.
  unfold NewResampler. intros. repeat case_match; try done. simplify_eq.
  unfold resampler_Reset. cbn. by erewrite reset_new.
Qed.

Lemma Resample_reset r pcm r' out :
  Resample r pcm = Some (r', out) → resampler_Reset r' = resampler_Reset r.
Proof.
  unfold Resample. intros.
  destruct (resampler_process _ _ _ _) as [st o] eqn:E.
  pose proof (reset_process (rs_state r) pcm (len pcm / 2 / rs_channels r)
    (resampler_get_output_len (rs_state r) (len pcm / 2 / rs_channels r))) as Hr.
  rewrite E in Hr. cbn in Hr.
  unfold resampler_Reset. repeat case_match; simplify_eq; cbn; congruence.
Qed.

Lemma pool_get_fresh {A} (free : list A) (new : result A) :
  Forall (λ x, new = Ok x) free →
  match pool_get free new with
  | Some (x, rest) => new = Ok x ∧ Forall (λ x, new = Ok x) rest
  | None => ∃ e, new = Err e
  end.
Proof.
  unfold pool_get. intros Hf. destruct free as [|x rest].
  - destruct new; eauto.
  - by inversion Hf.
Qed.

Lemma free_of_insert {A} `{Countable K} (m : gmap K (list A)) k k' l :
  free_of (<[k := l]> m) k' = if decide (k = k') then l else free_of m k'.
Proof.
  unfold free_of. case_decide; subst; [by rewrite lookup_insert_eq|by rewrite lookup_insert_ne].
Qed.

(** The pool of resamplers cannot be observed: since each one is reset
    before it is put back, resampling with any pool of free resamplers gives
    what a newly built resampler gives (errors and panics included), and leaves
    a pool with the same property.  No filter state crosses two calls. *)
Theorem pooled_resampling_stateless (ps : Pools) (pcm : bytes_) (channels inp out quality : Z)
    (Hfresh : fresh_pools ps) :
  snd <$> ResamplePCMBytes ps pcm channels inp out quality =
    snd <$> ResamplePCMBytes no_pools pcm channels inp out quality ∧
  match ResamplePCMBytes ps pcm channels inp out quality with
  | Some (ps', _) => fresh_pools ps'
  | None => True
  end.
Proof.
  pose proof (pool_get_fresh _ _ (Hfresh channels inp out quality)) as Hg.
  unfold ResamplePCMBytes. cbn [resamplers no_pools].
  change (free_of ∅ (channels, inp, out, quality)) with ([] : list Resampler).
  destruct (pool_get (free_of _ _) _) as [[x rest]|] eqn:Eg; cbn [pool_get].
  - destruct Hg as [Hx Hrest]. rewrite Hx.
    destruct (Resample x pcm) as [[x' r]|] eqn:Er; [|done]. split; [done|].
    intros ch i o q. cbn. rewrite free_of_insert. case_decide as Ek; [|apply Hfresh].
    injection Ek as <- <- <- <-. constructor; [|done].
    by rewrite (Resample_reset _ _ _ _ Er), (resampler_Reset_fresh _ _ _ _ _ Hx).
  - destruct Hg as [e ->]. done.
Qed.
End pool_theorems.

(** ** Denoiser *)

(** The C loops of the bridge convert sample by sample. *)
Class BridgeLaws `{AudioLibs} : Prop := {
  pcm16_to_float_app a b :
    Nat.Even (length a) → pcm16_to_float (a ++ b) = pcm16_to_float a ++ pcm16_to_float b;
  float_to_pcm16_app a b : float_to_pcm16 (a ++ b) = float_to_pcm16 a ++ float_to_pcm16 b;
  float_to_pcm16_length l : length (float_to_pcm16 l) = (2 * length l)%nat
}.

Section denoiser_theorems.
Context `{BridgeLaws}.

Definition frames (m : rn_state) (buf : list rn_sample) :=
  process_frames (S (length buf)) m buf.

(** More fuel than samples changes nothing. *)
Lemma process_frames_fuel f g m buf :
  (length buf < f)%nat → (length buf < g)%nat →
  process_frames f m buf = process_frames g m buf.
Proof.
  revert g m buf. induction f as [|f IH]; intros [|g] m buf Hf Hg; try lia.
  cbn [process_frames]. destruct (Nat.leb_spec rnnoiseFrameSize (length buf)) as [Hl|]; [|done].
  destruct (rnnoise_process_frame m _) as [m1 frame].
  assert (length (drop rnnoiseFrameSize buf) < length buf)%nat
    by (rewrite length_drop; unfold rnnoiseFrameSize in *; lia).
  by rewrite (IH g) by lia.
Qed.

Lemma frames_unfold m buf :
  frames m buf =
  if Nat.leb rnnoiseFrameSize (length buf)
  then
    let '(m1, frame) := rnnoise_process_frame m (take rnnoiseFrameSize buf) in
    let '(m2, out, rest) := frames m1 (drop rnnoiseFrameSize buf) in
    (m2, frame ++ out, rest)
  else (m, [], buf).
Proof.
  unfold frames at 1. cbn [process_frames].
  destruct (Nat.leb_spec rnnoiseFrameSize (length buf)) as [Hl|]; [|done].
  destruct (rnnoise_process_frame m _) as [m1 frame]. unfold frames.
  rewrite (process_frames_fuel (length buf) (S (length (drop rnnoiseFrameSize buf)))); [done|..];
    rewrite length_drop; unfold rnnoiseFrameSize in *; lia.
Qed.

(** Induction frame by frame. *)
Lemma frame_ind (P : rn_state → list rn_sample → Prop) :
  (∀ m buf, (length buf < rnnoiseFrameSize)%nat → P m buf) →
  (∀ m buf, (rnnoiseFrameSize <= length buf)%nat →
     (∀ m', P m' (drop rnnoiseFrameSize buf)) → P m buf) →
  ∀ m buf, P m buf.
Proof.
  intros Hs Hl m buf. revert m.
  remember (length buf) as n eqn:E. revert buf E.
  induction n as [n IH] using lt_wf_ind; intros buf -> m.
  destruct (decide (length buf < rnnoiseFrameSize)%nat); [by apply Hs|].
  apply Hl; [lia|]. intros m'. eapply IH; [|reflexivity].
  rewrite length_drop. unfold rnnoiseFrameSize in *. lia.
Qed.

Lemma frames_rest m buf : (length (frames m buf).2 < rnnoiseFrameSize)%nat.
Proof.
  revert m buf. apply frame_ind; intros m buf Hl; [|intros IH]; rewrite frames_unfold.
  - by rewrite leb_correct_conv.
  - rewrite leb_correct by done.
    destruct (rnnoise_process_frame _ _) as [m1 frame].
    specialize (IH m1). by destruct (frames m1 _) as [[? ?] ?].
Qed.

Lemma frames_app m buf more :
  frames m (buf ++ more) =
  let '(m1, out1, rest) := frames m buf in
  let '(m2, out2, rest2) := frames m1 (rest ++ more) in
  (m2, out1 ++ out2, rest2).
Proof.
  revert m buf. apply frame_ind; intros m buf Hl; [|intros IH].
  - rewrite (frames_unfold m buf), leb_correct_conv by done.
    by destruct (frames m (buf ++ more)) as [[? ?] ?].
  - rewrite (frames_unfold m (buf ++ more)), (frames_unfold m buf).
    rewrite !leb_correct by (rewrite ?length_app; lia).
    rewrite take_app_le, drop_app_le by done.
    destruct (rnnoise_process_frame _ _) as [m1 frame]. rewrite IH.
    destruct (frames m1 _) as [[m2 o1] r1].
    destruct (frames m2 _) as [[m3 o2] r2]. by rewrite app_assoc.
Qed.
(** What reaches the model and what leaves it, at 48 kHz. *)
Definition work (d : RNNoiseDenoiser) (pcm : bytes_) : bytes_ :=
  if inputCh d =? 2 then stereoToMono pcm else pcm.
Definition emit (d : RNNoiseDenoiser) (out : list rn_sample) : bytes_ :=
  if inputCh d =? 2 then monoToStereo (float_to_pcm16 out) else float_to_pcm16 out.

Lemma pcm16_to_float_nil : pcm16_to_float [] = [].
Proof.
  pose proof (pcm16_to_float_app [] []) as E. cbn in E.
  apply (f_equal length) in E; [|by exists 0%nat]. rewrite length_app in E.
  apply nil_length_inv. lia.
Qed.

Lemma float_to_pcm16_nil : float_to_pcm16 [] = [].
Proof. apply nil_length_inv. by rewrite float_to_pcm16_length. Qed.

Lemma emit_nil d : emit d [] = [].
Proof. unfold emit. rewrite float_to_pcm16_nil. by case_match. Qed.

Lemma emit_app d a b : emit d (a ++ b) = emit d a ++ emit d b.
Proof.
  unfold emit. rewrite float_to_pcm16_app. case_match; [|done].
  apply monoToStereo_app. rewrite float_to_pcm16_length. by exists (length a).
Qed.

(** A buffer of whole frames of [ch] 16-bit samples. *)
Definition whole (d : RNNoiseDenoiser) (pcm : bytes_) : Prop :=
  ∃ k, length pcm = (Z.to_nat (2 * inputCh d) * k)%nat.

Lemma work_app d a b :
  inputCh d = 1 ∨ inputCh d = 2 → whole d a → work d (a ++ b) = work d a ++ work d b.
Proof.
  unfold work. intros [E|E] [k Hk]; rewrite E in *; cbn in *; [done|].
  by apply (stereoToMono_app a b k).
Qed.

Lemma work_even d a :
  inputCh d = 1 ∨ inputCh d = 2 → whole d a → Nat.Even (length (work d a)).
Proof.
  unfold work. intros [E|E] [k Hk]; rewrite E in *; cbn in *; [by exists k|].
  exists k. by apply stereoToMono_length.
Qed.

Lemma Denoise_48k d pcm :
  inputSR d = rnnoiseTargetSampleRate → (length (inBuf d) < rnnoiseFrameSize)%nat →
  inputCh d = 1 ∨ inputCh d = 2 → whole d pcm →
  Denoise d pcm =
  let '(m, out, rest) := frames (model d) (inBuf d ++ pcm16_to_float (work d pcm)) in
  Some (set_inBuf d m rest, Ok (emit d out)).
Proof.
  intros Hsr Hbuf Hch [k Hk]. unfold Denoise.
  destruct (Z.eqb_spec (len pcm) 0) as [E|E].
  - assert (pcm = []) as -> by (apply nil_length_inv; unfold len in E; lia).
    assert (work d [] = []) as -> by (unfold work; by case_match).
    rewrite pcm16_to_float_nil, app_nil_r, frames_unfold, leb_correct_conv by done.
    rewrite emit_nil. by destruct d.
  - replace (len pcm mod 2 =? 0) with true.
    2: { symmetry. apply Z.eqb_eq. unfold len. rewrite Hk.
         apply Z.mod_divide; [lia|].
         destruct Hch as [Ec|Ec]; rewrite Ec; [exists (Z.of_nat k)|exists (2 * Z.of_nat k)]; lia. }
    cbn [negb]. fold (work d pcm). unfold toTargetRate. rewrite Hsr, Z.eqb_refl.
    fold (frames (model d) (inBuf d ++ pcm16_to_float (work d pcm))).
    destruct (frames _ _) as [[m out] rest]. destruct out as [|o out]; [by rewrite emit_nil|].
    unfold deliver, fromTargetRate, emit. cbn [inputSR set_inBuf inputCh].
    by rewrite Hsr, Z.eqb_refl.
Qed.

End denoiser_theorems.

(** ** Concrete libraries for the witnesses: raw samples through an identity
    model, a resampler that counts what it has processed. *)

Definition toy_resample (n : nat) (pcm : bytes_) (_ _ : Z) : nat * option bytes_ :=
  (n + length pcm, Some pcm)%nat.

#[export] Instance toy_libs : AudioLibs := {|
  ulaw_decode := λ bs, bs; ulaw_encode := λ bs, bs;
  alaw_decode := λ bs, bs; alaw_encode := λ bs, bs;
  opus_enc := unit; opus_encoder_create := λ _ _, Some tt;
  opus_encode := λ e pcm _ _, (e, Some pcm);
  opus_dec := unit; opus_decoder_create := λ _ _, Some tt;
  opus_decode := λ d bs _, (d, Some bs);
  src_state := nat; resampler_new := λ _ _ _ _, Some 0%nat;
  resampler_get_output_len := λ _ n, n + 8;
  resampler_process := toy_resample;
  resampler_reset := λ _, 0%nat;
  rn_state := unit; rn_sample := Z; rn_zero := 0; rnnoise_create := Some tt;
  rnnoise_process_frame := λ m frame, (m, frame);
  pcm16_to_float := samples;
  float_to_pcm16 := flat_map (λ z, le16 (z mod 65536))
|}.

#[export] Instance toy_reset_laws : ResetLaws.
Proof. split; [by intros ???? ? [= <-]|done]. Qed.

#[export] Instance toy_bridge_laws : BridgeLaws.
Proof.
  split.
  - intros a b. induction a as [|x|x y a IH] using list_ind2; intros He; [done| |].
    + exfalso. cbn in He. destruct He; lia.
    + cbn. f_equal. apply IH. destruct He as [k He]. cbn in He. exists (k - 1)%nat. lia.
  - intros a b. apply flat_map_app.
  - intros l. change (length (flat_map (λ z, le16 (z mod 65536)) l) = (2 * length l)%nat).
    induction l as [|z l IH]; [done|]. cbn [flat_map length]. rewrite length_app, IH. cbn. lia.
Qed.

Definition toy_resampler : Resampler := @mkResampler toy_libs 0%nat 1.
Definition toy_pools : Pools := mkPools ∅ ∅ {[ (1, 8000, 16000, QualityLinear) := [toy_resampler] ]}.
Definition toy_denoiser : RNNoiseDenoiser :=
  @mkDenoiser toy_libs tt 48000 2 None None (replicate 479 7).

Lemma pooled_resampling_stateless_witness :
  snd <$> ResamplePCMBytes toy_pools [x01; x02] 1 8000 16000 QualityLinear = Some (Ok [x01; x02]).
Proof.
  assert (fresh_pools toy_pools) as Hf.
  { intros ch i o q. unfold free_of, toy_pools. cbn [resamplers].
    destruct (decide ((1, 8000, 16000, QualityLinear) = (ch, i, o, q))) as [E|E].
    - injection E as <- <- <- <-. rewrite lookup_singleton_eq. repeat constructor.
    - rewrite lookup_singleton_ne by done. constructor. }
  exact (proj1 (pooled_resampling_stateless toy_pools [x01; x02] 1 8000 16000 QualityLinear Hf)).
Defined.

