(* ===== verification/AudioBuffers.v ===== *)
(** * Recycled buffers of [utils/audio/]

    The byte and float buffers that [audio.go] and [resample_cgo.go] recycle
    through [sync.Pool]s, as one shared store of arrays with the pools that
    point into it, and the conversions that write into such buffers, one write
    at a time, from any number of goroutines.  A buffer keeps what its last user
    left in it.  The functions of [Audio] are what each conversion must
    compute. *)

From Stdlib Require Import Strings.Byte.
From S2P Require Import Prelude Core Audio.

Local Open Scope string_scope.
Local Open Scope list_scope.
Local Open Scope nat_scope.

(** ** Arrays and pools *)

Inductive pool_name : Type :=
| channelConvPool | uint16BufferPool | wavHeaderPool | floatBufferPool | byteBufferPool.

#[export] Instance pool_name_eq_dec : EqDecision pool_name.
Proof. solve_decision. Defined.

Definition all_pools : list pool_name :=
  [channelConvPool; uint16BufferPool; wavHeaderPool; floatBufferPool; byteBufferPool].

(** What the bridge to libsamplerate does with the floats of one call: the
    conversions are those of [resample_bridge.c], [resample_floats] is the
    borrowed resampler in the state it was borrowed in, [None] its negative
    answer.  The C code writes no more than the capacity it is told. *)
Class FloatBridge := {
  float : Type;
  float_zero : float;
  pcm16_to_floats : bytes_ → list float;
  floats_to_pcm16 : list float → bytes_;
  resample_floats : list float → nat → option (list float);    (* samples, capacity *)
  pcm16_to_floats_length : ∀ pcm, length (pcm16_to_floats pcm) = length pcm / 2;
  floats_to_pcm16_length : ∀ fs, length (floats_to_pcm16 fs) = 2 * length fs;
  resample_floats_fits : ∀ fs n out, resample_floats fs n = Some out → length out ≤ n
}.

Section buffers.
Context `{FloatBridge}.

(** Arrays are numbered as they are made; the capacity is the length of the
    list.  For the WAV pool, whose [bytes.Buffer]s grow, the list is what has
    been written. *)
Record store := mkStore {
  byte_arrays : gmap nat bytes_;
  float_arrays : gmap nat (list float);
  made : nat;
  free : pool_name → list nat
}.

Definition new_store : store := mkStore ∅ ∅ 0 (λ _, []).

Definition bytes_at (s : store) (i : nat) : bytes_ := default [] (byte_arrays s !! i).
Definition floats_at (s : store) (i : nat) : list float := default [] (float_arrays s !! i).

Definition set_bytes (s : store) (i : nat) (bs : bytes_) : store :=
  mkStore (<[i := bs]> (byte_arrays s)) (float_arrays s) (made s) (free s).
Definition set_floats (s : store) (i : nat) (fs : list float) : store :=
  mkStore (byte_arrays s) (<[i := fs]> (float_arrays s)) (made s) (free s).
Definition set_free (s : store) (p : pool_name) (l : list nat) : store :=
  mkStore (byte_arrays s) (float_arrays s) (made s) (λ q, if decide (q = p) then l else free s q).

(** [make([]byte, n)] and [make([]float32, n)]. *)
Definition make_bytes (s : store) (n : nat) : store * nat :=
  (mkStore (<[made s := replicate n x00]> (byte_arrays s)) (float_arrays s) (S (made s)) (free s), made s).
Definition make_floats (s : store) (n : nat) : store * nat :=
  (mkStore (byte_arrays s) (<[made s := replicate n float_zero]> (float_arrays s)) (S (made s)) (free s),
   made s).

(** [sync.Pool.Get]: some pooled element, here the one at position [k], or what
    [New] makes. *)
Definition pool_Get (s : store) (p : pool_name) (k : nat) (New : store → store * nat) : store * nat :=
  match free s p !! k with
  | Some i => (set_free s p (delete k (free s p)), i)
  | None => New s
  end.

Definition pool_Put (s : store) (p : pool_name) (i : nat) : store := set_free s p (i :: free s p).

Definition getChannelConvBuffer (s : store) (k capacity : nat) : store * nat :=
  let '(s1, i) := pool_Get s channelConvPool k (λ s, make_bytes s 4096) in
  if Nat.ltb (length (bytes_at s1 i)) capacity then make_bytes s1 capacity else (s1, i).
Definition putChannelConvBuffer (s : store) (i : nat) : store :=
  if Nat.leb (length (bytes_at s i)) 32768 then pool_Put s channelConvPool i else s.

Definition getUint16Buffer (s : store) (k : nat) : store * nat :=
  pool_Get s uint16BufferPool k (λ s, make_bytes s 2).
Definition putUint16Buffer (s : store) (i : nat) : store := pool_Put s uint16BufferPool i.

Definition getWavHeaderBuffer (s : store) (k : nat) : store * nat :=
  pool_Get s wavHeaderPool k (λ s, make_bytes s 0).
Definition putWavHeaderBuffer (s : store) (i : nat) : store :=
  pool_Put (set_bytes s i []) wavHeaderPool i.

Definition getFloatBuffer (s : store) (k size : nat) : store * nat :=
  let '(s1, i) := pool_Get s floatBufferPool k (λ s, make_floats s 8192) in
  if Nat.ltb (length (floats_at s1 i)) size then make_floats s1 size else (s1, i).
Definition putFloatBuffer (s : store) (i : nat) : store :=
  if Nat.leb (length (floats_at s i)) 65536 then pool_Put s floatBufferPool i else s.

Definition getByteBuffer (s : store) (k size : nat) : store * nat :=
  let '(s1, i) := pool_Get s byteBufferPool k (λ s, make_bytes s 16384) in
  if Nat.ltb (length (bytes_at s1 i)) size then make_bytes s1 size else (s1, i).
Definition putByteBuffer (s : store) (i : nat) : store :=
  if Nat.leb (length (bytes_at s i)) 131072 then pool_Put s byteBufferPool i else s.

(** ** The conversions, write by write *)

Inductive job : Type :=
| MonoToStereo (pcm : bytes_)
| StereoToMono (pcm : bytes_)
| WavBytes (pcm : bytes_) (numChannels sampleRate : Z)
| Resampling (pcm : bytes_) (outputSamples : nat).

Inductive outcome : Type :=
| Returns (bs : bytes_)
| Fails                  (* "resampling failed" *)
| Panics.                (* [&outputPCM\[0\]] of an empty slice *)

(** What each must do. *)
Definition expected (j : job) : outcome :=
  match j with
  | MonoToStereo pcm => Returns (monoToStereo pcm)
  | StereoToMono pcm => Returns (stereoToMono pcm)
  | WavBytes pcm n rate => Returns (wav_header (len pcm) n rate ++ pcm)
  | Resampling pcm n =>
      match resample_floats (pcm16_to_floats pcm) n with
      | None => Fails
      | Some [] => Panics
      | Some fs => Returns (floats_to_pcm16 fs)
      end
  end.

(** The checks of [PCMBytesToWavBytes] and [Resample] come before a buffer is
    taken; the other two have none. *)
Definition accepted (j : job) : bool :=
  match j with
  | MonoToStereo _ | StereoToMono _ => true
  | WavBytes pcm n rate => is_ok (PCMBytesToWavBytes pcm n rate)
  | Resampling pcm n => Nat.ltb 0 (length pcm) && Nat.even (length pcm) && Nat.ltb 0 n
  end.

(** A goroutine in a conversion.  [buf] is the slice it writes, [d] the one its
    [defer] puts back; [k] counts the writes done. *)
Inductive worker : Type :=
| Copying (pcm : bytes_) (buf d k : nat)
| Averaging (pcm : bytes_) (buf d u16 k : nat)
| Framing (pcm : bytes_) (numChannels sampleRate : Z) (buf : nat) (fields : list bytes_)
| Loading (pcm : bytes_) (outputSamples inp out : nat)
| Processing (pcm : bytes_) (outputSamples inp out : nat)
| Unloading (pcm : bytes_) (outputSamples inp out buf produced : nat)
| Returning (pcm : bytes_) (outputSamples inp out buf produced : nat)
| Finished (j : job) (o : outcome).

(** [result\[k\] = b] within a slice of length [n]; [None] is a panic. *)
Definition write (s : store) (buf n k : nat) (b : byte) : option store :=
  if Nat.ltb k n then Some (set_bytes s buf (<[k := b]> (bytes_at s buf))) else None.

(** Filling the front of an array; [None] is writing past its end. *)
Definition overwrite {A} (front arr : list A) : option (list A) :=
  if Nat.leb (length front) (length arr) then Some (front ++ drop (length front) arr) else None.

(** The header, field by field. *)
Definition header_fields (dataSize numChannels sampleRate : Z) : list bytes_ :=
  let blockAlign := (numChannels * 16 / 8)%Z in
  [ascii_bytes "RIFF"; le32 (36 + dataSize); ascii_bytes "WAVE"; ascii_bytes "fmt "; le32 16; le16 1;
   le16 numChannels; le32 sampleRate; le32 (sampleRate * blockAlign); le16 blockAlign; le16 16;
   ascii_bytes "data"; le32 dataSize].

(** The slice a channel conversion writes, and the one it puts back. *)
Definition result_slice (s : store) (k size : nat) : store * nat * nat :=
  let '(s1, d) := getChannelConvBuffer s k size in
  let '(s2, buf) := if Nat.ltb (length (bytes_at s1 d)) size then make_bytes s1 size else (s1, d) in
  (s2, buf, d).

(** The buffers a conversion starts with; [k1] and [k2] are what the pools
    hand out. *)
Definition begin_job (s : store) (j : job) (k1 k2 : nat) : store * worker :=
  match j with
  | MonoToStereo pcm =>
      let '(s1, buf, d) := result_slice s k1 (length pcm / 2 * 4) in
      (s1, Copying pcm buf d 0)
  | StereoToMono pcm =>
      let '(s2, buf, d) := result_slice s k1 (length pcm / 4 * 2) in
      let '(s3, u16) := getUint16Buffer s2 k2 in
      (s3, Averaging pcm buf d u16 0)
  | WavBytes pcm n rate =>
      let '(s1, buf) := getWavHeaderBuffer s k1 in
      (s1, Framing pcm n rate buf (header_fields (len pcm) n rate))
  | Resampling pcm n =>
      let '(s1, inp) := getFloatBuffer s k1 (length pcm / 2) in
      let '(s2, out) := getFloatBuffer s1 k2 n in
      (s2, Loading pcm n inp out)
  end.

(** The two bytes of the average of frame [i]. *)
Definition average_bytes (pcm : bytes_) (i : nat) : bytes_ :=
  le16 (average (int16 (uint16 (slice pcm (i * 4) (i * 4 + 2))))
                (int16 (uint16 (slice pcm (i * 4 + 2) (i * 4 + 4)))) mod 65536).

(** The next write, or the copy that is returned with the deferred calls, last
    first.  [k] is what the byte pool hands out to the resampler. *)
Definition advance (s : store) (w : worker) (k : nat) : option (store * worker) :=
  match w with
  | Copying pcm buf d i =>
      let size := length pcm / 2 * 4 in
      if Nat.ltb i size
      then
        match pcm !! (i / 4 * 2 + i mod 2) with
        | None => None
        | Some b => (λ s', (s', Copying pcm buf d (S i))) <$> write s buf size i b
        end
      else Some (putChannelConvBuffer s d,
                 Finished (MonoToStereo pcm) (Returns (take size (bytes_at s buf))))
  | Averaging pcm buf d u16 i =>
      let size := length pcm / 4 * 2 in
      if Nat.ltb (i / 3) (length pcm / 4)
      then
        match i mod 3 with
        | O =>
            (λ bs, (set_bytes s u16 bs, Averaging pcm buf d u16 (S i))) <$>
              overwrite (average_bytes pcm (i / 3)) (bytes_at s u16)
        | S j =>
            match bytes_at s u16 !! j with
            | None => None
            | Some b => (λ s', (s', Averaging pcm buf d u16 (S i))) <$> write s buf size (i / 3 * 2 + j) b
            end
        end
      else Some (putChannelConvBuffer (putUint16Buffer s u16) d,
                 Finished (StereoToMono pcm) (Returns (take size (bytes_at s buf))))
  | Framing pcm n rate buf (f :: fields) =>
      Some (set_bytes s buf (bytes_at s buf ++ f), Framing pcm n rate buf fields)
  | Framing pcm n rate buf [] =>
      Some (putWavHeaderBuffer s buf, Finished (WavBytes pcm n rate) (Returns (bytes_at s buf ++ pcm)))
  | Loading pcm n inp out =>
      (λ fs, (set_floats s inp fs, Processing pcm n inp out)) <$>
        overwrite (pcm16_to_floats pcm) (floats_at s inp)
  | Processing pcm n inp out =>
      match resample_floats (take (length pcm / 2) (floats_at s inp)) n with
      | None => Some (putFloatBuffer (putFloatBuffer s out) inp, Finished (Resampling pcm n) Fails)
      | Some fs =>
          (λ fs', let '(s2, buf) := getByteBuffer (set_floats s out fs') k (2 * length fs) in
                  (s2, Unloading pcm n inp out buf (length fs))) <$> overwrite fs (floats_at s out)
      end
  | Unloading pcm n inp out buf O =>
      Some (putFloatBuffer (putFloatBuffer (putByteBuffer s buf) out) inp, Finished (Resampling pcm n) Panics)
  | Unloading pcm n inp out buf m =>
      (λ bs, (set_bytes s buf bs, Returning pcm n inp out buf m)) <$>
        overwrite (floats_to_pcm16 (take m (floats_at s out))) (bytes_at s buf)
  | Returning pcm n inp out buf m =>
      Some (putFloatBuffer (putFloatBuffer (putByteBuffer s buf) out) inp,
            Finished (Resampling pcm n) (Returns (take (2 * m) (bytes_at s buf))))
  | Finished _ _ => Some (s, w)
  end.

(** ** All goroutines together *)

Record system := mkSystem { shared : store; workers : list worker }.

Inductive event : Type :=
| Begin (j : job) (k1 k2 : nat)
| Advance (t k : nat)
| Collect (p : pool_name) (k : nat).      (* the garbage collector empties a pool slot *)

Definition sys_step (y : system) (e : event) : option system :=
  match e with
  | Begin j k1 k2 =>
      if accepted j
      then let '(s, w) := begin_job (shared y) j k1 k2 in Some (mkSystem s (workers y ++ [w]))
      else Some y
  | Advance t k =>
      match workers y !! t with
      | None => Some y
      | Some w =>
          (λ r, mkSystem r.1 (<[t := r.2]> (workers y))) <$> advance (shared y) w k
      end
  | Collect p k => Some (mkSystem (set_free (shared y) p (delete k (free (shared y) p))) (workers y))
  end.

Fixpoint sys_run (y : system) (es : list event) : option system :=
  match es with
  | [] => Some y
  | e :: es' => sys_step y e ≫= λ y', sys_run y' es'
  end.

(** ** Who holds which array *)

Definition held (w : worker) : list nat :=
  match w with
  | Copying _ buf _ _ => [buf]
  | Averaging _ buf _ u16 _ => [buf; u16]
  | Framing _ _ _ buf _ => [buf]
  | Loading _ _ inp out | Processing _ _ inp out => [inp; out]
  | Unloading _ _ inp out buf _ | Returning _ _ inp out buf _ => [inp; out; buf]
  | Finished _ _ => []
  end.

Definition all_free (s : store) : list nat := concat (map (free s) all_pools).

(** A conversion has written its part of the result so far. *)
Definition worker_ok (s : store) (w : worker) : Prop :=
  match w with
  | Copying pcm buf d i =>
      buf = d ∧ i <= length pcm / 2 * 4 <= length (bytes_at s buf) ∧
      take i (bytes_at s buf) = take i (monoToStereo pcm)
  | Averaging pcm buf d u16 i =>
      let written := i / 3 * 2 + pred (i mod 3) in
      buf = d ∧ length (bytes_at s u16) = 2 ∧ i <= length pcm / 4 * 3 ∧
      length pcm / 4 * 2 <= length (bytes_at s buf) ∧
      take written (bytes_at s buf) = take written (stereoToMono pcm) ∧
      (i mod 3 ≠ 0 → bytes_at s u16 = average_bytes pcm (i / 3))
  | Framing pcm n rate buf fields => bytes_at s buf ++ concat fields = wav_header (len pcm) n rate
  | Loading pcm n inp out => length pcm / 2 <= length (floats_at s inp) ∧ n <= length (floats_at s out)
  | Processing pcm n inp out =>
      take (length pcm / 2) (floats_at s inp) = pcm16_to_floats pcm ∧ n <= length (floats_at s out)
  | Unloading pcm n inp out buf m =>
      ∃ fs, resample_floats (pcm16_to_floats pcm) n = Some fs ∧ length fs = m ∧
        take m (floats_at s out) = fs ∧ 2 * m <= length (bytes_at s buf)
  | Returning pcm n inp out buf m =>
      ∃ fs, resample_floats (pcm16_to_floats pcm) n = Some fs ∧ length fs = m ∧ m ≠ 0 ∧
        take (2 * m) (bytes_at s buf) = floats_to_pcm16 fs
  | Finished j o => o = expected j
  end.

(** What is in the pools is as its users expect it. *)
Record pools_ok (s : store) : Prop := mkPoolsOk {
  po_uint16 : ∀ i, i ∈ free s uint16BufferPool → length (bytes_at s i) = 2;
  po_header : ∀ i, i ∈ free s wavHeaderPool → bytes_at s i = []
}.

(** From store [s] with arrays [h] held to [s'] with [h'] held: arrays come
    from what was held, from the pools or are new, and no other array
    changes. *)
Record moves (s : store) (h : list nat) (s' : store) (h' : list nat) : Prop := mkMoves {
  mv_made : made s ≤ made s';
  mv_ids : h' ++ all_free s' ⊆+ seq (made s) (made s' - made s) ++ h ++ all_free s;
  mv_agree : ∀ i, i < made s → i ∉ h ++ all_free s →
    bytes_at s' i = bytes_at s i ∧ floats_at s' i = floats_at s i
}.

Lemma all_free_put s p i : all_free (set_free s p (i :: free s p)) ≡ₚ i :: all_free s.
Proof. destruct p; unfold all_free; cbn; solve_Permutation. Qed.

Lemma all_free_take s p k i :
  free s p !! k = Some i → all_free s ≡ₚ i :: all_free (set_free s p (delete k (free s p))).
Proof.
  intros Hk. apply delete_Permutation in Hk. destruct p; unfold all_free; cbn; rewrite Hk at 1; solve_Permutation.
Qed.

Lemma moves_refl s h h' : h' ⊆+ h → moves s h s h'.
Proof.
  intros Hh. split; [done| |done]. rewrite Nat.sub_diag. cbn. by apply submseteq_app.
Qed.

Lemma moves_trans s1 h1 s2 h2 s3 h3 : moves s1 h1 s2 h2 → moves s2 h2 s3 h3 → moves s1 h1 s3 h3.
Proof.
  intros [A1 B1 C1] [A2 B2 C2]. split; [lia| |].
  - transitivity (seq (made s2) (made s3 - made s2) ++ h2 ++ all_free s2); [done|].
    replace (made s3 - made s1) with ((made s2 - made s1) + (made s3 - made s2)) by lia.
    rewrite seq_app. replace (made s1 + (made s2 - made s1)) with (made s2) by lia.
    rewrite (Permutation_app_comm (seq (made s1) _)), <-app_assoc. by apply submseteq_app.
  - intros i Hi Hn. assert (i ∉ h2 ++ all_free s2) as Hn2.
    { intros Hin. eapply elem_of_submseteq in Hin; [|exact B1]. apply elem_of_app in Hin as [Hin|Hin]; [|done].
      apply elem_of_seq in Hin. lia. }
    destruct (C1 i Hi Hn) as [<- <-]. apply C2; [lia|done].
Qed.

(** A store with arrays [h] held: nothing is held twice, pooled twice, or both. *)
Record wf (s : store) (h : list nat) : Prop := mkWf {
  wf_pools : pools_ok s;
  wf_NoDup : NoDup (h ++ all_free s);
  wf_made : ∀ i, i ∈ h ++ all_free s → i < made s
}.

Definition evolves (s : store) (h : list nat) (s' : store) (h' : list nat) : Prop :=
  wf s h → moves s h s' h' ∧ pools_ok s'.

Lemma NoDup_submseteq_l {A} (l l' : list A) : l' ⊆+ l → NoDup l → NoDup l'.
Proof. intros [k ->]%submseteq_Permutation. by intros (? & _ & _)%NoDup_app. Qed.

Lemma evolves_wf s h s' h' : evolves s h s' h' → wf s h → wf s' h'.
Proof.
  intros He Hw. destruct (He Hw) as [[Hm Hi _] Hp]. destruct Hw as [_ Hn Hb]. split; [done| |].
  - eapply NoDup_submseteq_l; [exact Hi|]. apply NoDup_app. split; [apply NoDup_seq|split; [|done]].
    intros i Hs Hin%Hb. apply elem_of_seq in Hs. lia.
  - intros i Hin. eapply elem_of_submseteq in Hin; [|exact Hi].
    apply elem_of_app in Hin as [Hs%elem_of_seq|Hin%Hb]; lia.
Qed.

Lemma evolves_trans s1 h1 s2 h2 s3 h3 : evolves s1 h1 s2 h2 → evolves s2 h2 s3 h3 → evolves s1 h1 s3 h3.
Proof.
  intros H1 H2 Hw. pose proof (evolves_wf _ _ _ _ H1 Hw) as Hw2.
  destruct (H1 Hw) as [M1 _], (H2 Hw2) as [M2 P]. split; [by eapply moves_trans|done].
Qed.

Lemma evolves_perm s h h2 : h2 ≡ₚ h → evolves s h s h2.
Proof. intros Hp Hw. split; [apply moves_refl; by rewrite Hp|apply Hw]. Qed.

Lemma wf_app_l s h rest : wf s (h ++ rest) → wf s h.
Proof.
  intros [Hp Hn Hb]. rewrite <-app_assoc in Hn.
  assert (h ++ all_free s ⊆+ (h ++ rest) ++ all_free s) as Hs.
  { rewrite <-app_assoc. apply submseteq_app; [done|]. by apply submseteq_inserts_l. }
  split; [done| |].
  - eapply NoDup_submseteq_l; [exact Hs|]. by rewrite <-app_assoc.
  - intros i Hi. apply Hb. by eapply elem_of_submseteq.
Qed.

(** What one goroutine does leaves what the others hold alone. *)
Lemma evolves_frame s h s' h' rest : evolves s h s' h' → wf s (h ++ rest) →
  wf s' (h' ++ rest) ∧
  ∀ i, i ∈ rest → bytes_at s' i = bytes_at s i ∧ floats_at s' i = floats_at s i.
Proof.
  intros He Hw. destruct (He (wf_app_l _ _ _ Hw)) as [[Hm Hi Ha] Hp]. pose proof Hw as [_ Hn Hb].
  assert (evolves s (h ++ rest) s' (h' ++ rest)) as He2.
  { intros _. split; [split; [done| |]|done].
    - rewrite <-!app_assoc, (Permutation_app_comm rest), (Permutation_app_comm rest (all_free s)).
      rewrite !app_assoc. apply submseteq_app; [|done]. by rewrite <-app_assoc.
    - intros i Hi2 Hni. apply Ha; [done|]. set_solver. }
  split; [by eapply evolves_wf|]. intros i Hr. apply Ha; [apply Hb; set_solver|].
  rewrite <-app_assoc, !NoDup_app in Hn. set_solver.
Qed.

(** ** The operations *)

Lemma bytes_at_set s i bs j : bytes_at (set_bytes s i bs) j = if decide (i = j) then bs else bytes_at s j.
Proof. unfold bytes_at. cbn. destruct (decide (i = j)) as [->|]; by simplify_map_eq. Qed.

Lemma floats_at_set s i fs j : floats_at (set_floats s i fs) j = if decide (i = j) then fs else floats_at s j.
Proof. unfold floats_at. cbn. destruct (decide (i = j)) as [->|]; by simplify_map_eq. Qed.

Lemma in_all_free s p i : i ∈ free s p → i ∈ all_free s.
Proof. intros Hi. destruct p; unfold all_free; cbn; set_solver. Qed.

Lemma set_bytes_evolves s h i bs : i ∈ h → evolves s h (set_bytes s i bs) h.
Proof.
  intros Hi [[Hu Hw] Hn Hb]. assert (∀ p j, j ∈ free s p → i ≠ j) as Hne.
  { intros p j Hj%in_all_free ->. rewrite NoDup_app in Hn. by apply (proj1 (proj2 Hn) j). }
  split; [split; [done|by rewrite Nat.sub_diag|]|split]; cbn [free set_bytes].
  - intros j _ Hj. rewrite bytes_at_set, decide_False by set_solver. done.
  - intros j Hj. rewrite bytes_at_set, decide_False by eauto. by apply Hu.
  - intros j Hj. rewrite bytes_at_set, decide_False by eauto. by apply Hw.
Qed.

Lemma set_floats_evolves s h i fs : i ∈ h → evolves s h (set_floats s i fs) h.
Proof.
  intros Hi [[Hu Hw] Hn Hb]. split; [split; [done|by rewrite Nat.sub_diag|]|by split].
  intros j _ Hj. rewrite floats_at_set, decide_False by set_solver. done.
Qed.

Lemma make_bytes_evolves s h n : evolves s h (make_bytes s n).1 ((make_bytes s n).2 :: h).
Proof.
  intros [[Hu Hw] Hn Hb]. assert (∀ j, j < made s → bytes_at (make_bytes s n).1 j = bytes_at s j) as Hs.
  { intros j Hj. unfold bytes_at. cbn. by rewrite lookup_insert_ne by lia. }
  split; [split|split].
  - cbn. lia.
  - cbn. replace (S (made s) - made s) with 1 by lia. done.
  - intros j Hj _. by rewrite Hs.
  - intros j Hj. rewrite Hs; [by apply Hu|]. apply Hb, elem_of_app. right. by eapply in_all_free.
  - intros j Hj. rewrite Hs; [by apply Hw|]. apply Hb, elem_of_app. right. by eapply in_all_free.
Qed.

Lemma make_floats_evolves s h n : evolves s h (make_floats s n).1 ((make_floats s n).2 :: h).
Proof.
  intros [[Hu Hw] Hn Hb]. split; [split|by split].
  - cbn. lia.
  - cbn. replace (S (made s) - made s) with 1 by lia. done.
  - intros j Hj _. split; [done|]. unfold floats_at. cbn. by rewrite lookup_insert_ne by lia.
Qed.

Lemma set_free_pools s p l :
  (∀ i, i ∈ l → i ∉ free s p → p = uint16BufferPool → length (bytes_at s i) = 2) →
  (∀ i, i ∈ l → i ∉ free s p → p = wavHeaderPool → bytes_at s i = []) →
  pools_ok s → pools_ok (set_free s p l).
Proof.
  intros H1 H2 [Hu Hw]. split; intros i; cbn; case_decide as E; subst.
  - intros Hi. destruct (decide (i ∈ free s uint16BufferPool)); [by apply Hu|by apply H1].
  - apply Hu.
  - intros Hi. destruct (decide (i ∈ free s wavHeaderPool)); [by apply Hw|by apply H2].
  - apply Hw.
Qed.

Lemma all_free_shrink s p l : l ⊆+ free s p → all_free (set_free s p l) ⊆+ all_free s.
Proof. intros Hl. destruct p; unfold all_free; cbn; repeat apply submseteq_app; done. Qed.

Lemma drop_free_evolves s h p k : evolves s h (set_free s p (delete k (free s p))) h.
Proof.
  intros Hw. split; [split; [done| |done]|].
  - rewrite Nat.sub_diag. cbn [seq app]. apply submseteq_app; [done|].
    apply all_free_shrink, sublist_submseteq, sublist_delete.
  - apply set_free_pools; [| |apply Hw]; intros i Hi []; by eapply list_elem_of_delete_inv.
Qed.

Lemma pool_Get_evolves s h p k New :
  (∀ s h, evolves s h (New s).1 ((New s).2 :: h)) →
  evolves s h (pool_Get s p k New).1 ((pool_Get s p k New).2 :: h).
Proof.
  intros HN. unfold pool_Get. destruct (free s p !! k) as [i|] eqn:E; [|apply HN]. cbn [fst snd].
  intros Hw. destruct (drop_free_evolves s h p k Hw) as [_ Hp]. split; [|done]. split; [done| |done].
  rewrite Nat.sub_diag. cbn [seq app]. rewrite (all_free_take _ _ _ _ E). by rewrite Permutation_middle.
Qed.

Lemma bytes_at_make s n : bytes_at (make_bytes s n).1 (make_bytes s n).2 = replicate n x00.
Proof. unfold bytes_at. cbn. by rewrite lookup_insert_eq. Qed.

Lemma floats_at_make s n : floats_at (make_floats s n).1 (make_floats s n).2 = replicate n float_zero.
Proof. unfold floats_at. cbn. by rewrite lookup_insert_eq. Qed.

(** What [Get] hands out is a pooled array as it is, or a new one. *)
Lemma pool_Get_bytes s p k n (P : bytes_ → Prop) :
  (∀ i, i ∈ free s p → P (bytes_at s i)) → P (replicate n x00) →
  let r := pool_Get s p k (λ s, make_bytes s n) in P (bytes_at r.1 r.2).
Proof.
  intros Hf Hn r. subst r. unfold pool_Get. destruct (free s p !! k) as [i|] eqn:E; cbn beta iota.
  - apply Hf. by eapply list_elem_of_lookup_2.
  - by rewrite bytes_at_make.
Qed.

Lemma pool_Put_evolves s h p i :
  (p = uint16BufferPool → length (bytes_at s i) = 2) → (p = wavHeaderPool → bytes_at s i = []) →
  evolves s (i :: h) (pool_Put s p i) h.
Proof.
  intros H1 H2 Hw. split; [split; [done| |]|].
  - rewrite Nat.sub_diag. cbn [seq app]. unfold pool_Put. rewrite all_free_put. by rewrite Permutation_middle.
  - done.
  - apply set_free_pools; [| |apply Hw]; intros j [->|?]%elem_of_cons ? ->; eauto; done.
Qed.

(** A conditional [Put]: a large buffer is left to the garbage collector. *)
Lemma put_if_evolves s h p i (b : bool) : p ≠ uint16BufferPool → p ≠ wavHeaderPool →
  evolves s (i :: h) (if b then pool_Put s p i else s) h.
Proof.
  intros H1 H2. destruct b; [by apply pool_Put_evolves|]. intros Hw. split; [|apply Hw].
  apply moves_refl. by apply submseteq_cons.
Qed.

(** [Get], and a larger array when the one handed out is too small; the small
    one is dropped. *)
Lemma grow_evolves s h s1 i (b : bool) (mk : store → store * nat) :
  (∀ s h, evolves s h (mk s).1 ((mk s).2 :: h)) → evolves s h s1 (i :: h) →
  let r := if b then mk s1 else (s1, i) in evolves s h r.1 (r.2 :: h).
Proof.
  intros Hm H1 r. subst r. destruct b; [|done]. eapply evolves_trans; [exact H1|].
  eapply evolves_trans; [|apply Hm]. intros Hw. split; [|apply Hw]. apply moves_refl. by apply submseteq_cons.
Qed.

Lemma getChannelConvBuffer_evolves s h k n :
  let r := getChannelConvBuffer s k n in evolves s h r.1 (r.2 :: h) ∧ n <= length (bytes_at r.1 r.2).
Proof.
  unfold getChannelConvBuffer. destruct (pool_Get _ _ _ _) as [s1 i] eqn:E. split.
  - apply (grow_evolves s h s1 i _ (λ s, make_bytes s n)); [intros; apply make_bytes_evolves|].
    pose proof (pool_Get_evolves s h channelConvPool k (λ s, make_bytes s 4096)) as Hg. rewrite E in Hg.
    apply Hg. intros. apply make_bytes_evolves.
  - destruct (Nat.ltb_spec (length (bytes_at s1 i)) n); [|done].
    by rewrite bytes_at_make, length_replicate.
Qed.

Lemma getByteBuffer_evolves s h k n :
  let r := getByteBuffer s k n in evolves s h r.1 (r.2 :: h) ∧ n <= length (bytes_at r.1 r.2).
Proof.
  unfold getByteBuffer. destruct (pool_Get _ _ _ _) as [s1 i] eqn:E. split.
  - apply (grow_evolves s h s1 i _ (λ s, make_bytes s n)); [intros; apply make_bytes_evolves|].
    pose proof (pool_Get_evolves s h byteBufferPool k (λ s, make_bytes s 16384)) as Hg. rewrite E in Hg.
    apply Hg. intros. apply make_bytes_evolves.
  - destruct (Nat.ltb_spec (length (bytes_at s1 i)) n); [|done].
    by rewrite bytes_at_make, length_replicate.
Qed.

Lemma getFloatBuffer_evolves s h k n :
  let r := getFloatBuffer s k n in evolves s h r.1 (r.2 :: h) ∧ n <= length (floats_at r.1 r.2).
Proof.
  unfold getFloatBuffer. destruct (pool_Get _ _ _ _) as [s1 i] eqn:E. split.
  - apply (grow_evolves s h s1 i _ (λ s, make_floats s n)); [intros; apply make_floats_evolves|].
    pose proof (pool_Get_evolves s h floatBufferPool k (λ s, make_floats s 8192)) as Hg. rewrite E in Hg.
    apply Hg. intros. apply make_floats_evolves.
  - destruct (Nat.ltb_spec (length (floats_at s1 i)) n); [|done].
    by rewrite floats_at_make, length_replicate.
Qed.

(** ** What the writes amount to *)

Lemma mono_length pcm : length (monoToStereo pcm) = length pcm / 2 * 4.
Proof.
  revert pcm. fix IH 1. intros [|b0 [|b1 rest]]; [done..|]. cbn [monoToStereo length].
  rewrite IH. replace (S (S (length rest))) with (length rest + 1 * 2) by lia. rewrite Nat.div_add; lia.
Qed.

Lemma stereo_length pcm : length (stereoToMono pcm) = length pcm / 4 * 2.
Proof.
  revert pcm. fix IH 1. intros [|b0 [|b1 [|b2 [|b3 rest]]]]; [done..|]. cbn [stereoToMono].
  rewrite length_app, IH. cbn [length le16].
  replace (S (S (S (S (length rest))))) with (length rest + 1 * 4) by lia. rewrite Nat.div_add; lia.
Qed.

Lemma mono_lookup pcm : ∀ k, k < length pcm / 2 * 4 →
  monoToStereo pcm !! k = pcm !! (k / 4 * 2 + k mod 2) ∧ is_Some (pcm !! (k / 4 * 2 + k mod 2)).
Proof.
  revert pcm. fix IH 1. intros [|b0 [|b1 rest]] k; [cbn; lia..|]. cbn [length].
  replace (S (S (length rest))) with (length rest + 1 * 2) by lia. rewrite Nat.div_add by lia. intros Hk.
  destruct k as [|[|[|[|k]]]]; [by cbn; eauto..|]. cbn [monoToStereo lookup list_lookup].
  destruct (IH rest k) as [H1 H2]; [lia|].
  replace (S (S (S (S k))) / 4 * 2 + S (S (S (S k))) mod 2) with (S (S (k / 4 * 2 + k mod 2))); [done|].
  replace (S (S (S (S k)))) with (k + 1 * 4) by lia. rewrite Nat.div_add by lia.
  replace (k + 1 * 4) with (k + 2 * 2) by lia. rewrite Nat.Div0.mod_add. lia.
Qed.

Lemma slice_cons4 {b0 b1 b2 b3 rest} i j :
  slice (b0 :: b1 :: b2 :: b3 :: rest) (S i * 4 + j) (S i * 4 + S (S j)) = slice rest (i * 4 + j) (i * 4 + S (S j)).
Proof.
  unfold slice. replace (S i * 4 + j) with (S (S (S (S (i * 4 + j))))) by lia.
  cbn [drop]. f_equal; lia.
Qed.

Lemma average_bytes_cons b0 b1 b2 b3 rest i :
  average_bytes (b0 :: b1 :: b2 :: b3 :: rest) (S i) = average_bytes rest i.
Proof.
  unfold average_bytes. replace (S i * 4) with (S i * 4 + 0) by lia. rewrite <-!Nat.add_assoc. cbn [Nat.add].
  rewrite !slice_cons4. by rewrite Nat.add_0_r.
Qed.

Lemma stereo_lookup pcm : ∀ i j, i < length pcm / 4 → j < 2 →
  stereoToMono pcm !! (i * 2 + j) = average_bytes pcm i !! j.
Proof.
  revert pcm. fix IH 1. intros [|b0 [|b1 [|b2 [|b3 rest]]]] i j; [cbn; lia..|]. cbn [length].
  replace (S (S (S (S (length rest))))) with (length rest + 1 * 4) by lia. rewrite Nat.div_add by lia.
  intros Hi Hj. destruct i as [|i].
  - cbn [stereoToMono Nat.mul Nat.add]. rewrite lookup_app_l by (cbn; lia). done.
  - rewrite average_bytes_cons, <-IH by lia. cbn [stereoToMono]. rewrite lookup_app_r by (cbn; lia).
    f_equal. cbn [length le16]. lia.
Qed.

Lemma take_S_insert {A} (l m : list A) k x :
  k < length l → take k l = take k m → m !! k = Some x → take (S k) (<[k := x]> l) = take (S k) m.
Proof.
  intros Hk He Hx. rewrite (take_S_r _ _ x) by (by apply list_lookup_insert_eq).
  rewrite (take_S_r _ _ _ Hx), take_insert_ge by lia. by rewrite He.
Qed.

Lemma overwrite_ok {A} (front arr : list A) : length front <= length arr →
  ∃ arr', overwrite front arr = Some arr' ∧ take (length front) arr' = front ∧ length arr' = length arr.
Proof.
  intros Hl. unfold overwrite. rewrite (proj2 (Nat.leb_le _ _) Hl). eexists. split; [done|]. split.
  - by rewrite take_app_length.
  - rewrite length_app, length_drop. lia.
Qed.

(** A conversion looks only at what it holds. *)
Lemma worker_ok_agree s s' w :
  (∀ i, i ∈ held w → bytes_at s' i = bytes_at s i ∧ floats_at s' i = floats_at s i) →
  worker_ok s w → worker_ok s' w.
Proof.
  intros Ha. destruct w; cbn [held worker_ok] in *; [..|done];
    repeat match goal with
    | |- context [bytes_at s' ?i] => rewrite (proj1 (Ha i ltac:(set_solver)))
    | |- context [floats_at s' ?i] => rewrite (proj2 (Ha i ltac:(set_solver)))
    end; done.
Qed.

(** ** Every write of every goroutine *)

(** [advance] succeeds and keeps the goroutine's part of the invariant. *)
Definition advances (s : store) (w : worker) (k : nat) : Prop :=
  ∃ s' w', advance s w k = Some (s', w') ∧ evolves s (held w) s' (held w') ∧ worker_ok s' w'.

Lemma put_conv_evolves s h i : evolves s (i :: h) (putChannelConvBuffer s i) h.
Proof. by apply put_if_evolves. Qed.
Lemma put_float_evolves s h i : evolves s (i :: h) (putFloatBuffer s i) h.
Proof. by apply put_if_evolves. Qed.
Lemma put_byte_evolves s h i : evolves s (i :: h) (putByteBuffer s i) h.
Proof. by apply put_if_evolves. Qed.

Lemma copying_advances s pcm buf d i k :
  worker_ok s (Copying pcm buf d i) → advances s (Copying pcm buf d i) k.
Proof.
  intros (-> & [Hi Hs] & Ht). unfold advances. cbn [advance].
  destruct (Nat.ltb_spec i (length pcm / 2 * 4)) as [Hlt|Hge].
  - destruct (mono_lookup pcm i Hlt) as [Hm [b Hb]]. rewrite Hb. unfold write.
    rewrite (proj2 (Nat.ltb_lt _ _) Hlt). cbn. do 2 eexists. split; [done|]. split.
    + apply set_bytes_evolves, list_elem_of_here.
    + cbn [worker_ok]. rewrite bytes_at_set, decide_True, length_insert by done. split_and!; [done|lia|lia|].
      apply take_S_insert; [lia|done|]. by rewrite Hm.
  - do 2 eexists. split; [done|]. split; [apply put_conv_evolves|]. cbn [worker_ok expected].
    replace (length pcm / 2 * 4) with i by lia. rewrite Ht, take_ge; [done|]. rewrite mono_length. lia.
Qed.

(** The counter of the averaging loop: three writes a round. *)
Lemma div3_succ i : i mod 3 < 2 → S i / 3 = i / 3 ∧ S i mod 3 = S (i mod 3).
Proof.
  intros Hm. pose proof (Nat.div_mod_eq i 3).
  split; symmetry; [apply (Nat.div_unique _ _ _ (S (i mod 3)))|apply (Nat.mod_unique _ _ (i / 3))]; lia.
Qed.

Lemma div3_wrap i : i mod 3 = 2 → S i / 3 = S (i / 3) ∧ S i mod 3 = 0.
Proof.
  intros Hm. pose proof (Nat.div_mod_eq i 3).
  split; symmetry; [apply (Nat.div_unique _ _ _ 0)|apply (Nat.mod_unique _ _ (S (i / 3)))]; lia.
Qed.

Lemma held_distinct s a b : wf s [a; b] → a ≠ b.
Proof. intros [_ Hn _]. apply NoDup_app in Hn as [[Hn _]%NoDup_cons _]. set_solver. Qed.

Lemma average_put_advances s pcm d u16 i k : d ≠ u16 → i mod 3 = 0 → i / 3 < length pcm / 4 →
  worker_ok s (Averaging pcm d d u16 i) → advances s (Averaging pcm d d u16 i) k.
Proof.
  intros Hne Ej Hlt (_ & Hu & Hi & Hs & Ht & _). unfold advances. cbn [advance].
  rewrite (proj2 (Nat.ltb_lt _ _) Hlt), Ej. pose proof (Nat.div_mod_eq i 3).
  destruct (div3_succ i) as [E1 E2]; [lia|]. rewrite Ej in E2, Ht.
  destruct (overwrite_ok (average_bytes pcm (i / 3)) (bytes_at s u16)) as (bs & -> & Hb & Hl); [by rewrite Hu|].
  do 2 eexists. split; [done|]. split; [apply set_bytes_evolves; set_solver|].
  cbn [worker_ok]. rewrite E1, E2, !bytes_at_set, decide_True, decide_False by done.
  rewrite Hl. split_and!; [done|done|lia|done|done|]. intros _. rewrite <-Hb, take_ge; [done|].
  by rewrite Hl, Hu.
Qed.

Lemma average_store_advances s pcm d u16 i j k : d ≠ u16 → i mod 3 = S j → i / 3 < length pcm / 4 →
  worker_ok s (Averaging pcm d d u16 i) → advances s (Averaging pcm d d u16 i) k.
Proof.
  intros Hne Ej Hlt (_ & Hu & Hi & Hs & Ht & Ha). unfold advances. cbn [advance].
  rewrite (proj2 (Nat.ltb_lt _ _) Hlt), Ej, Ha by lia. pose proof (Nat.div_mod_eq i 3).
  pose proof (Nat.mod_upper_bound i 3 ltac:(lia)). assert (j < 2) as Hj by lia.
  pose proof (stereo_lookup pcm (i / 3) j Hlt Hj) as Hlook.
  destruct (average_bytes pcm (i / 3) !! j) as [b|] eqn:Eb; [|by apply lookup_ge_None in Eb; cbn in Eb; lia].
  unfold write. rewrite (proj2 (Nat.ltb_lt _ _)) by lia. cbn [fmap option_fmap option_map].
  do 2 eexists. split; [done|]. split; [apply set_bytes_evolves; set_solver|].
  rewrite Ej in Ht. cbn [pred] in Ht.
  cbn [worker_ok]. rewrite !bytes_at_set, decide_False, decide_True, length_insert by done.
  assert (S i / 3 * 2 + pred (S i mod 3) = S (i / 3 * 2 + j) ∧ (S i mod 3 ≠ 0 → S i / 3 = i / 3)) as [E1 E2].
  { destruct (decide (j = 1)); [destruct (div3_wrap i) as [-> ->]|destruct (div3_succ i) as [-> ->]]; lia. }
  rewrite E1. split_and!; [done|done|lia|done|by apply take_S_insert; [lia|..]|].
  intros Hnz. rewrite (E2 Hnz). apply Ha. lia.
Qed.

Lemma averaging_advances s pcm buf d u16 i k : wf s [buf; u16] →
  worker_ok s (Averaging pcm buf d u16 i) → advances s (Averaging pcm buf d u16 i) k.
Proof.
  intros Hw Hok. pose proof (held_distinct _ _ _ Hw) as Hne. pose proof Hok as (-> & Hu & Hi & Hs & Ht & _).
  destruct (Nat.lt_ge_cases (i / 3) (length pcm / 4)) as [Hlt|Hge].
  - destruct (i mod 3) as [|j] eqn:Ej; [by apply average_put_advances|by eapply average_store_advances].
  - unfold advances. cbn [advance]. rewrite (proj2 (Nat.ltb_ge _ _) Hge). do 2 eexists. split; [done|]. split.
    + eapply evolves_trans; [|apply put_conv_evolves].
      eapply evolves_trans; [|apply (pool_Put_evolves _ [d]); [done|done]].
      apply evolves_perm. solve_Permutation.
    + cbn [worker_ok expected]. pose proof (Nat.div_mod_eq i 3).
      assert (i / 3 * 2 + pred (i mod 3) = length pcm / 4 * 2) as E.
      { assert (i / 3 = length pcm / 4) by lia. assert (i mod 3 = 0) by lia. lia. }
      rewrite E in Ht. rewrite Ht, take_ge; [done|]. by rewrite stereo_length.
Qed.

Lemma framing_advances s pcm n rate buf fields k :
  worker_ok s (Framing pcm n rate buf fields) → advances s (Framing pcm n rate buf fields) k.
Proof.
  cbn [worker_ok]. intros Hh. destruct fields as [|f fields]; do 2 eexists; (split; [done|]); split.
  - eapply evolves_trans; [|apply (pool_Put_evolves (set_bytes s buf []) [])]; [|done|].
    + apply set_bytes_evolves. set_solver.
    + intros _. by rewrite bytes_at_set, decide_True.
  - cbn [concat] in Hh. rewrite app_nil_r in Hh. cbn [worker_ok expected]. by rewrite Hh.
  - apply set_bytes_evolves. set_solver.
  - cbn [worker_ok]. by rewrite bytes_at_set, decide_True, <-app_assoc by done.
Qed.

(** Handing out an array changes none that exists. *)
Lemma getFloatBuffer_keeps s k n i : i < made s → floats_at (getFloatBuffer s k n).1 i = floats_at s i.
Proof.
  intros Hi. assert (∀ m s1, i < made s1 → floats_at (make_floats s1 m).1 i = floats_at s1 i) as Hm.
  { intros m s1 H1. unfold floats_at. cbn. by rewrite lookup_insert_ne by lia. }
  unfold getFloatBuffer, pool_Get. destruct (free s floatBufferPool !! k) as [j|].
  - case_match; [by rewrite Hm|done].
  - destruct (make_floats s 8192) as [s1 j] eqn:E. pose proof (Hm 8192 s Hi) as H1. rewrite E in H1.
    assert (made s1 = S (made s)) as H2 by (by injection E as <- _).
    case_match; [|done]. rewrite Hm by lia. done.
Qed.

Lemma getUint16Buffer_keeps s k i : i < made s → bytes_at (getUint16Buffer s k).1 i = bytes_at s i.
Proof.
  intros Hi. unfold getUint16Buffer, pool_Get. case_match; [done|]. unfold bytes_at. cbn.
  by rewrite lookup_insert_ne by lia.
Qed.

Lemma getByteBuffer_floats s k n i : floats_at (getByteBuffer s k n).1 i = floats_at s i.
Proof.
  unfold getByteBuffer, pool_Get. destruct (free s byteBufferPool !! k) as [j|]; [by case_match|].
  cbn [make_bytes]. by case_match.
Qed.

Lemma put_float_float_evolves s h i j : evolves s (i :: j :: h) (putFloatBuffer (putFloatBuffer s j) i) h.
Proof.
  eapply evolves_trans; [|apply put_float_evolves]. eapply evolves_trans; [|apply put_float_evolves].
  apply evolves_perm. solve_Permutation.
Qed.

Lemma put_three_evolves s i j b :
  evolves s [i; j; b] (putFloatBuffer (putFloatBuffer (putByteBuffer s b) j) i) [].
Proof.
  eapply evolves_trans; [|apply put_float_float_evolves]. eapply evolves_trans; [|apply put_byte_evolves].
  apply evolves_perm. solve_Permutation.
Qed.

Lemma loading_advances s pcm n inp out k : wf s [inp; out] →
  worker_ok s (Loading pcm n inp out) → advances s (Loading pcm n inp out) k.
Proof.
  intros Hw%held_distinct [Hi Ho]. unfold advances. cbn [advance].
  destruct (overwrite_ok (pcm16_to_floats pcm) (floats_at s inp)) as (fs & -> & Hf & _);
    [by rewrite pcm16_to_floats_length|].
  rewrite pcm16_to_floats_length in Hf. do 2 eexists. split; [done|]. split; [apply set_floats_evolves; set_solver|].
  cbn [worker_ok]. by rewrite !floats_at_set, decide_True, decide_False.
Qed.

Lemma processing_advances s pcm n inp out k : wf s [inp; out] →
  worker_ok s (Processing pcm n inp out) → advances s (Processing pcm n inp out) k.
Proof.
  intros Hw [Hi Ho]. unfold advances. cbn [advance]. rewrite Hi.
  destruct (resample_floats (pcm16_to_floats pcm) n) as [fs|] eqn:E.
  - pose proof (resample_floats_fits _ _ _ E) as Hn.
    destruct (overwrite_ok fs (floats_at s out)) as (fs' & -> & Hf & _); [lia|].
    pose proof (getByteBuffer_evolves (set_floats s out fs') [inp; out] k (2 * length fs)) as [He Hl].
    pose proof (getByteBuffer_floats (set_floats s out fs') k (2 * length fs) out) as Hk.
    cbn [fmap option_fmap option_map]. destruct (getByteBuffer _ _ _) as [s2 buf]. cbn [fst snd] in *.
    do 2 eexists. split; [done|]. split.
    + eapply evolves_trans; [apply (set_floats_evolves _ _ out fs'); set_solver|].
      eapply evolves_trans; [exact He|]. apply evolves_perm. cbn. solve_Permutation.
    + exists fs. rewrite Hk, floats_at_set, decide_True by done. done.
  - do 2 eexists. split; [done|]. split; [apply put_float_float_evolves|]. cbn. by rewrite E.
Qed.

Lemma unloading_advances s pcm n inp out buf m k :
  worker_ok s (Unloading pcm n inp out buf m) → advances s (Unloading pcm n inp out buf m) k.
Proof.
  intros (fs & E & Hm & Hf & Hl). unfold advances. cbn [advance]. destruct m as [|m].
  - do 2 eexists. split; [done|]. split; [apply put_three_evolves|]. cbn [worker_ok expected]. rewrite E.
    by destruct fs.
  - rewrite Hf. destruct (overwrite_ok (floats_to_pcm16 fs) (bytes_at s buf)) as (bs & -> & Hb & _);
      [by rewrite floats_to_pcm16_length, Hm|].
    rewrite floats_to_pcm16_length, Hm in Hb. do 2 eexists. split; [done|].
    split; [apply set_bytes_evolves; cbn; set_solver|].
    exists fs. rewrite bytes_at_set, decide_True by done. done.
Qed.

Lemma returning_advances s pcm n inp out buf m k :
  worker_ok s (Returning pcm n inp out buf m) → advances s (Returning pcm n inp out buf m) k.
Proof.
  intros (fs & E & Hm & Hz & Hb). unfold advances. cbn [advance]. do 2 eexists. split; [done|].
  split; [apply put_three_evolves|]. cbn [worker_ok expected]. rewrite E, Hb. by destruct fs; cbn in Hm; [lia|].
Qed.

Lemma worker_advances s w k : wf s (held w) → worker_ok s w → advances s w k.
Proof.
  intros Hw Hok. destruct w.
  - by apply copying_advances.
  - by apply averaging_advances.
  - by apply framing_advances.
  - by apply loading_advances.
  - by apply processing_advances.
  - by apply unloading_advances.
  - by apply returning_advances.
  - do 2 eexists. split; [done|]. split; [by apply evolves_perm|done].
Qed.

(** The buffer handed out is large enough, so it is the one written. *)
Lemma result_slice_ok s k n : ∃ s1 d,
  result_slice s k n = (s1, d, d) ∧ evolves s [] s1 [d] ∧ n <= length (bytes_at s1 d).
Proof.
  destruct (getChannelConvBuffer_evolves s [] k n) as [He Hl]. unfold result_slice.
  destruct (getChannelConvBuffer s k n) as [s1 d]. cbn [fst snd] in *.
  rewrite (proj2 (Nat.ltb_ge _ _) Hl). by eexists _, _.
Qed.

Lemma begin_ok s j k1 k2 : accepted j = true → wf s [] →
  let r := begin_job s j k1 k2 in evolves s [] r.1 (held r.2) ∧ worker_ok r.1 r.2.
Proof.
  intros Ha Hw. destruct j as [pcm|pcm|pcm n rate|pcm n]; cbn [begin_job].
  - destruct (result_slice_ok s k1 (length pcm / 2 * 4)) as (s1 & d & -> & He & Hl). split; [done|].
    cbn [worker_ok fst snd]. split_and!; [done|lia|done|done].
  - destruct (result_slice_ok s k1 (length pcm / 4 * 2)) as (s2 & d & -> & He & Hl).
    pose proof (evolves_wf _ _ _ _ He Hw) as Hw2.
    assert (d < made s2) as Hd by (apply (wf_made _ _ Hw2); set_solver).
    pose proof (getUint16Buffer_keeps s2 k2 d Hd) as Hk.
    pose proof (pool_Get_bytes s2 uint16BufferPool k2 2 (λ bs, length bs = 2)
      (po_uint16 _ (wf_pools _ _ Hw2)) eq_refl) as Hu. fold (getUint16Buffer s2 k2) in Hu.
    assert (evolves s2 [d] (getUint16Buffer s2 k2).1 [(getUint16Buffer s2 k2).2; d]) as Hg
      by (apply pool_Get_evolves; intros; apply make_bytes_evolves).
    destruct (getUint16Buffer s2 k2) as [s3 u16]. cbn [fst snd] in *. split.
    + eapply evolves_trans; [exact He|]. eapply evolves_trans; [exact Hg|]. apply evolves_perm.
      cbn. solve_Permutation.
    + cbn [worker_ok]. rewrite Hk. split_and!; [done|done|lia|done|done|done].
  - pose proof (pool_Get_bytes s wavHeaderPool k1 0 (λ bs, bs = []) (po_header _ (wf_pools _ _ Hw)) eq_refl) as Hu.
    fold (getWavHeaderBuffer s k1) in Hu.
    assert (evolves s [] (getWavHeaderBuffer s k1).1 [(getWavHeaderBuffer s k1).2]) as Hg
      by (apply pool_Get_evolves; intros; apply make_bytes_evolves).
    destruct (getWavHeaderBuffer s k1) as [s1 buf]. cbn [fst snd] in *. split; [done|].
    cbn [worker_ok]. rewrite Hu. cbn [concat header_fields app]. by rewrite app_nil_r.
  - destruct (getFloatBuffer_evolves s [] k1 (length pcm / 2)) as [H1 L1].
    destruct (getFloatBuffer s k1 (length pcm / 2)) as [s1 inp]. cbn [fst snd] in *.
    pose proof (evolves_wf _ _ _ _ H1 Hw) as Hw1.
    destruct (getFloatBuffer_evolves s1 [inp] k2 n) as [H2 L2].
    assert (inp < made s1) as Hd by (apply (wf_made _ _ Hw1); set_solver).
    pose proof (getFloatBuffer_keeps s1 k2 n inp Hd) as Hk.
    destruct (getFloatBuffer s1 k2 n) as [s2 out]. cbn [fst snd] in *. split.
    + eapply evolves_trans; [exact H1|]. eapply evolves_trans; [exact H2|]. apply evolves_perm. cbn. solve_Permutation.
    + cbn [worker_ok]. by rewrite Hk.
Qed.

(** ** The system *)

Definition all_held (ws : list worker) : list nat := concat (map held ws).

Record sys_ok (y : system) : Prop := mkSysOk {
  sy_wf : wf (shared y) (all_held (workers y));
  sy_ok : ∀ w, w ∈ workers y → worker_ok (shared y) w
}.

Lemma all_held_perm ws ws' : ws ≡ₚ ws' → all_held ws ≡ₚ all_held ws'.
Proof. intros Hp. unfold all_held. by rewrite Hp. Qed.

Lemma all_held_cons w ws : all_held (w :: ws) = held w ++ all_held ws.
Proof. done. Qed.

Lemma held_all i w ws : i ∈ held w → w ∈ ws → i ∈ all_held ws.
Proof.
  intros Hi. induction ws as [|w' ws IH]; [by intros ?%elem_of_nil|].
  rewrite all_held_cons, elem_of_app. intros [->|Hw]%elem_of_cons; [by left|right; by apply IH].
Qed.

Lemma wf_perm s h h' : h ≡ₚ h' → wf s h → wf s h'.
Proof. intros Hp [H1 H2 H3]. split; [done|by rewrite <-Hp|]. intros i. rewrite <-Hp. apply H3. Qed.

(** One goroutine's part changes, the others are as they were. *)
Lemma sys_ok_change s s' w w' rest :
  sys_ok (mkSystem s (w :: rest)) → evolves s (held w) s' (held w') → worker_ok s' w' →
  sys_ok (mkSystem s' (w' :: rest)).
Proof.
  intros [Hw Hok] He Hw'. cbn [shared workers] in *. rewrite all_held_cons in Hw.
  destruct (evolves_frame _ _ _ _ _ He Hw) as [Hwf Ha]. split; cbn [shared workers]; [done|].
  intros x [->|Hx]%elem_of_cons; [done|]. apply (worker_ok_agree s); [|apply Hok; set_solver].
  intros i Hi. apply Ha. by eapply held_all.
Qed.

Lemma sys_ok_perm s ws ws' : ws ≡ₚ ws' → sys_ok (mkSystem s ws) → sys_ok (mkSystem s ws').
Proof.
  intros Hp [H1 H2]. split; cbn in *; [by eapply wf_perm; [apply all_held_perm|]|].
  intros w Hw. apply H2. by rewrite Hp.
Qed.

Lemma sys_step_ok y e : sys_ok y → ∃ y', sys_step y e = Some y' ∧ sys_ok y'.
Proof.
  destruct y as [s ws]. intros Hy. destruct e as [j k1 k2|t k|p k]; cbn [sys_step shared workers].
  - destruct (accepted j) eqn:Ea; [|by eexists]. pose proof Hy as [Hw _]. cbn in Hw.
    destruct (begin_ok s j k1 k2 Ea) as [He Hok]; [by apply (wf_app_l _ [] (all_held ws))|].
    destruct (begin_job s j k1 k2) as [s' w]. cbn [fst snd] in *. eexists. split; [done|].
    apply (sys_ok_perm _ (w :: ws)); [solve_Permutation|].
    apply (sys_ok_change s _ (Finished j (expected j))); [|done|done].
    split; cbn; [done|]. intros x [->|Hx]%elem_of_cons; [done|]. by apply (sy_ok _ Hy).
  - destruct (ws !! t) as [w|] eqn:E; [|by eexists].
    pose proof (delete_Permutation _ _ _ E) as Hp. apply (sys_ok_perm _ _ _ Hp) in Hy.
    destruct (worker_advances s w k) as (s' & w' & -> & He & Hok').
    { pose proof (sy_wf _ Hy) as Hw. cbn in Hw. by eapply wf_app_l. }
    { apply (sy_ok _ Hy), list_elem_of_here. }
    eexists. split; [done|]. cbn [fst snd]. apply (sys_ok_perm _ (w' :: delete t ws)).
    + symmetry. by eapply insert_Permutation.
    + by eapply sys_ok_change.
  - eexists. split; [done|]. destruct Hy as [Hw Hok]. cbn in *. split; cbn [shared workers].
    + eapply evolves_wf; [apply drop_free_evolves|done].
    + intros w Hin. apply (worker_ok_agree s); [done|by apply Hok].
Qed.

Lemma sys_run_ok es : ∀ y, sys_ok y → ∃ y', sys_run y es = Some y' ∧ sys_ok y'.
Proof.
  induction es as [|e es IH]; intros y Hy; [by exists y|]. cbn.
  destruct (sys_step_ok y e Hy) as (y1 & -> & Hy1). by apply IH.
Qed.

Definition idle : system := mkSystem new_store [].

Lemma idle_ok : sys_ok idle.
Proof.
  split; [split|]; cbn.
  - by split; intros i ?%elem_of_nil.
  - constructor.
  - intros i ?%elem_of_nil. done.
  - intros w ?%elem_of_nil. done.
Qed.

(** ** Every conversion ends *)

(** The steps a conversion still needs. *)
Definition work (w : worker) : nat :=
  match w with
  | Copying pcm _ _ i => S (length pcm / 2 * 4 - i)
  | Averaging pcm _ _ _ i => S (length pcm / 4 * 3 - i)
  | Framing _ _ _ _ fields => S (length fields)
  | Loading _ _ _ _ => 4
  | Processing _ _ _ _ => 3
  | Unloading _ _ _ _ _ _ => 2
  | Returning _ _ _ _ _ _ => 1
  | Finished _ _ => 0
  end.

Lemma advance_works s w k s' w' : advance s w k = Some (s', w') → work w' <= pred (work w).
Proof.
  destruct w as [pcm b d i|pcm b d u i|pcm n r b [|f fs]|pcm n a b|pcm n a b|pcm n a b c [|m]|pcm n a b c m|j o];
    cbn [advance].
  - destruct (Nat.ltb_spec i (length pcm / 2 * 4)); [|by intros [= <- <-]; cbn; lia].
    case_match; [|done]. intros (? & _ & [= -> ->])%fmap_Some. cbn [work]. lia.
  - destruct (Nat.ltb_spec (i / 3) (length pcm / 4)) as [Hlt|]; [|by intros [= <- <-]; cbn; lia].
    assert (i < length pcm / 4 * 3).
    { pose proof (Nat.div_mod_eq i 3). pose proof (Nat.mod_upper_bound i 3 ltac:(lia)). lia. }
    destruct (i mod 3); [|case_match; [|done]]; intros (? & _ & [= -> ->])%fmap_Some; cbn [work]; lia.
  - intros [= <- <-]. cbn. lia.
  - intros [= <- <-]. cbn. lia.
  - intros (? & _ & [= -> ->])%fmap_Some. cbn. lia.
  - case_match; [|by intros [= <- <-]; cbn; lia]. intros (? & _ & E)%fmap_Some.
    destruct (getByteBuffer _ _ _). injection E as -> ->. cbn. lia.
  - intros [= <- <-]. cbn. lia.
  - intros (? & _ & [= -> ->])%fmap_Some. cbn. lia.
  - intros [= <- <-]. cbn. lia.
  - intros [= <- <-]. cbn. lia.
Qed.

(** The rounds of the scheduler in which goroutine [t] runs. *)
Definition is_turn (t : nat) (e : event) : bool :=
  match e with Advance t' _ => Nat.eqb t' t | _ => false end.
Definition turns (t : nat) (es : list event) : nat := length (List.filter (is_turn t) es).

Lemma sys_step_works y e y' t w : sys_step y e = Some y' → workers y !! t = Some w →
  ∃ w', workers y' !! t = Some w' ∧
    work w' <= work w - (if is_turn t e then 1 else 0).
Proof.
  intros Hs Hw. destruct e as [j k1 k2|t' k|p k]; cbn [sys_step is_turn] in *.
  - exists w. split; [|lia]. case_match; [|by simplify_eq].
    destruct (begin_job _ _ _ _). simplify_eq. cbn. rewrite lookup_app_l; [done|]. by eapply lookup_lt_Some.
  - destruct (workers y !! t') as [w1|] eqn:E; [|simplify_eq; exists w; split; [done|]].
    2: { case_match eqn:Et; [|lia]. apply Nat.eqb_eq in Et as ->. congruence. }
    apply fmap_Some in Hs as ([s' w'] & Ha & ->). cbn. apply advance_works in Ha. destruct (Nat.eqb_spec t' t) as [->|Et].
    + simplify_eq. exists w'. split; [|lia]. apply list_lookup_insert_eq. by eapply lookup_lt_Some.
    + exists w. split; [by rewrite list_lookup_insert_ne|lia].
  - simplify_eq. exists w. split; [done|lia].
Qed.

Lemma sys_run_works es : ∀ y y' t w, sys_run y es = Some y' → workers y !! t = Some w →
  ∃ w', workers y' !! t = Some w' ∧ work w' <= work w - turns t es.
Proof.
  induction es as [|e es IH]; intros y y' t w; cbn [sys_run].
  - intros [= <-] Hw. exists w. split; [done|]. unfold turns. cbn [List.filter length]. lia.
  - destruct (sys_step y e) as [y1|] eqn:E; [|done]. cbn [mbind option_bind]. intros Hr Hw.
    destruct (sys_step_works _ _ _ _ _ E Hw) as (w1 & Hw1 & H1).
    destruct (IH _ _ _ _ Hr Hw1) as (w' & Hw' & H'). exists w'. split; [done|].
    unfold turns in *. cbn [List.filter]. case_match; cbn [length]; lia.
Qed.

(** C14: Conversions that share the recycled buffers do not disturb each other:
    under every interleaving of the writes of any number of goroutines, with
    any buffers handed out by the pools and any dropped by the garbage
    collector, no write is out of bounds, every conversion that has ended has
    done exactly what the function of [Audio] says, no array is used by two
    conversions or is in a pool while it is used, and a conversion ends within
    the number of writes it has to make, whatever the others do. *)
Theorem recycled_buffers_unnoticed (es : list event) :
  ∃ y, sys_run idle es = Some y ∧
    (∀ t j o, workers y !! t = Some (Finished j o) → o = expected j) ∧
    (∀ t1 t2 w1 w2 i, t1 ≠ t2 → workers y !! t1 = Some w1 → workers y !! t2 = Some w2 →
       i ∈ held w1 → i ∉ held w2) ∧
    (∀ p i w, i ∈ free (shared y) p → w ∈ workers y → i ∉ held w) ∧
    ∀ es' t w, workers y !! t = Some w → (work w <= turns t es')%nat →
      ∃ y' j o, sys_run y es' = Some y' ∧ workers y' !! t = Some (Finished j o).
Proof.
  destruct (sys_run_ok es idle idle_ok) as (y & E & Hy). exists y. split; [done|].
  pose proof Hy as [[_ Hn _] Hok]. split_and!.
  - intros t j o Ht. apply (Hok (Finished j o)). by eapply list_elem_of_lookup_2.
  - intros t1 t2 w1 w2 i Hne H1 H2 Hi1 Hi2. apply delete_Permutation in H1 as Hp.
    rewrite (all_held_perm _ _ Hp), all_held_cons, <-app_assoc in Hn. apply NoDup_app in Hn as (_ & Hn & _).
    apply (Hn i Hi1), elem_of_app. left. eapply held_all; [exact Hi2|].
    destruct (decide (t2 < t1)).
    + apply (list_elem_of_lookup_2 _ t2). by rewrite list_lookup_delete_lt.
    + apply (list_elem_of_lookup_2 _ (t2 - 1)). rewrite list_lookup_delete_ge by lia.
      by replace (S (t2 - 1)) with t2 by lia.
  - intros p i w Hi Hw Hh. apply NoDup_app in Hn as (_ & Hn & _).
    apply (Hn i); [by eapply held_all|by eapply in_all_free].
  - intros es' t w Hw Hl. destruct (sys_run_ok es' y Hy) as (y' & E' & _).
    destruct (sys_run_works es' _ _ _ _ E' Hw) as (w' & Hw' & Hz).
    destruct w'; cbn [work] in Hz; [lia..|]. by eexists _, _, _.
Qed.
End buffers.

(** ** An instance, and a run *)

(** Floats that are pairs of bytes; resampling keeps the first half. *)
Definition toy_pairs : bytes_ → list (byte * byte) :=
  fix pairs bs := match bs with b0 :: b1 :: rest => (b0, b1) :: pairs rest | _ => [] end.

Lemma toy_pairs_length : ∀ bs, length (toy_pairs bs) = length bs / 2.
Proof.
  fix IH 1. intros [|b0 [|b1 rest]]; [done..|]. cbn [toy_pairs length].
  rewrite IH. replace (S (S (length rest))) with (length rest + 1 * 2) by lia. rewrite Nat.div_add; lia.
Qed.

Lemma toy_flatten_length (fs : list (byte * byte)) : length (concat (map (λ p, [p.1; p.2]) fs)) = 2 * length fs.
Proof. induction fs as [|f fs IH]; cbn in *; lia. Qed.

#[local] Instance toy_bridge : FloatBridge := {|
  float := byte * byte;
  float_zero := (x00, x00);
  pcm16_to_floats := toy_pairs;
  floats_to_pcm16 fs := concat (map (λ p, [p.1; p.2]) fs);
  resample_floats fs n := Some (take (Nat.min n (length fs / 2)) fs);
  pcm16_to_floats_length := toy_pairs_length;
  floats_to_pcm16_length := toy_flatten_length;
  resample_floats_fits fs n out := λ E, ltac:(injection E as <-; rewrite length_take; lia)
|}.

(** A mono conversion overlaps a stereo one; when the first has ended its
    buffer, which holds its samples, is given to a third. *)
Definition toy_events : list event :=
  [Begin (MonoToStereo [x01; x02]) 0 0; Begin (StereoToMono [x04; x00; x08; x00]) 0 0;
   Advance 0 0; Advance 1 0; Advance 0 0; Advance 0 0; Advance 1 0; Advance 0 0; Advance 0 0;
   Begin (MonoToStereo [x05; x06]) 0 0; Begin (Resampling [x01; x02; x03; x04] 8) 0 0;
   Advance 1 0; Advance 2 0; Advance 2 0; Advance 3 0; Advance 1 0; Advance 2 0; Advance 2 0; Advance 3 0].

Definition toy_outcomes : list worker :=
  [Finished (MonoToStereo [x01; x02]) (Returns [x01; x02; x01; x02]);
   Finished (StereoToMono [x04; x00; x08; x00]) (Returns [x06; x00]);
   Copying [x05; x06] 0 0 4;
   Unloading [x01; x02; x03; x04] 8 3 4 5 1].

Example toy_run : workers <$> sys_run idle toy_events = Some toy_outcomes.
Proof. vm_compute. reflexivity. Qed.

Lemma recycled_buffers_unnoticed_witness :
  ∃ y y' j o, sys_run idle toy_events = Some y ∧ workers y = toy_outcomes ∧
    Returns [x01; x02; x01; x02] = expected (MonoToStereo [x01; x02]) ∧
    (0 ∉ held (Unloading [x01; x02; x03; x04] 8 3 4 5 1)) ∧
    sys_run y [Advance 3 0; Advance 3 0] = Some y' ∧ workers y' !! 3 = Some (Finished j o).
Proof.
  destruct (recycled_buffers_unnoticed toy_events) as (y & E & H1 & H2 & _ & H4).
  assert (workers y = toy_outcomes) as Hw by (pose proof toy_run as Hr; rewrite E in Hr; by injection Hr).
  destruct (H4 [Advance 3 0; Advance 3 0] 3 (Unloading [x01; x02; x03; x04] 8 3 4 5 1)) as (y' & j & o & E' & Hf);
    [by rewrite Hw|cbn; lia|].
  exists y, y', j, o. split_and!; [done|done|apply (H1 0); by rewrite Hw| |done|done].
  apply (H2 2 3 (Copying [x05; x06] 0 0 4)); [lia|by rewrite Hw|by rewrite Hw|by left].
Defined.
