(* ===== verification/AudioObjects.v ===== *)
(** * Objects of the C libraries: [opus_cgo.go], [resample_cgo.go], [rnnoise_cgo.go]

    The encoders, decoders, resamplers and denoisers of [utils/audio/] hold
    handles of C objects.  Here the C objects are a store of their own, so that
    closing, closing twice, use after closing, finalizers and objects that are
    lost can be told apart; what an open object computes is [Audio].  Also the
    inspection of Opus packets and the sample-wise G.711 functions. *)

From Stdlib Require Import Strings.Byte.
From S2P Require Import Prelude Core Audio AudioProofs.

Local Open Scope string_scope.
Local Open Scope list_scope.
Local Open Scope Z_scope.

(** ** Opus packets, G.711 samples *)

(** [opus_packet_get_*] of libopus. *)
Class OpusPackets := {
  opus_packet_get_samples_per_frame : bytes_ → Z → Z;
  opus_packet_get_nb_channels : bytes_ → Z;
  opus_packet_get_nb_frames : bytes_ → Z → Z          (* packet, length *)
}.

Record OpusPacketInfo := mkPacketInfo { SamplesPerFrame : Z; PacketChannels : Z; FrameCount : Z }.

Definition GetOpusPacketInfo `{OpusPackets} (opusData : bytes_) (sampleRate : Z) : result OpusPacketInfo :=
  if len opusData =? 0 then Err "empty Opus data"
  else
    let samplesPerFrame := opus_packet_get_samples_per_frame opusData sampleRate in
    if samplesPerFrame <=? 0 then Err "failed to get samples per frame"
    else Ok (mkPacketInfo samplesPerFrame (opus_packet_get_nb_channels opusData)
               (opus_packet_get_nb_frames opusData (len opusData))).

(** The frame functions of the G.711 package. *)
Class G711Frames := {
  EncodeUlawFrame : Z → byte;
  DecodeUlawFrame : byte → Z;
  EncodeAlawFrame : Z → byte;
  DecodeAlawFrame : byte → Z
}.

Definition PCMToULaw `{G711Frames} (sample : Z) : byte := EncodeUlawFrame sample.
Definition ULawToPCM `{G711Frames} (u : byte) : Z := DecodeUlawFrame u.
Definition PCMToALaw `{G711Frames} (sample : Z) : byte := EncodeAlawFrame sample.
Definition ALawToPCM `{G711Frames} (a : byte) : Z := DecodeAlawFrame a.

Section objects.
Context `{AudioLibs}.

(** ** The C objects *)

Inductive c_state : Type :=
| CEncoder (e : opus_enc)
| CDecoder (d : opus_dec)
| CResampler (s : src_state)
| CDenoise (m : rn_state).

Record c_heap := mkCHeap { c_live : gmap nat c_state; c_next : nat }.

Definition c_new (h : c_heap) (st : c_state) : c_heap * nat :=
  (mkCHeap (<[c_next h := st]> (c_live h)) (S (c_next h)), c_next h).

(** [None] is a second [free]. *)
Definition c_destroy (h : c_heap) (i : nat) : option c_heap :=
  if decide (is_Some (c_live h !! i)) then Some (mkCHeap (delete i (c_live h)) (c_next h)) else None.

Definition c_set (h : c_heap) (i : nat) (st : c_state) : c_heap :=
  mkCHeap (<[i := st]> (c_live h)) (c_next h).

(** ** The Go objects

    A handle that is [None] is nil: the object was closed. *)

Inductive obj : Type :=
| OEncoder (handle : option nat) (channels : Z)
| ODecoder (handle : option nat) (channels frameSize : Z)
| OResampler (state : option nat) (channels : Z)
(** The resamplers, given by their states, are nil at 48 kHz and after [Close];
    [outBuf] holds the last frame. *)
| ODenoiser (state : option nat) (inputSR inputCh : Z) (up down : option nat)
    (inBuf outBuf : list rn_sample).

(** [if handle != nil { destroy; handle = nil }]. *)
Definition close_handle (h : c_heap) (i : option nat) : option c_heap :=
  match i with
  | None => Some h
  | Some i => c_destroy h i
  end.

(** The four [Close] methods; [None] is memory corruption. *)
Definition obj_Close (h : c_heap) (o : obj) : option (c_heap * obj) :=
  match o with
  | OEncoder i ch => (λ h, (h, OEncoder None ch)) <$> close_handle h i
  | ODecoder i ch fs => (λ h, (h, ODecoder None ch fs)) <$> close_handle h i
  | OResampler i ch => (λ h, (h, OResampler None ch)) <$> close_handle h i
  | ODenoiser i sr ch up down ib ob =>
      close_handle h i ≫= λ h1, close_handle h1 up ≫= λ h2,
      (λ h3, (h3, ODenoiser None sr ch None None ib ob)) <$> close_handle h2 down
  end.

(** ** Constructors *)

Definition new_encoder (h : c_heap) (sampleRate channels : Z) : c_heap * result obj :=
  match NewCgoOpusEncoder sampleRate channels with
  | Err e => (h, Err e)
  | Ok e => let '(h1, i) := c_new h (CEncoder (enc_handle e)) in (h1, Ok (OEncoder (Some i) channels))
  end.

Definition new_decoder (h : c_heap) (sampleRate channels : Z) : c_heap * result obj :=
  match NewCgoOpusDecoder sampleRate channels with
  | Err e => (h, Err e)
  | Ok d =>
      let '(h1, i) := c_new h (CDecoder (dec_handle d)) in
      (h1, Ok (ODecoder (Some i) channels (dec_frameSize d)))
  end.

Definition new_resampler (h : c_heap) (channels quality inputRate outputRate : Z)
    : c_heap * result (option nat) :=
  match NewResampler channels quality inputRate outputRate with
  | Err e => (h, Err e)
  | Ok r => let '(h1, i) := c_new h (CResampler (rs_state r)) in (h1, Ok (Some i))
  end.

(** What was created before a failure is destroyed; [None] is memory
    corruption. *)
Definition new_denoiser (h : c_heap) (sampleRate channels : Z) : option (c_heap * result obj) :=
  if negb (channels =? 1) && negb (channels =? 2)
  then Some (h, Err ("rnnoise: unsupported channel count " +:+ itoa channels +:+ " (must be 1 or 2)"))
  else if sampleRate <=? 0 then Some (h, Err ("rnnoise: invalid sample rate " +:+ itoa sampleRate))
  else match rnnoise_create with
  | None => Some (h, Err "rnnoise: failed to allocate DenoiseState")
  | Some st =>
      let '(h1, i) := c_new h (CDenoise st) in
      let zeros := replicate rnnoiseFrameSize rn_zero in
      if negb (sampleRate =? rnnoiseTargetSampleRate)
      then
        match new_resampler h1 1 QualityFast sampleRate rnnoiseTargetSampleRate with
        | (h2, Err e) =>
            (λ h3, (h3, Err ("rnnoise: failed to create upsampler: " +:+ e))) <$> c_destroy h2 i
        | (h2, Ok up) =>
            match new_resampler h2 1 QualityFast rnnoiseTargetSampleRate sampleRate with
            | (h3, Err e) =>
                close_handle h3 up ≫= λ h4,
                (λ h5, (h5, Err ("rnnoise: failed to create downsampler: " +:+ e))) <$> c_destroy h4 i
            | (h3, Ok down) =>
                Some (h3, Ok (ODenoiser (Some i) sampleRate channels up down [] zeros))
            end
        end
      else Some (h1, Ok (ODenoiser (Some i) sampleRate channels None None [] zeros))
  end.

(** ** Use *)

(** A call: it corrupts memory, panics, or returns. *)
Inductive call : Type :=
| Corrupts
| Panicked
| Done (h : c_heap) (o : obj) (r : result bytes_).

(** [outBuf] after the frames of a buffer. *)
Fixpoint scratch (fuel : nat) (m : rn_state) (buf outBuf : list rn_sample) : list rn_sample :=
  match fuel with
  | O => outBuf
  | S fuel' =>
      if Nat.leb rnnoiseFrameSize (length buf)
      then let '(m1, frame) := rnnoise_process_frame m (take rnnoiseFrameSize buf) in
           scratch fuel' m1 (drop rnnoiseFrameSize buf) frame
      else outBuf
  end.

(** The samples waiting when [Denoise] comes to its frames; none when it
    returns before. *)
Definition waiting (d : RNNoiseDenoiser) (pcm : bytes_) : list rn_sample :=
  if (len pcm =? 0) || negb (len pcm mod 2 =? 0) then []
  else match toTargetRate d (if inputCh d =? 2 then stereoToMono pcm else pcm) with
       | Some (d1, Ok mono) => inBuf d1 ++ pcm16_to_float mono
       | _ => []
       end.

Definition load_resampler (h : c_heap) (i : option nat) : option (option Resampler) :=
  match i with
  | None => Some None
  | Some i => match c_live h !! i with
              | Some (CResampler s) => Some (Some (mkResampler s 1))
              | _ => None
              end
  end.

Definition store_resampler (h : c_heap) (i : option nat) (r : option Resampler) : c_heap :=
  match i, r with
  | Some i, Some r => c_set h i (CResampler (rs_state r))
  | _, _ => h
  end.

(** The bridge does nothing to [outBuf] when the state is null, and a nil
    resampler is dereferenced as soon as it is given samples. *)
Definition closed_output (sr ch : Z) (out : list rn_sample) : option (result bytes_) :=
  if sr =? rnnoiseTargetSampleRate
  then Some (Ok (if ch =? 2 then monoToStereo (float_to_pcm16 out) else float_to_pcm16 out))
  else None.

Definition closed_Denoise (sr ch : Z) (ib ob : list rn_sample) (pcm : bytes_)
    : option (list rn_sample * result bytes_) :=
  if len pcm =? 0 then Some (ib, Ok [])
  else if negb (len pcm mod 2 =? 0) then Some (ib, Err "rnnoise: PCM data must have even byte length")
  else
    let mono := if ch =? 2 then stereoToMono pcm else pcm in
    if negb (sr =? rnnoiseTargetSampleRate) && negb (len mono =? 0) then None
    else
      let buf := ib ++ pcm16_to_float mono in
      let n := Nat.div (length buf) rnnoiseFrameSize in
      match n with
      | O => Some (buf, Ok [])
      | _ => (λ r, (drop (n * rnnoiseFrameSize) buf, r)) <$> closed_output sr ch (concat (replicate n ob))
      end.

Definition closed_Flush (sr ch : Z) (ib ob : list rn_sample) : option (result bytes_) :=
  match ib with
  | [] => Some (Ok [])
  | _ => closed_output sr ch ob
  end.

Definition use_encoder (h : c_heap) (i : option nat) (ch : Z) (pcm : bytes_) : call :=
  match i with
  | None =>
      if negb (len pcm mod 2 =? 0) then Done h (OEncoder None ch) (Err "PCM bytes must have even length")
      else if len pcm =? 0 then Panicked
      else Done h (OEncoder None ch) (Err "encoder already closed")
  | Some i =>
      match c_live h !! i with
      | Some (CEncoder e) =>
          match EncodeBytes (mkEncoder e ch) pcm with
          | None => Panicked
          | Some (e', r) => Done (c_set h i (CEncoder (enc_handle e'))) (OEncoder (Some i) ch) r
          end
      | _ => Corrupts
      end
  end.

Definition use_decoder (h : c_heap) (i : option nat) (ch fs : Z) (data : bytes_) : call :=
  match i with
  | None => Done h (ODecoder None ch fs) (Err "decoder already closed")
  | Some i =>
      match c_live h !! i with
      | Some (CDecoder d) =>
          let '(d', r) := DecodeToBytes (mkDecoder d ch fs) data in
          Done (c_set h i (CDecoder (dec_handle d'))) (ODecoder (Some i) ch fs) r
      | _ => Corrupts
      end
  end.

(** [resampler_get_output_len] answers -1 for a null state. *)
Definition use_resampler (h : c_heap) (i : option nat) (ch : Z) (pcm : bytes_) : call :=
  match i with
  | None =>
      Done h (OResampler None ch)
        (if len pcm =? 0 then Ok []
         else if negb (len pcm mod (2 * ch) =? 0)
         then Err ("input PCM length " +:+ itoa (len pcm) +:+ " invalid for " +:+ itoa ch +:+ " channels")
         else Err "invalid output frame calculation")
  | Some i =>
      match c_live h !! i with
      | Some (CResampler s) =>
          match Resample (mkResampler s ch) pcm with
          | None => Panicked
          | Some (r', r) => Done (c_set h i (CResampler (rs_state r'))) (OResampler (Some i) ch) r
          end
      | _ => Corrupts
      end
  end.

(** [Denoise] ([flush] is false, of [pcm]) or [Flush]. *)
Definition use_denoiser (h : c_heap) (i : option nat) (sr ch : Z) (up down : option nat)
    (ib ob : list rn_sample) (flush : bool) (pcm : bytes_) : call :=
  match i with
  | None =>
      if flush
      then match closed_Flush sr ch ib ob with
           | None => Panicked
           | Some r => Done h (ODenoiser None sr ch None None [] ob) r
           end
      else match closed_Denoise sr ch ib ob pcm with
           | None => Panicked
           | Some (ib', r) => Done h (ODenoiser None sr ch None None ib' ob) r
           end
  | Some i =>
      match c_live h !! i, load_resampler h up, load_resampler h down with
      | Some (CDenoise m), Some u, Some dn =>
          let d := mkDenoiser m sr ch u dn ib in
          let ob' := if flush
                     then match ib with
                          | [] => ob
                          | _ => (rnnoise_process_frame m
                                    (ib ++ replicate (rnnoiseFrameSize - length ib) rn_zero)).2
                          end
                     else scratch (S (length (waiting d pcm))) m (waiting d pcm) ob in
          match (if flush then Flush d else Denoise d pcm) with
          | None => Panicked
          | Some (d', r) =>
              Done (store_resampler (store_resampler (c_set h i (CDenoise (model d'))) up (upsampler d'))
                      down (downsampler d'))
                (ODenoiser (Some i) sr ch up down (inBuf d') ob') r
          end
      | _, _, _ => Corrupts
      end
  end.

Definition obj_use (h : c_heap) (o : obj) (flush : bool) (data : bytes_) : call :=
  match o with
  | OEncoder i ch => use_encoder h i ch data
  | ODecoder i ch fs => use_decoder h i ch fs data
  | OResampler i ch => use_resampler h i ch data
  | ODenoiser i sr ch up down ib ob => use_denoiser h i sr ch up down ib ob flush data
  end.

(** ** One chunk with a denoiser of its own *)

(** [DenoiseChunk] on the object, its state in the heap. *)
Inductive chunk_call : Type :=
| ChunkCorrupts
| ChunkPanicked (h : c_heap) (o : obj)
| ChunkDone (h : c_heap) (o : obj) (r : result AudioChunk).

Definition use_DenoiseChunk (h : c_heap) (o : obj) (sr ch : Z) (chunk : AudioChunk) : chunk_call :=
  if negb (bool_decide (Format chunk = PCM)) then ChunkDone h o (Err "rnnoise: chunk must be PCM format")
  else match Data chunk with
  | None | Some [] => ChunkDone h o (Ok chunk)
  | Some pcm =>
      if negb (SampleRate chunk =? sr) || negb (Channels chunk =? ch)
      then ChunkDone h o (Err ("rnnoise: chunk has rate=" +:+ itoa (SampleRate chunk) +:+ " ch=" +:+
             itoa (Channels chunk) +:+ " but denoiser was created for rate=" +:+ itoa sr +:+ " ch=" +:+ itoa ch))
      else match obj_use h o false pcm with
      | Corrupts => ChunkCorrupts
      | Panicked => ChunkPanicked h o
      | Done h' o' (Err e) => ChunkDone h' o' (Err e)
      | Done h' o' (Ok bs) =>
          ChunkDone h' o' (Ok (mkAudioChunk (Some bs) (SampleRate chunk) (Channels chunk) PCM (Timestamp chunk)))
      end
  end.

(** The heap afterwards with the result, which a panic replaces; the deferred
    [Close] runs either way.  The outer [None] is memory corruption. *)
Definition DenoiseAudioChunk (h : c_heap) (chunk : AudioChunk) : option (c_heap * option (result AudioChunk)) :=
  if negb (bool_decide (Format chunk = PCM)) then Some (h, Some (Err "rnnoise: chunk must be PCM format"))
  else
    new_denoiser h (SampleRate chunk) (Channels chunk) ≫= λ x,
    match x with
    | (h1, Err e) => Some (h1, Some (Err e))
    | (h1, Ok d) =>
        match use_DenoiseChunk h1 d (SampleRate chunk) (Channels chunk) chunk with
        | ChunkCorrupts => None
        | ChunkPanicked h2 d2 => (λ y, (y.1, None)) <$> obj_Close h2 d2
        | ChunkDone h2 d2 r => (λ y, (y.1, Some r)) <$> obj_Close h2 d2
        end
    end.

(** ** Programs that use them

    An object with its finalizer, which the pools remove. *)
Record world := mkWorld { heap : c_heap; objects : list (obj * bool) }.

Inductive op : Type :=
| NewEncoder (sampleRate channels : Z)
| NewDecoder (sampleRate channels : Z)
| NewResamplerObj (channels quality inputRate outputRate : Z)
| NewDenoiser (sampleRate channels : Z)
| UseObj (i : nat) (flush : bool) (data : bytes_)
| CloseObj (i : nat)
| Unfinalize (i : nat)                 (* [runtime.SetFinalizer(x, nil)] *)
| Unreachable (i : nat).               (* the garbage collector takes the object *)

Definition add_obj (w : world) (h : c_heap) (r : result obj) : world :=
  mkWorld h (objects w ++ match r with Ok o => [(o, true)] | Err _ => [] end).

(** A panic ends the program. *)
Inductive step_result : Type :=
| Corrupted
| Crashed
| Running (w : world).

Definition running_or (r : option world) : step_result :=
  match r with Some w => Running w | None => Corrupted end.

Definition op_step (w : world) (o : op) : step_result :=
  match o with
  | NewEncoder rate ch => let '(h, r) := new_encoder (heap w) rate ch in Running (add_obj w h r)
  | NewDecoder rate ch => let '(h, r) := new_decoder (heap w) rate ch in Running (add_obj w h r)
  | NewResamplerObj ch q i o =>
      let '(h, r) := new_resampler (heap w) ch q i o in
      Running (add_obj w h (match r with Ok s => Ok (OResampler s ch) | Err e => Err e end))
  | NewDenoiser rate ch => running_or ((λ x, add_obj w x.1 x.2) <$> new_denoiser (heap w) rate ch)
  | UseObj i flush data =>
      match objects w !! i with
      | None => Running w
      | Some (x, f) =>
          match obj_use (heap w) x flush data with
          | Corrupts => Corrupted
          | Panicked => Crashed
          | Done h x' _ => Running (mkWorld h (<[i := (x', f)]> (objects w)))
          end
      end
  | CloseObj i =>
      match objects w !! i with
      | None => Running w
      | Some (x, f) =>
          running_or ((λ y, mkWorld y.1 (<[i := (y.2, f)]> (objects w))) <$> obj_Close (heap w) x)
      end
  | Unfinalize i =>
      match objects w !! i with
      | None => Running w
      | Some (x, _) => Running (mkWorld (heap w) (<[i := (x, false)]> (objects w)))
      end
  | Unreachable i =>
      match objects w !! i with
      | None => Running w
      | Some (x, true) =>
          running_or ((λ y, mkWorld y.1 (delete i (objects w))) <$> obj_Close (heap w) x)
      | Some (_, false) => Running (mkWorld (heap w) (delete i (objects w)))
      end
  end.

Fixpoint op_run (w : world) (ops : list op) : step_result :=
  match ops with
  | [] => Running w
  | o :: ops' =>
      match op_step w o with
      | Running w' => op_run w' ops'
      | r => r
      end
  end.

Definition no_objects : world := mkWorld (mkCHeap ∅ 0) [].

(** ** Which handles are held *)

Definition opt_list (i : option nat) : list nat := match i with Some i => [i] | None => [] end.

Definition handles (o : obj) : list nat :=
  match o with
  | OEncoder i _ | ODecoder i _ _ | OResampler i _ => opt_list i
  | ODenoiser i _ _ up down _ _ => opt_list i ++ opt_list up ++ opt_list down
  end.

Inductive kind : Type := KEncoder | KDecoder | KResampler | KDenoise.

Definition c_kind (s : c_state) : kind :=
  match s with CEncoder _ => KEncoder | CDecoder _ => KDecoder | CResampler _ => KResampler | CDenoise _ => KDenoise end.

(** The handle, if any, is of a live object of that kind. *)
Definition live_as (h : c_heap) (k : kind) (i : option nat) : Prop :=
  match i with None => True | Some i => c_kind <$> c_live h !! i = Some k end.

Definition fits (h : c_heap) (o : obj) : Prop :=
  match o with
  | OEncoder i _ => live_as h KEncoder i
  | ODecoder i _ _ => live_as h KDecoder i
  | OResampler i _ => live_as h KResampler i
  | ODenoiser i _ _ up down _ _ => live_as h KDenoise i ∧ live_as h KResampler up ∧ live_as h KResampler down ∧
      (i = None → up = None ∧ down = None)
  end.

(** From heap [h] with handles [hs] to [h'] with [hs']: nothing else is
    touched, and what is live is held or was not ours. *)
Record change (h : c_heap) (hs : list nat) (h' : c_heap) (hs' : list nat) : Prop := mkChange {
  ch_next : (c_next h <= c_next h')%nat;
  ch_NoDup : NoDup hs';
  ch_from : ∀ i, i ∈ hs' → i ∈ hs ∨ (c_next h <= i < c_next h')%nat;
  ch_frame : ∀ i, i ∉ hs → (i < c_next h)%nat → c_live h' !! i = c_live h !! i;
  ch_live : ∀ i, is_Some (c_live h' !! i) →
    (i < c_next h')%nat ∧ (i ∈ hs' ∨ (i ∉ hs) ∧ is_Some (c_live h !! i))
}.

Definition bounded (h : c_heap) : Prop := ∀ i, is_Some (c_live h !! i) → (i < c_next h)%nat.

Lemma live_as_agree h h' k i :
  (∀ j, j ∈ opt_list i → c_live h' !! j = c_live h !! j) → live_as h k i → live_as h' k i.
Proof. intros Ha. destruct i as [i|]; [|done]. cbn. by rewrite Ha by (by left). Qed.

Lemma fits_agree h h' o : (∀ i, i ∈ handles o → c_live h' !! i = c_live h !! i) → fits h o → fits h' o.
Proof.
  intros Ha. destruct o; cbn [fits handles] in *; try (by apply live_as_agree).
  intros (H1 & H2 & H3 & H4). split_and!; [..|done]; (eapply live_as_agree; [|done]); intros j Hj; apply Ha; set_solver.
Qed.

Lemma live_as_Some h k i j : live_as h k i → j ∈ opt_list i → is_Some (c_live h !! j).
Proof.
  destruct i as [i|]; cbn; [|by intros _ ?%elem_of_nil]. intros Ha ->%list_elem_of_singleton.
  destruct (c_live h !! i); [done|discriminate Ha].
Qed.

Lemma fits_live h o i : fits h o → i ∈ handles o → is_Some (c_live h !! i).
Proof.
  destruct o; cbn [fits handles]; [by apply live_as_Some..|].
  rewrite !elem_of_app. intros (H1 & H2 & H3 & _) [Hi|[Hi|Hi]];
    [exact (live_as_Some _ _ _ _ H1 Hi)|exact (live_as_Some _ _ _ _ H2 Hi)|exact (live_as_Some _ _ _ _ H3 Hi)].
Qed.

(** *** Closing *)

Fixpoint close_all (h : c_heap) (is_ : list nat) : option c_heap :=
  match is_ with
  | [] => Some h
  | i :: rest => c_destroy h i ≫= λ h', close_all h' rest
  end.

Definition closed (o : obj) : obj :=
  match o with
  | OEncoder _ ch => OEncoder None ch
  | ODecoder _ ch fs => ODecoder None ch fs
  | OResampler _ ch => OResampler None ch
  | ODenoiser _ sr ch _ _ ib ob => ODenoiser None sr ch None None ib ob
  end.

Lemma close_handle_all h i : close_handle h i = close_all h (opt_list i).
Proof. destruct i as [i|]; [|done]. cbn. by destruct (c_destroy h i). Qed.

Lemma close_all_app is1 is2 : ∀ h, close_all h (is1 ++ is2) = close_all h is1 ≫= λ h', close_all h' is2.
Proof. induction is1 as [|i is1 IH]; intros h; [done|]. cbn. destruct (c_destroy h i); [apply IH|done]. Qed.

Lemma obj_Close_all h o : obj_Close h o = (λ h', (h', closed o)) <$> close_all h (handles o).
Proof.
  destruct o as [i ch|i ch fs|i ch|i sr ch up down ib ob]; cbn [obj_Close handles closed];
    [by rewrite close_handle_all..|].
  rewrite close_all_app, <-close_handle_all. destruct (close_handle h i) as [h1|]; [|done]. cbn [mbind option_bind].
  rewrite close_all_app, <-close_handle_all. destruct (close_handle h1 up) as [h2|]; [|done]. cbn [mbind option_bind].
  by rewrite close_handle_all.
Qed.

Lemma close_all_ok is_ : ∀ h, NoDup is_ → (∀ i, i ∈ is_ → is_Some (c_live h !! i)) →
  ∃ h', close_all h is_ = Some h' ∧ c_next h' = c_next h ∧
    ∀ i, c_live h' !! i = if decide (i ∈ is_) then None else c_live h !! i.
Proof.
  induction is_ as [|j is_ IH]; intros h Hn Hl; [by exists h|]. apply NoDup_cons in Hn as [Hj Hn].
  cbn [close_all]. unfold c_destroy at 1. rewrite decide_True by (apply Hl; by left). cbn [mbind option_bind].
  destruct (IH (mkCHeap (delete j (c_live h)) (c_next h))) as (h' & -> & En & El); [done| |].
  { intros i Hi. cbn. rewrite lookup_delete_ne by (by intros ->). apply Hl. by right. }
  exists h'. split; [done|]. split; [done|]. intros i. rewrite El. cbn.
  destruct (decide (i = j)) as [->|Hne].
  - rewrite decide_False, decide_True, lookup_delete_eq by set_solver. done.
  - rewrite lookup_delete_ne by done. destruct (decide (i ∈ is_)), (decide (i ∈ j :: is_)); [done|set_solver|set_solver|done].
Qed.

Lemma close_change h o : fits h o → NoDup (handles o) → bounded h →
  ∃ h', obj_Close h o = Some (h', closed o) ∧ change h (handles o) h' [] ∧ fits h' (closed o).
Proof.
  intros Hf Hn Hb. rewrite obj_Close_all.
  destruct (close_all_ok (handles o) h Hn) as (h' & -> & En & El); [intros i Hi; by eapply fits_live|].
  exists h'. split; [done|]. split; [|by destruct o]. split.
  - by rewrite En.
  - constructor.
  - by intros i ?%elem_of_nil.
  - intros i Hi _. by rewrite El, decide_False.
  - intros i. rewrite El, En. destruct (decide (i ∈ handles o)); [by intros []|]. intros Hi.
    split; [by apply Hb|by right].
Qed.

(** *** Using *)

(** Writing the states of live objects back. *)
Lemma set_change h hs h' :
  NoDup hs → bounded h → c_next h' = c_next h →
  (∀ i, i ∉ hs → c_live h' !! i = c_live h !! i) →
  (∀ i, is_Some (c_live h' !! i) → is_Some (c_live h !! i)) → change h hs h' hs.
Proof.
  intros Hn Hb En Ef Hl. split; rewrite ?En; [done|done|by left|by intros i Hi _; apply Ef|].
  intros i Hi. apply Hl in Hi. split; [by apply Hb|]. destruct (decide (i ∈ hs)); [by left|by right].
Qed.

(** A heap that differs only in the states of some live objects. *)
Record same_shape (h h' : c_heap) (hs : list nat) : Prop := mkSame {
  ss_next : c_next h' = c_next h;
  ss_other : ∀ i, i ∉ hs → c_live h' !! i = c_live h !! i;
  ss_kind : ∀ i, c_kind <$> c_live h' !! i = c_kind <$> c_live h !! i
}.

Lemma same_refl h hs : same_shape h h hs.
Proof. done. Qed.

Lemma c_set_shape h i st hs : c_kind <$> c_live h !! i = Some (c_kind st) → i ∈ hs →
  same_shape h (c_set h i st) hs.
Proof.
  intros Hk Hi. split; [done| |]; intros j; cbn.
  - intros Hj. rewrite lookup_insert_ne by (by intros ->). done.
  - destruct (decide (i = j)) as [->|Hne]; [by rewrite lookup_insert_eq, Hk|by rewrite lookup_insert_ne].
Qed.

Lemma same_trans h1 h2 h3 hs : same_shape h1 h2 hs → same_shape h2 h3 hs → same_shape h1 h3 hs.
Proof.
  intros [A1 B1 C1] [A2 B2 C2]. split; [by rewrite A2| |].
  - intros i Hi. by rewrite B2, B1.
  - intros i. by rewrite C2.
Qed.

Lemma same_live h h' hs k i : same_shape h h' hs → live_as h k i → live_as h' k i.
Proof. intros [_ _ Hk]. destruct i as [i|]; [|done]. cbn. by rewrite Hk. Qed.

Lemma same_change h h' o o' : same_shape h h' (handles o) → handles o' = handles o → fits h o →
  NoDup (handles o) → bounded h → change h (handles o) h' (handles o').
Proof.
  intros [En Ef Hk] -> Hf Hn Hb. split; rewrite ?En; [done|done|by left|by intros i Hi _; apply Ef|].
  intros i Hi. assert (is_Some (c_live h !! i)) as Hi'.
  { specialize (Hk i). destruct Hi as [x Hx]. rewrite Hx in Hk. by destruct (c_live h !! i). }
  split; [by apply Hb|]. destruct (decide (i ∈ handles o)); [by left|by right].
Qed.

Definition call_ok (h : c_heap) (o : obj) (c : call) : Prop :=
  match c with
  | Corrupts => False
  | Panicked => True
  | Done h' o' _ => same_shape h h' (handles o) ∧ handles o' = handles o ∧ fits h' o'
  end.

Lemma fits_same h h' o : same_shape h h' (handles o) → fits h o → fits h' o.
Proof.
  intros Hs. destruct o; cbn [fits]; [by apply (same_live _ _ _ _ _ Hs)..|].
  intros (H1 & H2 & H3 & H4). split_and!; [by apply (same_live _ _ _ _ _ Hs)..|done].
Qed.

Lemma live_as_inv h k i : live_as h k (Some i) → ∃ st, c_live h !! i = Some st ∧ c_kind st = k.
Proof. cbn. destruct (c_live h !! i) as [st|]; [|done]. intros [= <-]. by exists st. Qed.

Lemma load_resampler_ok h i : live_as h KResampler i → ∃ r, load_resampler h i = Some r ∧ (is_Some r ↔ is_Some i).
Proof.
  destruct i as [i|]; cbn; [|by exists None]. intros Hk.
  destruct (c_live h !! i) as [[]|]; try discriminate Hk. eexists. split; [done|]. split; intros _; by eexists.
Qed.

Lemma store_resampler_shape h i r hs : live_as h KResampler i → (∀ j, j ∈ opt_list i → j ∈ hs) →
  same_shape h (store_resampler h i r) hs.
Proof.
  intros Hk Hi. destruct i as [i|]; [|done]. destruct r as [r|]; [|done]. apply c_set_shape; [exact Hk|].
  apply Hi. by left.
Qed.

Lemma use_denoiser_ok h i sr ch up down ib ob flush pcm :
  fits h (ODenoiser i sr ch up down ib ob) →
  call_ok h (ODenoiser i sr ch up down ib ob) (use_denoiser h i sr ch up down ib ob flush pcm).
Proof.
  intros (Hi & Hu & Hd & Hc). unfold use_denoiser. destruct i as [i|].
  - destruct (live_as_inv _ _ _ Hi) as (st & El & Ek). rewrite El. destruct st; try discriminate Ek.
    destruct (load_resampler_ok h up Hu) as (u & -> & _), (load_resampler_ok h down Hd) as (dn & -> & _).
    destruct (if flush then _ else _) as [[d' r]|]; [|done]. cbn [call_ok].
    set (o := ODenoiser (Some i) sr ch up down ib ob).
    assert (same_shape h (c_set h i (CDenoise (model d'))) (handles o)) as S1
      by (apply c_set_shape; [by rewrite El|cbn; set_solver]).
    assert (∀ j, j ∈ opt_list up → j ∈ handles o) as Iu by (cbn; set_solver).
    assert (∀ j, j ∈ opt_list down → j ∈ handles o) as Id by (cbn; set_solver).
    pose proof (same_trans _ _ _ _ S1 (store_resampler_shape _ up (upsampler d') _ (same_live _ _ _ _ _ S1 Hu) Iu)) as S2.
    pose proof (same_trans _ _ _ _ S2 (store_resampler_shape _ down (downsampler d') _ (same_live _ _ _ _ _ S2 Hd) Id)) as S3.
    split; [exact S3|]. split; [done|]. by apply (fits_same _ _ o S3).
  - destruct Hc as [-> ->]; [done|].
    destruct flush; [destruct (closed_Flush _ _ _ _)|destruct (closed_Denoise _ _ _ _ _) as [[]|]]; done.
Qed.

Lemma obj_use_ok h o flush data : fits h o → call_ok h o (obj_use h o flush data).
Proof.
  intros Hf. destruct o as [i ch|i ch fs|i ch|i sr ch up down ib ob]; cbn [obj_use]; [..|by apply use_denoiser_ok];
    cbn [fits] in Hf; unfold use_encoder, use_decoder, use_resampler;
    (destruct i as [i|]; [|by repeat case_match]);
    destruct (live_as_inv _ _ _ Hf) as (st & El & Ek); rewrite El; destruct st; try discriminate Ek.
  - destruct (EncodeBytes _ _) as [[e' r]|]; [|done].
    assert (same_shape h (c_set h i (CEncoder (enc_handle e'))) [i]) as S by (apply c_set_shape; [by rewrite El|by left]).
    split; [exact S|]. split; [done|]. by apply (fits_same _ _ (OEncoder (Some i) ch) S).
  - destruct (DecodeToBytes _ _) as [d' r].
    assert (same_shape h (c_set h i (CDecoder (dec_handle d'))) [i]) as S by (apply c_set_shape; [by rewrite El|by left]).
    split; [exact S|]. split; [done|]. by apply (fits_same _ _ (ODecoder (Some i) ch fs) S).
  - destruct (Resample _ _) as [[r' r]|]; [|done].
    assert (same_shape h (c_set h i (CResampler (rs_state r'))) [i]) as S by (apply c_set_shape; [by rewrite El|by left]).
    split; [exact S|]. split; [done|]. by apply (fits_same _ _ (OResampler (Some i) ch) S).
Qed.

(** *** Creating *)

Lemma c_new_change h st : bounded h → change h [] (c_new h st).1 [(c_new h st).2].
Proof.
  intros Hb. split; cbn.
  - lia.
  - apply NoDup_singleton.
  - intros i ->%list_elem_of_singleton. right. lia.
  - intros i _ Hi. by rewrite lookup_insert_ne by lia.
  - intros i. destruct (decide (c_next h = i)) as [<-|Hne]; [split; [lia|left; by left]|].
    rewrite lookup_insert_ne by done. intros Hi. specialize (Hb i Hi). split; [lia|right; split; [by intros ?%elem_of_nil|done]].
Qed.

Lemma change_refl h : bounded h → change h [] h [].
Proof.
  intros Hb. split; [done|constructor|by left|done|]. intros i Hi. split; [by apply Hb|].
  right. split; [by intros ?%elem_of_nil|done].
Qed.

Lemma change_bounded h hs h' hs' : change h hs h' hs' → bounded h'.
Proof. intros Hc i Hi. by apply (ch_live _ _ _ _ Hc). Qed.

Lemma change_trans h1 s1 h2 s2 h3 s3 : change h1 s1 h2 s2 → change h2 s2 h3 s3 → change h1 s1 h3 s3.
Proof.
  intros [A1 B1 C1 D1 E1] [A2 B2 C2 D2 E2]. split.
  - lia.
  - done.
  - intros i [Hi|Hi]%C2; [|right; lia]. destruct (C1 i Hi); [by left|right; lia].
  - intros i Hi Hn. rewrite D2, D1; [done|done|done| |lia]. intros [?|?]%C1; [done|lia].
  - intros i Hi. destruct (E2 i Hi) as [Hn [Hs|[Hs Hl]]]; [by split; [|left]|]. split; [done|]. right.
    destruct (E1 i Hl) as [_ [?|?]]; done.
Qed.

(** Handles that are not used stay held. *)
Lemma change_frame h s h' s' r : change h s h' s' → NoDup (s ++ r) → (∀ i, i ∈ r → (i < c_next h)%nat) →
  (∀ i, i ∈ r → is_Some (c_live h !! i)) → change h (s ++ r) h' (s' ++ r).
Proof.
  intros [A B C D E] Hn Hr Hl. apply NoDup_app in Hn as (_ & Hd & Hnr). split.
  - done.
  - apply NoDup_app. split; [done|split; [|done]]. intros i [Hi|Hi]%C Hi2; [by apply (Hd i)|]. specialize (Hr i Hi2). lia.
  - intros i [Hi|Hi]%elem_of_app; [destruct (C i Hi); [left; set_solver|by right]|left; set_solver].
  - intros i Hi. apply D. set_solver.
  - intros i Hi. destruct (E i Hi) as [H1 [H2|[H2 H3]]]; (split; [done|]); [left; set_solver|].
    destruct (decide (i ∈ r)); [left; set_solver|right; set_solver].
Qed.

Lemma close_all_change h is_ r : NoDup (is_ ++ r) → (∀ i, i ∈ is_ ++ r → is_Some (c_live h !! i)) → bounded h →
  ∃ h', close_all h is_ = Some h' ∧ change h (is_ ++ r) h' r.
Proof.
  intros Hn Hl Hb. pose proof Hn as (Hn1 & Hd & Hn2)%NoDup_app.
  destruct (close_all_ok is_ h Hn1) as (h' & E & En & El); [set_solver|]. exists h'. split; [done|]. split.
  - by rewrite En.
  - done.
  - intros i Hi. left. set_solver.
  - intros i Hi _. rewrite El, decide_False by set_solver. done.
  - intros i. rewrite El, En. destruct (decide (i ∈ is_)); [by intros []|]. intros Hi. split; [by apply Hb|].
    destruct (decide (i ∈ r)); [by left|right; set_solver].
Qed.

Lemma new_resampler_ok h ch q i o : bounded h →
  match new_resampler h ch q i o with
  | (h', Ok s) => ∃ st, h' = (c_new h (CResampler st)).1 ∧ s = Some (c_next h)
  | (h', Err _) => h' = h
  end.
Proof. intros Hb. unfold new_resampler. destruct (NewResampler _ _ _ _) as [r|e]; [by exists (rs_state r)|done]. Qed.

Lemma destroy_change h i r : NoDup (i :: r) → (∀ j, j ∈ i :: r → is_Some (c_live h !! j)) → bounded h →
  ∃ h', c_destroy h i = Some h' ∧ change h (i :: r) h' r ∧ (∀ j, j ∈ r → is_Some (c_live h' !! j)).
Proof.
  intros Hn Hl Hb. destruct (close_all_change h [i] r Hn Hl Hb) as (h' & E & Hc). exists h'.
  assert (c_destroy h i = Some h') as Ed by (cbn in E; by destruct (c_destroy h i)).
  split; [done|]. split; [exact Hc|]. intros j Hj. unfold c_destroy in Ed. case_decide; [|done].
  injection Ed as <-. cbn. apply NoDup_cons in Hn as [Hi _].
  rewrite lookup_delete_ne by (by intros ->). apply Hl. by right.
Qed.

Lemma change_perm h s h' s1 s2 : s1 ≡ₚ s2 → change h s h' s1 → change h s h' s2.
Proof.
  intros Hp [A B C D E]. split; [done|by rewrite <-Hp| |done|].
  - intros i. rewrite <-Hp. apply C.
  - intros i. rewrite <-Hp. apply E.
Qed.

(** A new C object beside one that exists. *)
Lemma c_new_beside h st r : bounded h → NoDup r → (∀ i, i ∈ r → is_Some (c_live h !! i)) →
  change h r (c_new h st).1 (c_next h :: r) ∧ NoDup (c_next h :: r) ∧
  ∀ i, i ∈ c_next h :: r → is_Some (c_live (c_new h st).1 !! i).
Proof.
  intros Hb Hn Hl. split; [|split].
  - apply (change_frame _ [] _ [c_next h] r); [by apply c_new_change|done| |done]. intros i Hi. by apply Hb, Hl.
  - apply NoDup_cons. split; [|done]. intros Hi%Hl%Hb. lia.
  - intros i [->|Hi]%elem_of_cons; cbn; [by rewrite lookup_insert_eq|].
    rewrite lookup_insert_ne; [by apply Hl|]. apply Hl, Hb in Hi. lia.
Qed.

Definition creates (h : c_heap) (x : option (c_heap * result obj)) : Prop :=
  ∃ h' r, x = Some (h', r) ∧ change h [] h' (match r with Ok o => handles o | Err _ => [] end) ∧
    (∀ o, r = Ok o → fits h' o).

Lemma creates_nothing h e : bounded h → creates h (Some (h, Err e)).
Proof. intros Hb. do 2 eexists. split; [done|]. split; [by apply change_refl|done]. Qed.

(** What is created before a failure is destroyed again. *)
Lemma new_denoiser_ok h rate ch : bounded h → creates h (new_denoiser h rate ch).
Proof.
  intros Hb. unfold new_denoiser.
  destruct (negb (ch =? 1) && _); [by apply creates_nothing|].
  destruct (rate <=? 0); [by apply creates_nothing|].
  destruct rnnoise_create as [st|]; [|by apply creates_nothing].
  destruct (c_new_beside h (CDenoise st) [] Hb) as (C1 & N1 & L1); [constructor|by intros ? ?%elem_of_nil|].
  set (h1 := (c_new h (CDenoise st)).1) in *. change (c_new h (CDenoise st)) with (h1, c_next h). cbn iota beta.
  pose proof (change_bounded _ _ _ _ C1) as Hb1.
  assert (c_live h1 !! c_next h = Some (CDenoise st)) as E1 by apply lookup_insert_eq.
  destruct (negb (rate =? _)).
  2: { do 2 eexists. split; [done|]. split; [exact C1|]. intros o [= <-]. split; [exact (f_equal (fmap c_kind) E1)|done]. }
  pose proof (new_resampler_ok h1 1 QualityFast rate rnnoiseTargetSampleRate Hb1) as Hu.
  destruct (new_resampler h1 _ _ _ _) as [h2 [up|e]].
  2: { subst h2. destruct (destroy_change h1 (c_next h) []) as (h' & -> & Hc & _); [done..|].
       do 2 eexists. split; [done|]. split; [by eapply change_trans|done]. }
  destruct Hu as (st2 & -> & ->). destruct (c_new_beside h1 (CResampler st2) [c_next h] Hb1 N1 L1) as (C2 & N2 & L2).
  set (h2 := (c_new h1 (CResampler st2)).1) in *. pose proof (change_bounded _ _ _ _ C2) as Hb2.
  assert (c_live h2 !! c_next h = Some (CDenoise st)) as E2 by (cbn; rewrite lookup_insert_ne; [done|cbn; lia]).
  assert (c_live h2 !! c_next h1 = Some (CResampler st2)) as E3 by apply lookup_insert_eq.
  pose proof (new_resampler_ok h2 1 QualityFast rnnoiseTargetSampleRate rate Hb2) as Hd.
  destruct (new_resampler h2 _ _ _ _) as [h3 [down|e]].
  2: { subst h3. cbn [close_handle]. destruct (destroy_change h2 (c_next h1) [c_next h]) as (h' & -> & Hc & Hl); [done..|].
       cbn [mbind option_bind]. pose proof (change_bounded _ _ _ _ Hc) as Hb3.
       destruct (destroy_change h' (c_next h) []) as (h'' & -> & Hc' & _); [done..|].
       do 2 eexists. split; [done|]. split; [|done].
       eapply change_trans; [exact C1|]. eapply change_trans; [exact C2|]. by eapply change_trans. }
  destruct Hd as (st3 & -> & ->). destruct (c_new_beside h2 (CResampler st3) _ Hb2 N2 L2) as (C3 & N3 & L3).
  set (h3 := (c_new h2 (CResampler st3)).1) in *.
  assert (c_live h3 !! c_next h = Some (CDenoise st)) as E4 by (cbn; rewrite lookup_insert_ne; [done|cbn; lia]).
  assert (c_live h3 !! c_next h1 = Some (CResampler st2)) as E5 by (cbn; rewrite lookup_insert_ne; [done|cbn; lia]).
  assert (c_live h3 !! c_next h2 = Some (CResampler st3)) as E6 by apply lookup_insert_eq.
  do 2 eexists. split; [done|]. split.
  - apply (change_perm _ _ _ [c_next h2; c_next h1; c_next h]); [cbn [handles opt_list app]; solve_Permutation|].
    eapply change_trans; [exact C1|]. by eapply change_trans.
  - intros o [= <-].
    split_and!; [exact (f_equal (fmap c_kind) E4)|exact (f_equal (fmap c_kind) E5)|exact (f_equal (fmap c_kind) E6)|done].
Qed.

(** *** The whole program *)

Definition all_handles (l : list (obj * bool)) : list nat := concat (map (λ x, handles x.1) l).

Record world_ok (w : world) : Prop := mkWorldOk {
  wo_bounded : bounded (heap w);
  wo_NoDup : NoDup (all_handles (objects w));
  wo_fits : ∀ x, x ∈ objects w → fits (heap w) x.1
}.

(** Every live C object belongs to an object of the program. *)
Definition owned (w : world) : Prop := ∀ i, is_Some (c_live (heap w) !! i) → i ∈ all_handles (objects w).

Lemma all_handles_cons x l : all_handles (x :: l) = handles x.1 ++ all_handles l.
Proof. done. Qed.

Lemma handles_all i x l : i ∈ handles x.1 → x ∈ l → i ∈ all_handles l.
Proof.
  intros Hi. induction l as [|y l IH]; [by intros ?%elem_of_nil|].
  rewrite all_handles_cons, elem_of_app. intros [->|Hx]%elem_of_cons; [by left|right; by apply IH].
Qed.

Lemma all_handles_perm l l' : l ≡ₚ l' → all_handles l ≡ₚ all_handles l'.
Proof. intros Hp. unfold all_handles. by rewrite Hp. Qed.

Definition finalized (w : world) : Prop := ∀ x, x ∈ objects w → x.2 = true.

(** [c]: whether no finalizer was removed so far. *)
Definition good (c : bool) (w : world) : Prop := world_ok w ∧ (c = true → owned w ∧ finalized w).

Lemma good_perm h l l' : l ≡ₚ l' → world_ok (mkWorld h l) → world_ok (mkWorld h l').
Proof.
  intros Hp [H1 H2 H3]. split; cbn in *; [done|by rewrite <-(all_handles_perm _ _ Hp)|].
  intros x Hx. apply H3. by rewrite Hp.
Qed.

Lemma owned_perm h l l' : l ≡ₚ l' → owned (mkWorld h l) → owned (mkWorld h l').
Proof. intros Hp Ho i Hi. cbn. rewrite <-(all_handles_perm _ _ Hp). by apply Ho. Qed.

(** One object of the program changes, the others are as they were. *)
Lemma world_change h h' x x' rest : world_ok (mkWorld h (x :: rest)) →
  change h (handles x.1) h' (handles x'.1) → fits h' x'.1 →
  world_ok (mkWorld h' (x' :: rest)) ∧
  (owned (mkWorld h (x :: rest)) → owned (mkWorld h' (x' :: rest))).
Proof.
  intros [Hb Hn Hf] Hc Hx'. cbn [heap objects] in *. rewrite all_handles_cons in Hn.
  assert (∀ i, i ∈ all_handles rest → is_Some (c_live h !! i)) as Hl.
  { intros i Hi. unfold all_handles in Hi. assert (∃ y, y ∈ rest ∧ i ∈ handles y.1) as (y & Hy & Hiy).
    { clear -Hi. induction rest as [|y rest IH]; [by apply elem_of_nil in Hi|]. cbn in Hi.
      apply elem_of_app in Hi as [Hi|Hi]; [exists y; split; [by left|done]|].
      destruct (IH Hi) as (z & Hz & ?). exists z. split; [by right|done]. }
    eapply fits_live; [apply (Hf y); by right|done]. }
  pose proof (change_frame _ _ _ _ (all_handles rest) Hc Hn (λ i Hi, Hb i (Hl i Hi)) Hl) as Hcf.
  pose proof Hn as (_ & Hd & _)%NoDup_app. split.
  - split; cbn [heap objects].
    + by eapply change_bounded.
    + rewrite all_handles_cons. by apply (ch_NoDup _ _ _ _ Hcf).
    + intros y [->|Hy]%elem_of_cons; [done|]. apply (fits_agree h); [|apply Hf; by right].
      intros i Hi. apply (ch_frame _ _ _ _ Hc).
      * intros Hin. apply (Hd i Hin). exact (handles_all _ _ _ Hi Hy).
      * apply Hb, Hl. exact (handles_all _ _ _ Hi Hy).
  - intros Ho i Hi. cbn [objects]. rewrite all_handles_cons. destruct (ch_live _ _ _ _ Hcf i Hi) as [_ [?|[Hni Hli]]]; [done|].
    exfalso. apply Hni. apply (Ho i) in Hli. done.
Qed.

(** Replacing the object at a position. *)
Lemma good_update c h l i x f h' x' : good c (mkWorld h l) → l !! i = Some (x, f) →
  change h (handles x) h' (handles x') → fits h' x' → good c (mkWorld h' (<[i := (x', f)]> l)).
Proof.
  intros [Hw Ho] Hi Hc Hf. pose proof (delete_Permutation _ _ _ Hi) as Hp.
  pose proof (insert_Permutation l i _ (x', f) Hi) as Hp'.
  destruct (world_change h h' (x, f) (x', f) (delete i l)) as [H1 H2]; [by eapply good_perm|done|done|].
  split; [by eapply good_perm; [symmetry|]|]. intros [Hown Hfin]%Ho. split.
  - eapply owned_perm; [symmetry; exact Hp'|]. apply H2. by eapply owned_perm.
  - intros y. cbn. rewrite Hp', elem_of_cons. intros [->|Hy]; [apply (Hfin (x, f)); by eapply list_elem_of_lookup_2|].
    apply Hfin. cbn. rewrite Hp. by right.
Qed.

Lemma good_delete c h l i x f h' : good c (mkWorld h l) → l !! i = Some (x, f) →
  change h (handles x) h' [] → good c (mkWorld h' (delete i l)).
Proof.
  intros [Hw Ho] Hi Hc. pose proof (delete_Permutation _ _ _ Hi) as Hp.
  destruct (world_change h h' (x, f) (OEncoder None 0, f) (delete i l)) as [[H1 H2 H3] H4]; [by eapply good_perm|done|done|].
  cbn [heap objects] in *. split.
  - split; cbn; [done|done|]. intros y Hy. apply H3. by right.
  - intros [Hown Hfin]%Ho. split.
    + intros j Hj. apply H4 in Hj; [done|]. by eapply owned_perm.
    + intros y Hy. apply Hfin. cbn. rewrite Hp. by right.
Qed.

Lemma good_forget h l i x f : good false (mkWorld h l) → l !! i = Some (x, f) → good false (mkWorld h (delete i l)).
Proof.
  intros [Hw _] Hi. pose proof (delete_Permutation _ _ _ Hi) as Hp. apply (good_perm _ _ _ Hp) in Hw as [H1 H2 H3].
  cbn [heap objects] in *. split; [split; cbn [heap objects]|done]; [done| |intros y Hy; apply H3; by right].
  rewrite all_handles_cons in H2. by apply NoDup_app in H2 as (_ & _ & ?).
Qed.

Lemma good_add c w h r : good c w → change (heap w) [] h (match r with Ok o => handles o | Err _ => [] end) →
  (∀ o, r = Ok o → fits h o) → good c (add_obj w h r).
Proof.
  destruct w as [h0 l]. intros [Hw Ho] Hc Hf. unfold add_obj. cbn [heap objects].
  assert (good c (mkWorld h0 ((OEncoder None 0, true) :: l))) as [Hw0 Ho0].
  { split.
    - destruct Hw as [H1 H2 H3]. split; [done|done|]. intros x [->|Hx]%elem_of_cons; [done|by apply H3].
    - intros [Hown Hfin]%Ho. split; [exact Hown|]. intros x [->|Hx]%elem_of_cons; [done|by apply Hfin]. }
  set (o := match r with Ok o => o | Err _ => OEncoder None 0 end).
  destruct (world_change h0 h (OEncoder None 0, true) (o, true) l Hw0) as [H1 H2].
  { subst o. by destruct r. }
  { subst o. destruct r; [by apply Hf|done]. }
  assert (good c (mkWorld h ((o, true) :: l))) as Hg.
  { split; [done|]. intros [Hown Hfin]%Ho0. split; [by apply H2|].
    intros x [->|Hx]%elem_of_cons; [done|]. apply Hfin. by right. }
  destruct r as [o'|e].
  - destruct Hg as [G1 G2]. assert ((o, true) :: l ≡ₚ l ++ [(o', true)]) as Hp by (subst o; solve_Permutation).
    split; [by eapply good_perm|]. intros [Hown Hfin]%G2. split; [by eapply owned_perm|].
    intros x. cbn. rewrite <-Hp. apply Hfin.
  - rewrite app_nil_r. destruct Hg as [[G1 G2 G3] G4]. split; [split; [done|done|intros x Hx; apply G3; by right]|].
    intros [Hown Hfin]%G4. split; [exact Hown|]. intros x Hx. apply Hfin. by right.
Qed.

Definition unfinalizes (o : op) : bool := match o with Unfinalize _ => true | _ => false end.

Definition step_good (c : bool) (r : step_result) : Prop :=
  match r with Corrupted => False | Crashed => True | Running w => good c w end.

Lemma new_change c w h (st : c_state) o : good c w → h = (c_new (heap w) st).1 → handles o = [c_next (heap w)] →
  fits h o → good c (add_obj w h (Ok o)).
Proof.
  intros Hg -> Hh Hf. apply good_add; [done| |by intros ? [= <-]]. rewrite Hh. apply c_new_change. apply Hg.
Qed.

Lemma object_ok c w i x f : good c w → objects w !! i = Some (x, f) →
  fits (heap w) x ∧ NoDup (handles x) ∧ bounded (heap w).
Proof.
  intros [[H1 H2 H3] _] Hi. split; [by apply (H3 (x, f)); eapply list_elem_of_lookup_2|]. split; [|done].
  apply delete_Permutation in Hi. rewrite (all_handles_perm _ _ Hi), all_handles_cons in H2.
  by apply NoDup_app in H2 as (? & _ & _).
Qed.

Lemma op_step_good c w o : (c = true → unfinalizes o = false) → good c w → step_good c (op_step w o).
Proof.
  intros Hu Hg. pose proof Hg as [[Hb _ _] _]. destruct o as [rate ch|rate ch|ch q i o|rate ch|i flush data|i|i|i]; cbn [op_step].
  - unfold new_encoder. destruct (NewCgoOpusEncoder _ _) as [e|e].
    + eapply new_change; [done|done|done|]. cbn. by rewrite lookup_insert_eq.
    + apply good_add; [done|by apply change_refl|done].
  - unfold new_decoder. destruct (NewCgoOpusDecoder _ _) as [d|e].
    + eapply new_change; [done|done|done|]. cbn. by rewrite lookup_insert_eq.
    + apply good_add; [done|by apply change_refl|done].
  - pose proof (new_resampler_ok (heap w) ch q i o Hb) as Hr. destruct (new_resampler _ _ _ _ _) as [h [s|e]].
    + destruct Hr as (st & -> & ->). eapply new_change; [done|done|done|]. cbn. by rewrite lookup_insert_eq.
    + subst h. apply good_add; [done|by apply change_refl|done].
  - destruct (new_denoiser_ok (heap w) rate ch Hb) as (h & r & -> & Hc & Hf). by apply good_add.
  - destruct (objects w !! i) as [[x f]|] eqn:E; [|done]. destruct (object_ok _ _ _ _ _ Hg E) as (Hf & Hn & _).
    pose proof (obj_use_ok (heap w) x flush data Hf) as Hc. destruct (obj_use _ _ _ _) as [| |h x' r]; [done|done|].
    destruct Hc as (Hs & Hh & Hf'). destruct w as [h0 l]. eapply good_update; [done|done|by apply same_change|done].
  - destruct (objects w !! i) as [[x f]|] eqn:E; [|done]. destruct (object_ok _ _ _ _ _ Hg E) as (Hf & Hn & _).
    destruct (close_change _ _ Hf Hn Hb) as (h' & -> & Hc & Hf'). destruct w as [h0 l].
    eapply good_update; [done|done| |done]. by destruct x.
  - destruct (objects w !! i) as [[x f]|] eqn:E; [|done]. destruct c; [by specialize (Hu eq_refl)|].
    destruct w as [h0 l]. destruct Hg as [Hw _]. split; [|done]. cbn in *.
    pose proof (delete_Permutation _ _ _ E) as Hp. apply (good_perm _ _ _ Hp) in Hw as [H1 H2 H3].
    eapply good_perm; [symmetry; by eapply insert_Permutation|]. split; [done|done|].
    intros y [->|Hy]%elem_of_cons; [apply (H3 (x, f)); by left|apply H3; by right].
  - destruct (objects w !! i) as [[x [|]]|] eqn:E; [| |done]; destruct (object_ok _ _ _ _ _ Hg E) as (Hf & Hn & _).
    + destruct (close_change _ _ Hf Hn Hb) as (h' & -> & Hc & _). destruct w as [h0 l]. by eapply good_delete.
    + destruct w as [h0 l]. destruct c; [|by eapply good_forget].
      destruct Hg as [_ Ho]. destruct (Ho eq_refl) as [_ Hfin]. 
      by specialize (Hfin (x, false) ltac:(by eapply list_elem_of_lookup_2)).
Qed.

Lemma op_run_good c ops : ∀ w, (c = true → Forall (λ o, unfinalizes o = false) ops) → good c w →
  step_good c (op_run w ops).
Proof.
  induction ops as [|o ops IH]; intros w Hu Hg; [done|]. cbn.
  assert (step_good c (op_step w o)) as Hs.
  { apply op_step_good; [|done]. intros Hc%Hu. by inversion Hc. }
  destruct (op_step w o) as [| |w']; [done|done|]. apply IH; [|done]. intros Hc%Hu. by inversion Hc.
Qed.

Lemma no_objects_good c : good c no_objects.
Proof.
  split; [split|]; cbn.
  - intros i [x Hx]. cbn in Hx; by apply lookup_empty_Some in Hx.
  - constructor.
  - by intros x ?%elem_of_nil.
  - intros _. split; [intros i [x Hx]; cbn in Hx; by apply lookup_empty_Some in Hx|by intros x ?%elem_of_nil].
Qed.

(** ** Properties *)

(** C13: Whatever objects a program creates, uses, closes in any order and as often
    as it likes, strips of their finalizers or leaves to the garbage collector,
    no C object is used after it was freed nor freed twice; as long as no
    finalizer is removed every live C object belongs to an object of the
    program; and closing an object frees exactly its own. *)
Theorem c_objects_owned (ops : list op) :
  op_run no_objects ops ≠ Corrupted ∧
  ∀ w, op_run no_objects ops = Running w →
    NoDup (all_handles (objects w)) ∧
    (Forall (λ o, unfinalizes o = false) ops →
     ∀ j, is_Some (c_live (heap w) !! j) ↔ j ∈ all_handles (objects w)) ∧
    ∀ i x f, objects w !! i = Some (x, f) →
      ∃ h', obj_Close (heap w) x = Some (h', closed x) ∧
        ∀ j, c_live h' !! j = if decide (j ∈ handles x) then None else c_live (heap w) !! j.
Proof.
  pose proof (op_run_good false ops no_objects ltac:(done) (no_objects_good false)) as Hg.
  split; [by intros E; rewrite E in Hg|]. intros w E. rewrite E in Hg. pose proof Hg as [[Hb Hn Hf] _].
  split; [done|]. split.
  - intros Hu j. pose proof (op_run_good true ops no_objects ltac:(done) (no_objects_good true)) as Ht.
    rewrite E in Ht. split; [by apply (proj2 Ht eq_refl)|]. intros Hj.
    assert (∃ y, y ∈ objects w ∧ j ∈ handles y.1) as (y & Hy & Hjy).
    { clear -Hj. induction (objects w) as [|y l IH]; [by apply elem_of_nil in Hj|]. rewrite all_handles_cons in Hj.
      apply elem_of_app in Hj as [Hj|Hj]; [exists y; split; [by left|done]|].
      destruct (IH Hj) as (z & Hz & ?). exists z. split; [by right|done]. }
    eapply fits_live; [by apply (Hf y)|done].
  - intros i x f Hi. destruct (object_ok _ _ _ _ _ Hg Hi) as (Hfx & Hnx & _). rewrite obj_Close_all.
    destruct (close_all_ok (handles x) (heap w) Hnx) as (h' & -> & _ & El); [intros j Hj; by eapply fits_live|].
    by exists h'.
Qed.

(** The pools remove the finalizer of what they hand out, and the garbage
    collector empties pools: the C object of a pooled encoder is then lost. *)
Theorem pooled_encoder_leaks rate ch e : NewCgoOpusEncoder rate ch = Ok e →
  ∃ w, op_run no_objects [NewEncoder rate ch; Unfinalize 0; Unreachable 0] = Running w ∧
    objects w = [] ∧ is_Some (c_live (heap w) !! 0%nat).
Proof.
  intros He. cbn. unfold new_encoder. rewrite He. cbn. eexists. split; [done|]. split; [done|].
  cbn. rewrite lookup_insert_eq. by eexists.
Qed.

(** A closed object answers with an error, except that a closed denoiser gives
    back its last frame for every frame of new audio at 48 kHz, and panics at
    any other rate. *)
Theorem closed_objects_answer (h : c_heap) (sr ch : Z) (ib ob : list rn_sample) (pcm : bytes_) :
  len pcm mod 2 = 0 → pcm ≠ [] → (ch = 1) →
  obj_use h (OEncoder None ch) false pcm = Done h (OEncoder None ch) (Err "encoder already closed") ∧
  obj_use h (ODecoder None ch sr) false pcm = Done h (ODecoder None ch sr) (Err "decoder already closed") ∧
  obj_use h (OResampler None ch) false pcm = Done h (OResampler None ch) (Err "invalid output frame calculation") ∧
  (sr ≠ rnnoiseTargetSampleRate → obj_use h (ODenoiser None sr ch None None ib ob) false pcm = Panicked) ∧
  (let buf := ib ++ pcm16_to_float pcm in
   (rnnoiseFrameSize <= length buf)%nat →
   obj_use h (ODenoiser None rnnoiseTargetSampleRate ch None None ib ob) false pcm =
   Done h (ODenoiser None rnnoiseTargetSampleRate ch None None
             (drop (length buf / rnnoiseFrameSize * rnnoiseFrameSize) buf) ob)
     (Ok (float_to_pcm16 (concat (replicate (length buf / rnnoiseFrameSize) ob))))).
Proof.
  intros Hm Hne ->. assert (len pcm ≠ 0) as Hz by (destruct pcm; [done|cbn; unfold len; cbn; lia]).
  cbn [obj_use]. unfold use_encoder, use_decoder, use_resampler, use_denoiser, closed_Denoise.
  change (2 * 1) with 2. rewrite Hm. rewrite (proj2 (Z.eqb_neq _ _) Hz). cbn [ Z.eqb negb Z.eqb Pos.eqb].
  split_and!; [done|done| | |].
  - done.
  - intros Hsr. rewrite (proj2 (Z.eqb_neq _ _) Hsr). cbn [negb andb].
    by rewrite (proj2 (Z.eqb_neq _ _) Hz).
  - set (buf := ib ++ pcm16_to_float pcm) in *. intros Hl. rewrite Z.eqb_refl. cbn [negb andb].
    destruct (length buf / rnnoiseFrameSize)%nat as [|n] eqn:E.
    + exfalso. assert (0 < length buf / rnnoiseFrameSize)%nat; [|lia]. apply Nat.div_str_pos. unfold rnnoiseFrameSize in *. lia.
    + done.
Qed.

Lemma use_chunk_ok h o sr ch chunk : fits h o → NoDup (handles o) → bounded h →
  match use_DenoiseChunk h o sr ch chunk with
  | ChunkCorrupts => False
  | ChunkPanicked h' o' => h' = h ∧ o' = o
  | ChunkDone h' o' _ => change h (handles o) h' (handles o') ∧ fits h' o'
  end.
Proof.
  intros Hf Hn Hb. assert (change h (handles o) h (handles o)) as Hs by (by apply same_change).
  unfold use_DenoiseChunk. destruct (negb _); [done|]. destruct (Data chunk) as [[|b bs]|]; [done| |done].
  destruct (_ || _); [done|]. pose proof (obj_use_ok h o false (b :: bs) Hf) as Hc.
  destruct (obj_use h o false (b :: bs)) as [| |h' o' r]; [done|done|]. destruct Hc as (H1 & H2 & H3).
  destruct r; (split; [|done]); by apply same_change.
Qed.

(** [DenoiseAudioChunk] leaves no C object behind and destroys none of
    others', whatever the chunk: on every error, after a panic, and when
    making its denoiser fails half-way. *)
Theorem DenoiseAudioChunk_cleans_up h chunk : bounded h →
  ∃ h' r, DenoiseAudioChunk h chunk = Some (h', r) ∧ change h [] h' [].
Proof.
  intros Hb. unfold DenoiseAudioChunk. destruct (negb _); [do 2 eexists; split; [done|by apply change_refl]|].
  destruct (new_denoiser_ok h (SampleRate chunk) (Channels chunk) Hb) as (h1 & [d|e] & -> & Hc & Hf); cbn [mbind option_bind];
    [|by do 2 eexists]. specialize (Hf d eq_refl). pose proof (change_bounded _ _ _ _ Hc) as Hb1.
  pose proof (ch_NoDup _ _ _ _ Hc) as Hn. pose proof (use_chunk_ok h1 d (SampleRate chunk) (Channels chunk) chunk Hf Hn Hb1) as Hu.
  destruct (use_DenoiseChunk _ _ _ _ _) as [|h2 d2|h2 d2 r]; [done| |].
  - destruct Hu as [-> ->]. destruct (close_change h1 d Hf Hn Hb1) as (h3 & -> & Hc3 & _).
    do 2 eexists. split; [done|]. by eapply change_trans.
  - destruct Hu as [Hc2 Hf2]. pose proof (change_bounded _ _ _ _ Hc2) as Hb2.
    destruct (close_change h2 d2 Hf2 (ch_NoDup _ _ _ _ Hc2) Hb2) as (h3 & -> & Hc3 & _).
    do 2 eexists. split; [done|]. eapply change_trans; [exact Hc|]. by eapply change_trans.
Qed.
End objects.

(** ** Witnesses *)

Definition toy_ops : list op :=
  [NewDenoiser 8000 1; NewEncoder 48000 2; NewDecoder 48000 2; CloseObj 1; CloseObj 1;
   UseObj 1 false [x01; x02; x03; x04]; Unreachable 0].

(** The handles that each object holds. *)
Definition held_handles (r : step_result) : option (list (list nat)) :=
  match r with Running w => Some (map (λ x, handles x.1) (objects w)) | _ => None end.

Example toy_handles : held_handles (op_run no_objects toy_ops) = Some [[]; [4]]%nat.
Proof. vm_compute. reflexivity. Qed.

Lemma c_objects_owned_witness :
  ∃ w x, op_run no_objects toy_ops = Running w ∧ (∀ j, is_Some (c_live (heap w) !! j) ↔ j ∈ [4%nat]) ∧
    handles x = [4%nat] ∧ ∃ h', obj_Close (heap w) x = Some (h', closed x) ∧ c_live h' !! 4%nat = None.
Proof.
  pose proof toy_handles as Ht. destruct (op_run no_objects toy_ops) as [| |w] eqn:E; [discriminate Ht..|].
  destruct (c_objects_owned toy_ops) as [_ Hall]. destruct (Hall w E) as (_ & Hown & Hclose).
  cbn [held_handles] in Ht. unfold all_handles in Hown.
  destruct (objects w) as [|x0 [|[x f] [|? ?]]] eqn:Eo; try discriminate Ht. injection Ht as H0 H1.
  exists w, x. split; [done|]. split; [|split; [done|]].
  - intros j. rewrite Hown by (repeat constructor). cbn. by rewrite H0, H1.
  - destruct (Hclose 1%nat x f eq_refl) as (h' & Ec & El). exists h'. split; [exact Ec|].
    by rewrite El, H1.
Defined.

(** The last frame heard again: a closed denoiser answers silence with it. *)
Definition toy_waiting : list (@rn_sample toy_libs) := replicate 479 0.
Definition toy_frame : list (@rn_sample toy_libs) := replicate 480 7.

Lemma closed_objects_answer_witness :
  obj_use (mkCHeap ∅ 0) (ODenoiser None 48000 1 None None toy_waiting toy_frame) false [x00; x00] =
  Done (mkCHeap ∅ 0) (ODenoiser None 48000 1 None None [] toy_frame) (Ok (float_to_pcm16 toy_frame)).
Proof.
  destruct (closed_objects_answer (mkCHeap ∅ 0) 48000 1 toy_waiting toy_frame [x00; x00])
    as (_ & _ & _ & _ & Hd); [done..|].
  etransitivity; [apply Hd; vm_compute; lia|]. reflexivity.
Defined.
