(* ===== verification/LiveKitTransport.v ===== *)
(** * LiveKit transport: [transports/livekit/transport.go]

    One call in a LiveKit room: the connection, which remote participant is
    linked, the goroutines that read its tracks, the data packets it sends, the
    audio track and agent state that go out, cleanup and reset.  The LiveKit SDK
    is outside: what it answers (a participant, a publication, the outcome of a
    dial or a publish) is an argument, what is asked of it an effect.

    A method returns the new transport, the effects in order and Go's error; a
    [None] around it is a panic (a nil pointer, or a send on a closed channel).
    The goroutines of [readTrack] and [StartReceiving] are steps of their own.
    [videoTrack] is never set by the code and is left out. *)

From Stdlib Require Import Strings.Byte.
From S2P Require Import Prelude Core Audio.

Local Open Scope string_scope.
Local Open Scope list_scope.
Local Open Scope Z_scope.

(** ** States, reasons, kinds *)

Inductive ConnectionState : Type :=
| ConnectionStateDisconnected
| ConnectionStateConnecting
| ConnectionStateConnected
| ConnectionStateReconnecting.

#[export] Instance ConnectionState_eq_dec : EqDecision ConnectionState.
Proof. solve_decision. Defined.

Definition ConnectionState_String (s : ConnectionState) : string :=
  match s with
  | ConnectionStateDisconnected => "disconnected"
  | ConnectionStateConnecting => "connecting"
  | ConnectionStateConnected => "connected"
  | ConnectionStateReconnecting => "reconnecting"
  end.

Inductive DisconnectReason : Type :=
| DisconnectReasonUnknown
| DisconnectReasonClientInitiated
| DisconnectReasonRoomDeleted
| DisconnectReasonUserRejected
| DisconnectReasonServerShutdown
| DisconnectReasonDuplicateIdentity.

#[export] Instance DisconnectReason_eq_dec : EqDecision DisconnectReason.
Proof. solve_decision. Defined.

Definition DisconnectReason_String (r : DisconnectReason) : string :=
  match r with
  | DisconnectReasonUnknown => "unknown"
  | DisconnectReasonClientInitiated => "client_initiated"
  | DisconnectReasonRoomDeleted => "room_deleted"
  | DisconnectReasonUserRejected => "user_rejected"
  | DisconnectReasonServerShutdown => "server_shutdown"
  | DisconnectReasonDuplicateIdentity => "duplicate_identity"
  end.

Inductive ParticipantKind : Type :=
| ParticipantKindStandard
| ParticipantKindConnector
| ParticipantKindSIP
| ParticipantKindAgent.

#[export] Instance ParticipantKind_eq_dec : EqDecision ParticipantKind.
Proof. solve_decision. Defined.

Definition DefaultParticipantKinds : list ParticipantKind :=
  [ParticipantKindStandard; ParticipantKindConnector; ParticipantKindSIP].

Definition CloseOnDisconnectReasons : list DisconnectReason :=
  [DisconnectReasonClientInitiated; DisconnectReasonRoomDeleted; DisconnectReasonUserRejected].

(** ** Options *)

Record RoomInputOptions := mkInputOptions {
  in_AudioSampleRate : Z;
  in_AudioNumChannels : Z;
  TextEnabled : bool;
  in_AudioEnabled : bool;
  VideoEnabled : bool;
  ParticipantIdentity : string;
  ParticipantKinds : list ParticipantKind;
  CloseOnDisconnect : bool;
  TextInputCallback : bool              (* whether one is set *)
}.

Record RoomOutputOptions := mkOutputOptions {
  TranscriptionEnabled : bool;
  out_AudioEnabled : bool;
  out_AudioSampleRate : Z;
  out_AudioNumChannels : Z;
  SyncTranscription : bool;
  AudioTrackName : string;
  AgentName : string
}.

Definition DefaultRoomInputOptions : RoomInputOptions :=
  mkInputOptions 24000 1 true true false "" DefaultParticipantKinds true false.

Definition DefaultRoomOutputOptions : RoomOutputOptions :=
  mkOutputOptions true true 24000 1 true "agent_audio" "agent".

Record TranscriptionEvent := mkTranscription {
  tr_Text : string;
  tr_Participant : string;
  tr_IsFinal : bool;
  tr_TrackID : string
}.

(** ** What the SDK presents *)

Inductive TrackKind : Type := KindAudio | KindVideo | KindUnknown.

#[export] Instance TrackKind_eq_dec : EqDecision TrackKind.
Proof. solve_decision. Defined.

Inductive TrackSource : Type :=
  MICROPHONE | SCREEN_SHARE_AUDIO | CAMERA | SCREEN_SHARE | UNKNOWN_SOURCE.

#[export] Instance TrackSource_eq_dec : EqDecision TrackSource.
Proof. solve_decision. Defined.

(** A publication; [pub_remote]: it is a [RemoteTrackPublication]. *)
Record Publication := mkPublication {
  pub_SID : string;
  pub_Source : TrackSource;
  pub_Kind : TrackKind;
  pub_remote : bool;
  pub_IsSubscribed : bool
}.

Record RemoteParticipant := mkParticipant {
  Identity : string;
  Attributes : option (gmap string string);
  TrackPublications : list Publication
}.

Record TrackRemote := mkTrackRemote { tk_ID : string; tk_Kind : TrackKind; MimeType : string }.

(** ** The transport *)

(** A channel of capacity one; sending on a closed one panics. *)
Record Chan1 (A : Type) := mkChan1 { ch_open : bool; ch_item : option A }.
Arguments mkChan1 {A}. Arguments ch_open {A}. Arguments ch_item {A}.

Definition make_chan {A} : Chan1 A := mkChan1 true None.

(** [select { case c <- x: default: }]. *)
Definition offer {A} (c : Chan1 A) (x : A) : option (Chan1 A) :=
  if ch_open c
  then Some (match ch_item c with None => mkChan1 true (Some x) | Some _ => c end)
  else None.

Definition close_chan {A} (c : Chan1 A) : Chan1 A := mkChan1 false (ch_item c).

(** A goroutine of [readTrack]: its track and whether its context is cancelled. *)
Record reader := mkReader {
  r_track : string;
  r_participant : string;
  r_kind : TrackKind;
  r_rate : Z;
  r_channels : Z;
  r_cancelled : bool
}.

Definition cancel_reader (r : reader) : reader :=
  mkReader (r_track r) (r_participant r) (r_kind r) (r_rate r) (r_channels r) true.

Record Settings := mkSettings {
  room : string;
  url : string;
  apiKey : string;
  apiSecret : string;
  token : string;
  useToken : bool;
  inputOptions : RoomInputOptions;
  outputOptions : RoomOutputOptions;
  onConnectionStateChanged : bool;      (* which callbacks are set *)
  onParticipantConnected : bool;
  onParticipantDisconnected : bool
}.

(** [ctx] is nil before [Initialize], then whether it is cancelled; [client] is
    the room with the identity of its local participant, either possibly nil;
    [activeTracks] maps a track to the number of the reader whose [CancelFunc]
    is stored; [watching] is the goroutine of [StartReceiving]. *)
Record LiveKitTransport := mkTransport {
  settings : Settings;
  ctx : option bool;
  client : option (option string);
  connectionState : ConnectionState;
  connected : bool;
  closed : bool;
  closeOnce : bool;                     (* whether it has run *)
  audioTrack : bool;                    (* whether it is set *)
  activeTracks : gmap string nat;
  participantTracks : gmap string (list string);
  readers : gmap nat reader;
  nextReader : nat;
  linkedParticipant : string;
  participantAvailableCh : Chan1 string;
  participantDisconnectCh : Chan1 DisconnectReason;
  transcriptionChan : bool;             (* which channels are set *)
  outputChan : bool;
  errorChan : bool;
  recvRunning : bool;
  watching : bool
}.

Definition with_settings (r : LiveKitTransport) (x : Settings) : LiveKitTransport :=
    mkTransport x (ctx r) (client r) (connectionState r) (connected r) (closed r) (closeOnce r)
    (audioTrack r) (activeTracks r) (participantTracks r) (readers r) (nextReader r)
    (linkedParticipant r) (participantAvailableCh r) (participantDisconnectCh r)
    (transcriptionChan r) (outputChan r) (errorChan r) (recvRunning r) (watching r).
Definition with_ctx (r : LiveKitTransport) (x : option bool) : LiveKitTransport :=
    mkTransport (settings r) x (client r) (connectionState r) (connected r) (closed r) (closeOnce
    r) (audioTrack r) (activeTracks r) (participantTracks r) (readers r) (nextReader r)
    (linkedParticipant r) (participantAvailableCh r) (participantDisconnectCh r)
    (transcriptionChan r) (outputChan r) (errorChan r) (recvRunning r) (watching r).
Definition with_client (r : LiveKitTransport) (x : option (option string)) : LiveKitTransport :=
    mkTransport (settings r) (ctx r) x (connectionState r) (connected r) (closed r) (closeOnce r)
    (audioTrack r) (activeTracks r) (participantTracks r) (readers r) (nextReader r)
    (linkedParticipant r) (participantAvailableCh r) (participantDisconnectCh r)
    (transcriptionChan r) (outputChan r) (errorChan r) (recvRunning r) (watching r).
Definition with_connectionState (r : LiveKitTransport) (x : ConnectionState) : LiveKitTransport :=
    mkTransport (settings r) (ctx r) (client r) x (connected r) (closed r) (closeOnce r)
    (audioTrack r) (activeTracks r) (participantTracks r) (readers r) (nextReader r)
    (linkedParticipant r) (participantAvailableCh r) (participantDisconnectCh r)
    (transcriptionChan r) (outputChan r) (errorChan r) (recvRunning r) (watching r).
Definition with_connected (r : LiveKitTransport) (x : bool) : LiveKitTransport :=
    mkTransport (settings r) (ctx r) (client r) (connectionState r) x (closed r) (closeOnce r)
    (audioTrack r) (activeTracks r) (participantTracks r) (readers r) (nextReader r)
    (linkedParticipant r) (participantAvailableCh r) (participantDisconnectCh r)
    (transcriptionChan r) (outputChan r) (errorChan r) (recvRunning r) (watching r).
Definition with_closed (r : LiveKitTransport) (x : bool) : LiveKitTransport :=
    mkTransport (settings r) (ctx r) (client r) (connectionState r) (connected r) x (closeOnce r)
    (audioTrack r) (activeTracks r) (participantTracks r) (readers r) (nextReader r)
    (linkedParticipant r) (participantAvailableCh r) (participantDisconnectCh r)
    (transcriptionChan r) (outputChan r) (errorChan r) (recvRunning r) (watching r).
Definition with_closeOnce (r : LiveKitTransport) (x : bool) : LiveKitTransport :=
    mkTransport (settings r) (ctx r) (client r) (connectionState r) (connected r) (closed r) x
    (audioTrack r) (activeTracks r) (participantTracks r) (readers r) (nextReader r)
    (linkedParticipant r) (participantAvailableCh r) (participantDisconnectCh r)
    (transcriptionChan r) (outputChan r) (errorChan r) (recvRunning r) (watching r).
Definition with_audioTrack (r : LiveKitTransport) (x : bool) : LiveKitTransport :=
    mkTransport (settings r) (ctx r) (client r) (connectionState r) (connected r) (closed r)
    (closeOnce r) x (activeTracks r) (participantTracks r) (readers r) (nextReader r)
    (linkedParticipant r) (participantAvailableCh r) (participantDisconnectCh r)
    (transcriptionChan r) (outputChan r) (errorChan r) (recvRunning r) (watching r).
Definition with_activeTracks (r : LiveKitTransport) (x : gmap string nat) : LiveKitTransport :=
    mkTransport (settings r) (ctx r) (client r) (connectionState r) (connected r) (closed r)
    (closeOnce r) (audioTrack r) x (participantTracks r) (readers r) (nextReader r)
    (linkedParticipant r) (participantAvailableCh r) (participantDisconnectCh r)
    (transcriptionChan r) (outputChan r) (errorChan r) (recvRunning r) (watching r).
Definition with_participantTracks (r : LiveKitTransport) (x : gmap string (list string)) : LiveKitTransport :=
    mkTransport (settings r) (ctx r) (client r) (connectionState r) (connected r) (closed r)
    (closeOnce r) (audioTrack r) (activeTracks r) x (readers r) (nextReader r) (linkedParticipant
    r) (participantAvailableCh r) (participantDisconnectCh r) (transcriptionChan r) (outputChan r)
    (errorChan r) (recvRunning r) (watching r).
Definition with_readers (r : LiveKitTransport) (x : gmap nat reader) : LiveKitTransport :=
    mkTransport (settings r) (ctx r) (client r) (connectionState r) (connected r) (closed r)
    (closeOnce r) (audioTrack r) (activeTracks r) (participantTracks r) x (nextReader r)
    (linkedParticipant r) (participantAvailableCh r) (participantDisconnectCh r)
    (transcriptionChan r) (outputChan r) (errorChan r) (recvRunning r) (watching r).
Definition with_nextReader (r : LiveKitTransport) (x : nat) : LiveKitTransport :=
    mkTransport (settings r) (ctx r) (client r) (connectionState r) (connected r) (closed r)
    (closeOnce r) (audioTrack r) (activeTracks r) (participantTracks r) (readers r) x
    (linkedParticipant r) (participantAvailableCh r) (participantDisconnectCh r)
    (transcriptionChan r) (outputChan r) (errorChan r) (recvRunning r) (watching r).
Definition with_linkedParticipant (r : LiveKitTransport) (x : string) : LiveKitTransport :=
    mkTransport (settings r) (ctx r) (client r) (connectionState r) (connected r) (closed r)
    (closeOnce r) (audioTrack r) (activeTracks r) (participantTracks r) (readers r) (nextReader r)
    x (participantAvailableCh r) (participantDisconnectCh r) (transcriptionChan r) (outputChan r)
    (errorChan r) (recvRunning r) (watching r).
Definition with_participantAvailableCh (r : LiveKitTransport) (x : Chan1 string) : LiveKitTransport :=
    mkTransport (settings r) (ctx r) (client r) (connectionState r) (connected r) (closed r)
    (closeOnce r) (audioTrack r) (activeTracks r) (participantTracks r) (readers r) (nextReader r)
    (linkedParticipant r) x (participantDisconnectCh r) (transcriptionChan r) (outputChan r)
    (errorChan r) (recvRunning r) (watching r).
Definition with_participantDisconnectCh (r : LiveKitTransport) (x : Chan1 DisconnectReason) : LiveKitTransport :=
    mkTransport (settings r) (ctx r) (client r) (connectionState r) (connected r) (closed r)
    (closeOnce r) (audioTrack r) (activeTracks r) (participantTracks r) (readers r) (nextReader r)
    (linkedParticipant r) (participantAvailableCh r) x (transcriptionChan r) (outputChan r)
    (errorChan r) (recvRunning r) (watching r).
Definition with_transcriptionChan (r : LiveKitTransport) (x : bool) : LiveKitTransport :=
    mkTransport (settings r) (ctx r) (client r) (connectionState r) (connected r) (closed r)
    (closeOnce r) (audioTrack r) (activeTracks r) (participantTracks r) (readers r) (nextReader r)
    (linkedParticipant r) (participantAvailableCh r) (participantDisconnectCh r) x (outputChan r)
    (errorChan r) (recvRunning r) (watching r).
Definition with_outputChan (r : LiveKitTransport) (x : bool) : LiveKitTransport :=
    mkTransport (settings r) (ctx r) (client r) (connectionState r) (connected r) (closed r)
    (closeOnce r) (audioTrack r) (activeTracks r) (participantTracks r) (readers r) (nextReader r)
    (linkedParticipant r) (participantAvailableCh r) (participantDisconnectCh r)
    (transcriptionChan r) x (errorChan r) (recvRunning r) (watching r).
Definition with_errorChan (r : LiveKitTransport) (x : bool) : LiveKitTransport :=
    mkTransport (settings r) (ctx r) (client r) (connectionState r) (connected r) (closed r)
    (closeOnce r) (audioTrack r) (activeTracks r) (participantTracks r) (readers r) (nextReader r)
    (linkedParticipant r) (participantAvailableCh r) (participantDisconnectCh r)
    (transcriptionChan r) (outputChan r) x (recvRunning r) (watching r).
Definition with_recvRunning (r : LiveKitTransport) (x : bool) : LiveKitTransport :=
    mkTransport (settings r) (ctx r) (client r) (connectionState r) (connected r) (closed r)
    (closeOnce r) (audioTrack r) (activeTracks r) (participantTracks r) (readers r) (nextReader r)
    (linkedParticipant r) (participantAvailableCh r) (participantDisconnectCh r)
    (transcriptionChan r) (outputChan r) (errorChan r) x (watching r).
Definition with_watching (r : LiveKitTransport) (x : bool) : LiveKitTransport :=
    mkTransport (settings r) (ctx r) (client r) (connectionState r) (connected r) (closed r)
    (closeOnce r) (audioTrack r) (activeTracks r) (participantTracks r) (readers r) (nextReader r)
    (linkedParticipant r) (participantAvailableCh r) (participantDisconnectCh r)
    (transcriptionChan r) (outputChan r) (errorChan r) (recvRunning r) x.

(** What a data packet carries; JSON text is kept as the value it encodes. *)
Inductive payload : Type :=
| PlainText (s : string)
| Json (fields : list (string * any)).

Inductive effect : Type :=
| StateCallback (s : ConnectionState)
| ConnectedCallback (identity : string)
| DisconnectedCallback (identity : string) (reason : DisconnectReason)
| TextCallback (text sender : string)
| SetAttributes (attrs : list (string * string))
| Publish (p : payload) (topic : string)
| Subscribe (sid : string)
| SpawnReader (track : TrackRemote) (participant : string) (rate channels : Z)
| EmitTranscription (e : TranscriptionEvent)
| Deliver (c : MediaChunk)              (* to [outputChan] *)
| Report (err : string)                 (* to [errorChan] *)
| WriteSample (samples : list Z)
| ClearQueue
| Disconnect.

(** A method's outcome; [None] is a panic. *)
Definition outcome : Type := option (LiveKitTransport * list effect * result unit).

Definition emit (t : LiveKitTransport) (es : list effect) : outcome := Some (t, es, Ok tt).
Definition refuse (t : LiveKitTransport) (es : list effect) (err : string) : outcome :=
  Some (t, es, Err err).

(** [a] followed by [k], which gets its transport and error. *)
Definition seq_outcome (a : outcome) (k : LiveKitTransport → result unit → outcome) : outcome :=
  match a with
  | None => None
  | Some (t1, e1, r1) =>
      match k t1 r1 with
      | None => None
      | Some (t2, e2, r2) => Some (t2, e1 ++ e2, r2)
      end
  end.

(** The next call whatever the error of the first. *)
Definition then_ (a : outcome) (k : LiveKitTransport → outcome) : outcome :=
  seq_outcome a (λ t _, k t).

(** ** Construction *)

Definition LiveKitOption : Type := LiveKitTransport → LiveKitTransport.

Definition map_settings (f : Settings → Settings) : LiveKitOption :=
  λ l, with_settings l (f (settings l)).

Definition WithInputOptions (opts : RoomInputOptions) : LiveKitOption :=
  map_settings (λ s, mkSettings (room s) (url s) (apiKey s) (apiSecret s) (token s) (useToken s)
    opts (outputOptions s) (onConnectionStateChanged s) (onParticipantConnected s)
    (onParticipantDisconnected s)).

Definition WithOutputOptions (opts : RoomOutputOptions) : LiveKitOption :=
  map_settings (λ s, mkSettings (room s) (url s) (apiKey s) (apiSecret s) (token s) (useToken s)
    (inputOptions s) opts (onConnectionStateChanged s) (onParticipantConnected s)
    (onParticipantDisconnected s)).

Definition WithParticipantIdentity (identity : string) : LiveKitOption := λ l,
  let i := inputOptions (settings l) in
  with_linkedParticipant
    (WithInputOptions
       (mkInputOptions (in_AudioSampleRate i) (in_AudioNumChannels i) (TextEnabled i)
          (in_AudioEnabled i) (VideoEnabled i) identity (ParticipantKinds i)
          (CloseOnDisconnect i) (TextInputCallback i)) l)
    identity.

Definition WithConnectionStateCallback (cb : bool) : LiveKitOption :=
  map_settings (λ s, mkSettings (room s) (url s) (apiKey s) (apiSecret s) (token s) (useToken s)
    (inputOptions s) (outputOptions s) cb (onParticipantConnected s)
    (onParticipantDisconnected s)).

Definition WithParticipantCallbacks (onConnect onDisconnect : bool) : LiveKitOption :=
  map_settings (λ s, mkSettings (room s) (url s) (apiKey s) (apiSecret s) (token s) (useToken s)
    (inputOptions s) (outputOptions s) (onConnectionStateChanged s) onConnect onDisconnect).

Definition WithToken (tok : string) : LiveKitOption :=
  map_settings (λ s, mkSettings (room s) (url s) (apiKey s) (apiSecret s) tok true
    (inputOptions s) (outputOptions s) (onConnectionStateChanged s) (onParticipantConnected s)
    (onParticipantDisconnected s)).

Definition NewLiveKitTransport (room_ url_ key secret : string) (opts : list LiveKitOption)
    : LiveKitTransport :=
  fold_left (λ t opt, opt t) opts
    (mkTransport
       (mkSettings room_ url_ key secret "" false DefaultRoomInputOptions DefaultRoomOutputOptions
          false false false)
       None None ConnectionStateDisconnected false false false false ∅ ∅ ∅ 0 ""
       make_chan make_chan false false false false false).

Definition NewLiveKitTransportWithToken (roomName url_ tok : string) (opts : list LiveKitOption)
    : LiveKitTransport :=
  NewLiveKitTransport roomName url_ "" "" (WithToken tok :: opts).

Definition Initialize (l : LiveKitTransport) : LiveKitTransport := with_ctx l (Some false).

(** ** Small accessors *)

Definition setConnectionState (l : LiveKitTransport) (s : ConnectionState)
    : LiveKitTransport * list effect :=
  (with_connectionState l s,
   if bool_decide (connectionState l = s) then []
   else if onConnectionStateChanged (settings l) then [StateCallback s] else []).

Definition GetConnectionState (l : LiveKitTransport) : ConnectionState := connectionState l.
Definition GetLinkedParticipant (l : LiveKitTransport) : string := linkedParticipant l.
Definition isConnected (l : LiveKitTransport) : bool := connected l.
Definition setConnected (l : LiveKitTransport) (b : bool) : LiveKitTransport := with_connected l b.
Definition SetTranscriptionChannel (l : LiveKitTransport) (set : bool) : LiveKitTransport :=
  with_transcriptionChan l set.
Definition inputs (l : LiveKitTransport) : RoomInputOptions := inputOptions (settings l).
Definition outputs (l : LiveKitTransport) : RoomOutputOptions := outputOptions (settings l).

Definition agent_name (l : LiveKitTransport) : string :=
  if String.eqb (AgentName (outputs l)) "" then "agent" else AgentName (outputs l).

(** The local participant, when there is a room and it has one. *)
Definition local_participant (l : LiveKitTransport) : option string := mjoin (client l).

Definition setAgentState (l : LiveKitTransport) (state : string) : list effect * result unit :=
  match local_participant l with
  | None => ([], Err "not connected")
  | Some _ => ([SetAttributes [("lk.agent.state", state)]], Ok tt)
  end.

Definition SetAgentState (l : LiveKitTransport) (state : string) : list effect * result unit :=
  setAgentState l state.

Definition setAgentAttributes (l : LiveKitTransport) : list effect * result unit :=
  match local_participant l with
  | None => ([], Err "not connected")
  | Some _ =>
      ([SetAttributes [("lk.agent.state", "listening"); ("lk.agent.name", agent_name l)]], Ok tt)
  end.

Definition NotifySpeechStarted (l : LiveKitTransport) : list effect := (setAgentState l "speaking").1.
Definition NotifySpeechEnded (l : LiveKitTransport) : list effect := (setAgentState l "listening").1.
Definition NotifyThinking (l : LiveKitTransport) : list effect := (setAgentState l "thinking").1.

(** ** Participants *)

Definition mapParticipantKind (rp : RemoteParticipant) : ParticipantKind :=
  match Attributes rp ≫= (!!) "lk.participant.kind" with
  | Some kind =>
      if String.eqb kind "standard" then ParticipantKindStandard
      else if String.eqb kind "connector" then ParticipantKindConnector
      else if String.eqb kind "sip" then ParticipantKindSIP
      else if String.eqb kind "agent" then ParticipantKindAgent
      else ParticipantKindStandard
  | None => ParticipantKindStandard
  end.

Definition isParticipantKindAccepted (l : LiveKitTransport) (rp : RemoteParticipant) : bool :=
  bool_decide (mapParticipantKind rp ∈ ParticipantKinds (inputs l)).

Definition mapDisconnectReason (rp : RemoteParticipant) : DisconnectReason :=
  DisconnectReasonClientInitiated.

Definition shouldCloseOnDisconnect (reason : DisconnectReason) : bool :=
  bool_decide (reason ∈ CloseOnDisconnectReasons).

Definition is_self (l : LiveKitTransport) (identity : string) : bool :=
  bool_decide (local_participant l = Some identity).

Definition handleParticipantConnected (l : LiveKitTransport) (rp : RemoteParticipant) : outcome :=
  let identity := Identity rp in
  if is_self l identity then emit l []
  else if negb (String.eqb (ParticipantIdentity (inputs l)) "") &&
          negb (String.eqb identity (ParticipantIdentity (inputs l))) then emit l []
  else if negb (isParticipantKindAccepted l rp) then emit l []
  else
    let cb := if onParticipantConnected (settings l) then [ConnectedCallback identity] else [] in
    if String.eqb (linkedParticipant l) ""
    then match offer (participantAvailableCh l) identity with
         | None => None
         | Some c => emit (with_participantAvailableCh (with_linkedParticipant l identity) c) cb
         end
    else emit l cb.

(** The sources and kind the two subscription loops look for. *)
Definition wanted_publication (sources : list TrackSource) (kind : TrackKind) (p : Publication)
    : bool :=
  bool_decide (pub_Source p ∈ sources) && bool_decide (pub_Kind p = kind) &&
  pub_remote p && negb (pub_IsSubscribed p).

Definition subscribe_all (sources : list TrackSource) (kind : TrackKind)
    (ps : list Publication) : list effect :=
  map (λ p, Subscribe (pub_SID p)) (List.filter (wanted_publication sources kind) ps).

Definition subscribeToParticipantTracks (l : LiveKitTransport) (rp : RemoteParticipant)
    : list effect :=
  if negb (String.eqb (ParticipantIdentity (inputs l)) "") &&
     negb (String.eqb (Identity rp) (ParticipantIdentity (inputs l))) then []
  else if negb (String.eqb (linkedParticipant l) "") &&
          negb (String.eqb (Identity rp) (linkedParticipant l)) then []
  else
    (if in_AudioEnabled (inputs l)
     then subscribe_all [MICROPHONE; SCREEN_SHARE_AUDIO] KindAudio (TrackPublications rp) else []) ++
    (if VideoEnabled (inputs l)
     then subscribe_all [CAMERA; SCREEN_SHARE] KindVideo (TrackPublications rp) else []).

(** The callback [OnParticipantConnected]. *)
Definition participant_joined (l : LiveKitTransport) (rp : RemoteParticipant) : outcome :=
  then_ (handleParticipantConnected l rp) (λ l1, emit l1 (subscribeToParticipantTracks l1 rp)).

(** [SetParticipant]; [present] are the participants in the room. *)
Definition SetParticipant (l : LiveKitTransport) (present : list RemoteParticipant)
    (identity : string) : option LiveKitTransport :=
  let l1 := with_linkedParticipant l identity in
  if String.eqb identity "" then Some l1
  else match client l with
       | None => Some l1
       | Some _ =>
           match List.find (λ p, String.eqb (Identity p) identity) present with
           | None => Some l1
           | Some p => with_participantAvailableCh l1 <$> offer (participantAvailableCh l1) (Identity p)
           end
       end.

(** What [WaitForParticipant] comes back with; a receive from a closed channel
    gives a nil participant. *)
Inductive wait_result : Type :=
| Found (identity : string)
| FoundNil
| WaitCancelled
| StillWaiting.

(** [caller_done]: the caller's context; [receive]: the select takes the channel
    when several cases are ready. *)
Definition WaitForParticipant (l : LiveKitTransport) (present : list RemoteParticipant)
    (caller_done receive : bool) : option (LiveKitTransport * wait_result) :=
  let here := if String.eqb (linkedParticipant l) "" then None
              else match client l with
                   | None => None
                   | Some _ => List.find (λ p, String.eqb (Identity p) (linkedParticipant l)) present
                   end in
  match here, ctx l with
  | Some p, _ => Some (l, Found (Identity p))
  | None, None => None
  | None, Some done =>
      let c := participantAvailableCh l in
      let stop := caller_done || done in
      match ch_item c, ch_open c with
      | Some p, _ =>
          if receive || negb stop
          then Some (with_participantAvailableCh l (mkChan1 (ch_open c) None), Found p)
          else Some (l, WaitCancelled)
      | None, false => if receive || negb stop then Some (l, FoundNil) else Some (l, WaitCancelled)
      | None, true => if stop then Some (l, WaitCancelled) else Some (l, StillWaiting)
      end
  end.

(** ** Tracks *)

(** The sample rate and channel count inferred from a codec. *)
Definition audio_parameters (l : LiveKitTransport) (mime : string) : Z * Z :=
  if String.eqb mime "audio/opus" then (48000, 1)
  else if String.eqb mime "audio/PCMU" || String.eqb mime "audio/PCMA" then (8000, 1)
  else if String.eqb mime "audio/G722" then (16000, 1)
  else (in_AudioSampleRate (inputs l), in_AudioNumChannels (inputs l)).

Definition track_wanted (l : LiveKitTransport) (kind : TrackKind) : bool :=
  match kind with
  | KindAudio => in_AudioEnabled (inputs l)
  | KindVideo => VideoEnabled (inputs l)
  | KindUnknown => true
  end.

(** A sender whose tracks and text are taken: the linked participant, or
    anyone while nobody is linked. *)
Definition heard (l : LiveKitTransport) (identity : string) : bool :=
  String.eqb (linkedParticipant l) "" || String.eqb identity (linkedParticipant l).

Definition handleRemoteTrack (l : LiveKitTransport) (track : TrackRemote) (rp : RemoteParticipant)
    : list effect :=
  if negb (track_wanted l (tk_Kind track)) then []
  else if negb (heard l (Identity rp)) then []
  else
    let '(rate, channels) := match tk_Kind track with
                             | KindAudio => audio_parameters l (MimeType track)
                             | _ => (0, 0)
                             end in
    [SpawnReader track (Identity rp) rate channels].

(** [newList]: a participant's tracks without one of them; an empty list is
    removed from the map. *)
Definition remove_track (m : gmap string (list string)) (participant track : string)
    : gmap string (list string) :=
  match m !! participant with
  | None => m
  | Some l =>
      match List.filter (λ id, negb (String.eqb id track)) l with
      | [] => delete participant m
      | l' => <[participant := l']> m
      end
  end.

(** The start of a reader: its cancel function is stored, the track appended to
    the participant's list.  The list is loaded by one operation of the map
    and stored by another. *)
Definition reader_register (l : LiveKitTransport) (track : TrackRemote) (participant : string)
    (rate channels : Z) : LiveKitTransport :=
  let n := nextReader l in
  with_activeTracks
    (with_nextReader
       (with_readers l
          (<[n := mkReader (tk_ID track) participant (tk_Kind track) rate channels false]> (readers l)))
       (S n))
    (<[tk_ID track := n]> (activeTracks l)).

Definition load_track_list (l : LiveKitTransport) (participant : string) : list string :=
  default [] (participantTracks l !! participant).

Definition store_track_list (l : LiveKitTransport) (participant track : string)
    (loaded : list string) : LiveKitTransport :=
  with_participantTracks l (<[participant := loaded ++ [track]]> (participantTracks l)).

(** The same start when no other reader of the participant starts meanwhile. *)
Definition readTrack_start (l : LiveKitTransport) (track : TrackRemote) (participant : string)
    (rate channels : Z) : LiveKitTransport :=
  let l1 := reader_register l track participant rate channels in
  store_track_list l1 participant (tk_ID track) (load_track_list l1 participant).

(** The deferred function of a reader. *)
Definition readTrack_exit (l : LiveKitTransport) (n : nat) : LiveKitTransport :=
  match readers l !! n with
  | None => l
  | Some r =>
      with_readers
        (with_participantTracks
           (with_activeTracks l (delete (r_track r) (activeTracks l)))
           (remove_track (participantTracks l) (r_participant r) (r_track r)))
        (delete n (readers l))
  end.

(** Calling a stored [CancelFunc]. *)
Definition cancel_active (l : LiveKitTransport) (track : string) : LiveKitTransport :=
  match activeTracks l !! track with
  | None => l
  | Some n => with_readers l (alter cancel_reader n (readers l))
  end.

Definition ctx_cancelled (l : LiveKitTransport) : bool := default false (ctx l).

Definition reader_done (l : LiveKitTransport) (r : reader) : bool := r_cancelled r || ctx_cancelled l.

(** What one round of [readTrack] gets from the track. *)
Inductive read_outcome : Type :=
| DeadlineFailed
| TrackClosed
| ReadTimeout
| ReadError (err : string)
| Packet (payload : list Byte.byte).

Definition no_audio : AudioChunk := mkAudioChunk None 0 0 PCM 0.
Definition no_video : VideoChunk := mkVideoChunk None 0 "" "" 0.

Definition media_chunk (r : reader) (data : list Byte.byte) (now : Z) : MediaChunk :=
  match r_kind r with
  | KindAudio =>
      mkMediaChunk (mkAudioChunk (Some data) (r_rate r) (r_channels r) OPUS now) no_video (mkTextChunk "")
  | KindVideo =>
      mkMediaChunk no_audio (mkVideoChunk (Some data) 0 "" "mp4" now) (mkTextChunk "")
  | KindUnknown => mkMediaChunk no_audio no_video (mkTextChunk "")
  end.

(** One round of the loop after its first look at the contexts: the effects and
    whether the reader goes on.  [ready]: the channel sent to can take it;
    [prefer_send]: the select sends when a context is done as well. *)
Definition readTrack_round (l : LiveKitTransport) (r : reader) (o : read_outcome)
    (ready prefer_send : bool) (now : Z) : list effect * bool :=
  let done := reader_done l r in
  match o with
  | DeadlineFailed => ([], negb done)
  | TrackClosed => ([], false)
  | ReadTimeout => ([], true)
  | ReadError err =>
      if done then ([], false)
      else (if errorChan l && ready
            then [Report ("track read error for " +:+ r_track r +:+ ": " +:+ err)] else [], true)
  | Packet [] => ([], true)
  | Packet data =>
      if negb (outputChan l) then ([], true)
      else if ready && (prefer_send || negb done) then ([Deliver (media_chunk r data now)], true)
      else ([], negb done)
  end.

(** A round with the look at the contexts before it and the exit after it. *)
Definition readTrack_step (l : LiveKitTransport) (n : nat) (o : read_outcome)
    (ready prefer_send : bool) (now : Z) : LiveKitTransport * list effect :=
  match readers l !! n with
  | None => (l, [])
  | Some r =>
      if reader_done l r then (readTrack_exit l n, [])
      else
        let '(es, go_on) := readTrack_round l r o ready prefer_send now in
        (if go_on then l else readTrack_exit l n, es)
  end.

Definition handleTrackUnsubscribed (l : LiveKitTransport) (track participant : string)
    : LiveKitTransport :=
  let l1 := cancel_active l track in
  with_participantTracks (with_activeTracks l1 (delete track (activeTracks l1)))
    (remove_track (participantTracks l1) participant track).

(** Cancelling every track listed for a participant. *)
Fixpoint stop_tracks (l : LiveKitTransport) (tracks : list string) : LiveKitTransport :=
  match tracks with
  | [] => l
  | id :: rest =>
      let l1 := cancel_active l id in
      stop_tracks (with_activeTracks l1 (delete id (activeTracks l1))) rest
  end.

Definition handleParticipantDisconnected (l : LiveKitTransport) (rp : RemoteParticipant) : outcome :=
  let identity := Identity rp in
  if is_self l identity then emit l []
  else
    let l1 := match participantTracks l !! identity with
              | None => l
              | Some ids =>
                  let l' := stop_tracks l ids in
                  with_participantTracks l' (delete identity (participantTracks l'))
              end in
    let wasLinked := String.eqb (linkedParticipant l1) identity in
    let l2 := if wasLinked then with_linkedParticipant l1 "" else l1 in
    let reason := mapDisconnectReason rp in
    let cb := if onParticipantDisconnected (settings l)
              then [DisconnectedCallback identity reason] else [] in
    if wasLinked && CloseOnDisconnect (inputs l) && shouldCloseOnDisconnect reason
    then match offer (participantDisconnectCh l2) reason with
         | None => None
         | Some c => emit (with_participantDisconnectCh l2 c) cb
         end
    else emit l2 cb.

(** How the send of a data packet to the pipeline ends. *)
Inductive packet_outcome : Type :=
| PacketIgnored
| PacketSent
| PacketDropped       (* the context ended first *)
| PacketBlocked.      (* waiting for the channel or the context *)

(** [None]: the context is nil. *)
Definition handleDataPacket (l : LiveKitTransport) (sender text : string) (ready prefer_send : bool)
    : option (list effect * packet_outcome) :=
  if negb (TextEnabled (inputs l)) then Some ([], PacketIgnored)
  else if negb (heard l sender) then Some ([], PacketIgnored)
  else if negb (outputChan l) then Some ([], PacketIgnored)
  else if String.eqb text "" then Some ([], PacketIgnored)
  else
    let cb := if TextInputCallback (inputs l) then [TextCallback text sender] else [] in
    match ctx l with
    | None => None
    | Some done =>
        if ready && (prefer_send || negb done)
        then Some (cb ++ [Deliver (mkMediaChunk no_audio no_video (mkTextChunk text))], PacketSent)
        else if done then Some (cb, PacketDropped) else Some (cb, PacketBlocked)
    end.

(** ** Connecting *)

Definition createAudioTrack (l : LiveKitTransport) (make publish : result unit)
    : option (LiveKitTransport * result unit) :=
  match make with
  | Err e => Some (l, Err ("failed to create audio track: " +:+ e))
  | Ok _ =>
      match local_participant l with
      | None => None
      | Some _ =>
          Some (with_audioTrack l true,
                match publish with
                | Err e => Err ("failed to publish audio track: " +:+ e)
                | Ok _ => Ok tt
                end)
      end
  end.

(** The loop of [onRoomConnected] over the participants already there. *)
Fixpoint admit_participants (l : LiveKitTransport) (ps : list RemoteParticipant) : outcome :=
  match ps with
  | [] => emit l []
  | p :: rest =>
      then_ (participant_joined l p) (λ l1,
        let target := ParticipantIdentity (inputs l1) in
        if (negb (String.eqb target "") && String.eqb (Identity p) target) ||
           (String.eqb target "" && String.eqb (linkedParticipant l1) "")
        then match offer (participantAvailableCh l1) (Identity p) with
             | None => None
             | Some c => admit_participants (with_participantAvailableCh l1 c) rest
             end
        else admit_participants l1 rest)
  end.

(** [local]: the identity of the room's local participant, if it has one. *)
Definition onRoomConnected (l : LiveKitTransport) (local : option string)
    (present : list RemoteParticipant) (make publish : result unit) : outcome :=
  let '(l1, e1) := setConnectionState (setConnected (with_client l (Some local)) true)
                     ConnectionStateConnected in
  let e2 := e1 ++ (setAgentAttributes l1).1 in
  then_ (emit l1 e2) (λ l1,
    if out_AudioEnabled (outputs l1)
    then match createAudioTrack l1 make publish with
         | None => None
         | Some (l2, Err e) => refuse l2 [] e
         | Some (l2, Ok _) => admit_participants l2 present
         end
    else admit_participants l1 present).

(** [dial] is what connecting to the room gives: its local participant. *)
Definition dial_room (l : LiveKitTransport) (how : string) (dial : result (option string))
    (present : list RemoteParticipant) (make publish : result unit) : outcome :=
  let '(l1, e1) := setConnectionState l ConnectionStateConnecting in
  match dial with
  | Err e =>
      let '(l2, e2) := setConnectionState l1 ConnectionStateDisconnected in
      refuse l2 (e1 ++ e2) ("failed to connect to room with " +:+ how +:+ ": " +:+ e)
  | Ok local => then_ (emit l1 e1) (λ l1, onRoomConnected l1 local present make publish)
  end.

Definition connectWithToken (l : LiveKitTransport) (dial : result (option string))
    (present : list RemoteParticipant) (make publish : result unit) : outcome :=
  if String.eqb (room (settings l)) "" then refuse l [] "room name cannot be empty"
  else if String.eqb (token (settings l)) "" then refuse l [] "token cannot be empty"
  else dial_room l "token" dial present make publish.

Definition connectWithAPIKey (l : LiveKitTransport) (dial : result (option string))
    (present : list RemoteParticipant) (make publish : result unit) : outcome :=
  if String.eqb (room (settings l)) "" then refuse l [] "room name cannot be empty"
  else if String.eqb (apiKey (settings l)) "" || String.eqb (apiSecret (settings l)) ""
  then refuse l [] "API key and secret are required for direct connection"
  else dial_room l "API key" dial present make publish.

Definition Connect (l : LiveKitTransport) (dial : result (option string))
    (present : list RemoteParticipant) (make publish : result unit) : outcome :=
  if closed l then refuse l [] "transport is closed"
  else if useToken (settings l) && negb (String.eqb (token (settings l)) "")
  then connectWithToken l dial present make publish
  else connectWithAPIKey l dial present make publish.

(** The callbacks of the room, [createRoomCallback]. *)
Inductive room_event : Type :=
| OnTrackSubscribed (track : TrackRemote) (rp : RemoteParticipant)
| OnTrackUnsubscribed (track : string) (rp : RemoteParticipant)
| OnDataPacket (sender text : string) (ready prefer_send : bool)
| OnParticipantConnected (rp : RemoteParticipant)
| OnParticipantDisconnected (rp : RemoteParticipant)
| OnReconnecting
| OnReconnected
| OnDisconnected.

Definition state_callback (l : LiveKitTransport) (s : ConnectionState) : outcome :=
  let '(l', es) := setConnectionState l s in emit l' es.

Definition room_callback (l : LiveKitTransport) (e : room_event) : outcome :=
  match e with
  | OnTrackSubscribed track rp => emit l (handleRemoteTrack l track rp)
  | OnTrackUnsubscribed track rp => emit (handleTrackUnsubscribed l track (Identity rp)) []
  | OnDataPacket sender text ready prefer_send =>
      match handleDataPacket l sender text ready prefer_send with
      | None => None
      | Some (es, _) => emit l es
      end
  | OnParticipantConnected rp => participant_joined l rp
  | OnParticipantDisconnected rp => handleParticipantDisconnected l rp
  | OnReconnecting => state_callback l ConnectionStateReconnecting
  | OnReconnected => state_callback l ConnectionStateConnected
  | OnDisconnected => state_callback l ConnectionStateDisconnected
  end.

(** ** Receiving, cleanup, reset *)

Definition StartReceiving (l : LiveKitTransport) : LiveKitTransport :=
  let l1 := with_errorChan (with_outputChan l true) true in
  if recvRunning l then l1 else with_watching (with_recvRunning l1 true) true.

(** The goroutine of [StartReceiving] waking up: the context, or the
    participant who left ([prefer_reason] when both are ready); a closed channel
    gives the zero reason.  [ready]: the error channel can take an error. *)
Definition receive_wakeup (l : LiveKitTransport) (prefer_reason ready : bool)
    : LiveKitTransport * list effect :=
  let c := participantDisconnectCh l in
  let reason := match ch_item c, ch_open c with
                | Some r, _ => Some r
                | None, false => Some DisconnectReasonUnknown
                | None, true => None
                end in
  if negb (watching l) then (l, [])
  else match reason with
       | Some r =>
           if ctx_cancelled l && negb prefer_reason then (with_watching l false, [])
           else
             (with_watching (with_participantDisconnectCh l (mkChan1 (ch_open c) None)) false,
              if errorChan l && ready
              then [Report ("participant disconnected: " +:+ DisconnectReason_String r)] else [])
       | None => if ctx_cancelled l then (with_watching l false, []) else (l, [])
       end.

(** Every goroutine the wait group counts ends, as its context is cancelled. *)
Definition wait_readers (l : LiveKitTransport) : LiveKitTransport :=
  with_watching
    (fold_left readTrack_exit (map fst (map_to_list (readers l))) l) false.

Definition Cleanup (l : LiveKitTransport) : LiveKitTransport * list effect :=
  if closeOnce l then (l, [])
  else
    let l1 := with_closed (with_closeOnce l true) true in
    let l2 := with_ctx l1 (match ctx l1 with None => None | Some _ => Some true end) in
    let l3 := with_activeTracks (with_readers l2 (cancel_reader <$> readers l2)) ∅ in
    let l4 := with_transcriptionChan (with_errorChan (with_outputChan (with_audioTrack l3 false)
                false) false) false in
    let l5 := wait_readers l4 in
    let e5 := match client l5 with Some _ => [Disconnect] | None => [] end in
    let '(l6, e6) := setConnectionState (with_client l5 None) ConnectionStateDisconnected in
    let l7 := setConnected l6 false in
    (with_participantDisconnectCh
       (with_participantAvailableCh l7 (close_chan (participantAvailableCh l7)))
       (close_chan (participantDisconnectCh l7)), e5 ++ e6).

Definition Reset (l : LiveKitTransport) (dial : result (option string))
    (present : list RemoteParticipant) (make publish : result unit) : outcome :=
  let '(l1, e1) := Cleanup l in
  let l2 := with_closed
              (with_participantDisconnectCh
                 (with_participantAvailableCh (with_closeOnce l1 false) make_chan) make_chan)
              false in
  then_ (emit l2 e1) (λ l2, Connect l2 dial present make publish).

(** ** Sending *)

Definition publish_result (l : LiveKitTransport) (es : list effect) (publish : result unit) : outcome :=
  Some (l, es, publish).

(** [sendTranscription]; the transcription channel is sent to until it takes
    the event or the context ends. *)
Definition sendTranscription (l : LiveKitTransport) (text : string) (isFinal : bool)
    (participant : string) (publish : result unit) : outcome :=
  if negb (TranscriptionEnabled (outputs l)) then emit l []
  else
    let ev := if transcriptionChan l
              then [EmitTranscription (mkTranscription text participant isFinal "")] else [] in
    if String.eqb text "" then emit l ev
    else match local_participant l with
         | None => None
         | Some _ => publish_result l (ev ++ [Publish (PlainText text) "transcription"]) publish
         end.

Definition SendTranscription (l : LiveKitTransport) (text : string) (isFinal : bool)
    (publish : result unit) : outcome :=
  sendTranscription l text isFinal (GetLinkedParticipant l) publish.

Definition agent_state_message (state : string) : string :=
  "{" +:+ double_quote +:+ "type" +:+ double_quote +:+ ":" +:+ double_quote +:+ "agent_state"
    +:+ double_quote +:+ "," +:+ double_quote +:+ "state" +:+ double_quote +:+ ":" +:+
    double_quote +:+ state +:+ double_quote +:+ "}".

Definition sendAgentState (l : LiveKitTransport) (state : string) (publish : result unit) : outcome :=
  match setAgentState l state with
  | (es, Err e) => refuse l es e
  | (es, Ok _) =>
      publish_result l (es ++ [Publish (PlainText (agent_state_message state)) "agent_state"]) publish
  end.

Definition SendAgentMessage (l : LiveKitTransport) (text : string) (publish : result unit) : outcome :=
  if negb (connected l) then refuse l [] "transport not connected"
  else match client l with
       | None => refuse l [] "transport not connected"
       | Some None => refuse l [] "local participant not initialized"
       | Some (Some _) => publish_result l [Publish (PlainText text) ""] publish
       end.

(** The little-endian 16-bit samples of a buffer; an odd last byte is dropped. *)
Fixpoint bytesToPCM16 (data : list Byte.byte) : list Z :=
  match data with
  | b0 :: b1 :: rest => int16 (uint16 [b0; b1]) :: bytesToPCM16 rest
  | _ => []
  end.

(** The clock readings give the letters. *)
Definition letters : string := "abcdefghijklmnopqrstuvwxyzABCDEFGHIJKLMNOPQRSTUVWXYZ0123456789".

Definition randomString (n : nat) (clock : nat → Z) : string :=
  str_of_chars (map (λ i, default (Ascii.ascii_of_nat 97)
    (String.get (Z.to_nat (clock i mod 62)) letters)) (seq 0 n)).

(** The identity used with an API key. *)
Definition agent_identity (l : LiveKitTransport) (clock : nat → Z) : string :=
  "agent-" +:+ agent_name l +:+ "-" +:+ randomString 8 clock.

Section sending.
Context `{AudioLibs}.

(** Speech: converted to the rate and channels of the track and written to it. *)
Definition send_audio (ps : Pools) (l : LiveKitTransport) (chunk : AudioChunk) (write : result unit)
    : option (Pools * (LiveKitTransport * list effect * result unit)) :=
  if negb (out_AudioEnabled (outputs l)) then Some (ps, (l, [], Ok tt))
  else if negb (audioTrack l) then Some (ps, (l, [], Err "audio track not initialized"))
  else if bool_decide (chunk_bytes chunk = []) then Some (ps, (l, [], Ok tt))
  else
    match ConvertAudioChunk ps chunk PCM (out_AudioNumChannels (outputs l))
            (out_AudioSampleRate (outputs l)) with
    | None => None
    | Some (ps', Err e) => Some (ps', (l, [], Err e))
    | Some (ps', Ok pcm) =>
        match Data pcm with
        | None => None
        | Some bs =>
            Some (ps', (l, [WriteSample (bytesToPCM16 bs)],
                        match write with
                        | Err e => Err ("failed to write audio sample: " +:+ e)
                        | Ok _ => Ok tt
                        end))
        end
    end.

(** The agent state as an attribute, then [sendAgentState]. *)
Definition announce (l : LiveKitTransport) (state : string) (publish : result unit) : outcome :=
  then_ (emit l (setAgentState l state).1) (λ l, sendAgentState l state publish).

(** [ClearQueue] on a nil track panics. *)
Definition interrupt (l : LiveKitTransport) (publish : result unit) : outcome :=
  if audioTrack l
  then then_ (emit l (NotifySpeechEnded l ++ [ClearQueue]))
         (λ l, sendAgentState l "listening" publish)
  else None.

Definition any_params (p : option (gmap string any)) : any :=
  match p with None => AnyNil | Some m => AnyMap (map_to_list m) end.

(** [LLMResponseChunkEvent] and the recognizer's texts. *)
Definition send_text (l : LiveKitTransport) (text : string) (final : bool) (publish : result unit)
    : outcome :=
  if negb (String.eqb text "") && TranscriptionEnabled (outputs l)
  then sendTranscription l text final (GetLinkedParticipant l) publish else emit l [].

(** The events of the vector database and video; the others are accepted and
    ignored. *)
Definition send_side_event (l : LiveKitTransport) (e : IEvent) (marshal publish : result unit)
    : outcome :=
  match e with
  | VectorDBQueryEvent query =>
      match marshal with
      | Err m => refuse l [] ("failed to marshal vector DB query: " +:+ m)
      | Ok _ =>
          publish_result l
            [Publish (Json [("type", AnyString "vectordb_query"); ("query", AnyString query)])
               "vectordb"] publish
      end
  | VectorDBQueryResultEvent [] => emit l []
  | VectorDBQueryResultEvent (r :: _) => publish_result l [Publish (PlainText r) ""] publish
  | VideoOutputEvent chunk =>
      if negb (VideoEnabled (inputs l)) then emit l []
      else if bool_decide (default [] (v_Data chunk) = []) then emit l []
      else refuse l [] "video output not implemented"
  | _ => emit l []
  end.

(** [SendEvent] with everything but speech; [marshal]: encoding the payload. *)
Definition send_event (l : LiveKitTransport) (e : IEvent) (marshal publish : result unit) : outcome :=
  match e with
  | LLMGenerateResponseEvent _ | LLMResponseStartedEvent => announce l "thinking" publish
  | LLMResponseChunkEvent text _ => send_text l text false publish
  | LLMResponseCompletedEvent text =>
      then_ (emit l (NotifySpeechEnded l)) (λ l,
        if negb (String.eqb text "") && TranscriptionEnabled (outputs l)
        then sendTranscription l text true (GetLinkedParticipant l) publish
        else sendAgentState l "listening" publish)
  | LLMToolInvocationRequestedEvent toolId params =>
      match marshal with
      | Err m => refuse l [] ("failed to marshal tool invocation: " +:+ m)
      | Ok _ =>
          publish_result l
            [Publish (Json [("type", AnyString "tool_invocation"); ("toolId", AnyString toolId);
               ("params", any_params params)]) "tools"] publish
      end
  | STTInterimOutputEvent text => send_text l text false publish
  | STTFinalOutputEvent text => send_text l text true publish
  | TTSSpeakingStartedEvent => announce l "speaking" publish
  | TTSSpeakingEndedEvent => announce l "listening" publish
  | VadUserSpeechStartedEvent => announce l "listening" publish
  | VadUserSpeechEndedEvent => announce l "thinking" publish
  | VadInterruptionSuspectedEvent | VadInterruptionConfirmedEvent => interrupt l publish
  | _ => send_side_event l e marshal publish
  end.

Definition SendEvent (ps : Pools) (l : LiveKitTransport) (e : IEvent) (marshal publish write : result unit)
    : option (Pools * (LiveKitTransport * list effect * result unit)) :=
  if negb (isConnected l) then Some (ps, (l, [], Err "transport not connected"))
  else match client l with
       | None => Some (ps, (l, [], Err "transport not connected"))
       | Some None => Some (ps, (l, [], Err "local participant not initialized"))
       | Some (Some _) =>
           match e with
           | TTSOutputEvent chunk => send_audio ps l chunk write
           | _ => (λ o, (ps, o)) <$> send_event l e marshal publish
           end
       end.
End sending.
