(* ===== verification/LiveKitTransportProofs.v ===== *)
(** * Theorems about the LiveKit transport

    Who is heard, what happens when the linked participant leaves, the
    bookkeeping of track readers, the agent state, the audio that goes out, and
    why a transport that was reset stays deaf. *)

From Stdlib Require Import Strings.Byte.
From S2P Require Import Prelude Core BaseHandler Runner Audio AudioProofs LiveKitTransport.

Local Open Scope string_scope.
Local Open Scope list_scope.
Local Open Scope Z_scope.

(** ** Samples *)

Lemma bytesToPCM16_samples bs : bytesToPCM16 bs = samples bs.
Proof. induction bs as [| |x y bs IH] using list_ind2; cbn; [done|done|by rewrite IH]. Qed.

Lemma samples_range bs : Forall (λ s, -32768 <= s <= 32767) (samples bs).
Proof.
  induction bs as [| |x y bs IH] using list_ind2; cbn; repeat constructor; try done;
    apply int16_range, uint16_range.
Qed.

Lemma samples_encode bs :
  Nat.Even (length bs) → flat_map (λ z, le16 (z mod 65536)) (samples bs) = bs.
Proof.
  induction bs as [|x|x y bs IH] using list_ind2; intros He; [done| |].
  - exfalso. destruct He. cbn in *. lia.
  - cbn [samples flat_map]. rewrite int16_mod by apply uint16_range. rewrite le16_uint16.
    cbn [app]. rewrite IH; [done|]. destruct He as [k Hk]. exists (k - 1)%nat. cbn in Hk. lia.
Qed.

(** ** Runs of a transport in its room *)

(** What happens to a connected transport: a callback of the room, a spawned
    reader starting, a round of a running reader. *)
Inductive lk_event : Type :=
| Room (e : room_event)
| ReaderStart
| ReaderRound (n : nat) (o : read_outcome) (ready prefer_send : bool) (now : Z).

(** The transport, the readers spawned but not started, and the senders of the
    chunks delivered to the pipeline so far. *)
Record world := mkWorld {
  transport : LiveKitTransport;
  spawned : list (TrackRemote * string * Z * Z);
  senders : list string
}.

Definition spawns (es : list effect) : list (TrackRemote * string * Z * Z) :=
  omap (λ e, match e with SpawnReader t p r c => Some (t, p, r, c) | _ => None end) es.

Definition deliveries (es : list effect) : list MediaChunk :=
  omap (λ e, match e with Deliver c => Some c | _ => None end) es.

(** The sender of what a step delivers. *)
Definition source_of (l : LiveKitTransport) (e : lk_event) : string :=
  match e with
  | Room (OnDataPacket sender _ _ _) => sender
  | ReaderRound n _ _ _ _ => from_option r_participant "" (readers l !! n)
  | _ => ""
  end.

Definition lk_step (w : world) (e : lk_event) : option world :=
  let l := transport w in
  match e with
  | Room re =>
      match room_callback l re with
      | None => None
      | Some (l', es, _) =>
          Some (mkWorld l' (spawned w ++ spawns es)
                  (senders w ++ map (λ _, source_of l e) (deliveries es)))
      end
  | ReaderStart =>
      match spawned w with
      | [] => Some w
      | (t, p, r, c) :: rest => Some (mkWorld (readTrack_start l t p r c) rest (senders w))
      end
  | ReaderRound n o ready prefer now =>
      let '(l', es) := readTrack_step l n o ready prefer now in
      Some (mkWorld l' (spawned w) (senders w ++ map (λ _, source_of l e) (deliveries es)))
  end.

Fixpoint lk_run (w : world) (es : list lk_event) : option world :=
  match es with
  | [] => Some w
  | e :: es' => match lk_step w e with None => None | Some w' => lk_run w' es' end
  end.

(** ** Which fields an operation leaves alone *)

Lemma cancel_active_fields l t :
  linkedParticipant (cancel_active l t) = linkedParticipant l ∧
  participantTracks (cancel_active l t) = participantTracks l ∧
  activeTracks (cancel_active l t) = activeTracks l ∧
  settings (cancel_active l t) = settings l ∧ client (cancel_active l t) = client l ∧
  nextReader (cancel_active l t) = nextReader l.
Proof. unfold cancel_active. by destruct (activeTracks l !! t). Qed.

Lemma stop_tracks_fields ids : ∀ l,
  linkedParticipant (stop_tracks l ids) = linkedParticipant l ∧
  participantTracks (stop_tracks l ids) = participantTracks l ∧
  settings (stop_tracks l ids) = settings l ∧ client (stop_tracks l ids) = client l ∧
  nextReader (stop_tracks l ids) = nextReader l.
Proof.
  induction ids as [|id ids IH]; intros l; cbn [stop_tracks]; [done|].
  destruct (cancel_active_fields l id) as (H1 & H2 & H3 & H4 & H5 & H6).
  destruct (IH (with_activeTracks (cancel_active l id) (delete id (activeTracks (cancel_active l id)))))
    as (G1 & G2 & G3 & G4 & G5). cbn in *. by rewrite G1, G2, G3, G4, G5.
Qed.

Lemma readTrack_exit_fields l n :
  linkedParticipant (readTrack_exit l n) = linkedParticipant l ∧
  settings (readTrack_exit l n) = settings l ∧ client (readTrack_exit l n) = client l ∧
  ctx (readTrack_exit l n) = ctx l ∧ outputChan (readTrack_exit l n) = outputChan l ∧
  nextReader (readTrack_exit l n) = nextReader l.
Proof. unfold readTrack_exit. by destruct (readers l !! n). Qed.

(** Readers of one participant only: what every operation but a start keeps. *)
Definition readers_of (who : string) (m : gmap nat reader) : Prop :=
  map_Forall (λ _ r, r_participant r = who) m.

Lemma readers_of_cancel who l t : readers_of who (readers l) → readers_of who (readers (cancel_active l t)).
Proof.
  unfold cancel_active. destruct (activeTracks l !! t) as [n|]; [|done]. cbn. intros H k r Hk.
  destruct (decide (n = k)) as [->|Hne].
  - rewrite lookup_alter_eq in Hk. destruct (readers l !! k) as [r'|] eqn:E; [|done].
    cbn in Hk. injection Hk as <-. exact (H k r' E).
  - rewrite lookup_alter_ne in Hk by done. exact (H k r Hk).
Qed.

Lemma readers_of_stop who ids : ∀ l,
  readers_of who (readers l) → readers_of who (readers (stop_tracks l ids)).
Proof.
  induction ids as [|id ids IH]; intros l H; cbn [stop_tracks]; [done|].
  apply IH. cbn. by apply readers_of_cancel.
Qed.

Lemma readers_of_exit who l n : readers_of who (readers l) → readers_of who (readers (readTrack_exit l n)).
Proof.
  unfold readTrack_exit. destruct (readers l !! n); [|done]. cbn. intros H. by apply map_Forall_delete.
Qed.

(** Effects that neither spawn a reader nor deliver a chunk. *)
Definition quiet (es : list effect) : Prop := spawns es = [] ∧ deliveries es = [].

Lemma quiet_app a b : quiet a → quiet b → quiet (a ++ b).
Proof. unfold quiet, spawns, deliveries. rewrite !omap_app. by intros [-> ->] [-> ->]. Qed.

Lemma subscribe_all_quiet sources kind ps : quiet (subscribe_all sources kind ps).
Proof.
  unfold subscribe_all. induction ps as [|p ps IH]; cbn [List.filter]; [done|].
  by destruct (wanted_publication sources kind p).
Qed.

Lemma subscribe_quiet l rp : quiet (subscribeToParticipantTracks l rp).
Proof.
  unfold subscribeToParticipantTracks. repeat case_match; try done;
    apply quiet_app; done || apply subscribe_all_quiet.
Qed.

(** ** Only the linked participant is heard *)

Section linked.
Context (who : string) (Hwho : who ≠ "").

(** The departure of [who] is the one event that unlinks. *)
Definition not_leaving (e : lk_event) : Prop :=
  match e with
  | Room (OnParticipantDisconnected rp) => Identity rp ≠ who
  | _ => True
  end.

Record private (w : world) : Prop := {
  pr_linked : linkedParticipant (transport w) = who;
  pr_readers : readers_of who (readers (transport w));
  pr_spawned : Forall (λ s, s.1.1.2 = who) (spawned w);
  pr_senders : Forall (λ s, s = who) (senders w)
}.

Lemma heard_linked l s : linkedParticipant l = who → heard l s = true → s = who.
Proof using Hwho.
  unfold heard. intros ->. destruct (String.eqb_spec who ""); [done|].
  cbn. by intros ->%String.eqb_eq.
Qed.

Lemma joined_linked l rp l' es r :
  linkedParticipant l = who → participant_joined l rp = Some (l', es, r) →
  l' = l ∧ spawns es = [] ∧ deliveries es = [].
Proof using Hwho.
  intros Hl. unfold participant_joined, then_, seq_outcome, handleParticipantConnected.
  rewrite Hl. destruct (String.eqb_spec who ""); [done|].
  assert (∀ e1 r1, quiet e1 → Some (l, e1 ++ subscribeToParticipantTracks l rp, r1) = Some (l', es, r) →
    l' = l ∧ spawns es = [] ∧ deliveries es = []) as Hk.
  { intros e1 r1 Hq [= <- <- _]. split; [done|].
    exact (quiet_app _ _ Hq (subscribe_quiet l rp)). }
  unfold emit. repeat case_match; intros E; simplify_eq;
    (eapply Hk; [|reflexivity]); done.
Qed.

Lemma departed_private l rp l' es r :
  Identity rp ≠ who → linkedParticipant l = who → readers_of who (readers l) →
  handleParticipantDisconnected l rp = Some (l', es, r) →
  linkedParticipant l' = who ∧ readers_of who (readers l') ∧ quiet es.
Proof using Type.
  intros Hne Hl Hr. unfold handleParticipantDisconnected.
  destruct (is_self l (Identity rp)); [by intros [= <- <- _]|].
  set (l1 := match participantTracks l !! Identity rp with None => l | Some _ => _ end).
  assert (linkedParticipant l1 = who ∧ readers_of who (readers l1)) as [Hl1 Hr1].
  { subst l1. destruct (participantTracks l !! Identity rp) as [ids|]; [|done]. cbn.
    destruct (stop_tracks_fields ids l) as (-> & _). split; [done|]. by apply readers_of_stop. }
  rewrite Hl1. destruct (String.eqb_spec who (Identity rp)) as [E|]; [congruence|].
  cbn [andb]. intros [= <- <- _]. by destruct (onParticipantDisconnected (settings l)).
Qed.

Lemma room_private l e l' es r :
  not_leaving (Room e) → linkedParticipant l = who → readers_of who (readers l) →
  room_callback l e = Some (l', es, r) →
  linkedParticipant l' = who ∧ readers_of who (readers l') ∧
  Forall (λ s, s.1.1.2 = who) (spawns es) ∧
  Forall (λ s, s = who) (map (λ _, source_of l (Room e)) (deliveries es)).
Proof using Hwho.
  intros Hn Hl Hr. destruct e as [t rp|t rp|sender text ready prefer|rp|rp| | |]; cbn.
  - intros [= <- <- _]. unfold handleRemoteTrack.
    destruct (track_wanted l (tk_Kind t)); [|done]. cbn [negb].
    destruct (heard l (Identity rp)) eqn:Hh; [|done]. apply heard_linked in Hh; [|done].
    cbn [negb]. destruct (match tk_Kind t with KindAudio => _ | _ => _ end). cbn. auto.
  - intros [= <- <- _]. destruct (cancel_active_fields l t) as (H1 & _). cbn.
    split_and!; [by rewrite H1|by apply readers_of_cancel|done|done].
  - unfold handleDataPacket. destruct (TextEnabled (inputs l)); [|by intros [= <- <- _]].
    destruct (heard l sender) eqn:Hh; [|by intros [= <- <- _]]. apply heard_linked in Hh; [|done].
    subst sender. unfold emit. cbn [negb].
    repeat case_match; intros E; simplify_eq; cbn; split_and!; try done; repeat constructor.
  - intros E. destruct (joined_linked l rp l' es r Hl E) as (-> & -> & ->). done.
  - intros E. destruct (departed_private l rp l' es r Hn Hl Hr E) as (H1 & H2 & [-> ->]). done.
  - intros [= <- <- _]. cbn. by repeat case_match.
  - intros [= <- <- _]. cbn. by repeat case_match.
  - intros [= <- <- _]. cbn. by repeat case_match.
Qed.

Lemma step_private w e w' :
  not_leaving e → private w → lk_step w e = Some w' → private w'.
Proof using Hwho.
  intros Hn [H1 H2 H3 H4]. destruct e as [e| |n o ready prefer now]; cbn [lk_step].
  - destruct (room_callback (transport w) e) as [[[l' es] r]|] eqn:E; [|done]. intros [= <-].
    destruct (room_private _ _ _ _ _ Hn H1 H2 E) as (G1 & G2 & G3 & G4).
    split; cbn; [done|done|by apply Forall_app|by apply Forall_app].
  - destruct (spawned w) as [|[[[t p] r] c] rest] eqn:Es; intros [= <-]; [by split; rewrite ?Es|].
    apply Forall_cons in H3 as [Hp H3]. cbn in Hp. subst p.
    split; cbn; try done. by apply map_Forall_insert_2.
  - unfold readTrack_step, source_of.
    destruct (readers (transport w) !! n) as [r|] eqn:Er; cbn in *.
    + pose proof (H2 n r Er) as Hp. cbn in Hp.
      destruct (readTrack_exit_fields (transport w) n) as (F1 & _).
      pose proof (readers_of_exit who (transport w) n H2) as F2.
      destruct (reader_done (transport w) r).
      * intros [= <-]. split; cbn; rewrite ?F1, ?app_nil_r; done.
      * destruct (readTrack_round (transport w) r o ready prefer now) as [es go_on].
        intros [= <-]. split; cbn; [by destruct go_on; rewrite ?F1|by destruct go_on|done|].
        apply Forall_app. split; [done|]. rewrite Hp. clear. by induction (deliveries es); constructor.
    + intros [= <-]. split; cbn; rewrite ?app_nil_r; done.
Qed.

End linked.

Definition alice : RemoteParticipant := mkParticipant "alice" None [].
Definition mallory : RemoteParticipant := mkParticipant "mallory" None [].
Definition mic (id : string) : TrackRemote := mkTrackRemote id KindAudio "audio/opus".

(** A transport of a job for Alice, receiving. *)
Definition job_transport : LiveKitTransport :=
  StartReceiving (Initialize (with_linkedParticipant
    (NewLiveKitTransportWithToken "room" "wss://x" "token" []) "alice")).


(** ** The bookkeeping of track readers *)

Record tracks_ok (l : LiveKitTransport) : Prop := {
  tk_active t n : activeTracks l !! t = Some n → ∃ r, readers l !! n = Some r ∧ r_track r = t;
  tk_stored n r : readers l !! n = Some r → r_cancelled r = false → activeTracks l !! r_track r = Some n;
  tk_listed n r : readers l !! n = Some r → r_cancelled r = false →
    ∃ ids, participantTracks l !! r_participant r = Some ids ∧ r_track r ∈ ids;
  tk_distinct n m r s : readers l !! n = Some r → readers l !! m = Some s →
    r_track r = r_track s → n = m;
  tk_next n : (nextReader l ≤ n)%nat → readers l !! n = None
}.

(** [l'] is [l] with the cancel functions of some tracks called and removed. *)
Record released (l l' : LiveKitTransport) : Prop := {
  rel_readers n r' : readers l' !! n = Some r' →
    ∃ r, readers l !! n = Some r ∧ r_track r' = r_track r ∧ r_participant r' = r_participant r ∧
         (r_cancelled r' = false → r_cancelled r = false);
  rel_kept n r : readers l !! n = Some r → ∃ r', readers l' !! n = Some r';
  rel_active t n : activeTracks l' !! t = Some n → activeTracks l !! t = Some n;
  rel_dropped t n r' : activeTracks l !! t = Some n → activeTracks l' !! t = None →
    readers l' !! n = Some r' → r_cancelled r' = true;
  rel_next : nextReader l' = nextReader l;
  rel_listed : participantTracks l' = participantTracks l
}.

Lemma released_refl l : released l l.
Proof.
  split; [intros n r' E; exists r'; auto|intros n r E; by exists r|done| |done|done].
  intros t n r' A B. congruence.
Qed.

Lemma released_trans a b c : released a b → released b c → released a c.
Proof.
  intros [A1 A2 A3 A4 A5 A6] [B1 B2 B3 B4 B5 B6]. split; [| | | |congruence|congruence].
  - intros n r'' (r' & Hr' & T1 & P1 & C1)%B1. apply A1 in Hr' as (r & Hr & T2 & P2 & C2).
    exists r. split_and!; [done|congruence|congruence|auto].
  - intros n r (r' & Hr')%A2. by apply B2 in Hr'.
  - intros t n Hc. auto.
  - intros t n r'' Ha Hc Hr''. destruct (B1 n r'' Hr'') as (r' & Hr' & _ & _ & Hcc).
    destruct (activeTracks b !! t) as [m|] eqn:Hb.
    + pose proof (A3 t m Hb) as Hm. assert (m = n) as -> by congruence. eauto.
    + pose proof (A4 t n r' Ha Hb Hr'). destruct (r_cancelled r''); [done|].
      specialize (Hcc eq_refl). congruence.
Qed.

(** One track cancelled and its cancel function removed. *)
Lemma release_one l t :
  let l1 := cancel_active l t in
  let l' := with_activeTracks l1 (delete t (activeTracks l1)) in
  released l l' ∧ activeTracks l' !! t = None.
Proof.
  intros l1 l'. destruct (cancel_active_fields l t) as (_ & E2 & E3 & _ & _ & E6).
  assert (∀ n, readers l' !! n =
    (if bool_decide (activeTracks l !! t = Some n) then cancel_reader <$> readers l !! n
     else readers l !! n)) as Hr.
  { intros n. subst l' l1. unfold cancel_active. cbn.
    destruct (activeTracks l !! t) as [k|]; cbn; [|done].
    case_bool_decide as Hd; [injection Hd as ->; apply lookup_alter_eq|].
    apply lookup_alter_ne. congruence. }
  split; [|subst l' l1; cbn; apply lookup_delete_eq]. split.
  - intros n r'. rewrite Hr. case_bool_decide; [|intros E; exists r'; auto].
    destruct (readers l !! n) as [r|]; [|done]. cbn. intros [= <-]. exists r. done.
  - intros n r E. rewrite Hr, E. case_bool_decide; cbn; eauto.
  - intros t' n. subst l' l1. cbn. rewrite E3. by intros [_ ?]%lookup_delete_Some.
  - intros t' n r' Ha. subst l' l1. cbn [activeTracks with_activeTracks]. rewrite E3.
    intros Hd. destruct (decide (t = t')) as [->|Hne]; [|rewrite lookup_delete_ne in Hd by done; congruence].
    rewrite Hr, Ha. rewrite bool_decide_true by done.
    destruct (readers l !! n) as [r|]; [|done]. cbn. by intros [= <-].
  - done.
  - done.
Qed.

Lemma release_all ids : ∀ l,
  released l (stop_tracks l ids) ∧ ∀ t, t ∈ ids → activeTracks (stop_tracks l ids) !! t = None.
Proof.
  induction ids as [|id ids IH]; intros l; cbn [stop_tracks].
  - split; [apply released_refl|]. intros t Ht. by apply elem_of_nil in Ht.
  - destruct (release_one l id) as [H1 H2]. cbn zeta in *.
    destruct (IH (with_activeTracks (cancel_active l id) (delete id (activeTracks (cancel_active l id)))))
      as [G1 G2].
    split; [by eapply released_trans|]. intros t [->|Ht]%elem_of_cons; [|auto].
    destruct (activeTracks (stop_tracks _ ids) !! id) as [n|] eqn:E; [|done].
    apply (rel_active _ _ G1) in E. congruence.
Qed.

(** The bookkeeping survives a release, provided every reader that is still
    running is still listed. *)
Lemma released_ok l l' (f : gmap string (list string)) :
  tracks_ok l → released l l' →
  (∀ n r, readers l' !! n = Some r → r_cancelled r = false →
     ∃ ids, f !! r_participant r = Some ids ∧ r_track r ∈ ids) →
  tracks_ok (with_participantTracks l' f).
Proof.
  intros [H1 H2 H3 H4 H5] [R1 R2 R3 R4 R5 R6] Hf. split; cbn; [| |exact Hf| |].
  - intros t n Hn. apply R3, H1 in Hn as (r & Hr & Ht). destruct (R2 n r Hr) as [r' Hr'].
    exists r'. split; [done|]. destruct (R1 n r' Hr') as (r0 & ? & ? & _). congruence.
  - intros n r' Hr' Hc. destruct (R1 n r' Hr') as (r & Hr & -> & _ & Hcc). specialize (Hcc Hc).
    pose proof (H2 n r Hr Hcc) as Ha. destruct (activeTracks l' !! r_track r) as [m|] eqn:E.
    + apply R3 in E. congruence.
    + pose proof (R4 _ _ _ Ha E Hr'). congruence.
  - intros n m r s (r0 & Hr & -> & _)%R1 (s0 & Hs & -> & _)%R1. by apply H4.
  - rewrite R5. intros n Hn. destruct (readers l' !! n) as [r'|] eqn:E; [|done].
    apply R1 in E as (r & Hr & _). rewrite H5 in Hr; done.
Qed.

(** The four fields the bookkeeping is about. *)
Definition books (l : LiveKitTransport) :=
  (activeTracks l, participantTracks l, readers l, nextReader l).

Lemma tracks_ok_books l l' : books l' = books l → tracks_ok l → tracks_ok l'.
Proof.
  unfold books. intros [= E1 E2 E3 E4] [H1 H2 H3 H4 H5].
  split; rewrite ?E1, ?E2, ?E3, ?E4; auto.
Qed.

Lemma remove_track_keeps m p t q ids x :
  m !! q = Some ids → x ∈ ids → x ≠ t → ∃ ids', remove_track m p t !! q = Some ids' ∧ x ∈ ids'.
Proof.
  intros Hq Hx Hne. unfold remove_track. destruct (m !! p) as [l|] eqn:Hp; [|eauto].
  destruct (decide (p = q)) as [<-|Hpq].
  - assert (l = ids) as -> by congruence.
    assert (x ∈ List.filter (λ id, negb (String.eqb id t)) ids) as Hf.
    { apply list_elem_of_In, filter_In. split; [by apply list_elem_of_In|].
      by destruct (String.eqb_spec x t). }
    destruct (List.filter _ ids) as [|y ys]; [by apply elem_of_nil in Hf|].
    exists (y :: ys). by rewrite lookup_insert_eq.
  - exists ids. split; [|done]. destruct (List.filter _ l) as [|y ys].
    + by rewrite lookup_delete_ne.
    + by rewrite lookup_insert_ne.
Qed.

(** A reader that survives the release of a track reads another one. *)
Lemma survivor l l' t n r' :
  tracks_ok l → released l l' → activeTracks l' !! t = None →
  readers l' !! n = Some r' → r_cancelled r' = false →
  r_track r' ≠ t ∧ ∃ ids, participantTracks l !! r_participant r' = Some ids ∧ r_track r' ∈ ids.
Proof.
  intros Hk Hr Ht Hn Hc. destruct (rel_readers _ _ Hr n r' Hn) as (r & Hl & Et & Ep & Hcc).
  specialize (Hcc Hc). split.
  - intros <-. pose proof (tk_stored _ Hk n r Hl Hcc) as Ha. rewrite <-Et in Ha.
    pose proof (rel_dropped _ _ Hr _ _ _ Ha Ht Hn). congruence.
  - rewrite Et, Ep. exact (tk_listed _ Hk n r Hl Hcc).
Qed.

Lemma unsubscribed_ok l t p : tracks_ok l → tracks_ok (handleTrackUnsubscribed l t p).
Proof.
  intros Hk. unfold handleTrackUnsubscribed. destruct (release_one l t) as [Hr Ht].
  cbn zeta in *. eapply released_ok; [done|exact Hr|]. intros n r' Hn Hc.
  destruct (survivor _ _ _ _ _ Hk Hr Ht Hn Hc) as (Hne & ids & Hi & Hin).
  destruct (cancel_active_fields l t) as (_ & E & _). rewrite E.
  by eapply remove_track_keeps.
Qed.

(** The participant's tracks after its departure. *)
Definition depart (l : LiveKitTransport) (identity : string) : LiveKitTransport :=
  match participantTracks l !! identity with
  | None => l
  | Some ids =>
      let l' := stop_tracks l ids in
      with_participantTracks l' (delete identity (participantTracks l'))
  end.

Lemma departed_books l rp l' es r :
  is_self l (Identity rp) = false → handleParticipantDisconnected l rp = Some (l', es, r) →
  books l' = books (depart l (Identity rp)).
Proof.
  intros Hs. unfold handleParticipantDisconnected. rewrite Hs.
  change (match participantTracks l !! Identity rp with None => l | Some _ => _ end)
    with (depart l (Identity rp)).
  destruct (offer _ _), (String.eqb _ _), (CloseOnDisconnect _); cbn; intros [= <- _ _]; done.
Qed.

Lemma depart_ok l identity :
  tracks_ok l →
  tracks_ok (depart l identity) ∧
  ∀ n r, readers (depart l identity) !! n = Some r → r_participant r = identity → r_cancelled r = true.
Proof.
  intros Hk. unfold depart. destruct (participantTracks l !! identity) as [ids|] eqn:Ei.
  - destruct (release_all ids l) as [Hr Hd].
    assert (∀ n r, readers (stop_tracks l ids) !! n = Some r → r_cancelled r = false →
      r_participant r ≠ identity ∧
      ∃ ids', participantTracks l !! r_participant r = Some ids' ∧ r_track r ∈ ids') as Hs.
    { intros n r Hn Hc. destruct (rel_readers _ _ Hr n r Hn) as (r0 & H0 & Et & Ep & Hcc).
      destruct (tk_listed _ Hk n r0 H0 (Hcc Hc)) as (ids' & Hi & Hin). rewrite Et, Ep.
      split; [|eauto]. intros E. assert (ids' = ids) as -> by congruence.
      pose proof (tk_stored _ Hk n r0 H0 (Hcc Hc)) as Ha.
      pose proof (rel_dropped _ _ Hr _ _ _ Ha (Hd _ Hin) Hn). congruence. }
    split.
    + eapply released_ok; [done|exact Hr|]. intros n r Hn Hc. rewrite (rel_listed _ _ Hr).
      destruct (Hs n r Hn Hc) as (Hne & ids' & Hi & Hin). exists ids'.
      by rewrite lookup_delete_ne by congruence.
    + cbn. intros n r Hn <-. destruct (r_cancelled r) eqn:Hc; [done|].
      by destruct (Hs n r Hn Hc).
  - split; [done|]. intros n r Hn <-. destruct (r_cancelled r) eqn:Hc; [done|].
    destruct (tk_listed _ Hk n r Hn Hc) as (ids & Hi & _). congruence.
Qed.

Lemma start_ok l t p rate ch :
  tracks_ok l → (∀ n r, readers l !! n = Some r → r_track r ≠ tk_ID t) →
  tracks_ok (readTrack_start l t p rate ch).
Proof.
  intros [H1 H2 H3 H4 H5] Hfresh. unfold readTrack_start, reader_register, store_track_list, load_track_list.
  split; cbn.
  - intros t' n. destruct (decide (tk_ID t = t')) as [<-|Hne].
    + rewrite lookup_insert_eq. intros [= <-]. eexists. by rewrite lookup_insert_eq.
    + rewrite lookup_insert_ne by done. intros (r & Hr & Ht)%H1. exists r. split; [|done].
      rewrite lookup_insert_ne; [done|]. intros <-. rewrite H5 in Hr; done.
  - intros n r. destruct (decide (nextReader l = n)) as [<-|Hne].
    + rewrite lookup_insert_eq. intros [= <-] _. by rewrite lookup_insert_eq.
    + rewrite lookup_insert_ne by done. intros Hn Hc. rewrite lookup_insert_ne; [auto|].
      intros E. by eapply Hfresh.
  - intros n r. destruct (decide (nextReader l = n)) as [<-|Hne].
    + rewrite lookup_insert_eq. intros [= <-] _. cbn. eexists. rewrite lookup_insert_eq.
      split; [done|]. apply elem_of_app. right. by apply list_elem_of_singleton.
    + rewrite lookup_insert_ne by done. intros Hn Hc. destruct (H3 n r Hn Hc) as (ids & Hi & Hin).
      destruct (decide (p = r_participant r)) as [->|Hp].
      * eexists. rewrite lookup_insert_eq. split; [done|]. rewrite Hi. apply elem_of_app. by left.
      * exists ids. by rewrite lookup_insert_ne.
  - intros n m r s. destruct (decide (nextReader l = n)) as [<-|Hn], (decide (nextReader l = m)) as [<-|Hm];
      rewrite ?lookup_insert_eq, ?lookup_insert_ne by done; try done.
    + intros [= <-] Hs E. exfalso. by eapply Hfresh.
    + intros Hr [= <-] E. exfalso. by eapply Hfresh.
    + apply H4.
  - intros n Hn. rewrite lookup_insert_ne by lia. apply H5. lia.
Qed.

Lemma exit_ok l n : tracks_ok l → tracks_ok (readTrack_exit l n).
Proof.
  intros [H1 H2 H3 H4 H5]. unfold readTrack_exit. destruct (readers l !! n) as [r|] eqn:Er; [|done].
  assert (∀ m s, readers l !! m = Some s → n ≠ m → r_track s ≠ r_track r) as Hd.
  { intros m s Hs Hne E. apply Hne. by eapply H4. }
  split; cbn.
  - intros t m [Hne (s & Hs & Ht)%H1]%lookup_delete_Some. exists s. split; [|done].
    rewrite lookup_delete_ne; [done|]. intros ->. congruence.
  - intros m s [Hne Hs]%lookup_delete_Some Hc. rewrite lookup_delete_ne; [auto|].
    intros E. by apply (Hd m s Hs Hne).
  - intros m s [Hne Hs]%lookup_delete_Some Hc. destruct (H3 m s Hs Hc) as (ids & Hi & Hin).
    eapply remove_track_keeps; eauto.
  - intros m k s u [_ Hs]%lookup_delete_Some [_ Hu]%lookup_delete_Some. by apply H4.
  - intros m Hm. rewrite lookup_delete_ne; [by apply H5|]. intros ->. rewrite H5 in Er; done.
Qed.

(** A reader may only start on a track that no running reader reads. *)
Definition fresh_start (w : world) (e : lk_event) : Prop :=
  match e, spawned w with
  | ReaderStart, (t, _, _, _) :: _ =>
      ∀ n r, readers (transport w) !! n = Some r → r_track r ≠ tk_ID t
  | _, _ => True
  end.

Inductive reaches : world → world → Prop :=
| reaches_here w : reaches w w
| reaches_step w e w1 w2 :
    fresh_start w e → lk_step w e = Some w1 → reaches w1 w2 → reaches w w2.

Lemma joined_books l rp l' es r : participant_joined l rp = Some (l', es, r) → books l' = books l.
Proof.
  unfold participant_joined, then_, seq_outcome, handleParticipantConnected, emit.
  repeat case_match; intros E; simplify_eq; done.
Qed.

Lemma step_ok w e w' :
  fresh_start w e → tracks_ok (transport w) → lk_step w e = Some w' → tracks_ok (transport w').
Proof.
  intros Hf Hk. destruct e as [e| |n o ready prefer now]; cbn [lk_step].
  - destruct (room_callback (transport w) e) as [[[l' es] r]|] eqn:E; [|done]. intros [= <-].
    cbn [transport]. destruct e as [t rp|t rp|sender text rdy prefer|rp|rp| | |]; cbn in E.
    + by injection E as <- _ _.
    + injection E as <- _ _. by apply unsubscribed_ok.
    + destruct (handleDataPacket _ _ _ _ _) as [[? ?]|]; [|done]. by injection E as <- _ _.
    + eapply tracks_ok_books; [by eapply joined_books|done].
    + destruct (is_self (transport w) (Identity rp)) eqn:Hs.
      * unfold handleParticipantDisconnected in E. rewrite Hs in E. by injection E as <- _ _.
      * eapply tracks_ok_books; [by eapply departed_books|]. by apply depart_ok.
    + injection E as <- _ _. eapply tracks_ok_books; [|done]. done.
    + injection E as <- _ _. eapply tracks_ok_books; [|done]. done.
    + injection E as <- _ _. eapply tracks_ok_books; [|done]. done.
  - unfold fresh_start in Hf. destruct (spawned w) as [|[[[t p] r] c] rest]; intros [= <-]; [done|].
    by apply start_ok.
  - unfold readTrack_step. destruct (readers (transport w) !! n) as [r|]; [|by intros [= <-]].
    destruct (reader_done (transport w) r); [intros [= <-]; by apply exit_ok|].
    destruct (readTrack_round _ _ _ _ _ _) as [es go_on]. intros [= <-]. cbn.
    destruct go_on; [done|by apply exit_ok].
Qed.

Lemma no_readers_ok l : readers l = ∅ → activeTracks l = ∅ → tracks_ok l.
Proof.
  intros Hr Ha. split; rewrite ?Hr, ?Ha; intros *; rewrite lookup_empty; done.
Qed.


(** Runs with the freshness of every start checked. *)
Definition fresh_start_b (w : world) (e : lk_event) : bool :=
  match e, spawned w with
  | ReaderStart, (t, _, _, _) :: _ =>
      forallb (λ x, negb (String.eqb (r_track x.2) (tk_ID t))) (map_to_list (readers (transport w)))
  | _, _ => true
  end.

Fixpoint checked_run (w : world) (es : list lk_event) : option world :=
  match es with
  | [] => Some w
  | e :: es' =>
      if fresh_start_b w e
      then match lk_step w e with None => None | Some w' => checked_run w' es' end
      else None
  end.

Lemma checked_run_reaches es : ∀ w w', checked_run w es = Some w' → reaches w w'.
Proof.
  induction es as [|e es IH]; intros w w'; cbn [checked_run]; [intros [= ->]; constructor|].
  destruct (fresh_start_b w e) eqn:Hf; [|done].
  destruct (lk_step w e) as [w1|] eqn:E; [|done]. intros Hr.
  apply (reaches_step w e w1 w'); [|done|by apply IH].
  unfold fresh_start, fresh_start_b in *. destruct e; try done.
  destruct (spawned w) as [|[[[t p] r] c] rest]; [done|]. rewrite forallb_forall in Hf.
  intros n rd Hn Ht. specialize (Hf (n, rd)).
  rewrite <-list_elem_of_In, elem_of_map_to_list in Hf. specialize (Hf Hn). cbn in Hf.
  by rewrite Ht, String.eqb_refl in Hf.
Qed.

Definition camera_events : list lk_event :=
  [Room (OnTrackSubscribed (mic "a") alice); Room (OnTrackSubscribed (mic "b") alice);
   ReaderStart; ReaderStart; ReaderRound 0 (Packet [x01]) true true 0].

Definition camera_of_alice : world :=
  default (mkWorld job_transport [] []) (lk_run (mkWorld job_transport [] []) camera_events).


(** Two readers of one participant that start together: each loads the
    list before the other stores, and one track is lost from it. *)
Lemma concurrent_starts_lose_a_track :
  let l := job_transport in
  let a := reader_register l (mic "a") "alice" 48000 1 in
  let b := reader_register a (mic "b") "alice" 48000 1 in
  let loaded_a := load_track_list b "alice" in
  let loaded_b := load_track_list b "alice" in
  let l1 := store_track_list (store_track_list b "alice" "a" loaded_a) "alice" "b" loaded_b in
  ∃ l' es, handleParticipantDisconnected l1 alice = Some (l', es, Ok tt) ∧
    r_cancelled <$> readers l' !! 0%nat = Some false.
Proof. eexists _, _. split; vm_compute; reflexivity. Qed.

(** A track subscribed again before its old reader noticed the cancellation:
    the old reader's exit removes the new reader's cancel function. *)
Lemma resubscribed_reader_cannot_be_stopped :
  let l1 := readTrack_start job_transport (mic "a") "alice" 48000 1 in
  let l2 := handleTrackUnsubscribed l1 "a" "alice" in
  let l3 := readTrack_start l2 (mic "a") "alice" 48000 1 in
  let l4 := readTrack_exit l3 0 in
  let l5 := handleTrackUnsubscribed l4 "a" "alice" in
  r_cancelled <$> readers l5 !! 1%nat = Some false.
Proof. vm_compute. reflexivity. Qed.

(** ** The end of a call *)



(** ** Reset *)

Lemma seq_outcome_some a k t es r :
  seq_outcome a k = Some (t, es, r) →
  ∃ t1 e1 r1 e2, a = Some (t1, e1, r1) ∧ k t1 r1 = Some (t, e2, r) ∧ es = e1 ++ e2.
Proof.
  unfold seq_outcome. destruct a as [[[t1 e1] r1]|]; [|done].
  destruct (k t1 r1) as [[[t2 e2] r2]|] eqn:E; [|done].
  intros [= -> <- ->]. by exists t1, e1, r1, e2.
Qed.

(** Connecting touches neither the context nor the readers. *)
Definition deaf_fields (l : LiveKitTransport) := (ctx l, readers l).

Lemma joined_deaf l rp l' es r :
  participant_joined l rp = Some (l', es, r) → deaf_fields l' = deaf_fields l.
Proof.
  unfold participant_joined, then_, seq_outcome, handleParticipantConnected, emit.
  repeat case_match; intros E; simplify_eq; done.
Qed.

Lemma admit_deaf ps : ∀ l l' es r,
  admit_participants l ps = Some (l', es, r) → deaf_fields l' = deaf_fields l.
Proof.
  induction ps as [|p ps IH]; intros l l' es r; cbn [admit_participants].
  - by intros [= <- _ _].
  - intros (l1 & e1 & r1 & e2 & H1 & H2 & _)%seq_outcome_some.
    apply joined_deaf in H1. rewrite <-H1. revert H2. case_match.
    + destruct (offer _ _); [|done]. intros H2%IH. by rewrite H2.
    + apply IH.
Qed.

Lemma connect_deaf l dial present make publish l' es r :
  Connect l dial present make publish = Some (l', es, r) → deaf_fields l' = deaf_fields l.
Proof.
  assert (∀ l how l' es r, dial_room l how dial present make publish = Some (l', es, r) →
    deaf_fields l' = deaf_fields l) as Hd.
  { clear. intros l how l' es r. unfold dial_room, setConnectionState, refuse.
    destruct dial as [local|e]; [|by intros [= <- _ _]].
    intros (l1 & e1 & r1 & e2 & Ee & H1 & _)%seq_outcome_some. injection Ee as <- <- <-.
    unfold onRoomConnected, setConnectionState in H1.
    apply seq_outcome_some in H1 as (l2 & e3 & r2 & e4 & Ef & H2 & _). injection Ef as <- <- <-.
    revert H2. unfold createAudioTrack, refuse. repeat case_match; intros Hres; simplify_eq; try done;
      apply admit_deaf in Hres; by rewrite Hres. }
  unfold Connect, connectWithToken, connectWithAPIKey, refuse.
  repeat case_match; intros E; simplify_eq; try done; by eapply Hd.
Qed.

Lemma wait_readers_empty l : readers (wait_readers l) = ∅ ∧ ctx (wait_readers l) = ctx l.
Proof.
  unfold wait_readers. cbn.
  assert (∀ ns l0, (∀ n, is_Some (readers l0 !! n) → n ∈ ns) →
    readers (fold_left readTrack_exit ns l0) = ∅ ∧ ctx (fold_left readTrack_exit ns l0) = ctx l0) as H.
  { clear. induction ns as [|n ns IH]; intros l0 Hns; cbn [fold_left].
    - split; [|done]. apply map_eq. intros k. rewrite lookup_empty.
      destruct (readers l0 !! k) eqn:E; [|done].
      assert (is_Some (readers l0 !! k)) as Hs by (rewrite E; eauto). by apply Hns, elem_of_nil in Hs.
    - destruct (IH (readTrack_exit l0 n)) as [H1 H2]; [|split; [done|]].
      + intros k. unfold readTrack_exit. destruct (readers l0 !! n) as [r|] eqn:En.
        * cbn. destruct (decide (n = k)) as [<-|Hne]; [rewrite lookup_delete_eq; by intros []|].
          rewrite lookup_delete_ne by done. intros Hk%Hns. set_solver.
        * intros Hk. pose proof (Hns k Hk) as [->|?]%elem_of_cons; [|done].
          rewrite En in Hk. by destruct Hk.
      + rewrite H2. by destruct (readTrack_exit_fields l0 n) as (_ & _ & _ & -> & _). }
  apply H. intros n [r Hr]. apply list_elem_of_fmap. exists (n, r). split; [done|].
  by apply elem_of_map_to_list.
Qed.

Lemma emit_inv a es b es' r : emit a es = Some (b, es', r) → b = a ∧ es' = es.
Proof. by intros [= <- <- _]. Qed.

Lemma cleanup_deaf l :
  closeOnce l = false → is_Some (ctx l) →
  ctx (Cleanup l).1 = Some true ∧ readers (Cleanup l).1 = ∅.
Proof.
  intros Hc [b Hb]. unfold Cleanup. rewrite Hc. cbn zeta.
  match goal with |- context [wait_readers ?x] =>
    destruct (wait_readers_empty x) as [H1 H2]; generalize dependent (wait_readers x) end.
  cbn [ctx with_transcriptionChan with_errorChan with_outputChan with_audioTrack with_activeTracks
    with_readers with_ctx with_closed with_closeOnce]. rewrite Hb.
  intros x H1 H2. unfold setConnectionState. cbn. done.
Qed.

Lemma reset_deaf l dial present make publish l' es r :
  Reset l dial present make publish = Some (l', es, r) → closeOnce l = false → is_Some (ctx l) →
  ctx l' = Some true ∧ readers l' = ∅.
Proof.
  intros H Hc Hb. destruct (cleanup_deaf l Hc Hb) as [H1 H2]. unfold Reset in H.
  destruct (Cleanup l) as [lc ec]. cbn [fst] in *.
  apply seq_outcome_some in H as (l1 & e1 & r1 & e2 & [-> _]%emit_inv & H & _).
  apply connect_deaf in H. unfold deaf_fields in H. cbn in H. split; congruence.
Qed.

Lemma depart_ctx l identity : ctx (depart l identity) = ctx l.
Proof.
  unfold depart. destruct (participantTracks l !! identity) as [ids|]; [|done]. cbn. revert l.
  induction ids as [|id ids IH]; intros l; cbn [stop_tracks]; [done|].
  rewrite IH. unfold cancel_active. by destruct (activeTracks l !! id).
Qed.

Lemma departed_ctx l rp l' es r :
  handleParticipantDisconnected l rp = Some (l', es, r) → ctx l' = ctx l ∧ quiet es.
Proof.
  unfold handleParticipantDisconnected. destruct (is_self l (Identity rp)); [by intros [= <- <- _]|].
  change (match participantTracks l !! Identity rp with None => l | Some _ => _ end)
    with (depart l (Identity rp)).
  rewrite <-(depart_ctx l (Identity rp)).
  destruct (offer _ _), (String.eqb _ _), (CloseOnDisconnect _), (onParticipantDisconnected _);
    cbn; intros [= <- <- _]; done.
Qed.

Lemma step_ctx w e w' : lk_step w e = Some w' → ctx (transport w') = ctx (transport w).
Proof.
  destruct e as [e| |n o ready prefer now]; cbn [lk_step].
  - destruct (room_callback (transport w) e) as [[[l' es] r]|] eqn:E; [|done]. intros [= <-].
    cbn [transport]. destruct e as [t rp|t rp|sender text rdy pref|rp|rp| | |]; cbn in E.
    + by injection E as <- _ _.
    + injection E as <- _ _. unfold handleTrackUnsubscribed, cancel_active. cbn. by case_match.
    + destruct (handleDataPacket _ _ _ _ _) as [[? ?]|]; [|done]. by injection E as <- _ _.
    + apply joined_deaf in E. unfold deaf_fields in E. by injection E.
    + by apply departed_ctx in E as [-> _].
    + by injection E as <- _ _.
    + by injection E as <- _ _.
    + by injection E as <- _ _.
  - destruct (spawned w) as [|[[[t p] r] c] rest]; by intros [= <-].
  - unfold readTrack_step. destruct (readers (transport w) !! n) as [r|]; [|by intros [= <-]].
    destruct (readTrack_exit_fields (transport w) n) as (_ & _ & _ & Hx & _).
    destruct (reader_done (transport w) r); [by intros [= <-]|].
    destruct (readTrack_round _ _ _ _ _ _) as [es go_on]. intros [= <-]. cbn. by destruct go_on.
Qed.

Definition not_data (e : lk_event) : Prop :=
  match e with Room (OnDataPacket _ _ _ _) => False | _ => True end.

Lemma step_deaf w e w' :
  ctx (transport w) = Some true → not_data e → lk_step w e = Some w' → senders w' = senders w.
Proof.
  intros Hc Hn. destruct e as [e| |n o ready prefer now]; cbn [lk_step].
  - destruct (room_callback (transport w) e) as [[[l' es] r]|] eqn:E; [|done]. intros [= <-]. cbn.
    assert (deliveries es = []) as ->; [|by rewrite app_nil_r].
    destruct e as [t rp|t rp|sender text rdy pref|rp|rp| | |]; cbn in E, Hn.
    + injection E as _ <- _. unfold handleRemoteTrack. by repeat case_match.
    + by injection E as _ <- _.
    + done.
    + unfold participant_joined in E. apply seq_outcome_some in E as (l1 & e1 & r1 & e2 & E1 & E2 & ->).
      injection E2 as _ <- _. apply quiet_app; [|apply subscribe_quiet]. revert E1.
      unfold handleParticipantConnected, emit. repeat case_match; intros E1; simplify_eq; done.
    + by apply departed_ctx in E as [_ [_ ?]].
    + injection E as _ <- _. by repeat case_match.
    + injection E as _ <- _. by repeat case_match.
    + injection E as _ <- _. by repeat case_match.
  - destruct (spawned w) as [|[[[t p] r] c] rest]; by intros [= <-].
  - unfold readTrack_step. destruct (readers (transport w) !! n) as [r|].
    + unfold reader_done, ctx_cancelled. rewrite Hc. cbn [default from_option id]. rewrite orb_true_r.
      intros [= <-]. cbn. by rewrite app_nil_r.
    + intros [= <-]. cbn. by rewrite app_nil_r.
Qed.

(** A transport that was reset is deaf: the context that cleanup cancelled is
    never made again, so after [Reset], even when it connects without an error
    and receiving is started again, no reader ever delivers a packet, whatever
    tracks are subscribed and whatever they carry. *)
Theorem reset_transport_is_deaf (l l' : LiveKitTransport) dial present make publish effs r
    (es : list lk_event) (w : world)
    (Hlive : closeOnce l = false ∧ ctx l = Some false)
    (Hreset : Reset l dial present make publish = Some (l', effs, r))
    (Hmedia : Forall not_data es)
    (Hrun : lk_run (mkWorld (StartReceiving l') [] []) es = Some w) :
  ctx_cancelled l' = true ∧ senders w = [].
Proof.
  destruct Hlive as [Hc Hctx].
  destruct (reset_deaf _ _ _ _ _ _ _ _ Hreset Hc ltac:(by rewrite Hctx)) as [Hx _].
  split; [unfold ctx_cancelled; by rewrite Hx|].
  assert (ctx (StartReceiving l') = Some true) as Hs by (unfold StartReceiving; by case_match).
  change (senders w = senders (mkWorld (StartReceiving l') [] [])).
  change (ctx (transport (mkWorld (StartReceiving l') [] [])) = Some true) in Hs.
  revert Hs Hrun. generalize (mkWorld (StartReceiving l') [] []).
  induction Hmedia as [|e es He _ IH]; intros w0 Hs Hrun; cbn [lk_run] in Hrun; [by injection Hrun as <-|].
  destruct (lk_step w0 e) as [w1|] eqn:E; [|done].
  rewrite (IH w1); [by eapply step_deaf|by rewrite (step_ctx _ _ _ E)|done].
Qed.

Lemma reset_transport_is_deaf_witness :
  ∃ l' effs w, Reset job_transport (Ok (Some "agent")) [alice] (Ok tt) (Ok tt) = Some (l', effs, Ok tt) ∧
    lk_run (mkWorld (StartReceiving l') [] [])
      [Room (OnTrackSubscribed (mic "a") alice); ReaderStart;
       ReaderRound 0 (Packet [x01]) true true 0] = Some w ∧ senders w = [].
Proof.
  destruct (Reset job_transport (Ok (Some "agent")) [alice] (Ok tt) (Ok tt)) as [[[l' effs] r]|] eqn:E;
    [|vm_compute in E; discriminate].
  pose proof E as E'. vm_compute in E'. injection E' as <- <- <-.
  eexists _, _, _. split; [exact E|]. split; [vm_compute; reflexivity|].
  refine (proj2 (reset_transport_is_deaf job_transport _ _ _ _ _ _ _
    [Room (OnTrackSubscribed (mic "a") alice); ReaderStart; ReaderRound 0 (Packet [x01]) true true 0] _
    _ E _ _)); [split; reflexivity|repeat constructor|vm_compute; reflexivity].
Defined.

(** ** Agent state *)

(** The agent state an event stands for. *)
Definition state_of (e : IEvent) : option string :=
  match e with
  | LLMGenerateResponseEvent _ | LLMResponseStartedEvent | VadUserSpeechEndedEvent => Some "thinking"
  | TTSSpeakingStartedEvent => Some "speaking"
  | LLMResponseCompletedEvent _ | TTSSpeakingEndedEvent | VadUserSpeechStartedEvent
  | VadInterruptionSuspectedEvent | VadInterruptionConfirmedEvent => Some "listening"
  | _ => None
  end.

(** The attribute after some effects. *)
Definition attribute_step (old : string) (e : effect) : string :=
  match e with
  | SetAttributes attrs =>
      match List.find (λ kv, String.eqb kv.1 "lk.agent.state") attrs with
      | Some kv => kv.2
      | None => old
      end
  | _ => old
  end.
Definition attribute (old : string) (es : list effect) : string := fold_left attribute_step es old.

Lemma attribute_app old a b : attribute old (a ++ b) = attribute (attribute old a) b.
Proof. apply fold_left_app. Qed.

Section agent_state.
Context `{AudioLibs}.

(** Sending events one after the other, whatever their publishing returns:
    the effects, [None] for a panic. *)
Fixpoint send_all (l : LiveKitTransport) (es : list (IEvent * result unit * result unit))
    : option (list effect) :=
  match es with
  | [] => Some []
  | (e, marshal, publish) :: es' =>
      match SendEvent no_pools l e marshal publish (Ok tt) with
      | None => None
      | Some (_, (l', eff, _)) => (λ rest, eff ++ rest) <$> send_all l' es'
      end
  end.

Definition not_speech (e : IEvent) : Prop := match e with TTSOutputEvent _ => False | _ => True end.

Lemma sent_text l text final publish :
  is_Some (local_participant l) →
  ∃ es r, send_text l text final publish = Some (l, es, r) ∧ ∀ old, attribute old es = old.
Proof.
  intros [who Hw]. unfold send_text, sendTranscription, emit, publish_result. rewrite Hw.
  repeat case_match; eauto.
Qed.

Lemma sent_state l e marshal publish who :
  connected l = true → client l = Some (Some who) → audioTrack l = true → not_speech e →
  ∃ es r, SendEvent no_pools l e marshal publish (Ok tt) = Some (no_pools, (l, es, r)) ∧
    ∀ old, attribute old es = default old (state_of e).
Proof.
  intros Hc Hl Ha He. unfold SendEvent, isConnected. rewrite Hc, Hl. cbn [negb].
  assert (local_participant l = Some who) as Hp by (unfold local_participant; by rewrite Hl).
  assert (∀ o : outcome, (∃ es r, o = Some (l, es, r) ∧ ∀ old, attribute old es = default old (state_of e)) →
    ∃ es r, ((λ o, (no_pools, o)) <$> o) = Some (no_pools, (l, es, r)) ∧
      ∀ old, attribute old es = default old (state_of e)) as Hk.
  { intros o (es & r & -> & Ho). eexists _, _. split; [reflexivity|done]. }
  destruct e; try done; apply Hk; cbn [send_event send_side_event state_of]; try (by eexists _, _);
    try (by apply sent_text; rewrite Hp);
    unfold announce, interrupt, sendAgentState, NotifySpeechEnded, setAgentState, sendTranscription,
      refuse, publish_result, emit, then_, seq_outcome; rewrite ?Ha, ?Hp;
    try (by eexists _, _); try (repeat case_match; simplify_eq; by eexists _, _).
Qed.

(** The state LiveKit's clients see is that of the last event that stands for
    one — thinking, speaking or listening — in every sequence of events sent
    through a connected transport, whatever publishing them returns; no such
    sequence panics. *)
Theorem agent_state_follows_events (l : LiveKitTransport) (es : list (IEvent * result unit * result unit))
    (who old : string)
    (Hconn : connected l = true ∧ client l = Some (Some who) ∧ audioTrack l = true)
    (Hes : Forall (λ e, not_speech e.1.1) es) :
  ∃ effs, send_all l es = Some effs ∧
    attribute old effs = default old (last (omap (λ e, state_of e.1.1) es)).
Proof.
  destruct Hconn as (Hc & Hl & Ha). revert old.
  induction Hes as [|[[e m] p] es He Hes IH]; intros old; cbn [send_all].
  - exists []. done.
  - destruct (sent_state l e m p who Hc Hl Ha He) as (eff & r & -> & Hatt).
    destruct (IH (attribute old eff)) as (effs & -> & Hrest). eexists. split; [reflexivity|].
    rewrite attribute_app, Hrest, Hatt. cbn. destruct (state_of e); cbn; [|done].
    rewrite last_cons. by destruct (last (omap _ es)).
Qed.
End agent_state.

Definition open_transport : LiveKitTransport :=
  with_audioTrack (with_connected (with_client job_transport (Some (Some "agent-1"))) true) true.

Lemma agent_state_follows_events_witness :
  ∃ effs, send_all (H := toy_libs) open_transport
    [(TTSSpeakingStartedEvent, Ok tt, Err "lost"); (VadInterruptionSuspectedEvent, Ok tt, Ok tt);
     (VadUserSpeechEndedEvent, Ok tt, Ok tt); (STTFinalOutputEvent "hi", Ok tt, Ok tt)] = Some effs ∧
    attribute "" effs = "thinking".
Proof.
  apply (agent_state_follows_events (H := toy_libs) open_transport
    [(TTSSpeakingStartedEvent, Ok tt, Err "lost"); (VadInterruptionSuspectedEvent, Ok tt, Ok tt);
     (VadUserSpeechEndedEvent, Ok tt, Ok tt); (STTFinalOutputEvent "hi", Ok tt, Ok tt)] "agent-1" "");
    [repeat split|repeat constructor].
Defined.

(** ** Speech *)

Section speech.
Context `{AudioLibs}.

(** Speech that already has the track's rate and channels is written to the
    track unchanged: the samples, all within sixteen bits, encode back to
    exactly the bytes of the chunk. *)
Theorem speech_written_exactly (ps : Pools) (l : LiveKitTransport) (chunk : AudioChunk) (who : string)
    (Hconn : connected l = true ∧ client l = Some (Some who) ∧ audioTrack l = true)
    (Hout : out_AudioEnabled (outputs l) = true) (Hpcm : Format chunk = PCM)
    (Hrate : SampleRate chunk = out_AudioSampleRate (outputs l) ∧
             Channels chunk = out_AudioNumChannels (outputs l))
    (Heven : Nat.Even (length (chunk_bytes chunk))) (Hne : chunk_bytes chunk ≠ []) :
  ∃ ss, SendEvent ps l (TTSOutputEvent chunk) (Ok tt) (Ok tt) (Ok tt) =
          Some (ps, (l, [WriteSample ss], Ok tt)) ∧
    Forall (λ s, -32768 <= s <= 32767) ss ∧
    flat_map (λ z, le16 (z mod 65536)) ss = chunk_bytes chunk.
Proof.
  destruct Hconn as (Hc & Hl & Ha), Hrate as [Hr Hch].
  exists (bytesToPCM16 (chunk_bytes chunk)). rewrite bytesToPCM16_samples.
  split; [|split; [apply samples_range|by apply samples_encode]].
  unfold SendEvent, isConnected, send_audio. rewrite Hc, Hl, Hout, Ha. cbn [negb].
  rewrite bool_decide_false by done. unfold ConvertAudioChunk.
  rewrite bool_decide_true, Hr, Hch, !Z.eqb_refl by done. cbn [negb andb].
  unfold chunk_bytes in *. destruct (Data chunk) as [bs|]; [|done].
  cbn [default from_option id]. by rewrite bytesToPCM16_samples.
Qed.
End speech.

Lemma speech_written_exactly_witness :
  ∃ ss, SendEvent (H := toy_libs) no_pools open_transport
          (TTSOutputEvent (mkAudioChunk (Some [x01; xff; x00; x80]) 24000 1 PCM 0)) (Ok tt) (Ok tt) (Ok tt) =
          Some (no_pools, (open_transport, [WriteSample ss], Ok tt)) ∧
    Forall (λ s, -32768 <= s <= 32767) ss ∧
    flat_map (λ z, le16 (z mod 65536)) ss = [x01; xff; x00; x80].
Proof.
  apply (speech_written_exactly (H := toy_libs) no_pools open_transport
    (mkAudioChunk (Some [x01; xff; x00; x80]) 24000 1 PCM 0) "agent-1");
    repeat split; try (exists 2%nat; reflexivity); discriminate.
Defined.

(** What the track has still to play after some effects, from what it had. *)
Definition queue_step (q : list Z) (e : effect) : list Z :=
  match e with
  | WriteSample ss => q ++ ss
  | ClearQueue => []
  | _ => q
  end.

(** A suspected interruption empties the track's queue at once, before anyone
    knows whether the user really interrupts; without a track it panics. *)
Lemma suspicion_empties_the_queue `{AudioLibs} l who q :
  connected l = true → client l = Some (Some who) →
  match SendEvent no_pools l VadInterruptionSuspectedEvent (Ok tt) (Ok tt) (Ok tt) with
  | Some (_, (_, es, _)) => audioTrack l = true ∧ fold_left queue_step es q = []
  | None => audioTrack l = false
  end.
Proof.
  intros Hc Hl. unfold SendEvent, isConnected. rewrite Hc, Hl. cbn [negb].
  unfold send_event, interrupt. destruct (audioTrack l) eqn:Ha; [|done]. cbn.
  unfold sendAgentState, NotifySpeechEnded, setAgentState, local_participant. rewrite Hl. done.
Qed.

(** ** Waiting for a participant *)

(** With a participant chosen in advance, the transport never tells a waiter
    that this participant has joined. *)
Lemma chosen_participant_never_announced l rp l' es r :
  linkedParticipant l = Identity rp → Identity rp ≠ "" →
  participant_joined l rp = Some (l', es, r) →
  participantAvailableCh l' = participantAvailableCh l.
Proof.
  intros Hl Hne. unfold participant_joined, then_, seq_outcome, handleParticipantConnected, emit.
  rewrite Hl. destruct (String.eqb_spec (Identity rp) ""); [done|].
  repeat case_match; intros E; simplify_eq; done.
Qed.

Definition robot : RemoteParticipant :=
  mkParticipant "robot" (Some {[ "lk.participant.kind" := "agent" ]}) [].

(** A participant of a kind that is not accepted is announced all the same when
    it was in the room before the transport connected. *)
Lemma rejected_kind_announced :
  let l := Initialize (NewLiveKitTransportWithToken "room" "wss://x" "token" []) in
  ∃ l' es, onRoomConnected l (Some "agent-1") [robot] (Ok tt) (Ok tt) = Some (l', es, Ok tt) ∧
    linkedParticipant l' = "" ∧ participantAvailableCh l' = mkChan1 true (Some "robot").
Proof. eexists _, _. split; [vm_compute; reflexivity|done]. Qed.
