(* ===== verification/LiveKitProvider.v ===== *)
(** * LiveKit provider: [transports/livekit/provider.go]

    The worker that registers with a LiveKit server over a WebSocket, answers
    its availability requests, runs the jobs it is assigned, reports their
    status, reconnects and stops.  Protobuf messages are kept as values; what
    the network, the token library and the job handler answer is an argument.

    The read loop, the goroutine of each job, the reconnect timer, the status
    ticker and [Stop] run concurrently: [p_step] has one event for each of their
    steps.  The goroutine of a job goes through the phases of [runJob]; the
    report that a job is running is a step of its own, because the read loop sends
    it after the goroutine has been started.  The per-session log file is left
    out. *)

From S2P Require Import Prelude Core BaseHandler Runner LiveKitTransport.

Local Open Scope string_scope.
Local Open Scope list_scope.
Local Open Scope Z_scope.

(** Durations in nanoseconds. *)
Definition second : Z := 1000000000.
Definition DefaultDrainTimeout : Z := 30 * 60 * second.
Definition DefaultShutdownTimeout : Z := 10 * second.
Definition MaxReconnectDelay : Z := 30 * second.
Definition InitialReconnectDelay : Z := 1 * second.
Definition MaxReconnectAttempts : Z := 0.

Inductive State : Type := StateDisconnected | StateConnecting | StateConnected | StateDraining.

#[export] Instance State_eq_dec : EqDecision State.
Proof. solve_decision. Defined.

Inductive JobType : Type := JT_ROOM | JT_PUBLISHER | JT_PARTICIPANT.

Record Permissions := mkPermissions {
  CanPublish : bool;
  CanSubscribe : bool;
  CanPublishData : bool;
  Agent : bool
}.

Record Config := mkConfig {
  URL : string;
  APIKey : string;
  APISecret : string;
  cfg_AgentName : string;
  Version : string;
  MaxJobs : Z;
  DevMode : bool;
  DrainTimeout : Z;
  JobTypes : list JobType;
  HTTPPort : Z;
  permissions : Permissions
}.

Definition DefaultConfig : Config :=
  mkConfig "" "" "" "" "1.0.0" 1 false DefaultDrainTimeout [JT_ROOM] 9999
    (mkPermissions true true true true).

(** A job as the server describes it: its room, and the participant and state
    that may be missing. *)
Record LkJob := mkLkJob {
  Id : string;
  RoomName : string;
  JobParticipant : option string;
  JobState : option string              (* the participant identity in its state *)
}.

Inductive JobStatus : Type := JS_RUNNING | JS_SUCCESS | JS_FAILED.

(** The goroutine of a job: about to call the handler, in it, about to delete
    the job from the table, about to report success. *)
Inductive phase : Type := Starting | Handling | Deleting | Reporting.

Record Job := mkJob {
  j_Job : LkJob;
  Token : string;
  j_URL : string;
  j_Identity : string;
  j_cancelled : bool;
  j_phase : phase
}.

(** [activeJobs] maps a job id to the number of the job whose pointer is stored;
    [jobs] are the goroutines of [runJob]; [announcing] is the job the read loop
    has still to report as running. *)
Record Provider := mkProvider {
  config : Config;
  state : State;
  conn : bool;
  workerID : string;
  ctxDone : bool;
  activeJobs : gmap string nat;
  jobs : gmap nat Job;
  nextJob : nat;
  announcing : option string;
  jobHandler : bool;
  reconnects : nat;                     (* timers of [scheduleReconnect] *)
  statsLoops : nat;                     (* goroutines of [logStatsLoop] *)
  httpListener : bool
}.

Definition set_state (r : Provider) (x : State) : Provider :=
    mkProvider (config r) x (conn r) (workerID r) (ctxDone r) (activeJobs r) (jobs r) (nextJob r)
    (announcing r) (jobHandler r) (reconnects r) (statsLoops r) (httpListener r).
Definition set_conn (r : Provider) (x : bool) : Provider :=
    mkProvider (config r) (state r) x (workerID r) (ctxDone r) (activeJobs r) (jobs r) (nextJob r)
    (announcing r) (jobHandler r) (reconnects r) (statsLoops r) (httpListener r).
Definition set_workerID (r : Provider) (x : string) : Provider :=
    mkProvider (config r) (state r) (conn r) x (ctxDone r) (activeJobs r) (jobs r) (nextJob r)
    (announcing r) (jobHandler r) (reconnects r) (statsLoops r) (httpListener r).
Definition set_ctxDone (r : Provider) (x : bool) : Provider :=
    mkProvider (config r) (state r) (conn r) (workerID r) x (activeJobs r) (jobs r) (nextJob r)
    (announcing r) (jobHandler r) (reconnects r) (statsLoops r) (httpListener r).
Definition set_activeJobs (r : Provider) (x : gmap string nat) : Provider :=
    mkProvider (config r) (state r) (conn r) (workerID r) (ctxDone r) x (jobs r) (nextJob r)
    (announcing r) (jobHandler r) (reconnects r) (statsLoops r) (httpListener r).
Definition set_jobs (r : Provider) (x : gmap nat Job) : Provider :=
    mkProvider (config r) (state r) (conn r) (workerID r) (ctxDone r) (activeJobs r) x (nextJob r)
    (announcing r) (jobHandler r) (reconnects r) (statsLoops r) (httpListener r).
Definition set_nextJob (r : Provider) (x : nat) : Provider :=
    mkProvider (config r) (state r) (conn r) (workerID r) (ctxDone r) (activeJobs r) (jobs r) x
    (announcing r) (jobHandler r) (reconnects r) (statsLoops r) (httpListener r).
Definition set_announcing (r : Provider) (x : option string) : Provider :=
    mkProvider (config r) (state r) (conn r) (workerID r) (ctxDone r) (activeJobs r) (jobs r)
    (nextJob r) x (jobHandler r) (reconnects r) (statsLoops r) (httpListener r).
Definition set_jobHandler (r : Provider) (x : bool) : Provider :=
    mkProvider (config r) (state r) (conn r) (workerID r) (ctxDone r) (activeJobs r) (jobs r)
    (nextJob r) (announcing r) x (reconnects r) (statsLoops r) (httpListener r).
Definition set_reconnects (r : Provider) (x : nat) : Provider :=
    mkProvider (config r) (state r) (conn r) (workerID r) (ctxDone r) (activeJobs r) (jobs r)
    (nextJob r) (announcing r) (jobHandler r) x (statsLoops r) (httpListener r).
Definition set_statsLoops (r : Provider) (x : nat) : Provider :=
    mkProvider (config r) (state r) (conn r) (workerID r) (ctxDone r) (activeJobs r) (jobs r)
    (nextJob r) (announcing r) (jobHandler r) (reconnects r) x (httpListener r).
Definition set_httpListener (r : Provider) (x : bool) : Provider :=
    mkProvider (config r) (state r) (conn r) (workerID r) (ctxDone r) (activeJobs r) (jobs r)
    (nextJob r) (announcing r) (jobHandler r) (reconnects r) (statsLoops r) x.

Definition set_phase (j : Job) (ph : phase) : Job :=
  mkJob (j_Job j) (Token j) (j_URL j) (j_Identity j) (j_cancelled j) ph.
Definition cancel_job (j : Job) : Job :=
  mkJob (j_Job j) (Token j) (j_URL j) (j_Identity j) true (j_phase j).

(** What a provider sends; [delivered] tells whether there was a connection to
    write to — the code drops the message otherwise — and [by_] which goroutine of
    a job reports. *)
Inductive effect : Type :=
| RegisterWorker (type : JobType) (agentName version : string)
| Answer (jobId : string) (available : bool) (identity name : string) (delivered : bool)
| Status (by_ : option nat) (jobId : string) (status : JobStatus) (error : string) (delivered : bool)
| UpdateWorker (jobCount : Z)
| RemoveParticipant (room identity : string).

Definition NewProvider (cfg : Config) : result Provider :=
  if String.eqb (URL cfg) "" || String.eqb (APIKey cfg) "" || String.eqb (APISecret cfg) ""
  then Err "URL, APIKey, and APISecret are required"
  else
    let cfg' := if DevMode cfg
                then mkConfig (URL cfg) (APIKey cfg) (APISecret cfg) (cfg_AgentName cfg) (Version cfg)
                       100 true (DrainTimeout cfg) (JobTypes cfg) 0 (permissions cfg)
                else cfg in
    Ok (mkProvider cfg' StateDisconnected false "" false ∅ ∅ 0 None false 0 0 false).

Definition RegisterJobHandler (p : Provider) (handler_nil : bool) : Provider * result unit :=
  if handler_nil then (p, Err "handler cannot be nil") else (set_jobHandler p true, Ok tt).

(** ** Connecting *)

Definition cleanupConnection (p : Provider) : Provider := set_conn p false.

Definition worker_scheme (scheme : string) : string :=
  if String.eqb scheme "https" then "wss" else if String.eqb scheme "http" then "ws" else scheme.

Definition worker_identity (p : Provider) : string :=
  if String.eqb (cfg_AgentName (config p)) "" then "go-agent-worker" else cfg_AgentName (config p).

Definition scheduleReconnect (p : Provider) : Provider :=
  if ctxDone p then p else set_reconnects p (S (reconnects p)).

(** [parsed]: the server's URL parses (the error is ignored and the nil URL
    read: a panic); the outcomes of making the token, dialling and
    registering. *)
Definition connect (p : Provider) (parsed : bool) (token dial register : result unit)
    : option (Provider * list effect) :=
  if ctxDone p then Some (p, []) else
  let p1 := set_state (cleanupConnection p) StateConnecting in
  if negb parsed then None
  else match token with
  | Err _ => Some (scheduleReconnect p1, [])
  | Ok _ =>
      match dial with
      | Err _ => Some (scheduleReconnect p1, [])
      | Ok _ =>
          match JobTypes (config p) with
          | [] => None
          | type :: _ =>
              match register with
              | Err _ => Some (scheduleReconnect (cleanupConnection (set_conn p1 true)), [])
              | Ok _ =>
                  Some (set_statsLoops (set_state (set_conn p1 true) StateConnected) (S (statsLoops p1)),
                        [RegisterWorker type (cfg_AgentName (config p)) (Version (config p))])
              end
          end
      end
  end.

(** ** Jobs *)

Definition updateJobStatus (p : Provider) (by_ : option nat) (id : string) (st : JobStatus)
    (err : string) : list effect := [Status by_ id st err (conn p)].

(** The jobs in the table. *)
Definition active_list (p : Provider) : list Job :=
  omap (λ kv, jobs p !! kv.2) (map_to_list (activeJobs p)).

Definition active_count (p : Provider) : Z := Z.of_nat (size (activeJobs p)).

Definition room_taken (p : Provider) (room : string) : bool :=
  existsb (λ j, String.eqb (RoomName (j_Job j)) room) (active_list p).

Definition available_for (p : Provider) (job : LkJob) : bool :=
  negb (room_taken p (RoomName job)) && bool_decide (state p = StateConnected) &&
  negb (MaxJobs (config p) <=? active_count p).

(** [job.Id[len(job.Id)-8:]], a panic for a shorter id. *)
Definition id_suffix (id : string) : option string :=
  if Nat.ltb (String.length id) 8 then None else Some (str_drop (String.length id - 8) id).

(** [rand_hex]: four random bytes in hexadecimal. *)
Definition handleJobRequest (p : Provider) (job : option LkJob) (rand_hex : string)
    : option (Provider * list effect) :=
  match job with
  | None => Some (p, [])
  | Some job =>
      let label := if String.eqb (cfg_AgentName (config p)) "" then "agent"
                   else cfg_AgentName (config p) in
      match id_suffix (Id job) with
      | None => None
      | Some suffix =>
          Some (p, [Answer (Id job) (available_for p job)
                      ("agent-" +:+ label +:+ "-" +:+ suffix +:+ "-" +:+ rand_hex) label (conn p)])
      end
  end.

(** A job assignment stores the job and starts its goroutine; the report that it
    runs follows.  A job without a state is a nil pointer read. *)
Definition handleAssignment (p : Provider) (job : option LkJob) (token : string) : option Provider :=
  match job with
  | None => Some p
  | Some job =>
      if String.eqb token "" then Some p
      else match JobState job with
      | None => None
      | Some who =>
          let n := nextJob p in
          Some (set_announcing
                  (set_nextJob
                     (set_jobs
                        (set_activeJobs p (<[Id job := n]> (activeJobs p)))
                        (<[n := mkJob job token (URL (config p)) who false Starting]> (jobs p)))
                     (S n))
                  (Some (Id job)))
      end
  end.

Definition terminate (p : Provider) (id : string) : Provider :=
  match activeJobs p !! id with
  | None => p
  | Some n => set_activeJobs (set_jobs p (alter cancel_job n (jobs p))) (delete id (activeJobs p))
  end.

(** What the server sends. *)
Inductive server_message : Type :=
| Registered (workerId : string)
| Availability (job : option LkJob)
| Assignment (job : option LkJob) (token : string)
| Termination (jobId : string)
| OtherMessage
| Unparsable.

Definition readLoop_message (p : Provider) (m : server_message) (rand_hex : string)
    : option (Provider * list effect) :=
  match m with
  | Registered id => Some (set_workerID p id, [])
  | Availability job => handleJobRequest p job rand_hex
  | Assignment job token => (λ p', (p', [])) <$> handleAssignment p job token
  | Termination id => Some (terminate p id, [])
  | OtherMessage | Unparsable => Some (p, [])
  end.

(** A failed read ends the read loop. *)
Definition read_failed (p : Provider) : Provider :=
  cleanupConnection
    (if bool_decide (state p = StateDraining) then p
     else scheduleReconnect (set_state p StateDisconnected)).

(** A job's context ends with its own cancel or with the provider's. *)
Definition job_cancelled (p : Provider) (n : nat) : bool :=
  ctxDone p || from_option j_cancelled false (jobs p !! n).

(** The transport made for a job, with its participant already linked. *)
Definition job_transport (j : Job) : LiveKitTransport :=
  let t := NewLiveKitTransportWithToken (RoomName (j_Job j)) (j_URL j) (Token j) [] in
  match JobParticipant (j_Job j) with
  | None => t
  | Some who => with_linkedParticipant t who
  end.

(** The participants removed at the end: all but agents. *)
Definition disconnectRoomParticipants (room : string) (listed : result (list (string * bool)))
    : list effect :=
  match listed with
  | Err _ => []
  | Ok ps => map (λ p, RemoveParticipant room p.1) (List.filter (λ p, negb p.2) ps)
  end.

Definition to_phase (p : Provider) (n : nat) (j : Job) (ph : phase) : Provider :=
  set_jobs p (<[n := set_phase j ph]> (jobs p)).

(** [runJob] up to the call of the handler. *)
Definition job_starts (p : Provider) (n : nat) (j : Job) : Provider * list effect :=
  if jobHandler p then (to_phase p n j Handling, [])
  else (to_phase p n j Deleting, updateJobStatus p (Some n) (Id (j_Job j)) JS_FAILED "no handler").

(** The handler has returned, [err] its error. *)
Definition handler_returns (p : Provider) (n : nat) (j : Job) (err : option string)
    (listed : result (list (string * bool))) : Provider * list effect :=
  (to_phase p n j Deleting,
   match err with
   | Some e => updateJobStatus p (Some n) (Id (j_Job j)) JS_FAILED e
   | None => []
   end ++ disconnectRoomParticipants (RoomName (j_Job j)) listed).

(** The deferred function. *)
Definition job_deletes (p : Provider) (n : nat) (j : Job) : Provider :=
  set_activeJobs (to_phase p n j Reporting) (delete (Id (j_Job j)) (activeJobs p)).

Definition job_reports (p : Provider) (n : nat) (j : Job) : Provider * list effect :=
  (set_jobs p (delete n (jobs p)), updateJobStatus p (Some n) (Id (j_Job j)) JS_SUCCESS "").

(** ** Starting, stopping, status *)

(** [listen]: the HTTP listener. *)
Definition startHTTPServer (p : Provider) (listen : result unit) : Provider * result unit :=
  match listen with
  | Err e => (p, Err ("failed to start HTTP listener: " +:+ e))
  | Ok _ => (set_httpListener p true, Ok tt)
  end.

(** The health check's status code. *)
Definition health (p : Provider) : Z :=
  match state p with StateConnected | StateDraining => 200 | _ => 503 end.

(** The first [connect] of [Start] is an event of its own, like a reconnect. *)
Definition Start (p : Provider) (listen : result unit) : Provider * result unit :=
  match startHTTPServer p listen with
  | (p', Err e) => (p', Err e)
  | (p', Ok _) => (set_reconnects p' (S (reconnects p')), Ok tt)
  end.

(** [Stop] up to the wait for the jobs, and after it. *)
Definition stop_begins (p : Provider) : Provider := set_ctxDone (set_state p StateDraining) true.

Definition stop_ends (p : Provider) : Provider :=
  set_httpListener
    (cleanupConnection
       (set_jobs p (map_imap (λ n j, Some (if bool_decide (n ∈ (map_to_list (activeJobs p)).*2)
                                           then cancel_job j else j)) (jobs p)))) false.

Definition statusLoop_tick (p : Provider) : list effect :=
  if bool_decide (state p = StateConnected) && conn p then [UpdateWorker (active_count p)] else [].

(** ** All the steps *)

Inductive p_event : Type :=
| Receive (m : server_message) (rand_hex : string)
| Announce
| ReadFails
| Reconnect (parsed : bool) (token dial register : result unit)
| JobStarts (n : nat)
| HandlerReturns (n : nat) (err : option string) (listed : result (list (string * bool)))
| JobDeletes (n : nat)
| JobReports (n : nat)
| StatusTick
| StopBegins
| StopEnds.

(** A step of the goroutine of job [n] in one phase; no step in another. *)
Definition in_phase (p : Provider) (n : nat) (want : phase → bool)
    (k : Job → Provider * list effect) : Provider * list effect :=
  match jobs p !! n with
  | Some j => if want (j_phase j) then k j else (p, [])
  | None => (p, [])
  end.

Definition is_phase (a b : phase) : bool :=
  match a, b with
  | Starting, Starting | Handling, Handling | Deleting, Deleting | Reporting, Reporting => true
  | _, _ => false
  end.

Definition p_step (p : Provider) (e : p_event) : option (Provider * list effect) :=
  match e with
  | Receive m rand_hex =>
      if conn p && bool_decide (announcing p = None) then readLoop_message p m rand_hex
      else Some (p, [])
  | Announce =>
      match announcing p with
      | None => Some (p, [])
      | Some id => Some (set_announcing p None, updateJobStatus p None id JS_RUNNING "")
      end
  | ReadFails =>
      if conn p && bool_decide (announcing p = None) then Some (read_failed p, []) else Some (p, [])
  | Reconnect parsed token dial register =>
      match reconnects p with
      | O => Some (p, [])
      | S k => connect (set_reconnects p k) parsed token dial register
      end
  | JobStarts n => Some (in_phase p n (is_phase Starting) (job_starts p n))
  | HandlerReturns n err listed =>
      Some (in_phase p n (is_phase Handling) (λ j, handler_returns p n j err listed))
  | JobDeletes n => Some (in_phase p n (is_phase Deleting) (λ j, (job_deletes p n j, [])))
  | JobReports n => Some (in_phase p n (is_phase Reporting) (job_reports p n))
  | StatusTick => Some (p, statusLoop_tick p)
  | StopBegins => Some (stop_begins p, [])
  | StopEnds => Some (stop_ends p, [])
  end.

Fixpoint p_run (p : Provider) (es : list p_event) : option (Provider * list effect) :=
  match es with
  | [] => Some (p, [])
  | e :: es' =>
      match p_step p e with
      | None => None
      | Some (p1, f1) =>
          match p_run p1 es' with
          | None => None
          | Some (p2, f2) => Some (p2, f1 ++ f2)
          end
      end
  end.
