(* ===== verification/LiveKitProviderProofs.v ===== *)
(** * Theorems about the LiveKit provider

    How many jobs a worker takes on, what it reports about them, and what
    stopping it does to them. *)

From S2P Require Import Prelude Core BaseHandler Runner LiveKitTransport LiveKitProvider.

Local Open Scope string_scope.
Local Open Scope list_scope.
Local Open Scope Z_scope.

(** ** The table of jobs *)

(** A stored job is a goroutine of that id that has not removed it yet. *)
Record table_ok (p : Provider) : Prop := {
  tb_active id n : activeJobs p !! id = Some n →
    ∃ j, jobs p !! n = Some j ∧ Id (j_Job j) = id ∧ j_phase j ≠ Reporting;
  tb_next n : (nextJob p ≤ n)%nat → jobs p !! n = None
}.

(** [p'] is [p] with some entries of the table removed and some jobs moved on. *)
Record shrinks (p p' : Provider) : Prop := {
  sh_config : config p' = config p;
  sh_active id n : activeJobs p' !! id = Some n → activeJobs p !! id = Some n;
  sh_next : nextJob p' = nextJob p;
  sh_jobs n : is_Some (jobs p' !! n) → is_Some (jobs p !! n);
  sh_kept id n j : activeJobs p' !! id = Some n → jobs p !! n = Some j →
    ∃ j', jobs p' !! n = Some j' ∧ j_Job j' = j_Job j ∧ j_phase j' ≠ Reporting
}.

Lemma shrinks_ok p p' : table_ok p → shrinks p p' → table_ok p'.
Proof.
  intros [H1 H2] [S1 S2 S3 S4 S5]. split.
  - intros id n Ha. destruct (H1 id n (S2 id n Ha)) as (j & Hj & Hid & _).
    destruct (S5 id n j Ha Hj) as (j' & Hj' & E & Hp). exists j'. by rewrite E.
  - intros n. rewrite S3. intros Hn%H2. destruct (jobs p' !! n) eqn:E; [|done].
    destruct (S4 n) as [j' Hj']; [by rewrite E|]. congruence.
Qed.

(** A change that leaves the table and the jobs alone. *)
Lemma shrinks_same p p' :
  table_ok p → config p' = config p → activeJobs p' = activeJobs p → jobs p' = jobs p →
  nextJob p' = nextJob p → shrinks p p'.
Proof.
  intros Hk E1 E2 E3 E4. split; rewrite ?E2, ?E3; try done.
  intros id n j Ha Hj. destruct (tb_active _ Hk id n Ha) as (j' & Hj' & _ & Hp).
  assert (j' = j) as -> by congruence. by exists j.
Qed.

(** One job moved to another phase, before the last one. *)
Lemma shrinks_phase p n j ph :
  table_ok p → jobs p !! n = Some j → ph ≠ Reporting → shrinks p (to_phase p n j ph).
Proof.
  intros Hk Hj Hph. split; cbn; try done.
  - intros m. destruct (decide (n = m)) as [<-|]; [by rewrite Hj|by rewrite lookup_insert_ne].
  - intros id m j' Ha Hm. destruct (tb_active _ Hk id m Ha) as (j0 & H0 & _ & Hp).
    destruct (decide (n = m)) as [<-|Hne].
    + exists (set_phase j ph). rewrite lookup_insert_eq. assert (j' = j) as -> by congruence. done.
    + exists j'. rewrite lookup_insert_ne by done. assert (j' = j0) as -> by congruence. done.
Qed.

Lemma shrinks_deletes p n j :
  table_ok p → jobs p !! n = Some j → shrinks p (job_deletes p n j).
Proof.
  intros Hk Hj. split; cbn; try done.
  - intros id m. by intros [_ ?]%lookup_delete_Some.
  - intros m. destruct (decide (n = m)) as [<-|]; [by rewrite Hj|by rewrite lookup_insert_ne].
  - intros id m j' [Hne Ha]%lookup_delete_Some Hm.
    destruct (tb_active _ Hk id m Ha) as (j0 & H0 & Hid & Hp).
    destruct (decide (n = m)) as [<-|Hnm]; [congruence|].
    exists j'. rewrite lookup_insert_ne by done. assert (j' = j0) as -> by congruence. done.
Qed.

Lemma shrinks_reports p n j :
  table_ok p → jobs p !! n = Some j → j_phase j = Reporting → shrinks p (job_reports p n j).1.
Proof.
  intros Hk Hj Hph. split; cbn; try done.
  - intros m [j' [_ ?]%lookup_delete_Some]. eauto.
  - intros id m j' Ha Hm. destruct (tb_active _ Hk id m Ha) as (j0 & H0 & Hid & Hp).
    assert (j' = j0) as -> by congruence. exists j0. rewrite lookup_delete_ne; [done|].
    intros ->. congruence.
Qed.

Lemma shrinks_terminate p id : table_ok p → shrinks p (terminate p id).
Proof.
  intros Hk. unfold terminate. destruct (activeJobs p !! id) as [k|] eqn:E; [|by apply shrinks_same].
  split; cbn; try done.
  - intros id' n. by intros [_ ?]%lookup_delete_Some.
  - intros n. rewrite lookup_alter. case_decide as Hd; [|done]. subst.
    destruct (jobs p !! n); cbn; [eauto|by intros []].
  - intros id' n j [_ Ha]%lookup_delete_Some Hj. destruct (tb_active _ Hk id' n Ha) as (j0 & H0 & Hid & Hp).
    assert (j0 = j) as -> by congruence. rewrite lookup_alter. case_decide; subst; rewrite Hj; cbn;
      eexists; (split; [reflexivity|]); done.
Qed.

Lemma shrinks_stop_ends p : table_ok p → shrinks p (stop_ends p).
Proof.
  intros Hk. unfold stop_ends. split; cbn; try done.
  - intros n. rewrite map_lookup_imap. by destruct (jobs p !! n); cbn; [eauto|intros []].
  - intros id n j Ha Hj. rewrite map_lookup_imap, Hj. cbn.
    destruct (tb_active _ Hk id n Ha) as (j0 & H0 & _ & Hp). assert (j0 = j) as -> by congruence.
    eexists. split; [reflexivity|]. by case_bool_decide.
Qed.

Lemma connect_same p parsed token dial register p' es :
  connect p parsed token dial register = Some (p', es) →
  config p' = config p ∧ activeJobs p' = activeJobs p ∧ jobs p' = jobs p ∧ nextJob p' = nextJob p.
Proof.
  unfold connect, scheduleReconnect. repeat case_match; intros E; simplify_eq; done.
Qed.

(** An event that does not ask for or assign a job. *)
Definition minor (e : p_event) : Prop :=
  match e with
  | Receive (Availability _) _ | Receive (Assignment _ _) _ => False
  | _ => True
  end.

Lemma in_phase_shrinks p n want k :
  table_ok p → (∀ j, jobs p !! n = Some j → want (j_phase j) = true → shrinks p (k j).1) →
  shrinks p (in_phase p n want k).1.
Proof.
  intros Hk Hw. unfold in_phase. destruct (jobs p !! n) as [j|]; [|by apply shrinks_same].
  destruct (want (j_phase j)) eqn:E; [by apply Hw|by apply shrinks_same].
Qed.

Lemma minor_shrinks p e p' es : minor e → table_ok p → p_step p e = Some (p', es) → shrinks p p'.
Proof.
  intros Hm Hk. destruct e as [m hex| | |a b c d|n|n err listed|n|n| | |]; cbn [p_step].
  - case_match; [|intros [= <- _]; by apply shrinks_same].
    destruct m as [w|j|j t|id| |]; cbn; try done; intros [= <- _];
      try (by apply shrinks_same). by apply shrinks_terminate.
  - destruct (announcing p); intros [= <- _]; by apply shrinks_same.
  - case_match; intros [= <- _]; [|by apply shrinks_same].
    apply shrinks_same; try done; unfold read_failed, scheduleReconnect; repeat case_match; done.
  - destruct (reconnects p); [intros [= <- _]; by apply shrinks_same|].
    intros (E1 & E2 & E3 & E4)%connect_same. by apply shrinks_same.
  - intros [= E]. apply (f_equal fst) in E. cbn [fst] in E. rewrite <-E.
    apply in_phase_shrinks; [done|]. intros j Hj _.
    unfold job_starts. destruct (jobHandler p); by apply shrinks_phase.
  - intros [= E]. apply (f_equal fst) in E. cbn [fst] in E. rewrite <-E.
    apply in_phase_shrinks; [done|]. intros j Hj _. by apply shrinks_phase.
  - intros [= E]. apply (f_equal fst) in E. cbn [fst] in E. rewrite <-E.
    apply in_phase_shrinks; [done|]. intros j Hj _. by apply shrinks_deletes.
  - intros [= E]. apply (f_equal fst) in E. cbn [fst] in E. rewrite <-E.
    apply in_phase_shrinks; [done|]. intros j Hj Hp.
    apply shrinks_reports; [done|done|]. by destruct (j_phase j).
  - intros [= <- _]. by apply shrinks_same.
  - intros [= <- _]. by apply shrinks_same.
  - intros [= <- _]. by apply shrinks_stop_ends.
Qed.

(** Storing an assigned job keeps the table well formed. *)
Lemma table_stores p id j who :
  table_ok p → Id (j_Job j) = id → j_phase j = Starting →
  table_ok (set_announcing (set_nextJob (set_jobs (set_activeJobs p (<[id := nextJob p]> (activeJobs p)))
    (<[nextJob p := j]> (jobs p))) (S (nextJob p))) who).
Proof.
  intros [T1 T2] Hid Hph. split; cbn.
  - intros id' n. destruct (decide (id = id')) as [<-|Hne].
    + rewrite lookup_insert_eq. intros [= <-]. exists j. rewrite lookup_insert_eq, Hph. done.
    + rewrite lookup_insert_ne by done. intros Hn%T1. destruct (decide (nextJob p = n)) as [<-|Hx].
      * destruct Hn as (k & Hk & _). rewrite T2 in Hk; done.
      * by rewrite lookup_insert_ne.
  - intros n Hn. rewrite lookup_insert_ne by lia. apply T2. lia.
Qed.

Lemma any_step_ok p e p' es : table_ok p → p_step p e = Some (p', es) → table_ok p'.
Proof.
  intros Hk E. destruct (match e with
    | Receive (Availability _) _ | Receive (Assignment _ _) _ => false | _ => true end) eqn:Em.
  - eapply shrinks_ok; [done|]. eapply minor_shrinks; [|done|exact E]. by destruct e as [[]| | | | | | | | | |].
  - destruct e as [m hex| | | | | | | | | |]; try done. cbn in E.
    destruct (conn p && bool_decide (announcing p = None)); [|by injection E as <- _].
    destruct m as [w|j|j tok|id| |]; try done; cbn in E.
    + unfold handleJobRequest in E. destruct j as [j|]; [|by injection E as <- _].
      destruct (id_suffix (Id j)); [|done]. by injection E as <- _.
    + destruct j as [j|]; [|by injection E as <- _]. cbn in E.
      destruct (String.eqb tok ""); [by injection E as <- _|].
      destruct (JobState j) as [who|]; [|done]. injection E as <- _. by apply table_stores.
Qed.

(** ** Capacity *)

(** A server that asks about one job at a time: after a worker accepted a
    job, the next request comes only when that job has been assigned.  The
    second component is the job accepted and not assigned yet. *)
Inductive d_step : Provider * option LkJob → Provider * option LkJob → Prop :=
| d_request p job hex p' id a who name d :
    conn p = true → announcing p = None →
    p_step p (Receive (Availability (Some job)) hex) = Some (p', [Answer id a who name d]) →
    d_step (p, None) (p', if a then Some job else None)
| d_assign p job tok hex p' es :
    conn p = true → announcing p = None →
    p_step p (Receive (Assignment (Some job) tok) hex) = Some (p', es) →
    d_step (p, Some job) (p', None)
| d_minor p o e p' es :
    minor e → p_step p e = Some (p', es) → d_step (p, o) (p', o).

(** No two jobs of the table, nor the accepted one, share a room, and together
    they are no more than the maximum. *)
Record within_capacity (p : Provider) (o : option LkJob) : Prop := {
  wc_table : table_ok p;
  wc_count : active_count p + from_option (λ _, 1) 0 o <= MaxJobs (config p);
  wc_rooms id1 id2 n1 n2 j1 j2 :
    activeJobs p !! id1 = Some n1 → activeJobs p !! id2 = Some n2 →
    jobs p !! n1 = Some j1 → jobs p !! n2 = Some j2 →
    RoomName (j_Job j1) = RoomName (j_Job j2) → id1 = id2;
  wc_free job id n j :
    o = Some job → activeJobs p !! id = Some n → jobs p !! n = Some j →
    RoomName (j_Job j) ≠ RoomName job
}.

Lemma shrinks_count p p' : shrinks p p' → active_count p' <= active_count p.
Proof.
  intros H. unfold active_count. apply inj_le, map_subseteq_size, map_subseteq_spec.
  exact (sh_active _ _ H).
Qed.

Lemma shrinks_back p p' id n j' :
  table_ok p → shrinks p p' → activeJobs p' !! id = Some n → jobs p' !! n = Some j' →
  ∃ j, activeJobs p !! id = Some n ∧ jobs p !! n = Some j ∧ j_Job j' = j_Job j.
Proof.
  intros Hk Hs Ha Hj. pose proof (sh_active _ _ Hs id n Ha) as H0.
  destruct (tb_active _ Hk id n H0) as (j & H1 & _ & _).
  destruct (sh_kept _ _ Hs id n j Ha H1) as (j1 & H2 & E & _). exists j. split_and!; congruence.
Qed.

Lemma within_shrinks p p' o : shrinks p p' → within_capacity p o → within_capacity p' o.
Proof.
  intros Hs [W1 W2 W3 W4]. split.
  - by eapply shrinks_ok.
  - rewrite (sh_config _ _ Hs). pose proof (shrinks_count _ _ Hs). lia.
  - intros id1 id2 n1 n2 j1 j2 A1 A2 J1 J2 E.
    destruct (shrinks_back _ _ _ _ _ W1 Hs A1 J1) as (k1 & B1 & K1 & E1).
    destruct (shrinks_back _ _ _ _ _ W1 Hs A2 J2) as (k2 & B2 & K2 & E2).
    eapply W3; eauto. by rewrite <-E1, <-E2.
  - intros job id n j Ho A J. destruct (shrinks_back _ _ _ _ _ W1 Hs A J) as (k & B & K & ->). eauto.
Qed.

Lemma room_not_taken p room id n j :
  room_taken p room = false → activeJobs p !! id = Some n → jobs p !! n = Some j →
  RoomName (j_Job j) ≠ room.
Proof.
  unfold room_taken, active_list. intros Hr Ha Hj E.
  rewrite <-not_true_iff_false, existsb_exists in Hr. apply Hr. exists j. split; [|by apply String.eqb_eq].
  apply list_elem_of_In, list_elem_of_omap. exists (id, n). split; [by apply elem_of_map_to_list|done].
Qed.

Lemma request_answer p job hex p' id a who name d :
  conn p = true → announcing p = None →
  p_step p (Receive (Availability (Some job)) hex) = Some (p', [Answer id a who name d]) →
  p' = p ∧ a = available_for p job.
Proof.
  intros Hc Ha. cbn. rewrite Hc, Ha. cbn. destruct (id_suffix (Id job)); [|done]. by intros [= <- _ <-].
Qed.

Lemma d_step_capacity x y : d_step x y → within_capacity x.1 x.2 → within_capacity y.1 y.2.
Proof.
  intros [p job hex p' id a who name d Hc Ha E|p job tok hex p' es Hc Ha E|p o e p' es Hm E] W; cbn in *.
  - destruct (request_answer _ _ _ _ _ _ _ _ _ Hc Ha E) as [-> ->].
    destruct (available_for p job) eqn:Ho; [|done]. unfold available_for in Ho.
    apply andb_true_iff in Ho as [[Hr%negb_true_iff _]%andb_true_iff Hm%negb_true_iff].
    apply Z.leb_gt in Hm. destruct W as [W1 W2 W3 _]. cbn in W2. split; [done|cbn; lia|done|].
    intros job' i n j [= <-] A J. by eapply room_not_taken.
  - rewrite Hc, Ha in E. cbn in E. destruct W as [[T1 T2] W2 W3 W4]. cbn in W2.
    destruct (String.eqb tok ""); cbn in E; [injection E as <- _; by split; try done; cbn; lia|].
    destruct (JobState job) as [who|]; [|done]. injection E as <- _.
    assert (∀ id n, activeJobs p !! id = Some n → nextJob p ≠ n) as Hnew.
    { intros id n Hn%T1 <-. destruct Hn as (j & Hj & _). rewrite T2 in Hj; done. }
    split; cbn.
    + by apply table_stores.
    + unfold active_count in *. cbn. rewrite map_size_insert.
      destruct (activeJobs p !! Id job); cbn; lia.
    + intros id1 id2 n1 n2 j1 j2.
      destruct (decide (Id job = id1)) as [<-|N1], (decide (Id job = id2)) as [<-|N2];
        rewrite ?lookup_insert_eq, ?(lookup_insert_ne (activeJobs p)) by done; try done.
      * intros [= <-] A2. rewrite lookup_insert_eq, lookup_insert_ne by eauto.
        intros [= <-] J2 E. cbn in E. exfalso. by eapply W4.
      * intros A1 [= <-]. rewrite lookup_insert_ne, lookup_insert_eq by eauto.
        intros J1 [= <-] E. cbn in E. exfalso. by eapply (W4 job).
      * intros A1 A2. rewrite !lookup_insert_ne by eauto. by apply W3.
    + done.
  - eapply within_shrinks; [|done]. eapply minor_shrinks; [done|by destruct W|done].
Qed.

(** [RegisterJobHandler], then [Start]. *)
Definition start_provider (p : Provider) (handler_nil : bool) (listen : result unit) : Provider :=
  (Start (RegisterJobHandler p handler_nil).1 listen).1.


Definition demo_config : Config :=
  mkConfig "wss://x" "key" "secret" "bot" "1.0.0" 1 false DefaultDrainTimeout [JT_ROOM] 9999
    (mkPermissions true true true true).

Definition job_a : LkJob := mkLkJob "AJ_00000001" "room-a" None (Some "agent-a").
Definition job_b : LkJob := mkLkJob "AJ_00000002" "room-b" None (Some "agent-b").

Definition new_provider : Provider :=
  mkProvider demo_config StateDisconnected false "" false ∅ ∅ 0 None false 0 0 false.

Definition connected_provider : Provider :=
  from_option fst new_provider
    (p_run (start_provider new_provider false (Ok tt))
       [Reconnect true (Ok tt) (Ok tt) (Ok tt)]).

(** Two requests before the first assignment are both accepted: a worker for one
    job ends up with two. *)
Lemma two_requests_overcommit :
  active_count <$> (fst <$> p_run connected_provider
    [Receive (Availability (Some job_a)) "0a0b0c0d"; Receive (Availability (Some job_b)) "0a0b0c0e";
     Receive (Assignment (Some job_a) "t") ""; Announce; Receive (Assignment (Some job_b) "t") ""]) = Some 2 ∧
  MaxJobs (config connected_provider) = 1 ∧
  available_for connected_provider job_a = true ∧ available_for connected_provider job_b = true.
Proof. vm_compute. done. Qed.

Definition busy_provider : Provider :=
  from_option fst connected_provider
    (p_run connected_provider [Receive (Assignment (Some job_a) "token") ""]).


(** ** What is reported about a job *)

(** The statuses the goroutine of job [n] reports. *)
Definition reports (n : nat) (es : list effect) : list JobStatus :=
  omap (λ e, match e with
             | Status (Some m) _ st _ _ => if Nat.eqb m n then Some st else None
             | _ => None
             end) es.

Lemma reports_app n a b : reports n (a ++ b) = reports n a ++ reports n b.
Proof. apply omap_app. Qed.

Lemma reports_own p n id st err : reports n (updateJobStatus p (Some n) id st err) = [st].
Proof. unfold reports, updateJobStatus. cbn. by rewrite Nat.eqb_refl. Qed.

Lemma reports_other p n m id st err : n ≠ m → reports n (updateJobStatus p (Some m) id st err) = [].
Proof. intros Hne. unfold reports, updateJobStatus. cbn. by destruct (Nat.eqb_spec m n). Qed.

Lemma reports_removals n room listed : reports n (disconnectRoomParticipants room listed) = [].
Proof.
  unfold disconnectRoomParticipants. destruct listed as [ps|]; [|done].
  induction ps as [|[who b] ps IH]; cbn; [done|]. by destruct b.
Qed.

(** What must have been reported about a job in a phase, or gone. *)
Definition reported (ph : option phase) (l : list JobStatus) : Prop :=
  match ph with
  | Some Starting | Some Handling => l = []
  | Some Deleting | Some Reporting => l = [] ∨ l = [JS_FAILED]
  | None => l = [JS_SUCCESS] ∨ l = [JS_FAILED; JS_SUCCESS]
  end.

Definition well_reported (p : Provider) (es : list effect) : Prop :=
  ∀ n, if Nat.ltb n (nextJob p) then reported (j_phase <$> jobs p !! n) (reports n es)
       else reports n es = [] ∧ jobs p !! n = None.

(** A step that changes no phase and reports nothing for a goroutine. *)
Lemma well_reported_same p es p' fs :
  well_reported p es → nextJob p' = nextJob p →
  (∀ n, j_phase <$> jobs p' !! n = j_phase <$> jobs p !! n) → (∀ n, reports n fs = []) →
  well_reported p' (es ++ fs).
Proof.
  intros H En Ej Er n. specialize (H n). rewrite reports_app, Er, app_nil_r, En, Ej.
  destruct (Nat.ltb n (nextJob p)); [done|]. destruct H as [H1 H2]. split; [done|].
  specialize (Ej n). rewrite H2 in Ej. by destruct (jobs p' !! n).
Qed.

(** A step of one goroutine. *)
Lemma well_reported_one p es n j m' fs :
  well_reported p es → jobs p !! n = Some j →
  (∀ m, m ≠ n → m' !! m = jobs p !! m) → (∀ m, m ≠ n → reports m fs = []) →
  (∀ l, reported (Some (j_phase j)) l → reported (j_phase <$> m' !! n) (l ++ reports n fs)) →
  well_reported (set_jobs p m') (es ++ fs).
Proof.
  intros H Hj Hm Hf Hn k. specialize (H k). cbn [set_jobs nextJob jobs]. rewrite reports_app.
  destruct (decide (k = n)) as [->|Hne].
  - rewrite Hj in H. change (j_phase <$> Some j) with (Some (j_phase j)) in H. destruct (Nat.ltb n (nextJob p)); [by apply Hn|]. by destruct H.
  - rewrite Hf, app_nil_r, Hm by done. done.
Qed.

Lemma in_phase_reported p es n want k p' fs :
  well_reported p es → in_phase p n want k = (p', fs) →
  (∀ j, jobs p !! n = Some j → want (j_phase j) = true →
     well_reported (k j).1 (es ++ (k j).2)) →
  well_reported p' (es ++ fs).
Proof.
  intros H E Hk. unfold in_phase in E. destruct (jobs p !! n) as [j|] eqn:Hj.
  - destruct (want (j_phase j)) eqn:Hw; [specialize (Hk j eq_refl Hw); by rewrite E in Hk|].
    injection E as <- <-. by rewrite app_nil_r.
  - injection E as <- <-. by rewrite app_nil_r.
Qed.

Lemma phase_kept p (f : Job → Job) n k :
  (∀ j, j_phase (f j) = j_phase j) →
  j_phase <$> alter f n (jobs p) !! k = j_phase <$> jobs p !! k.
Proof.
  intros Hf. rewrite lookup_alter. case_decide as Hd; [subst|done]. destruct (jobs p !! k); cbn; [|done].
  by rewrite Hf.
Qed.

(** A message of the server: an assignment adds a job of which nothing has been
    reported. *)
Lemma message_reported p es m hex p' fs :
  well_reported p es → readLoop_message p m hex = Some (p', fs) → well_reported p' (es ++ fs).
Proof.
  intros H. destruct m as [w|j|j tok|id| |]; cbn [readLoop_message];
    try (intros [= <- <-]; by apply (well_reported_same p)).
  - unfold handleJobRequest. destruct j as [j|]; [|intros [= <- <-]; by apply (well_reported_same p)].
    destruct (id_suffix (Id j)); [|done]. intros [= <- <-]. by apply (well_reported_same p).
  - destruct j as [j|]; cbn [handleAssignment fmap option_fmap option_map];
      [|intros [= <- <-]; by apply (well_reported_same p)].
    destruct (String.eqb tok ""); [intros [= <- <-]; by apply (well_reported_same p)|].
    destruct (JobState j) as [who|]; [|done]. intros [= <- <-]. rewrite app_nil_r.
    intros k. specialize (H k). cbn [set_announcing set_nextJob set_jobs set_activeJobs nextJob jobs].
    destruct (Nat.ltb_spec k (nextJob p)).
    + rewrite (proj2 (Nat.ltb_lt k _)) by lia. by rewrite lookup_insert_ne by lia.
    + destruct (decide (k = nextJob p)) as [->|Hne].
      * rewrite (proj2 (Nat.ltb_lt _ _)) by lia. rewrite lookup_insert_eq. by destruct H as [-> _].
      * rewrite (proj2 (Nat.ltb_ge k _)) by lia. by rewrite lookup_insert_ne by lia.
  - intros [= <- <-]. unfold terminate. destruct (activeJobs p !! id) as [n|]; apply (well_reported_same p);
      try done. intros k. by apply phase_kept.
Qed.

Lemma job_starts_reported p es n p' fs :
  well_reported p es → in_phase p n (is_phase Starting) (job_starts p n) = (p', fs) → well_reported p' (es ++ fs).
Proof.
  intros H E. eapply in_phase_reported; [done|exact E|]. intros j Hj Hp. unfold job_starts, to_phase.
  destruct (jobHandler p); (eapply (well_reported_one p _ n j); [done|done|..]);
    try (by intros; rewrite lookup_insert_ne); try done;
    try (by intros; apply reports_other); destruct (j_phase j); try done;
    rewrite lookup_insert_eq; intros l; cbn [fmap option_fmap option_map j_phase set_phase reported snd];
    intros ->; [done|rewrite reports_own; by right].
Qed.

Lemma handler_returns_reported p es n err listed p' fs :
  well_reported p es →
  in_phase p n (is_phase Handling) (λ j, handler_returns p n j err listed) = (p', fs) → well_reported p' (es ++ fs).
Proof.
  intros H E. eapply in_phase_reported; [done|exact E|]. intros j Hj Hp. unfold handler_returns, to_phase.
  eapply (well_reported_one p _ n j); [done|done|..].
  - by intros; rewrite lookup_insert_ne.
  - intros m Hne. cbn [snd]. rewrite reports_app, reports_removals, app_nil_r. destruct err; [|done].
    by apply reports_other.
  - destruct (j_phase j); try done. rewrite lookup_insert_eq. intros l.
    cbn [fmap option_fmap option_map j_phase set_phase reported snd]. intros ->.
    rewrite reports_app, reports_removals, app_nil_r. destruct err; [|by left].
    rewrite reports_own. by right.
Qed.

Lemma job_ends_reported p es n p' fs : well_reported p es →
  in_phase p n (is_phase Deleting) (λ j, (job_deletes p n j, [])) = (p', fs) ∨
  in_phase p n (is_phase Reporting) (job_reports p n) = (p', fs) → well_reported p' (es ++ fs).
Proof.
  intros H [E|E]; (eapply in_phase_reported; [done|exact E|]); intros j Hj Hp; unfold job_deletes, job_reports, to_phase.
  - change (well_reported (set_jobs p (<[n:=set_phase j Reporting]> (jobs p))) (es ++ [])).
    eapply (well_reported_one p _ n j); [done|done|by intros; rewrite lookup_insert_ne|done|].
    destruct (j_phase j); try done. rewrite lookup_insert_eq. intros l. cbn. by rewrite app_nil_r.
  - eapply (well_reported_one p _ n j); [done|done|by intros; rewrite lookup_delete_ne|
      by intros; apply reports_other|].
    destruct (j_phase j); try done. rewrite lookup_delete_eq. intros l.
    cbn [fmap option_fmap option_map reported snd]. rewrite reports_own. intros [->| ->]; [by left|by right].
Qed.

Lemma step_reported p es e p' fs :
  table_ok p → well_reported p es → p_step p e = Some (p', fs) → well_reported p' (es ++ fs).
Proof.
  intros Hk H. destruct e as [m hex| | |a b c d|n|n err listed|n|n| | |]; cbn [p_step].
  - case_match; [by apply message_reported|intros [= <- <-]; by apply (well_reported_same p)].
  - destruct (announcing p); intros [= <- <-]; by apply (well_reported_same p).
  - case_match; intros [= <- <-]; apply (well_reported_same p); try done;
      unfold read_failed, scheduleReconnect; repeat case_match; done.
  - destruct (reconnects p); [intros [= <- <-]; by apply (well_reported_same p)|].
    intros E. pose proof (connect_same _ _ _ _ _ _ _ E) as (_ & _ & Ej & En). cbn in Ej, En.
    apply (well_reported_same p); [done|done|by intros; rewrite Ej|].
    revert E. unfold connect. repeat case_match; intros [= _ <-]; done.
  - intros [= E]. by eapply job_starts_reported.
  - intros [= E]. by eapply handler_returns_reported.
  - intros [= E]. eapply job_ends_reported; [done|by left].
  - intros [= E]. eapply job_ends_reported; [done|by right].
  - intros [= <- <-]. apply (well_reported_same p); try done. intros n. unfold statusLoop_tick. by case_match.
  - intros [= <- <-]. by apply (well_reported_same p).
  - intros [= <- <-]. apply (well_reported_same p); try done. intros n. unfold stop_ends. cbn.
    rewrite map_lookup_imap. destruct (jobs p !! n); cbn; [|done]. by case_bool_decide.
Qed.

Lemma p_run_reported es : ∀ p acc p' fs,
  table_ok p → well_reported p acc → p_run p es = Some (p', fs) →
  table_ok p' ∧ well_reported p' (acc ++ fs).
Proof.
  induction es as [|e es IH]; intros p acc p' fs Hk Hw; cbn [p_run].
  - intros [= <- <-]. by rewrite app_nil_r.
  - destruct (p_step p e) as [[p1 f1]|] eqn:E; [|done].
    destruct (p_run p1 es) as [[p2 f2]|] eqn:Er; [|done]. intros [= <- <-].
    rewrite app_assoc. eapply IH; [by eapply any_step_ok| |exact Er]. by eapply step_reported.
Qed.

(** Every job that was assigned and has ended is reported as a success: under
    every interleaving, the statuses its goroutine reports are SUCCESS, or FAILED
    and then SUCCESS, so that a job whose handler failed ends as successful for
    the server.  It is no longer in the table. *)
Theorem ended_jobs_reported_success (p0 p : Provider) (es : list p_event) (effs : list effect) (n : nat)
    (Hnone : jobs p0 = ∅ ∧ activeJobs p0 = ∅ ∧ nextJob p0 = 0%nat)
    (Hrun : p_run p0 es = Some (p, effs)) (Hassigned : (n < nextJob p)%nat) (Hended : jobs p !! n = None) :
  (reports n effs = [JS_SUCCESS] ∨ reports n effs = [JS_FAILED; JS_SUCCESS]) ∧
  ∀ id, activeJobs p !! id ≠ Some n.
Proof.
  destruct Hnone as (Hj & Ha & Hn).
  assert (table_ok p0) as Hk.
  { split; rewrite ?Hj, ?Ha; intros *; rewrite lookup_empty; done. }
  destruct (p_run_reported es p0 [] p effs Hk) as [Hk' Hw]; [|done|].
  { intros k. rewrite Hn, Hj. cbn. by rewrite lookup_empty. }
  split.
  - specialize (Hw n). rewrite (proj2 (Nat.ltb_lt n _)), Hended in Hw by done. exact Hw.
  - intros id E. destruct (tb_active _ Hk' id n E) as (j & E' & _). congruence.
Qed.

(** A job of the demonstration: its handler fails while the job is being
    announced. *)
Definition failing_job : list p_event :=
  [Reconnect true (Ok tt) (Ok tt) (Ok tt); Receive (Assignment (Some job_a) "token") "";
   JobStarts 0; HandlerReturns 0 (Some "no audio") (Ok [("caller", false); ("agent", true)]);
   Announce; JobDeletes 0; JobReports 0].

Lemma ended_jobs_reported_success_witness :
  ∃ p effs, p_run (start_provider new_provider false (Ok tt)) failing_job = Some (p, effs) ∧
    reports 0 effs = [JS_FAILED; JS_SUCCESS] ∧ ∀ id, activeJobs p !! id ≠ Some 0%nat.
Proof.
  destruct (p_run (start_provider new_provider false (Ok tt)) failing_job) as [[p effs]|] eqn:E;
    [|vm_compute in E; discriminate].
  exists p, effs. split; [reflexivity|].
  assert (nextJob p = 1%nat ∧ jobs p !! 0%nat = None ∧ reports 0 effs = [JS_FAILED; JS_SUCCESS])
    as (H1 & H2 & H3) by (vm_compute in E; injection E as <- <-; vm_compute; done).
  split; [exact H3|].
  refine (proj2 (ended_jobs_reported_success _ p failing_job effs 0 _ E _ H2));
    [repeat split; reflexivity|rewrite H1; lia].
Defined.

(** ** Stopping *)

Definition stopped (p : Provider) : Prop := ctxDone p = true ∧ state p = StateDraining.

Definition answers_no (es : list effect) : Prop :=
  Forall (λ e, match e with Answer _ a _ _ _ => a = false | _ => True end) es.

Lemma answers_no_status p by_ id st err : answers_no (updateJobStatus p by_ id st err).
Proof. by repeat constructor. Qed.

Lemma answers_no_removals room listed : answers_no (disconnectRoomParticipants room listed).
Proof.
  unfold disconnectRoomParticipants. destruct listed as [ps|]; [|constructor].
  apply Forall_map, Forall_true. done.
Qed.

Lemma in_phase_stopped p n want k p' es :
  in_phase p n want k = (p', es) → stopped p →
  (∀ j, stopped (k j).1 ∧ answers_no (k j).2) → stopped p' ∧ answers_no es.
Proof.
  unfold in_phase. intros E Hs Hk. destruct (jobs p !! n) as [j|]; [|by injection E as <- <-; split; [|constructor]].
  destruct (want (j_phase j)); [specialize (Hk j); by rewrite E in Hk|].
  by injection E as <- <-; split; [|constructor].
Qed.

Lemma step_stopped p e p' es : stopped p → p_step p e = Some (p', es) → stopped p' ∧ answers_no es.
Proof.
  intros Hs. pose proof Hs as [Hd Hst].
  assert (∀ q, ctxDone q = ctxDone p → state q = state p → stopped q) as Hq
    by (intros q E1 E2; unfold stopped; by rewrite E1, E2).
  destruct e as [m hex| | |a b c d|n|n err listed|n|n| | |]; cbn [p_step].
  - case_match; [|by intros [= <- <-]; split; [|constructor]].
    destruct m as [w|j|j tok|id| |]; cbn [readLoop_message];
      try (by intros [= <- <-]; split; [by apply Hq|constructor]).
    + unfold handleJobRequest. destruct j as [j|]; [|by intros [= <- <-]; split; [|constructor]].
      destruct (id_suffix (Id j)); [|done]. intros [= <- <-]. split; [done|]. repeat constructor.
      unfold available_for. rewrite Hst. by rewrite andb_false_r.
    + unfold handleAssignment. repeat case_match; intros [=]; subst; (split; [by apply Hq|constructor]).
    + intros [= <- <-]. split; [|constructor]. unfold terminate. case_match; by apply Hq.
  - destruct (announcing p); intros [= <- <-]; (split; [by apply Hq|]); [apply answers_no_status|constructor].
  - case_match; intros [= <- <-]; (split; [|constructor]); [|done]. unfold read_failed. rewrite Hst.
    rewrite bool_decide_true by done. by apply Hq.
  - destruct (reconnects p); [by intros [= <- <-]; split; [|constructor]|]. unfold connect. cbn.
    rewrite Hd. intros [= <- <-]. split; [by apply Hq|constructor].
  - intros [= E]. eapply in_phase_stopped; [exact E|done|]. intros j. unfold job_starts.
    destruct (jobHandler p); (split; [by apply Hq|]); [constructor|apply answers_no_status].
  - intros [= E]. eapply in_phase_stopped; [exact E|done|]. intros j. split; [by apply Hq|].
    apply Forall_app. split; [|apply answers_no_removals].
    destruct err; [apply answers_no_status|constructor].
  - intros [= E]. eapply in_phase_stopped; [exact E|done|]. intros j. split; [by apply Hq|constructor].
  - intros [= E]. eapply in_phase_stopped; [exact E|done|]. intros j.
    split; [by apply Hq|apply answers_no_status].
  - intros [= <- <-]. split; [done|]. unfold statusLoop_tick. case_match; repeat constructor.
  - intros [= <- <-]. split; [done|constructor].
  - intros [= <- <-]. split; [by apply Hq|constructor].
Qed.

(** Stopping does not drain.  From the moment [Stop] is called, whatever happens
    next and however long the drain timeout is, the context of every job,
    running or assigned later, is cancelled, every request is refused, and the
    job handler of a job that had not started yet, [Pipeline.Run], skips it
    without an error, so that it is reported as a success. *)
Theorem stop_cancels_every_job (p p' : Provider) (es : list p_event) (effs : list effect)
    (Hrun : p_run (stop_begins p) es = Some (p', effs)) :
  answers_no effs ∧
  ∀ n, job_cancelled p' n = true ∧
    ∀ builder initialize wake, Run (job_cancelled p' n) false builder initialize wake = (JobSkipped, false).
Proof.
  assert (stopped p' ∧ answers_no effs) as [[Hd _] Ha].
  { revert Hrun. assert (stopped (stop_begins p)) as H by done. revert H.
    generalize (stop_begins p). revert effs. induction es as [|e es IH]; intros effs q Hq; cbn [p_run].
    - intros [= <- <-]. split; [done|constructor].
    - destruct (p_step q e) as [[p1 f1]|] eqn:E; [|done].
      destruct (p_run p1 es) as [[p2 f2]|] eqn:Er; [|done]. intros [= <- <-].
      destruct (step_stopped _ _ _ _ Hq E) as [H1 Ha1]. destruct (IH _ _ H1 Er) as [H2 Ha2].
      split; [done|]. by apply Forall_app. }
  split; [done|]. intros n. unfold job_cancelled. rewrite Hd. done.
Qed.

Lemma stop_cancels_every_job_witness :
  ∃ p' effs, p_run (stop_begins busy_provider) [Announce; JobStarts 0] = Some (p', effs) ∧
    activeJobs p' !! "AJ_00000001" = Some 0%nat ∧ job_cancelled p' 0 = true ∧
    DrainTimeout (config p') = DefaultDrainTimeout.
Proof.
  destruct (p_run (stop_begins busy_provider) [Announce; JobStarts 0]) as [[p' effs]|] eqn:E;
    [|vm_compute in E; discriminate].
  exists p', effs. split; [reflexivity|].
  assert (activeJobs p' !! "AJ_00000001" = Some 0%nat ∧ DrainTimeout (config p') = DefaultDrainTimeout)
    as [H1 H2] by (vm_compute in E; injection E as <- _; vm_compute; done).
  split; [exact H1|]. split; [|exact H2].
  exact (proj1 (proj2 (stop_cancels_every_job busy_provider p' _ effs E) 0%nat)).
Defined.

(** Each reconnection starts one more statistics loop; none ends before the
    provider stops. *)
Lemma reconnecting_adds_a_loop p parsed token dial p' es :
  ctxDone p = false → connect p parsed token dial (Ok tt) = Some (p', es) → state p' = StateConnected →
  statsLoops p' = S (statsLoops p).
Proof.
  unfold connect, scheduleReconnect. intros Hd. rewrite Hd. repeat case_match; intros [= <- _]; cbn; done.
Qed.

(** A job id shorter than eight bytes panics the worker. *)
Lemma short_job_id_panics p room who :
  handleJobRequest p (Some (mkLkJob "AJ_1" room who None)) "00" = None.
Proof. reflexivity. Qed.
