(* ===== verification/DeepgramStt.v ===== *)
(** * Deepgram speech recognition: [services/deepgram/stt/stt.go]

    The WebSocket client behind the STT handler: the address it dials, the
    audio it sends, the results it reports, and the life of its connection.
    The socket is outside: whether a dial, a read or a write succeeds is an
    argument, and a message arrives decoded.  A [conn] is numbered by the dial
    that made it. *)

From Stdlib Require Import Strings.Byte.
From S2P Require Import Prelude Core TransportHandler Audio AudioProofs.

Local Open Scope string_scope.
Local Open Scope list_scope.
Local Open Scope Z_scope.

(** ** Configuration *)

(** A field of type [any]: what a Go program may put there, and what the JSON
    decoder does, which never makes an [int]. *)
Inductive setting : Type :=
| SInt (n : Z)
| SFloat (text : string)
| SBool (b : bool)
| SString (s : string)
| SOther.

Definition setting_of_json (v : any) : option setting :=
  match v with
  | AnyNil => None
  | AnyString s => Some (SString s)
  | AnyBool b => Some (SBool b)
  | AnyNumber t => Some (SFloat t)
  | AnyList _ | AnyMap _ => Some SOther
  end.

(** The field [Replace] is left out: nothing reads it. *)
Record DeepgramConfig := mkDeepgramConfig {
  APIKey : string;
  BaseURL : string;
  Model : string;
  Language : string;
  InterimResults : bool;
  Punctuate : bool;
  SmartFormat : bool;
  Diarize : bool;
  ProfanityFilter : bool;
  Redact : string;
  Numerals : bool;
  Endpointing : option setting;
  VadEvents : bool;
  UtteranceEndMs : option setting;
  Multichannel : bool;
  Keywords : list string;
  Keyterms : list string;
  Search_ : list string;
  Callback : string;
  CallbackMethod : string;
  Extra : gmap string string;
  Tag : list string;
  DetectEntities : bool;
  Dictation : bool;
  MipOptOut : bool;
  Version : string
}.

Definition DefaultConfig : DeepgramConfig :=
  mkDeepgramConfig "" "wss://api.deepgram.com" "nova-2" "" true true true false false "" false
    None false None false [] [] [] "" "" ∅ [] false false false "".

Definition boolToString (b : bool) : string := if b then "true" else "false".

(** [url.Values]: [Set] and [Add]. *)
Definition query : Type := gmap string (list string).
Definition q_set (k v : string) (q : query) : query := <[k := [v]]> q.
Definition q_add (k v : string) (q : query) : query := <[k := default [] (q !! k) ++ [v]]> q.
Definition q_set_nonempty (k v : string) (q : query) : query :=
  if String.eqb v "" then q else q_set k v q.
Definition q_add_all (k : string) (vs : list string) (q : query) : query :=
  fold_left (λ q v, q_add k v q) vs q.

Definition set_endpointing (e : option setting) (q : query) : query :=
  match e with
  | Some (SInt n) => q_set "endpointing" (itoa n) q
  | Some (SBool b) => q_set "endpointing" (boolToString b) q
  | Some (SString s) => q_set "endpointing" s q
  | _ => q
  end.

Definition set_utterance_end (e : option setting) (q : query) : query :=
  match e with
  | Some (SInt n) => q_set "utterance_end_ms" (itoa n) q
  | Some (SString s) => q_set "utterance_end_ms" s q
  | _ => q
  end.

(** The extra parameters replace what is there; their order is immaterial. *)
Definition set_extra (extra : gmap string string) (q : query) : query :=
  ((λ v, [v]) <$> extra) ∪ q.

(** [parse] is [url.Parse] followed by [Query]. *)
Definition buildWebSocketURL (parse : string → option query) (c : DeepgramConfig) : result query :=
  match parse (BaseURL c +:+ "/v1/listen") with
  | None => Err "failed to parse URL"
  | Some q =>
      let q := q_set_nonempty "model" (Model c) q in
      let q := q_set_nonempty "language" (Language c) q in
      let q := q_set "interim_results" (boolToString (InterimResults c)) q in
      let q := q_set "punctuate" (boolToString (Punctuate c)) q in
      let q := q_set "smart_format" (boolToString (SmartFormat c)) q in
      let q := q_set "diarize" (boolToString (Diarize c)) q in
      let q := q_set "profanity_filter" (boolToString (ProfanityFilter c)) q in
      let q := q_set "numerals" (boolToString (Numerals c)) q in
      let q := q_set "vad_events" (boolToString (VadEvents c)) q in
      let q := q_set "multichannel" (boolToString (Multichannel c)) q in
      let q := q_set "detect_entities" (boolToString (DetectEntities c)) q in
      let q := q_set "dictation" (boolToString (Dictation c)) q in
      let q := q_set "mip_opt_out" (boolToString (MipOptOut c)) q in
      let q := q_set_nonempty "redact" (Redact c) q in
      let q := q_set "encoding" "linear16" q in
      let q := q_set "sample_rate" (itoa 16000) q in
      let q := q_set "channels" (itoa 1) q in
      let q := set_endpointing (Endpointing c) q in
      let q := set_utterance_end (UtteranceEndMs c) q in
      let q := q_add_all "keywords" (Keywords c) q in
      let q := q_add_all "keyterm" (Keyterms c) q in
      let q := q_add_all "search" (Search_ c) q in
      let q := q_add_all "tag" (Tag c) q in
      let q := q_set_nonempty "callback" (Callback c) q in
      let q := q_set_nonempty "callback_method" (CallbackMethod c) q in
      let q := q_set_nonempty "version" (Version c) q in
      Ok (set_extra (Extra c) q)
  end.

(** ** The service *)

Record DeepgramSTTService := mkService {
  config : DeepgramConfig;
  conn : option nat;
  isConnected : bool;
  outChan : bool;                  (* the channels are not nil *)
  interimOutputChan : bool;
  fatalServiceErrorChan : bool;
  dials : nat;                     (* connections made so far *)
  keepAlives : nat                 (* [keepAlive] goroutines running *)
}.

Definition NewDeepgramSTTService (c : option DeepgramConfig) : DeepgramSTTService :=
  let c := default DefaultConfig c in
  let url := if String.eqb (BaseURL c) "" then "wss://api.deepgram.com" else BaseURL c in
  mkService
    (mkDeepgramConfig (APIKey c) url (Model c) (Language c) (InterimResults c) (Punctuate c)
       (SmartFormat c) (Diarize c) (ProfanityFilter c) (Redact c) (Numerals c) (Endpointing c)
       (VadEvents c) (UtteranceEndMs c) (Multichannel c) (Keywords c) (Keyterms c) (Search_ c)
       (Callback c) (CallbackMethod c) (Extra c) (Tag c) (DetectEntities c) (Dictation c)
       (MipOptOut c) (Version c))
    None false false false false 0 0.

Definition set_conn (d : DeepgramSTTService) (c : option nat) (up : bool) : DeepgramSTTService :=
  mkService (config d) c up (outChan d) (interimOutputChan d) (fatalServiceErrorChan d)
    (dials d) (keepAlives d).
Definition set_chans (d : DeepgramSTTService) (b : bool) : DeepgramSTTService :=
  mkService (config d) (conn d) (isConnected d) b b b (dials d) (keepAlives d).

Definition Initialize (d : DeepgramSTTService) : result unit :=
  if String.eqb (APIKey (config d)) "" then Err "Deepgram API key is required" else Ok tt.

(** What goes over the socket. *)
Inductive ws_message : Type :=
| WsText (type : string)
| WsBinary (data : bytes_).

Definition closeConnection (d : DeepgramSTTService) : DeepgramSTTService * list ws_message :=
  (set_conn d None false,
   match conn d with Some _ => [WsText "CloseStream"] | None => [] end).

Definition Cleanup (d : DeepgramSTTService) : DeepgramSTTService * list ws_message :=
  let '(d', out) := closeConnection d in (set_chans d' false, out).

Definition if_connected (d : DeepgramSTTService) (msg : ws_message) : list ws_message :=
  match conn d with
  | Some _ => if isConnected d then [msg] else []
  | None => []
  end.

(** [Flush] and [Reset] both ask for the pending results. *)
Definition Flush (d : DeepgramSTTService) : list ws_message := if_connected d (WsText "Finalize").
Definition Reset (d : DeepgramSTTService) : list ws_message := if_connected d (WsText "Finalize").

(** One tick of a [keepAlive] goroutine. *)
Definition keepAlive (d : DeepgramSTTService) : list ws_message := if_connected d (WsText "KeepAlive").

Definition StartTranscriptionSession (d : DeepgramSTTService) : DeepgramSTTService := set_chans d true.

Definition handleConnectionError (d : DeepgramSTTService) : DeepgramSTTService :=
  set_conn d (conn d) false.

(** ** Sending audio *)

Section audio.
Context `{AudioLibs}.

(** The pools after the call, the error, what was written, and whether
    [handleConnectionError] was started; [None] is a panic. *)
Definition SendTranscriptionAudio (ps : Pools) (d : DeepgramSTTService) (chunk : AudioChunk)
    (write : result unit) : option (Pools * result unit * list ws_message * bool) :=
  match conn d with
  | Some _ =>
      if isConnected d then
        match ConvertAudioChunk ps chunk PCM 1 16000 with
        | None => None
        | Some (ps', Err e) => Some (ps', Err ("failed to convert audio chunk: " +:+ e), [], false)
        | Some (ps', Ok converted) =>
            match Data converted with
            | None => None
            | Some bs =>
                match write with
                | Err e => Some (ps', Err ("failed to send audio: " +:+ e), [WsBinary bs], true)
                | Ok _ => Some (ps', Ok tt, [WsBinary bs], false)
                end
            end
        end
      else Some (ps, Err "not connected to Deepgram", [], false)
  | None => Some (ps, Err "not connected to Deepgram", [], false)
  end.
End audio.

(** ** Results *)

(** The first alternatives' transcripts and the flags of [ListenV1Results]. *)
Record ListenV1Results := mkResults {
  Alternatives : list string;
  IsFinal : bool;
  SpeechFinal : bool;
  FromFinalize : bool
}.

(** [final_ready] and [interim_ready]: a receiver waits on the unbuffered
    channel.  The result is what that receiver gets. *)
Definition processResults (d : DeepgramSTTService) (done final_ready interim_ready : bool)
    (r : ListenV1Results) : list transcription :=
  match Alternatives r with
  | [] => []
  | transcript :: _ =>
      if String.eqb transcript "" then []
      else if IsFinal r || SpeechFinal r || FromFinalize r
      then if done then [] else if outChan d && final_ready then [FinalResult transcript] else []
      else if done then []
           else if interimOutputChan d && interim_ready then [InterimResult transcript] else []
  end.

(** A message as the JSON decoder leaves it; [MBad] stands for an envelope or
    a body that does not decode. *)
Inductive dg_message : Type :=
| MResults (r : ListenV1Results)
| MMetadata
| MUtteranceEnd
| MSpeechStarted
| MUnknown (type : string)
| MBad (what : string).

Definition handleMessage (d : DeepgramSTTService) (done final_ready interim_ready : bool)
    (m : dg_message) : result unit * list transcription :=
  match m with
  | MResults r => (Ok tt, processResults d done final_ready interim_ready r)
  | MMetadata | MUtteranceEnd | MSpeechStarted => (Ok tt, [])
  | MUnknown t => (Err ("unknown message type: " +:+ t), [])
  | MBad what => (Err ("failed to parse " +:+ what), [])
  end.

(** ** The connection's life: [runSession] and [connectAndListen] *)

Inductive session_event : Type :=
| Dialed                          (* the dial succeeded: [keepAlive] starts *)
| DialFailed (fatal_ready : bool)
| Received (m : dg_message) (final_ready interim_ready : bool)
| ReadFailed (fatal_ready : bool)
| WriteFailed.                    (* [handleConnectionError] of another goroutine runs *)

Inductive session_out : Type :=
| Transcript (t : transcription)
| Fatal (msg : string)
| Wrote (m : ws_message).

Definition report_fatal (d : DeepgramSTTService) (ready : bool) (msg : string) : list session_out :=
  if fatalServiceErrorChan d && ready then [Fatal ("Deepgram session error: " +:+ msg)] else [].

(** One event of the session, the context alive. *)
Definition session_step (d : DeepgramSTTService) (e : session_event)
    : DeepgramSTTService * list session_out :=
  match e with
  | Dialed =>
      (mkService (config d) (Some (dials d)) true (outChan d) (interimOutputChan d)
         (fatalServiceErrorChan d) (S (dials d)) (S (keepAlives d)), [])
  | DialFailed ready => (d, report_fatal d ready "failed to connect to Deepgram")
  | Received m fr ir => (d, map Transcript (handleMessage d false fr ir m).2)
  | ReadFailed ready =>
      let '(d', out) := closeConnection d in
      (d', map Wrote out ++ report_fatal d' ready "error reading message")
  | WriteFailed => (handleConnectionError d, [])
  end.

Fixpoint session_run (d : DeepgramSTTService) (es : list session_event)
    : DeepgramSTTService * list session_out :=
  match es with
  | [] => (d, [])
  | e :: es' =>
      let '(d1, o1) := session_step d e in
      let '(d2, o2) := session_run d1 es' in
      (d2, o1 ++ o2)
  end.

(** ** Properties *)

Lemma q_set_at k v q : q_set k v q !! k = Some [v].
Proof. apply lookup_insert_eq. Qed.
Lemma q_set_other k k' v q : k ≠ k' → q_set k' v q !! k = q !! k.
Proof. intros. by apply lookup_insert_ne. Qed.
Lemma q_nonempty_other k k' v q : k ≠ k' → q_set_nonempty k' v q !! k = q !! k.
Proof. intros. unfold q_set_nonempty. case_match; [done|by apply q_set_other]. Qed.
Lemma q_add_all_other k k' vs : k ≠ k' → ∀ q, q_add_all k' vs q !! k = q !! k.
Proof.
  intros Hk. induction vs as [|v vs IH]; intros q; [done|]. cbn.
  etransitivity; [apply IH|]. by apply lookup_insert_ne.
Qed.
Lemma endpointing_other k e q : k ≠ "endpointing" → set_endpointing e q !! k = q !! k.
Proof. intros. unfold set_endpointing. repeat case_match; try done; by apply q_set_other. Qed.
Lemma utterance_other k e q : k ≠ "utterance_end_ms" → set_utterance_end e q !! k = q !! k.
Proof. intros. unfold set_utterance_end. repeat case_match; try done; by apply q_set_other. Qed.
Lemma extra_other k extra q : extra !! k = None → set_extra extra q !! k = q !! k.
Proof.
  intros Hk. apply lookup_union_r. by rewrite lookup_fmap, Hk.
Qed.

(** The parameter a key was last set to, the others skipped. *)
Ltac query_lookup :=
  repeat first
    [ rewrite q_set_at; reflexivity
    | rewrite extra_other by done
    | rewrite q_nonempty_other by done
    | rewrite q_add_all_other by done
    | rewrite utterance_other by done
    | rewrite endpointing_other by done
    | rewrite q_set_other by done ].

Section audio_properties.
Context `{AudioLibs}.

(** C29: The audio sent to Deepgram is what the address it dialled declares: for
    any source format, the bytes written are those of a chunk that is 16-bit
    PCM, mono, at 16 kHz, and unless an extra parameter overrides them the
    dialled address says linear16, 16000 and 1. *)
Theorem audio_matches_declaration (parse : string → option query) (ps ps' : Pools)
    (d : DeepgramSTTService) (chunk : AudioChunk) (write r : result unit)
    (bs : bytes_) (spawned : bool) (q : query)
    (Hsend : SendTranscriptionAudio ps d chunk write = Some (ps', r, [WsBinary bs], spawned))
    (Hurl : buildWebSocketURL parse (config d) = Ok q)
    (Hextra : ∀ k, k ∈ ["encoding"; "sample_rate"; "channels"] → Extra (config d) !! k = None) :
  (∃ c, ConvertAudioChunk ps chunk PCM 1 16000 = Some (ps', Ok c) ∧ Data c = Some bs ∧
        Format c = PCM ∧ Channels c = 1 ∧ SampleRate c = 16000) ∧
  q !! "encoding" = Some ["linear16"] ∧ q !! "sample_rate" = Some ["16000"] ∧
  q !! "channels" = Some ["1"].
Proof.
  split.
  - unfold SendTranscriptionAudio in Hsend.
    destruct (conn d), (isConnected d); simplify_eq.
    destruct (ConvertAudioChunk ps chunk PCM 1 16000) as [[ps1 [c|e]]|] eqn:Ec; simplify_eq.
    destruct (Data c) as [bs'|] eqn:Ed; [|done].
    exists c. pose proof (converted_chunk _ _ _ _ _ _ _ Ec) as (Hf & Hc & Hr & _).
    unfold resulting_format in Hf. destruct write; simplify_eq; repeat split; try done;
      rewrite Hf; by case_match.
  - assert (∀ k, k ∈ ["encoding"; "sample_rate"; "channels"] → Extra (config d) !! k = None)
      as Hx by done.
    pose proof (Hx "encoding" ltac:(set_solver)). pose proof (Hx "sample_rate" ltac:(set_solver)).
    pose proof (Hx "channels" ltac:(set_solver)).
    unfold buildWebSocketURL in Hurl. destruct (parse _) as [q0|]; [|done].
    apply (f_equal (λ r, match r with Ok q => q | Err _ => ∅ end)) in Hurl. cbv beta zeta iota in Hurl.
    subst q. split_and!; query_lookup.
Qed.
End audio_properties.

(** The connection's flag implies a connection, and each connection ever made
    has left one [keepAlive] goroutine behind: they stop only with the context. *)
Lemma session_run_inv es : ∀ d,
  (isConnected d = true → is_Some (conn d)) → keepAlives d = dials d →
  let d' := (session_run d es).1 in
  (isConnected d' = true → is_Some (conn d')) ∧ keepAlives d' = dials d'.
Proof.
  induction es as [|e es IH]; intros d Hc Hk; [done|]. cbn [session_run].
  destruct (session_step d e) as [d1 o1] eqn:Es.
  destruct (session_run d1 es) as [d2 o2] eqn:Er. cbn [fst].
  pose proof (IH d1) as IH1. rewrite Er in IH1. apply IH1; clear IH1.
  all: destruct e; cbn in Es; simplify_eq; cbn in *; try done; congruence.
Qed.

(** A number in a JSON configuration never reaches the address. *)
Lemma json_endpointing_ignored t q : set_endpointing (setting_of_json (AnyNumber t)) q = q.
Proof. reflexivity. Qed.

Definition demo_service : DeepgramSTTService :=
  (session_step (NewDeepgramSTTService None) Dialed).1.

Lemma audio_matches_declaration_witness :
  ∃ q, buildWebSocketURL (λ _, Some ∅) (config demo_service) = Ok q ∧
       q !! "encoding" = Some ["linear16"].
Proof.
  destruct (buildWebSocketURL (λ _, Some ∅) (config demo_service)) as [q|e] eqn:E; [|done].
  exists q. split; [reflexivity|].
  apply (audio_matches_declaration (λ _, Some ∅) no_pools no_pools demo_service
           (mkAudioChunk (Some [x01; x02]) 16000 1 PCM 0) (Ok tt) (Ok tt) [x01; x02] false q).
  - reflexivity.
  - exact E.
  - intros k _. reflexivity.
Defined.
