(* ===== verification/DeepgramTts.v ===== *)
(** * Deepgram speech synthesis: [services/deepgram/tts/tts.go]

    The WebSocket client behind the TTS handler: sessions, connection attempts,
    the messages it writes and the count of buffered characters that keeps the
    service's buffer under its limit.  Whether a dial or a write succeeds is
    an argument; a text's length is its number of bytes, as in Go. *)

From Stdlib Require Import Strings.Byte.
From S2P Require Import Prelude Core.

Local Open Scope string_scope.
Local Open Scope list_scope.
Local Open Scope Z_scope.

Definition maxCharsBeforeFlush : Z := 2000.
(** [chunkSize], a constant of [BufferText]. *)
Definition chunkSize : Z := maxCharsBeforeFlush - 100.

Record DepgramTTSConfig := mkDepgramTTSConfig { APIKey : string; BaseURL : string; Model : string }.

Definition DefaultConfig : DepgramTTSConfig :=
  mkDepgramTTSConfig "" "wss://api.deepgram.com/v1/speak" "aura-2-arcas-en".

(** Connections and sessions are numbered in the order they are made. *)
Record DepgramTTS := mkDepgramTTS {
  config : DepgramTTSConfig;
  conn : option nat;
  currentSession : option nat;
  charCount : Z;
  isInitialized : bool;
  heartbeatStarted : bool;
  dialed : nat;
  sessions : nat
}.

Definition NewDepgramTTS (c : DepgramTTSConfig) : DepgramTTS :=
  mkDepgramTTS
    (mkDepgramTTSConfig (APIKey c)
       (if String.eqb (BaseURL c) "" then BaseURL DefaultConfig else BaseURL c)
       (if String.eqb (Model c) "" then Model DefaultConfig else Model c))
    None None 0 false false 0 0.

Definition set_conn (d : DepgramTTS) (c : option nat) : DepgramTTS :=
  mkDepgramTTS (config d) c (currentSession d) (charCount d) (isInitialized d)
    (heartbeatStarted d) (dialed d) (sessions d).
Definition set_count (d : DepgramTTS) (n : Z) : DepgramTTS :=
  mkDepgramTTS (config d) (conn d) (currentSession d) n (isInitialized d)
    (heartbeatStarted d) (dialed d) (sessions d).

Definition Initialize (d : DepgramTTS) : DepgramTTS * result unit :=
  if isInitialized d then (d, Ok tt)
  else if String.eqb (APIKey (config d)) "" then (d, Err "Deepgram API key is required")
  else (mkDepgramTTS (config d) (conn d) (currentSession d) (charCount d) true
          (heartbeatStarted d) (dialed d) (sessions d), Ok tt).

(** ** Connecting *)

Definition maxRetries : nat := 3.

(** [dial k] is the outcome of the [k]-th attempt and [cancelled k] whether the
    context ends during the delay before it. *)
Fixpoint establish (fuel attempt : nat) (dial : nat → result unit) (cancelled : nat → bool)
    (lastErr : string) : result unit :=
  match fuel with
  | O => Err ("failed to connect after 3 attempts: " +:+ lastErr)
  | S fuel' =>
      if negb (Nat.eqb attempt 0) && cancelled attempt then Err "context canceled"
      else match dial attempt with
           | Ok _ => Ok tt
           | Err e => establish fuel' (S attempt) dial cancelled e
           end
  end.

Definition establishConnection (d : DepgramTTS) (dial : nat → result unit) (cancelled : nat → bool)
    : DepgramTTS * result nat :=
  match establish maxRetries 0 dial cancelled "" with
  | Ok _ => (mkDepgramTTS (config d) (conn d) (currentSession d) (charCount d) (isInitialized d)
               (heartbeatStarted d) (S (dialed d)) (sessions d), Ok (dialed d))
  | Err e => (d, Err e)
  end.

Definition closeConnectionLocked (d : DepgramTTS) : DepgramTTS := set_conn d None.

(** Only the current session is ever cleaned up with its connection. *)
Definition cleanupSessionLocked (d : DepgramTTS) (session : nat) : DepgramTTS :=
  let d' := closeConnectionLocked d in
  if bool_decide (currentSession d = Some session)
  then mkDepgramTTS (config d') (conn d') None (charCount d') (isInitialized d')
         (heartbeatStarted d') (dialed d') (sessions d')
  else d'.

Definition cleanup_current (d : DepgramTTS) : DepgramTTS :=
  match currentSession d with Some s => cleanupSessionLocked d s | None => d end.

(** [nil_chan] names the first nil channel among the arguments, if any. *)
Definition StartTTSSession (d : DepgramTTS) (nil_chan : option string) (dial : nat → result unit)
    (cancelled : nat → bool) : DepgramTTS * result unit :=
  if negb (isInitialized d) then (d, Err "service not initialized")
  else match nil_chan with
  | Some c => (d, Err (c +:+ " cannot be nil"))
  | None =>
      let d1 := cleanup_current d in
      match establishConnection d1 dial cancelled with
      | (d2, Err e) => (d2, Err ("failed to establish WebSocket connection: " +:+ e))
      | (d2, Ok c) =>
          (mkDepgramTTS (config d2) (Some c) (Some (sessions d2)) (charCount d2) (isInitialized d2)
             true (dialed d2) (S (sessions d2)), Ok tt)
      end
  end.

Definition reconnect (d : DepgramTTS) (dial : nat → result unit) (cancelled : nat → bool)
    : DepgramTTS * result unit :=
  match establishConnection (closeConnectionLocked d) dial cancelled with
  | (d1, Err e) => (d1, Err e)
  | (d1, Ok c) => (set_count (set_conn d1 (Some c)) 0, Ok tt)
  end.

Definition Cleanup (d : DepgramTTS) : DepgramTTS :=
  if negb (isInitialized d) then d
  else mkDepgramTTS (config d) None None (charCount d) false false (dialed d) (sessions d).

Definition IsConnected (d : DepgramTTS) : bool :=
  match conn d, currentSession d with Some _, Some _ => true | _, _ => false end.

(** ** Writing *)

Inductive message : Type :=
| Speak (text : string)
| FlushMsg
| ClearMsg
| CloseMsg.

(** The checks every writing method makes first. *)
Definition session_check (d : DepgramTTS) : result unit :=
  if negb (isInitialized d) then Err "service not initialized"
  else if negb (IsConnected d) then Err "no active TTS session"
  else Ok tt.

Definition slen (s : string) : Z := Z.of_nat (String.length s).

(** The outcome of a method: the service, the messages written, the error. *)
Definition outcome (A : Type) : Type := DepgramTTS * list message * result A.

(** The chunk loop; [ok k] tells whether the [k]-th write of the call succeeds.
    Each round shortens the text, so its length plus one is enough fuel.  The
    result carries the rest of the text and the number of writes made. *)
Fixpoint send_chunks (fuel : nat) (ok : nat → bool) (k : nat) (d : DepgramTTS) (text : string)
    : outcome (string * nat) :=
  match fuel with
  | O => (d, [], Ok (text, k))
  | S fuel' =>
      if chunkSize <? slen text
      then
        let chunk := str_take (Z.to_nat chunkSize) text in
        let rest := str_drop (Z.to_nat chunkSize) text in
        if negb (ok k) then (d, [], Err "write failed")
        else if negb (ok (S k)) then (d, [Speak chunk], Err "write failed")
        else
          let '(d', msgs, r) := send_chunks fuel' ok (S (S k)) (set_count d 0) rest in
          (d', Speak chunk :: FlushMsg :: msgs, r)
      else (d, [], Ok (text, k))
  end.

(** The automatic flush before the rest: a failed one is only logged. *)
Definition auto_flush (ok : nat → bool) (k : nat) (d : DepgramTTS) (text : string)
    : DepgramTTS * list message * nat :=
  let count := charCount d + slen text in
  if maxCharsBeforeFlush <=? count
  then (set_count d (slen text), if ok k then [FlushMsg] else [], S k)
  else (set_count d count, [], k).

Definition BufferText (ok : nat → bool) (d : DepgramTTS) (text : string) : outcome unit :=
  match session_check d with
  | Err e => (d, [], Err e)
  | Ok _ =>
      if String.eqb text "" then (d, [], Err "text cannot be empty")
      else
        match send_chunks (S (String.length text)) ok 0 d text with
        | (d1, m1, Err e) => (d1, m1, Err e)
        | (d1, m1, Ok (rest, k)) =>
            let '(d2, m2, k') := auto_flush ok k d1 rest in
            if ok k' then (d2, m1 ++ m2 ++ [Speak rest], Ok tt)
            else (d2, m1 ++ m2, Err "write failed")
        end
  end.

Definition Flush (ok : bool) (d : DepgramTTS) : outcome unit :=
  match session_check d with
  | Err e => (d, [], Err e)
  | Ok _ => if ok then (set_count d 0, [FlushMsg], Ok tt)
            else (set_count d 0, [], Err "write failed")
  end.

Definition Reset (ok : bool) (d : DepgramTTS) : outcome unit :=
  match session_check d with
  | Err e => (d, [], Err e)
  | Ok _ => if ok then (set_count d 0, [ClearMsg], Ok tt)
            else (set_count d 0, [], Err "write failed")
  end.

Definition CloseSession (ok : bool) (d : DepgramTTS) : outcome unit :=
  if negb (isInitialized d) then (d, [], Err "service not initialized")
  else if negb (IsConnected d) then (d, [], Ok tt)
  else if ok then (d, [CloseMsg], Ok tt) else (d, [], Err "write failed").

Definition UpdateConfig (d : DepgramTTS) (c : DepgramTTSConfig) : DepgramTTS * result unit :=
  if negb (isInitialized d) then (d, Err "service not initialized")
  else if String.eqb (APIKey c) "" then (d, Err "API key cannot be empty")
  else
    let changed := negb (String.eqb (APIKey (config d)) (APIKey c)) ||
                   negb (String.eqb (BaseURL (config d)) (BaseURL c)) ||
                   negb (String.eqb (Model (config d)) (Model c)) in
    let d1 := mkDepgramTTS c (conn d) (currentSession d) (charCount d) (isInitialized d)
                (heartbeatStarted d) (dialed d) (sessions d) in
    (if changed then cleanup_current d1 else d1, Ok tt).

(** ** Receiving *)

Inductive incoming : Type :=
| BinaryMessage (data : list Byte.byte)
| MetadataMsg (decodes : bool)
| FlushedMsg | ClearedMsg | WarningMsg
| ErrorMsg (description code : string)
| UnparsableMsg.

Inductive received : Type :=
| GotAudio (chunk : AudioChunk)
| GotError (msg : string).

(** [chan_ready]: the channel the message goes to can take it; audio and
    errors are dropped otherwise. *)
Definition handle_incoming (chan_ready : bool) (m : incoming) : list received :=
  let out :=
    match m with
    | BinaryMessage data => [GotAudio (mkAudioChunk (Some data) 24000 1 PCM 0)]
    | MetadataMsg false => [GotError "failed to parse metadata"]
    | ErrorMsg desc code => [GotError ("Deepgram error: " +:+ desc +:+ " (code: " +:+ code +:+ ")")]
    | UnparsableMsg => [GotError "failed to parse message"]
    | _ => []
    end in
  if chan_ready then out else [].

(** ** The reader of a session and the heartbeat *)

Inductive read_outcome : Type :=
| ReadFailed
| ReadMessage (m : incoming).

(** The deferred function of [handleIncomingMessages]. *)
Definition reader_exits (d : DepgramTTS) (session : nat) : DepgramTTS :=
  if bool_decide (currentSession d = Some session) then cleanupSessionLocked d session else d.

(** The third component tells whether the reader goes on. *)
Definition reader_reconnects (d : DepgramTTS) (session : nat) (dial : nat → result unit)
    (cancelled : nat → bool) (ready : bool) (why : string) : DepgramTTS * list received * bool :=
  match reconnect d dial cancelled with
  | (d1, Ok _) => (d1, [], true)
  | (d1, Err e) => (reader_exits d1 session, if ready then [GotError (why +:+ e)] else [], false)
  end.

(** One round of the reader of a session. *)
Definition reader_round (d : DepgramTTS) (session : nat) (ctx_done : bool) (dial : nat → result unit)
    (cancelled : nat → bool) (o : read_outcome) (ready : bool) : DepgramTTS * list received * bool :=
  if ctx_done then (reader_exits d session, [], false)
  else match conn d with
  | None => reader_reconnects d session dial cancelled ready "reconnect failed: "
  | Some _ =>
      match o with
      | ReadFailed => reader_reconnects d session dial cancelled ready "reconnect failed after read error: "
      | ReadMessage m => (d, handle_incoming ready m, true)
      end
  end.

(** A tick of [heartbeat]; a ping that fails closes the connection. *)
Definition heartbeat_tick (d : DepgramTTS) (ping : result unit) : DepgramTTS :=
  match conn d, ping with
  | Some _, Err _ => closeConnectionLocked d
  | _, _ => d
  end.

(** ** The service's buffer *)

(** What Deepgram holds after a message, and the most it ever held. *)
Definition remote_step (buffered : Z) (m : message) : Z :=
  match m with
  | Speak text => buffered + slen text
  | FlushMsg | ClearMsg => 0
  | CloseMsg => buffered
  end.

Definition remote (buffered : Z) (ms : list message) : Z := fold_left remote_step ms buffered.

Fixpoint peak (buffered : Z) (ms : list message) : Z :=
  match ms with
  | [] => buffered
  | m :: ms' => Z.max buffered (peak (remote_step buffered m) ms')
  end.

Definition spoken_text (ms : list message) : string :=
  str_join "" (map (λ m, match m with Speak t => t | _ => "" end) ms).

Inductive tts_op : Type :=
| OpBuffer (text : string)
| OpFlush
| OpReset.

(** The calls of a session whose writes all succeed. *)
Definition tts_step (d : DepgramTTS) (op : tts_op) : DepgramTTS * list message :=
  match op with
  | OpBuffer text => (BufferText (λ _, true) d text).1
  | OpFlush => (Flush true d).1
  | OpReset => (Reset true d).1
  end.

Fixpoint tts_run (d : DepgramTTS) (ops : list tts_op) : DepgramTTS * list message :=
  match ops with
  | [] => (d, [])
  | op :: ops' =>
      let '(d1, m1) := tts_step d op in
      let '(d2, m2) := tts_run d1 ops' in
      (d2, m1 ++ m2)
  end.

Definition short (op : tts_op) : bool :=
  match op with OpBuffer text => slen text <=? chunkSize | _ => true end.

(** ** Lemmas *)

(** A session is open: the writing methods pass their checks. *)
Definition open (d : DepgramTTS) : Prop := session_check d = Ok tt.

Lemma open_set_count d n : open (set_count d n) ↔ open d.
Proof. reflexivity. Qed.

Lemma slen_nonneg s : 0 <= slen s.
Proof. unfold slen. lia. Qed.

Lemma slen_cut text :
  chunkSize < slen text →
  slen (str_take (Z.to_nat chunkSize) text) = chunkSize ∧
  slen (str_drop (Z.to_nat chunkSize) text) = slen text - chunkSize ∧
  (String.length (str_drop (Z.to_nat chunkSize) text) < String.length text)%nat.
Proof.
  unfold slen, chunkSize, maxCharsBeforeFlush. rewrite str_take_length, str_drop_length. lia.
Qed.

Lemma set_count_twice d a b : set_count (set_count d a) b = set_count d b.
Proof. reflexivity. Qed.

(** The chunk loop with successful writes: it ends, cuts the text, leaves a
    short rest, and never lets the buffer grow by more than one chunk. *)
Lemma send_chunks_spec fuel k d text :
  (String.length text < fuel)%nat →
  ∃ msgs rest k',
    send_chunks fuel (λ _, true) k d text =
      (set_count d (match msgs with [] => charCount d | _ => 0 end), msgs, Ok (rest, k')) ∧
    spoken_text msgs +:+ rest = text ∧ slen rest <= chunkSize ∧
    (msgs = [] ↔ slen text <= chunkSize) ∧
    ∀ c, remote c msgs = (match msgs with [] => c | _ => 0 end) ∧
         (0 <= c → peak c msgs <= c + (match msgs with [] => 0 | _ => chunkSize end)).
Proof.
  revert k d text. induction fuel as [|fuel IH]; intros k d text Hf; [lia|].
  cbn [send_chunks]. destruct (Z.ltb_spec chunkSize (slen text)) as [Hl|Hs].
  - destruct (slen_cut text Hl) as (Ht & Hd & Hlt).
    destruct (IH (S (S k)) (set_count d 0) (str_drop (Z.to_nat chunkSize) text))
      as (msgs & rest & k' & E & Htext & Hrest & Hm & Hr); [lia|].
    cbn [negb]. rewrite E. eexists (Speak _ :: FlushMsg :: msgs), rest, k'.
    split; [|split; [|split; [|split]]].
    + rewrite set_count_twice. by destruct msgs.
    + unfold spoken_text in *. cbn [map]. rewrite !str_join_nil_cons. cbn [String.append].
      rewrite string_app_assoc. change ("" +:+ ?x) with x.
      rewrite <-(str_take_drop (Z.to_nat chunkSize) text) at 2. f_equal. exact Htext.
    + done.
    + split; [done|lia].
    + intros c. destruct (Hr 0) as [Hr0 Hp0]. unfold remote in *. cbn [fold_left remote_step peak].
      split; [by destruct msgs|]. rewrite Ht. intros Hc. specialize (Hp0 ltac:(lia)).
      unfold chunkSize, maxCharsBeforeFlush in *. destruct msgs; lia.
  - exists [], text, k. split; [by destruct d|]. split; [done|]. split; [done|]. split; [done|].
    intros c. cbn. split; [done|lia].
Qed.

Lemma remote_app c a b : remote c (a ++ b) = remote (remote c a) b.
Proof. unfold remote. by rewrite fold_left_app. Qed.

Lemma peak_app c a b : peak c (a ++ b) = Z.max (peak c a) (peak (remote c a) b).
Proof.
  revert c. induction a as [|m a IH]; intros c; cbn [app peak]; [destruct b; cbn; lia|].
  rewrite IH. unfold remote. cbn [fold_left]. lia.
Qed.

Lemma spoken_app a b : spoken_text (a ++ b) = spoken_text a +:+ spoken_text b.
Proof. unfold spoken_text. by rewrite map_app, str_join_nil_app. Qed.

Definition counted (d : DepgramTTS) : Prop := 0 <= charCount d < maxCharsBeforeFlush.

(** What a call promises for its messages, from the count it starts with. *)
Record call_ok (d d' : DepgramTTS) (ms : list message) (is_short : bool) : Prop := {
  ok_open : open d';
  ok_counted : counted d';
  ok_exact : charCount d' = remote (charCount d) ms;
  ok_peak : peak (charCount d) ms < maxCharsBeforeFlush + chunkSize;
  ok_short : is_short = true → peak (charCount d) ms < maxCharsBeforeFlush
}.

Lemma auto_flush_spec d rest k :
  counted d → slen rest <= chunkSize →
  ∃ ms k', auto_flush (λ _, true) k d rest =
             (set_count d (remote (charCount d) (ms ++ [Speak rest])), ms, k') ∧
    spoken_text ms = "" ∧ 0 <= remote (charCount d) (ms ++ [Speak rest]) < maxCharsBeforeFlush ∧
    peak (charCount d) (ms ++ [Speak rest]) < maxCharsBeforeFlush.
Proof.
  unfold counted, auto_flush, chunkSize, maxCharsBeforeFlush. intros Hc Hr.
  pose proof (slen_nonneg rest).
  destruct (Z.leb_spec 2000 (charCount d + slen rest)).
  - exists [FlushMsg], (S k). cbn. split_and!; try done; lia.
  - exists [], k. cbn. split_and!; try done; lia.
Qed.

Lemma BufferText_spec d text :
  open d → counted d →
  ∃ d' ms r, BufferText (λ _, true) d text = (d', ms, r) ∧ spoken_text ms = text ∧
    call_ok d d' ms (slen text <=? chunkSize).
Proof.
  intros Ho Hc. unfold BufferText. rewrite Ho. pose proof Hc as Hc'.
  unfold counted, chunkSize, maxCharsBeforeFlush in Hc'.
  destruct (String.eqb_spec text "") as [->|Hne].
  - exists d, [], (Err "text cannot be empty"). split; [done|]. split; [done|].
    split; try done; cbn; unfold chunkSize, maxCharsBeforeFlush; lia.
  - destruct (send_chunks_spec (S (String.length text)) 0 d text) as
      (m1 & rest & k & -> & Ht & Hr & Hm & Hrem); [lia|].
    set (d1 := set_count d _).
    destruct (Hrem (charCount d)) as [Hr1 Hp1]. specialize (Hp1 ltac:(lia)).
    assert (charCount d1 = remote (charCount d) m1) as Hd1 by (cbn; by rewrite Hr1; destruct m1).
    assert (counted d1) as Hc1.
    { unfold counted, maxCharsBeforeFlush. rewrite Hd1, Hr1. destruct m1; lia. }
    destruct (auto_flush_spec d1 rest k Hc1 Hr) as (m2 & k' & -> & Hsp & Hrange & Hp2).
    rewrite Hd1 in *. rewrite <-remote_app in *. cbn [negb].
    assert (peak (charCount d) (m1 ++ m2 ++ [Speak rest]) <= Z.max (peak (charCount d) m1) 1999)
      as Hpk by (rewrite peak_app; unfold maxCharsBeforeFlush in Hp2; lia).
    eexists _, _, _. split; [reflexivity|]. split.
    + rewrite !spoken_app, Hsp. cbn [String.append]. change ("" +:+ ?x) with x.
      unfold spoken_text at 2. cbn. exact Ht.
    + unfold chunkSize, maxCharsBeforeFlush in *. split; try done; cbn.
      * destruct m1; unfold chunkSize, maxCharsBeforeFlush; lia.
      * intros Hs%Z.leb_le. apply Hm in Hs as ->. cbn in *. unfold maxCharsBeforeFlush. lia.
Qed.

Definition op_text (op : tts_op) : string :=
  match op with OpBuffer text => text | _ => "" end.

Lemma tts_step_spec d op :
  open d → counted d →
  spoken_text (tts_step d op).2 = op_text op ∧
  call_ok d (tts_step d op).1 (tts_step d op).2 (short op).
Proof.
  intros Ho Hc. destruct op as [text| |]; cbn [tts_step short op_text].
  - destruct (BufferText_spec d text Ho Hc) as (d' & ms & r & -> & Ht & Hok). done.
  - unfold Flush. rewrite Ho. cbn. split; [done|]. unfold counted, maxCharsBeforeFlush in Hc.
    split; try done; cbn; unfold chunkSize, maxCharsBeforeFlush; lia.
  - unfold Reset. rewrite Ho. cbn. split; [done|]. unfold counted, maxCharsBeforeFlush in Hc.
    split; try done; cbn; unfold chunkSize, maxCharsBeforeFlush; lia.
Qed.

Lemma tts_run_spec ops : ∀ d,
  open d → counted d →
  spoken_text (tts_run d ops).2 = str_join "" (map op_text ops) ∧
  call_ok d (tts_run d ops).1 (tts_run d ops).2 (forallb short ops).
Proof.
  induction ops as [|op ops IH]; intros d Ho Hc; cbn [tts_run].
  - split; [done|]. unfold counted, maxCharsBeforeFlush in Hc.
    split; try done; cbn; unfold chunkSize, maxCharsBeforeFlush; lia.
  - destruct (tts_step_spec d op Ho Hc) as [Ht [H1 H2 H3 H4 H5]].
    destruct (tts_step d op) as [d1 m1]. cbn [fst snd] in *.
    destruct (IH d1 H1 H2) as [Ht' [H1' H2' H3' H4' H5']].
    destruct (tts_run d1 ops) as [d2 m2]. cbn [fst snd] in *.
    split; [cbn [map]; by rewrite spoken_app, str_join_nil_cons, Ht, Ht'|].
    split; try done; rewrite ?remote_app, ?peak_app, <-?H3; [done|lia|].
    cbn [forallb]. intros [Hs Hss]%andb_true_iff. specialize (H5 Hs). specialize (H5' Hss). lia.
Qed.

(** ** Properties *)


Fixpoint letters (n : nat) : string :=
  match n with O => "" | S n' => "a" +:+ letters n' end.

Definition demo_tts : DepgramTTS :=
  (StartTTSSession (Initialize (NewDepgramTTS (mkDepgramTTSConfig "key" "" ""))).1 None
     (λ _, Ok tt) (λ _, false)).1.


(** The first chunk of a long text is added to what is already buffered: the
    service holds more than its limit. *)
Lemma long_text_exceeds_the_limit :
  maxCharsBeforeFlush <
  peak 0 (tts_run demo_tts [OpBuffer (letters 1800); OpBuffer (letters 1901)]).2.
Proof. vm_compute. reflexivity. Qed.

(** ** A lost connection *)

Lemma establish_some_success dial : (∃ k, (k < 3)%nat ∧ is_ok (dial k) = true) →
  establish maxRetries 0 dial (λ _, false) "" = Ok tt.
Proof.
  intros (k & Hk & Hd). unfold maxRetries. cbn [establish negb Nat.eqb andb].
  destruct (dial 0%nat) as [[]|] eqn:E0; [done|]. destruct (dial 1%nat) as [[]|] eqn:E1; [done|].
  destruct (dial 2%nat) as [[]|] eqn:E2; [done|].
  destruct k as [|[|[|k]]]; [by rewrite E0 in Hd|by rewrite E1 in Hd|by rewrite E2 in Hd|lia].
Qed.

Lemma establish_all_fail dial : (∀ k, (k < 3)%nat → is_ok (dial k) = false) →
  ∃ e, establish maxRetries 0 dial (λ _, false) "" = Err e.
Proof.
  intros Hd. unfold maxRetries. cbn [establish negb Nat.eqb andb].
  pose proof (Hd 0%nat ltac:(lia)) as H0. pose proof (Hd 1%nat ltac:(lia)) as H1. pose proof (Hd 2%nat ltac:(lia)) as H2.
  destruct (dial 0%nat); [done|]. destruct (dial 1%nat); [done|]. destruct (dial 2%nat); [done|]. by eexists.
Qed.

Lemma text_accepted d text : open d → text ≠ "" → is_ok (BufferText (λ _, true) d text).2 = true.
Proof.
  intros Ho Ht. unfold BufferText. rewrite Ho, (proj2 (String.eqb_neq _ _) Ht).
  destruct (send_chunks_spec (S (String.length text)) 0 d text) as (ms & rest & k & -> & _); [lia|].
  by destruct (auto_flush _ _ _ _) as [[d2 m2] k2].
Qed.

(** A session survives the loss of its connection.  Whether a ping of the
    heartbeat failed or the read did, the next round of the session's reader
    has a connection again if one of three attempts succeeds, with the session
    kept and the character count at zero, so that text is accepted; if all of them
    fail the session is over, an error is reported and text is refused. *)
Theorem lost_connection_is_repaired (d : DepgramTTS) (s : nat) (ping : result unit) (o : read_outcome)
    (dial : nat → result unit) (text : string)
    (Hopen : isInitialized d = true ∧ currentSession d = Some s ∧ conn d ≠ None)
    (Hlost : is_ok ping = false ∨ o = ReadFailed) (Htext : text ≠ "") :
  let '(d', got, go_on) := reader_round (heartbeat_tick d ping) s false dial (λ _, false) o true in
  if bool_decide (Exists (λ k, is_ok (dial k) = true) (seq 0 3))
  then go_on = true ∧ got = [] ∧ currentSession d' = Some s ∧ conn d' = Some (dialed d) ∧ charCount d' = 0 ∧
       is_ok (BufferText (λ _, true) d' text).2 = true
  else go_on = false ∧ (∃ e, got = [GotError e]) ∧ currentSession d' = None ∧
       (BufferText (λ _, true) d' text).2 = Err "no active TTS session".
Proof.
  destruct Hopen as (Hi & Hs & Hc).
  assert (∃ c why, reader_round (heartbeat_tick d ping) s false dial (λ _, false) o true =
    reader_reconnects (set_conn d c) s dial (λ _, false) true why) as (c & why & ->).
  { unfold reader_round, heartbeat_tick. destruct (conn d) as [n|] eqn:En; [|done].
    destruct ping as [u|e]; [|by exists None; eexists]. destruct Hlost as [?| ->]; [done|].
    exists (Some n), "reconnect failed after read error: ". assert (set_conn d (Some n) = d) as -> by (rewrite <-En; by destruct d).
    by rewrite En. }
  unfold reader_reconnects, reconnect, establishConnection.
  case_bool_decide as Hd.
  - rewrite establish_some_success.
    2:{ apply Exists_exists in Hd as (k & Hk%elem_of_seq & Hd). exists k. split; [lia|done]. }
    cbn. repeat split; try done.
    apply text_accepted; [|done]. unfold open, session_check, IsConnected. cbn. by rewrite Hi, Hs.
  - destruct (establish_all_fail dial) as [e ->].
    { intros k Hk. apply not_true_is_false. intros Hok. apply Hd, Exists_exists. exists k.
      split; [apply elem_of_seq; lia|done]. }
    unfold reader_exits, cleanupSessionLocked. cbn. rewrite Hs, bool_decide_true by done. cbn.
    repeat split; [by eexists|]. unfold BufferText, session_check. cbn. by rewrite Hi.
Qed.

Lemma lost_connection_is_repaired_witness :
  let d := mkDepgramTTS DefaultConfig (Some 0%nat) (Some 0%nat) 700 true true 1 1 in
  let dial k := if Nat.eqb k 2 then Ok tt else Err "refused" in
  conn (reader_round (heartbeat_tick d (Err "broken pipe")) 0 false dial (λ _, false) ReadFailed true).1.1 = Some 1%nat.
Proof.
  intros d dial.
  pose proof (lost_connection_is_repaired d 0 (Err "broken pipe") ReadFailed dial "Hi") as H.
  specialize (H ltac:(by repeat split) ltac:(by left) ltac:(done)).
  destruct (reader_round _ _ _ _ _ _ _) as [[d' got] go_on]. cbn [fst].
  rewrite bool_decide_true in H by (apply Exists_exists; exists 2%nat; split; [apply elem_of_seq; lia|done]).
  exact (proj1 (proj2 (proj2 (proj2 H)))).
Defined.

(** Both sessions' readers read from the one connection: audio of a session
    started while the reader of the last one is still in its loop may reach the
    channel of the old session. *)
Lemma old_reader_takes_audio d old new n data :
  currentSession d = Some new → old ≠ new → conn d = Some n →
  reader_round d old false (λ _, Ok tt) (λ _, false) (ReadMessage (BinaryMessage data)) true =
  (d, [GotAudio (mkAudioChunk (Some data) 24000 1 PCM 0)], true).
Proof. intros _ _ Hc. unfold reader_round. by rewrite Hc. Qed.
