(* ===== verification/SpeechWire.v ===== *)
(** * What the clients of WebSocket services share

    Go's standard base64 ([encoding/base64], in which audio travels) with its
    round trip, the media chunks the transports emit, and the retry loop with
    which the Cartesia and ElevenLabs clients connect. *)

From Stdlib Require Import Strings.Byte.
From S2P Require Import Prelude Core Audio AudioProofs.

Local Open Scope string_scope.
Local Open Scope list_scope.
Local Open Scope Z_scope.

(** ** Base64 *)

(** The letter of a six-bit value, and back. *)
Definition b64_letter (z : Z) : Ascii.ascii :=
  Ascii.ascii_of_nat (Z.to_nat
    (if z <? 26 then 65 + z else if z <? 52 then 71 + z else if z <? 62 then z - 4
     else if z =? 62 then 43 else 47)).

Definition b64_value (c : Ascii.ascii) : option Z :=
  let n := Z.of_nat (Ascii.nat_of_ascii c) in
  if (65 <=? n) && (n <=? 90) then Some (n - 65)
  else if (97 <=? n) && (n <=? 122) then Some (n - 71)
  else if (48 <=? n) && (n <=? 57) then Some (n + 4)
  else if n =? 43 then Some 62
  else if n =? 47 then Some 63
  else None.

Definition b64_pad : Ascii.ascii := Ascii.ascii_of_nat 61.
Definition is_pad (c : Ascii.ascii) : bool := Ascii.eqb c b64_pad.
Definition is_line_end (c : Ascii.ascii) : bool :=
  let n := Ascii.nat_of_ascii c in Nat.eqb n 10 || Nat.eqb n 13.

(** Four letters at a time; padding only at the end. *)
Fixpoint b64_decode_chars (l : list Ascii.ascii) : option bytes_ :=
  match l with
  | [] => Some []
  | a :: b :: c :: d :: rest =>
      match b64_value a, b64_value b with
      | Some x, Some y =>
          if is_pad c then
            if is_pad d && bool_decide (rest = []) then Some [byte_of (x * 4 + y / 16)] else None
          else match b64_value c with
          | None => None
          | Some z =>
              if is_pad d then
                if bool_decide (rest = [])
                then Some [byte_of (x * 4 + y / 16); byte_of (y * 16 + z / 4)] else None
              else match b64_value d, b64_decode_chars rest with
              | Some w, Some tail =>
                  Some (byte_of (x * 4 + y / 16) :: byte_of (y * 16 + z / 4) ::
                        byte_of (z * 64 + w) :: tail)
              | _, _ => None
              end
          end
      | _, _ => None
      end
  | _ => None
  end.

(** [StdEncoding.DecodeString], which skips line ends. *)
Definition b64_decode (s : string) : option bytes_ :=
  b64_decode_chars (List.filter (λ c, negb (is_line_end c)) (str_chars s)).

Fixpoint b64_encode_chars (bs : bytes_) : list Ascii.ascii :=
  match bs with
  | [] => []
  | [b0] =>
      let v0 := byte_val b0 in
      [b64_letter (v0 / 4); b64_letter (v0 mod 4 * 16); b64_pad; b64_pad]
  | [b0; b1] =>
      let v0 := byte_val b0 in let v1 := byte_val b1 in
      [b64_letter (v0 / 4); b64_letter (v0 mod 4 * 16 + v1 / 16); b64_letter (v1 mod 16 * 4); b64_pad]
  | b0 :: b1 :: b2 :: rest =>
      let v0 := byte_val b0 in let v1 := byte_val b1 in let v2 := byte_val b2 in
      b64_letter (v0 / 4) :: b64_letter (v0 mod 4 * 16 + v1 / 16) ::
      b64_letter (v1 mod 16 * 4 + v2 / 64) :: b64_letter (v2 mod 64) :: b64_encode_chars rest
  end.

(** [StdEncoding.EncodeToString]. *)
Definition b64_encode (bs : bytes_) : string := str_of_chars (b64_encode_chars bs).

Definition sextet (z : Z) : Prop := 0 <= z < 64.

(** A property of the sixty-four values, by evaluation. *)
Lemma sextet_cases (P : Z → bool) : forallb P (map Z.of_nat (seq 0 64)) = true → ∀ z, sextet z → P z = true.
Proof.
  rewrite forallb_forall. intros H z [H0 H1]. apply H. apply in_map_iff.
  exists (Z.to_nat z). split; [lia|]. apply in_seq. lia.
Qed.

Definition letter_ok (z : Z) : bool :=
  match b64_value (b64_letter z) with
  | Some v => (v =? z) && negb (is_pad (b64_letter z)) && negb (is_line_end (b64_letter z))
  | None => false
  end.

Lemma all_letters_ok : forallb letter_ok (map Z.of_nat (seq 0 64)) = true.
Proof. vm_compute. reflexivity. Qed.

Lemma b64_value_letter z :
  sextet z → b64_value (b64_letter z) = Some z ∧ is_pad (b64_letter z) = false ∧
             is_line_end (b64_letter z) = false.
Proof.
  intros Hz. pose proof (sextet_cases letter_ok all_letters_ok z Hz) as H. unfold letter_ok in H.
  destruct (b64_value (b64_letter z)) as [v|]; [|done].
  apply andb_true_iff in H as [[->%Z.eqb_eq H2%negb_true_iff]%andb_true_iff H3%negb_true_iff]. done.
Qed.

Lemma b64_sextets b0 b1 b2 :
  let v0 := byte_val b0 in let v1 := byte_val b1 in let v2 := byte_val b2 in
  sextet (v0 / 4) ∧ sextet (v0 mod 4 * 16) ∧ sextet (v0 mod 4 * 16 + v1 / 16) ∧
  sextet (v1 mod 16 * 4) ∧ sextet (v1 mod 16 * 4 + v2 / 64) ∧ sextet (v2 mod 64).
Proof.
  cbn zeta. unfold sextet.
  assert (∀ b d k, 0 < d → 256 = d * k → 0 <= byte_val b / d < k) as Hd.
  { intros b d k Hd Hk. pose proof (byte_val_range b).
    split; [apply Z.div_pos; lia|apply Z.div_lt_upper_bound; lia]. }
  pose proof (Hd b0 4 64 ltac:(lia) ltac:(lia)). pose proof (Hd b1 16 16 ltac:(lia) ltac:(lia)).
  pose proof (Hd b2 64 4 ltac:(lia) ltac:(lia)). pose proof (Z.mod_pos_bound (byte_val b0) 4).
  pose proof (Z.mod_pos_bound (byte_val b1) 16). pose proof (Z.mod_pos_bound (byte_val b2) 64). lia.
Qed.

(** Cutting two neighbouring values and joining the parts again. *)
Lemma join_high v x k d :
  0 < d → 0 <= x < d → (v / k * k + (v mod k * d + x) / d) = v / k * k + v mod k.
Proof. intros Hd Hx. rewrite Z.div_add_l, (Z.div_small x d) by lia. lia. Qed.

Lemma byte_of_eq c z b : z = c * 256 + byte_val b → byte_of z = b.
Proof.
  intros ->. rewrite <-byte_of_mod, Z.add_comm, Z.mod_add by lia. rewrite byte_of_mod. apply byte_of_val.
Qed.

Lemma first_byte b x : 0 <= x < 16 → byte_of (byte_val b / 4 * 4 + (byte_val b mod 4 * 16 + x) / 16) = b.
Proof.
  intros Hx. apply (byte_of_eq 0). rewrite join_high by lia. pose proof (Z.div_mod (byte_val b) 4). lia.
Qed.

Lemma second_byte y b x :
  0 <= x < 4 → byte_of ((y * 16 + byte_val b / 16) * 16 + (byte_val b mod 16 * 4 + x) / 4) = b.
Proof.
  intros Hx. apply (byte_of_eq y). pose proof (join_high (byte_val b) x 16 4 ltac:(lia) Hx).
  pose proof (Z.div_mod (byte_val b) 16). lia.
Qed.

Lemma third_byte y b : byte_of ((y * 4 + byte_val b / 64) * 64 + byte_val b mod 64) = b.
Proof. apply (byte_of_eq y). pose proof (Z.div_mod (byte_val b) 64). lia. Qed.

Lemma high_parts b : 0 <= byte_val b / 16 < 16 ∧ 0 <= byte_val b / 64 < 4.
Proof.
  pose proof (byte_val_range b).
  split; (split; [apply Z.div_pos; lia|apply Z.div_lt_upper_bound; lia]).
Qed.

(** Induction on bytes three at a time. *)
Lemma list_ind3 {A} (P : list A → Prop) :
  P [] → (∀ a, P [a]) → (∀ a b, P [a; b]) → (∀ a b c l, P l → P (a :: b :: c :: l)) → ∀ l, P l.
Proof.
  intros H0 H1 H2 H3 l. remember (length l) as n eqn:E. revert l E.
  induction n as [n IH] using lt_wf_ind; intros l ->.
  destruct l as [|a [|b [|c l]]]; auto. apply H3. eapply IH; [|reflexivity]. cbn; lia.
Qed.

Lemma b64_decode_encode_chars bs : b64_decode_chars (b64_encode_chars bs) = Some bs.
Proof.
  induction bs as [|b0|b0 b1|b0 b1 b2 bs IH] using list_ind3; [done|..].
  - destruct (b64_sextets b0 b0 b0) as (S1 & S2 & _).
    cbn [b64_encode_chars b64_decode_chars].
    destruct (b64_value_letter _ S1) as (-> & _), (b64_value_letter _ S2) as (-> & _).
    cbn. do 2 f_equal. pose proof (first_byte b0 0 ltac:(lia)) as E. by rewrite Z.add_0_r in E.
  - destruct (b64_sextets b0 b1 b0) as (S1 & _ & S2 & S3 & _).
    cbn [b64_encode_chars b64_decode_chars].
    destruct (b64_value_letter _ S1) as (-> & _), (b64_value_letter _ S2) as (-> & _),
      (b64_value_letter _ S3) as (-> & -> & _).
    cbn. destruct (high_parts b1) as [H1 _]. rewrite first_byte by done.
    pose proof (second_byte (byte_val b0 mod 4) b1 0 ltac:(lia)) as E. rewrite Z.add_0_r in E.
    by rewrite E.
  - destruct (b64_sextets b0 b1 b2) as (S1 & _ & S2 & _ & S3 & S4).
    cbn [b64_encode_chars b64_decode_chars].
    destruct (b64_value_letter _ S1) as (-> & _), (b64_value_letter _ S2) as (-> & _),
      (b64_value_letter _ S3) as (-> & -> & _), (b64_value_letter _ S4) as (-> & -> & _).
    rewrite IH. destruct (high_parts b1) as [H1 _], (high_parts b2) as [_ H2].
    by rewrite first_byte, second_byte, third_byte.
Qed.

Lemma str_chars_of l : str_chars (str_of_chars l) = l.
Proof. induction l as [|c l IH]; cbn; [done|by rewrite IH]. Qed.

Lemma encode_no_line_ends bs :
  List.filter (λ c, negb (is_line_end c)) (b64_encode_chars bs) = b64_encode_chars bs.
Proof.
  assert (∀ z, sextet z → negb (is_line_end (b64_letter z)) = true) as Hl.
  { intros z Hz. by destruct (b64_value_letter z Hz) as (_ & _ & ->). }
  induction bs as [|b0|b0 b1|b0 b1 b2 bs IH] using list_ind3; [done|..].
  - destruct (b64_sextets b0 b0 b0) as (S1 & S2 & _). cbn [b64_encode_chars List.filter].
    by rewrite !Hl.
  - destruct (b64_sextets b0 b1 b0) as (S1 & _ & S2 & S3 & _). cbn [b64_encode_chars List.filter].
    by rewrite !Hl.
  - destruct (b64_sextets b0 b1 b2) as (S1 & _ & S2 & _ & S3 & S4).
    cbn [b64_encode_chars List.filter]. by rewrite !Hl, IH.
Qed.

Lemma b64_roundtrip bs : b64_decode (b64_encode bs) = Some bs.
Proof.
  unfold b64_decode, b64_encode. rewrite str_chars_of, encode_no_line_ends.
  apply b64_decode_encode_chars.
Qed.

Example b64_ex : b64_encode [x4d; x61] = "TWE=" ∧ b64_decode "TW==" = Some [x4d] ∧ b64_decode "TW=" = None.
Proof. vm_compute. done. Qed.

Lemma b64_encode_not_empty bs : bs ≠ [] → String.eqb (b64_encode bs) "" = false.
Proof.
  intros Hb. apply String.eqb_neq. intros E. pose proof (b64_roundtrip bs) as R. rewrite E in R.
  vm_compute in R. by injection R.
Qed.

(** ** Sessions *)

(** A configuration field that was left out. *)
Definition or_default (s d : string) : string := if String.eqb s "" then d else s.

(** What the reader of a session hands to its channels. *)
Inductive received : Type :=
| GotAudio (chunk : AudioChunk)
| GotError (msg : string).

(** A media chunk with audio only, or with text only. *)
Definition audio_media (c : AudioChunk) : MediaChunk :=
  mkMediaChunk c (mkVideoChunk None 0 "" "" 0) (mkTextChunk "").
Definition text_media (t : string) : MediaChunk :=
  mkMediaChunk (mkAudioChunk None 0 0 PCM 0) (mkVideoChunk None 0 "" "" 0) (mkTextChunk t).

(** Both services ask for 24 kHz mono PCM. *)
Definition pcm24 (raw : bytes_) : AudioChunk := mkAudioChunk (Some raw) 24000 1 PCM 0.

(** Audio and errors go to the channels of the reader's session [s], unless
    those were cleared or cannot take them; [live] are the sessions whose
    channels have not been cleared. *)
Definition to_session (live : gset nat) (s : nat) (ready : bool) (r : received) : list received :=
  if bool_decide (s ∈ live) && ready then [r] else [].

(** ** Connecting *)

Definition maxRetries : nat := 3.

(** [dial k] is the outcome of the [k]-th attempt and [cancelled k] whether the
    context ends during the delay before it; the delay grows with the attempt. *)
Fixpoint attempts (fuel attempt : nat) (prefix : string) (dial : nat → result unit)
    (cancelled : nat → bool) (lastErr : string) : result unit :=
  match fuel with
  | O => Err (prefix +:+ "failed to connect after 3 attempts: " +:+ lastErr)
  | S fuel' =>
      if negb (Nat.eqb attempt 0) && cancelled attempt then Err "context canceled"
      else match dial attempt with
           | Ok _ => Ok tt
           | Err e => attempts fuel' (S attempt) prefix dial cancelled e
           end
  end.

(** What a service finds when it connects: the dials and the cancellations. *)
Record network := mkNetwork { dial : nat → result unit; cancelled : nat → bool }.

Definition online : network := mkNetwork (λ _, Ok tt) (λ _, false).
Definition offline : network := mkNetwork (λ _, Err "unreachable") (λ _, false).

Lemma attempts_three prefix net :
  is_ok (attempts maxRetries 0 prefix (dial net) (cancelled net) "") = true ↔
  is_ok (dial net 0%nat) = true ∨
  cancelled net 1%nat = false ∧ (is_ok (dial net 1%nat) = true ∨
    cancelled net 2%nat = false ∧ is_ok (dial net 2%nat) = true).
Proof.
  cbn. destruct (dial net 0%nat); cbn; [naive_solver|]. destruct (cancelled net 1%nat); cbn; [naive_solver|].
  destruct (dial net 1%nat); cbn; [naive_solver|]. destruct (cancelled net 2%nat); cbn; [naive_solver|].
  destruct (dial net 2%nat); naive_solver.
Qed.
