(* ===== verification/Cartesia.v ===== *)
(** * Cartesia speech synthesis: [services/cartesia/tts/tts.go]

    One WebSocket connection per session; each utterance has a context id, and
    a reset cancels the context instead of the connection.  A context id is
    the next of the random UUIDs; that they are distinct is the law of the
    class [Uuids].  The operations take [mu] and [reconnectMu], the goroutine
    that reads and the one that pings are steps of their own.  Whether a dial or
    a write succeeds is an argument; the close frame is left out. *)

From Stdlib Require Import Strings.Byte.
From S2P Require Import Prelude Core Audio AudioProofs SpeechWire.

Local Open Scope string_scope.
Local Open Scope list_scope.
Local Open Scope Z_scope.

Definition defaultCartesiaURL : string := "wss://api.cartesia.ai/tts/websocket".
Definition defaultCartesiaModelID : string := "sonic-2".
Definition defaultCartesiaVoiceID : string := "a0e99841-438c-4a64-b679-ae501e7d6091".
Definition defaultCartesiaAPIVersion : string := "2024-11-13".
Definition defaultCartesiaLanguage : string := "en".

Record CartesiaTTSConfig := mkCartesiaConfig {
  APIKey : string;
  BaseURL : string;
  ModelID : string;
  VoiceID : string;
  Language : string;
  APIVersion : string
}.

(** ** Messages *)

Record cartesiaTTSRequest := mkRequest {
  rq_ModelID : string;
  Transcript : string;
  Voice : string;                       (* its id; the mode is "id" *)
  SampleRate_ : Z;                      (* raw pcm_s16le *)
  ContextID : string;
  Continue : bool;
  Flush_ : bool;
  rq_Language : string;
  MaxBufferDelayMs : Z
}.

Inductive message : Type :=
| Request (r : cartesiaTTSRequest)
| CancelRequest (contextID : string).

Definition message_context (m : message) : string :=
  match m with Request r => ContextID r | CancelRequest c => c end.

(** The JSON fields of a request, without those [omitempty] leaves out. *)
Definition request_fields (r : cartesiaTTSRequest) : list (string * any) :=
  [("model_id", AnyString (rq_ModelID r)); ("transcript", AnyString (Transcript r));
   ("voice", AnyMap [("id", AnyString (Voice r)); ("mode", AnyString "id")]);
   ("output_format", AnyMap [("container", AnyString "raw"); ("encoding", AnyString "pcm_s16le");
                             ("sample_rate", AnyNumber (itoa (SampleRate_ r)))]);
   ("context_id", AnyString (ContextID r)); ("continue", AnyBool (Continue r))] ++
  (if Flush_ r then [("flush", AnyBool true)] else []) ++
  (if String.eqb (rq_Language r) "" then [] else [("language", AnyString (rq_Language r))]) ++
  (if MaxBufferDelayMs r =? 0 then []
   else [("max_buffer_delay_ms", AnyNumber (itoa (MaxBufferDelayMs r)))]).

Definition cartesiaEncodingString (enc : AudioEncodingFormat) : string :=
  match enc with ULAW => "pcm_mulaw" | _ => "pcm_s16le" end.

(** ** The service *)

(** The [n]-th UUID drawn. *)
Class Uuids := {
  uuid : nat → string;
  uuid_inj n m : uuid n = uuid m → n = m
}.

(** Connections and sessions are numbered; [live] are the sessions whose
    channels have not been cleared; [ctxDone]: the context was cancelled. *)
Record CartesiaTTS := mkCartesia {
  config : CartesiaTTSConfig;
  conn : option nat;
  session : option nat;
  contextID : string;
  isInitialized : bool;
  heartbeatStarted : bool;
  ctxDone : bool;
  drawn : nat;
  dialed : nat;
  sessions : nat;
  live : gset nat
}.

Definition NewCartesiaTTS (c : CartesiaTTSConfig) : CartesiaTTS :=
  mkCartesia
    (mkCartesiaConfig (APIKey c) (or_default (BaseURL c) defaultCartesiaURL)
       (or_default (ModelID c) defaultCartesiaModelID) (or_default (VoiceID c) defaultCartesiaVoiceID)
       (or_default (Language c) defaultCartesiaLanguage)
       (or_default (APIVersion c) defaultCartesiaAPIVersion))
    None None "" false false false 0 0 0 ∅.

Definition set_conn (c : CartesiaTTS) (k : option nat) : CartesiaTTS :=
  mkCartesia (config c) k (session c) (contextID c) (isInitialized c) (heartbeatStarted c)
    (ctxDone c) (drawn c) (dialed c) (sessions c) (live c).

Section service.
Context `{Uuids}.

(** [c.contextID = newContextID()]. *)
Definition rotate (c : CartesiaTTS) : CartesiaTTS :=
  mkCartesia (config c) (conn c) (session c) (uuid (drawn c)) (isInitialized c) (heartbeatStarted c)
    (ctxDone c) (S (drawn c)) (dialed c) (sessions c) (live c).

Definition Initialize (c : CartesiaTTS) : CartesiaTTS * result unit :=
  if isInitialized c then (c, Ok tt)
  else if String.eqb (APIKey (config c)) "" then (c, Err "cartesia: API key is required")
  else (rotate (mkCartesia (config c) (conn c) (session c) (contextID c) true (heartbeatStarted c)
                  false (drawn c) (dialed c) (sessions c) (live c)), Ok tt).

Definition closeConnectionLocked (c : CartesiaTTS) : CartesiaTTS := set_conn c None.

Definition cleanupSessionLocked (c : CartesiaTTS) (s : nat) : CartesiaTTS :=
  mkCartesia (config c) None (if bool_decide (session c = Some s) then None else session c)
    (contextID c) (isInitialized c) (heartbeatStarted c) (ctxDone c) (drawn c) (dialed c)
    (sessions c) (live c ∖ {[s]}).

Definition Cleanup (c : CartesiaTTS) : CartesiaTTS :=
  if negb (isInitialized c) then c
  else mkCartesia (config c) None None (contextID c) false false true (drawn c) (dialed c)
         (sessions c) (live c).

(** The address dialled. *)
Definition dial_url (c : CartesiaTTS) : string :=
  BaseURL (config c) +:+ "?api_key=" +:+ APIKey (config c) +:+ "&cartesia_version=" +:+
  APIVersion (config c).

Definition establishConnection (c : CartesiaTTS) (net : network) : CartesiaTTS * result nat :=
  match attempts maxRetries 0 "cartesia: " (dial net) (cancelled net) "" with
  | Ok _ =>
      (mkCartesia (config c) (conn c) (session c) (contextID c) (isInitialized c) (heartbeatStarted c)
         (ctxDone c) (drawn c) (S (dialed c)) (sessions c) (live c), Ok (dialed c))
  | Err e => (c, Err e)
  end.

(** [nil_chan] names the first nil channel among the arguments, if any. *)
Definition StartTTSSession (c : CartesiaTTS) (nil_chan : option string) (net : network)
    : CartesiaTTS * result unit :=
  if negb (isInitialized c) then (c, Err "cartesia: service not initialized")
  else match nil_chan with
  | Some ch => (c, Err ("cartesia: " +:+ ch +:+ " cannot be nil"))
  | None =>
      let c1 := match session c with Some s => cleanupSessionLocked c s | None => c end in
      match establishConnection c1 net with
      | (c2, Err e) => (c2, Err ("cartesia: failed to establish WebSocket connection: " +:+ e))
      | (c2, Ok k) =>
          (mkCartesia (config c2) (Some k) (Some (sessions c2)) (contextID c2) (isInitialized c2) true
             (ctxDone c2) (drawn c2) (dialed c2) (S (sessions c2)) ({[sessions c2]} ∪ live c2), Ok tt)
      end
  end.

Definition IsConnected (c : CartesiaTTS) : bool :=
  match conn c, session c with Some _, Some _ => true | _, _ => false end.

Definition session_check (c : CartesiaTTS) : result unit :=
  if negb (isInitialized c) then Err "cartesia: service not initialized"
  else if negb (IsConnected c) then Err "cartesia: no active TTS session"
  else Ok tt.

Definition buildRequest (c : CartesiaTTS) (transcript ctxID : string) (continue_ flush : bool)
    : cartesiaTTSRequest :=
  mkRequest (ModelID (config c)) transcript (VoiceID (config c)) 24000 ctxID continue_ flush
    (Language (config c)) 0.

(** An operation: the service, what it wrote, the error; [write] is the outcome of
    the write. *)
Definition outcome : Type := CartesiaTTS * list message * result unit.

Definition BufferText (write : result unit) (c : CartesiaTTS) (text : string) : outcome :=
  match session_check c with
  | Err e => (c, [], Err e)
  | Ok _ =>
      if String.eqb text "" then (c, [], Err "cartesia: text cannot be empty")
      else match write with
           | Err e => (c, [], Err e)
           | Ok _ => (c, [Request (buildRequest c text (contextID c) true false)], Ok tt)
           end
  end.

Definition Flush (write : result unit) (c : CartesiaTTS) : outcome :=
  match session_check c with
  | Err e => (c, [], Err e)
  | Ok _ =>
      match write with
      | Err e => (c, [], Err e)
      | Ok _ => (rotate c, [Request (buildRequest c " " (contextID c) false true)], Ok tt)
      end
  end.

(** A failed cancel is only logged. *)
Definition Reset (write : result unit) (c : CartesiaTTS) : outcome :=
  match session_check c with
  | Err e => (c, [], Err e)
  | Ok _ => (rotate c, match write with Ok _ => [CancelRequest (contextID c)] | Err _ => [] end, Ok tt)
  end.

Definition reconnect (c : CartesiaTTS) (net : network) : CartesiaTTS * result unit :=
  match establishConnection (closeConnectionLocked c) net with
  | (c1, Err e) => (c1, Err e)
  | (c1, Ok k) => (set_conn c1 (Some k), Ok tt)
  end.

(** ** Reading *)

(** A JSON frame from the service. *)
Record cartesiaResponse := mkResponse {
  rs_Type : string;
  rs_ContextID : string;
  StatusCode : Z;
  Done : bool;
  Error_ : string;
  rs_Data : string
}.

Definition forwardAudio (c : CartesiaTTS) (s : nat) (ready : bool) (raw : list Byte.byte)
    : list received :=
  to_session (live c) s ready (GotAudio (pcm24 raw)).

Definition sendError (c : CartesiaTTS) (s : nat) (ready : bool) (err : string) : list received :=
  to_session (live c) s ready (GotError err).

(** [None]: a frame that does not parse. *)
Definition handleTextMessage (c : CartesiaTTS) (s : nat) (ready : bool) (msg : option cartesiaResponse)
    : list received :=
  match msg with
  | None => []
  | Some r =>
      if String.eqb (rs_Type r) "chunk" then
        if String.eqb (rs_Data r) "" then []
        else match b64_decode (rs_Data r) with
             | Some raw => forwardAudio c s ready raw
             | None => []
             end
      else if String.eqb (rs_Type r) "error" then
        sendError c s ready ("cartesia error (status " +:+ itoa (StatusCode r) +:+ "): " +:+ Error_ r)
      else []
  end.

Inductive read_outcome : Type :=
| ReadFailed
| BinaryMessage (raw : list Byte.byte)
| TextMessage (msg : option cartesiaResponse).

(** The deferred function of the reader of session [s]. *)
Definition reader_exits (c : CartesiaTTS) (s : nat) : CartesiaTTS :=
  if bool_decide (session c = Some s) then cleanupSessionLocked c s else c.

Definition reader_reconnects (c : CartesiaTTS) (s : nat) (net : network) (ready : bool) (why : string)
    : CartesiaTTS * list received * bool :=
  match reconnect c net with
  | (c1, Ok _) => (c1, [], true)
  | (c1, Err e) =>
      (reader_exits c1 s, sendError c1 s ready ("cartesia: reconnect failed" +:+ why +:+ ": " +:+ e), false)
  end.

(** One round of [handleIncomingMessages] for session [s]; the flag tells
    whether the reader goes on. *)
Definition reader_round (c : CartesiaTTS) (s : nat) (net : network) (o : read_outcome) (ready : bool)
    : CartesiaTTS * list received * bool :=
  if ctxDone c then (reader_exits c s, [], false)
  else match conn c with
  | None => reader_reconnects c s net ready ""
  | Some _ =>
      match o with
      | ReadFailed => reader_reconnects c s net ready " after read error"
      | BinaryMessage raw => (c, forwardAudio c s ready raw, true)
      | TextMessage msg => (c, handleTextMessage c s ready msg, true)
      end
  end.

(** A ping of the heartbeat. *)
Definition heartbeat_tick (c : CartesiaTTS) (ping : result unit) : CartesiaTTS :=
  match conn c, ping with
  | Some _, Err _ => closeConnectionLocked c
  | _, _ => c
  end.

(** ** The protocol of contexts *)

Inductive op : Type :=
| OpBuffer (text : string) (write : result unit)
| OpFlush (write : result unit)
| OpReset (write : result unit)
| OpReader (s : nat) (net : network) (o : read_outcome) (ready : bool)
| OpPing (ping : result unit)
| OpStart (nil_chan : option string) (net : network)
| OpCleanup
| OpInitialize.

Definition step (c : CartesiaTTS) (o : op) : CartesiaTTS * list message :=
  match o with
  | OpBuffer text w => (BufferText w c text).1
  | OpFlush w => (Flush w c).1
  | OpReset w => (Reset w c).1
  | OpReader s net r ready => ((reader_round c s net r ready).1.1, [])
  | OpPing ping => (heartbeat_tick c ping, [])
  | OpStart nil_chan net => ((StartTTSSession c nil_chan net).1, [])
  | OpCleanup => (Cleanup c, [])
  | OpInitialize => ((Initialize c).1, [])
  end.

Fixpoint run (c : CartesiaTTS) (ops : list op) : CartesiaTTS * list message :=
  match ops with
  | [] => (c, [])
  | o :: ops' =>
      let '(c1, m1) := step c o in
      let '(c2, m2) := run c1 ops' in
      (c2, m1 ++ m2)
  end.

(** The messages that end a context. *)
Definition ends (m : message) : bool :=
  match m with Request r => Flush_ r && negb (Continue r) | CancelRequest _ => true end.

(** [ms] follows the protocol when no context in [over] is used again. *)
Fixpoint protocol (over : gset string) (ms : list message) : Prop :=
  match ms with
  | [] => True
  | m :: ms' =>
      (message_context m ∉ over) ∧
      protocol (if ends m then {[message_context m]} ∪ over else over) ms'
  end.

(** The contexts that are over after some messages. *)
Definition over_after (over : gset string) (ms : list message) : gset string :=
  fold_left (λ o m, if ends m then {[message_context m]} ∪ o else o) ms over.

Lemma protocol_app over a b : protocol over (a ++ b) ↔ protocol over a ∧ protocol (over_after over a) b.
Proof.
  revert over. induction a as [|m a IH]; intros over; cbn [protocol app]; [tauto|].
  rewrite IH. unfold over_after. cbn. tauto.
Qed.

(** Only contexts that were given up are over. *)
Record contexts_ok (c : CartesiaTTS) (over : gset string) : Prop := {
  ctx_current : isInitialized c = true → ∃ n, contextID c = uuid n ∧ drawn c = S n;
  ctx_over x : x ∈ over → ∃ n, x = uuid n ∧ (S n < drawn c)%nat
}.

(** What a step changes of the contexts. *)
Inductive keeps (c c' : CartesiaTTS) : Prop :=
| keeps_all : contextID c' = contextID c → drawn c' = drawn c →
    (isInitialized c' = true → isInitialized c = true) → keeps c c'
| draws_one : contextID c' = uuid (drawn c) → drawn c' = S (drawn c) → keeps c c'.

Lemma keeps_ok c c' over : keeps c c' → contexts_ok c over → contexts_ok c' over.
Proof.
  intros [Ec Ed Ei|Ec Ed] [H1 H2]; split.
  - rewrite Ec, Ed. auto.
  - rewrite Ed. done.
  - rewrite Ec, Ed. eauto.
  - intros x Hx. destruct (H2 x Hx) as (n & -> & Hn). exists n. split; [done|lia].
Qed.

(** Ending the current context and drawing the next. *)
Lemma rotate_ok c over :
  isInitialized c = true → contexts_ok c over →
  (contextID c ∉ over) ∧ contexts_ok (rotate c) ({[contextID c]} ∪ over).
Proof.
  intros Hi [H1 H2]. destruct (H1 Hi) as (n & En & Ed). split; [|split].
  - intros Hin. destruct (H2 _ Hin) as (m & Em & Hm). rewrite En in Em.
    apply uuid_inj in Em. lia.
  - intros _. exists (drawn c). done.
  - cbn. intros x [Hx%elem_of_singleton|Hx]%elem_of_union.
    + exists n. subst. split; [done|lia].
    + destruct (H2 x Hx) as (m & -> & Hm). exists m. split; [done|lia].
Qed.

Lemma current_not_over c over : isInitialized c = true → contexts_ok c over → contextID c ∉ over.
Proof. intros Hi H1. by apply rotate_ok. Qed.

Lemma session_check_ok c u : session_check c = Ok u → isInitialized c = true.
Proof. unfold session_check. by destruct (isInitialized c). Qed.

Lemma establish_keeps c net : keeps c (establishConnection c net).1.
Proof. unfold establishConnection. destruct (attempts _ _ _ _ _ _); by apply keeps_all. Qed.

Lemma keeps_trans_const c c1 c2 :
  keeps c c1 → contextID c2 = contextID c1 → drawn c2 = drawn c1 →
  (isInitialized c2 = true → isInitialized c1 = true) → keeps c c2.
Proof. intros [] ???; [apply keeps_all|apply draws_one]; try congruence; auto. Qed.

Lemma reconnect_keeps c net : keeps c (reconnect c net).1.
Proof.
  unfold reconnect. pose proof (establish_keeps (closeConnectionLocked c) net) as Hk.
  destruct (establishConnection _ net) as [c1 [k|e]]; cbn in *; destruct Hk;
    (by apply keeps_all) || (by apply draws_one).
Qed.

Lemma reader_exits_keeps c s : keeps c (reader_exits c s).
Proof. unfold reader_exits. case_bool_decide; by apply keeps_all. Qed.

Lemma reader_reconnects_keeps c s net ready why : keeps c (reader_reconnects c s net ready why).1.1.
Proof.
  unfold reader_reconnects. pose proof (reconnect_keeps c net) as Hk.
  destruct (reconnect c net) as [c1 [u|e]]; cbn in *; [done|].
  apply (keeps_trans_const c c1); [done|..]; unfold reader_exits; by case_bool_decide.
Qed.

Lemma reader_round_keeps c s net o ready : keeps c (reader_round c s net o ready).1.1.
Proof.
  unfold reader_round. destruct (ctxDone c); [apply reader_exits_keeps|].
  destruct (conn c); [destruct o|]; try apply reader_reconnects_keeps; by apply keeps_all.
Qed.

Lemma start_keeps c nil_chan net : keeps c (StartTTSSession c nil_chan net).1.
Proof.
  unfold StartTTSSession. destruct (isInitialized c) eqn:Ei; cbn; [|by apply keeps_all].
  destruct nil_chan; [by apply keeps_all|].
  set (c1 := match session c with Some s => _ | None => c end).
  assert (keeps c c1) as Hk by (unfold c1; destruct (session c); by apply keeps_all).
  unfold establishConnection. destruct (attempts _ _ _ _ _ _); cbn;
    apply (keeps_trans_const c c1); done.
Qed.

(** One step writes at most one message, and the contexts stay in order. *)
Lemma step_protocol c o over :
  contexts_ok c over →
  protocol over (step c o).2 ∧ contexts_ok (step c o).1 (over_after over (step c o).2).
Proof.
  intros Hok.
  assert (∀ c', keeps c c' → protocol over [] ∧ contexts_ok c' (over_after over [])) as Hsilent
    by (intros c' Hk; split; [done|by apply (keeps_ok c)]).
  assert (keeps c c) as Hrefl by (by apply keeps_all).
  destruct o as [text w|w|w|s net r ready|ping|nil_chan net| |]; cbn [step].
  - unfold BufferText. destruct (session_check c) as [u|e] eqn:Es; [|by apply Hsilent].
    destruct (String.eqb text ""); [by apply Hsilent|]. destruct w; [|by apply Hsilent].
    apply session_check_ok in Es. split; [|done]. cbn. split; [|done]. by apply current_not_over.
  - unfold Flush. destruct (session_check c) as [u|e] eqn:Es; [|by apply Hsilent].
    destruct w; [|by apply Hsilent]. apply session_check_ok in Es.
    destruct (rotate_ok c over Es Hok). split; [|done]. cbn. done.
  - unfold Reset. destruct (session_check c) as [u|e] eqn:Es; [|by apply Hsilent].
    apply session_check_ok in Es. destruct w; cbn.
    + destruct (rotate_ok c over Es Hok). done.
    + apply Hsilent. by apply draws_one.
  - apply Hsilent, reader_round_keeps.
  - apply Hsilent. unfold heartbeat_tick. destruct (conn c), ping; by apply keeps_all.
  - apply Hsilent, start_keeps.
  - apply Hsilent. unfold Cleanup. destruct (isInitialized c); by apply keeps_all.
  - apply Hsilent. unfold Initialize. destruct (isInitialized c); [done|].
    destruct (String.eqb _ _); [done|]. by apply draws_one.
Qed.

Lemma run_protocol ops c over : contexts_ok c over → protocol over (run c ops).2.
Proof.
  revert c over. induction ops as [|o ops IH]; intros c over Hok; [done|]. cbn [run].
  destruct (step_protocol c o over Hok) as [Hp Hn]. destruct (step c o) as [c1 m1]. cbn in Hp, Hn.
  specialize (IH c1 _ Hn). destruct (run c1 ops) as [c2 m2]. cbn in *. by apply protocol_app.
Qed.

End service.

(** UUIDs for the examples: as many dashes as were drawn before. *)
Fixpoint dashes (n : nat) : string := match n with O => "u" | S n' => "-" +:+ dashes n' end.

Lemma dashes_inj n m : dashes n = dashes m → n = m.
Proof.
  revert m. induction n as [|n IH]; intros [|m] H1; cbn in H1; try done. f_equal. apply IH. by injection H1.
Qed.

#[export] Instance dashed_uuids : Uuids := {| uuid := dashes; uuid_inj := dashes_inj |}.

Definition example_config : CartesiaTTSConfig := mkCartesiaConfig "key" "" "" "" "" "".

(** An utterance, a read error with a reconnection, an interrupted utterance
    whose flush failed, and another session. *)
Definition example_ops : list op :=
  [OpInitialize; OpStart None online; OpBuffer "Hello" (Ok tt); OpFlush (Ok tt); OpBuffer "Go" (Ok tt);
   OpReader 0 online ReadFailed true; OpFlush (Err "closed"); OpReset (Ok tt); OpBuffer "On" (Ok tt);
   OpStart None online; OpFlush (Ok tt)].

(** C23: Every message goes to a context that is still open: whatever a client
    calls, in whatever order and with whatever failures of the writes, the
    connection and the heartbeat in between, no text is sent under a context
    after that context was flushed or cancelled, and none is ended twice. *)
Theorem context_protocol `{Uuids} (config0 : CartesiaTTSConfig) (ops : list op)
    (before after : list message) (m : message) :
  (run (NewCartesiaTTS config0) ops).2 = before ++ m :: after →
  ends m = true →
  Forall (λ m', message_context m' ≠ message_context m) after.
Proof.
  intros E Hm. assert (protocol ∅ (before ++ m :: after)) as Hp.
  { rewrite <-E. apply run_protocol. split; [done|]. intros x Hx. set_solver. }
  apply protocol_app in Hp as [_ [_ Hp]]. rewrite Hm in Hp. clear E Hm.
  revert Hp. generalize (over_after ∅ before). intros over. set (x := message_context m).
  assert (x ∈ {[x]} ∪ over) as Hx by set_solver. revert Hx. generalize ({[x]} ∪ over).
  induction after as [|m' after IH]; intros o Hx Hp; constructor.
  - destruct Hp as [Hp _]. congruence.
  - destruct Hp as [_ Hp]. eapply IH; [|exact Hp]. destruct (ends m'); set_solver.
Qed.

Definition example_written : list message := (run (NewCartesiaTTS example_config) example_ops).2.

(** The first utterance of the example was flushed and four messages followed. *)
Lemma context_protocol_witness :
  Forall (λ m', message_context m' ≠ "u") (drop 2 example_written) ∧
  map message_context example_written = ["u"; "u"; "-u"; "-u"; "--u"; "--u"].
Proof.
  split; [|vm_compute; reflexivity].
  exact (context_protocol (H := dashed_uuids) example_config example_ops
    (take 1 example_written) (drop 2 example_written)
    (Request (mkRequest "sonic-2" " " defaultCartesiaVoiceID 24000 "u" false true "en" 0))
    ltac:(vm_compute; reflexivity) eq_refl).
Defined.

(** Audio the service sends as base64 text arrives byte by byte. *)
Lemma chunk_audio_intact c s raw ctx status done_ err :
  s ∈ live c → raw ≠ [] →
  handleTextMessage c s true (Some (mkResponse "chunk" ctx status done_ err (b64_encode raw))) =
  [GotAudio (pcm24 raw)].
Proof.
  intros Hs Hraw. unfold handleTextMessage. cbn [rs_Type rs_Data String.eqb].
  replace (String.eqb (b64_encode raw) "") with false.
  - cbn. rewrite b64_roundtrip. unfold forwardAudio, to_session. by rewrite bool_decide_eq_true_2.
  - symmetry. by apply b64_encode_not_empty.
Qed.

(** The context a frame names plays no part, so audio of a cancelled context
    still reaches the session's output. *)
Lemma late_audio_forwarded c s ready r ctx :
  handleTextMessage c s ready (Some r) =
  handleTextMessage c s ready
    (Some (mkResponse (rs_Type r) ctx (StatusCode r) (Done r) (Error_ r) (rs_Data r))).
Proof. reflexivity. Qed.

(** The delay of 0 that is to make synthesis start at once is never sent. *)
Lemma delay_never_sent c transcript ctx continue_ flush :
  existsb (λ kv, String.eqb kv.1 "max_buffer_delay_ms")
    (request_fields (buildRequest c transcript ctx continue_ flush)) = false.
Proof.
  unfold request_fields, buildRequest. cbn. destruct flush, (String.eqb (Language (config c)) ""); reflexivity.
Qed.
