(* ===== verification/ElevenLabs.v ===== *)
(** * ElevenLabs speech synthesis: [services/elevenlabs/tts/tts.go]

    A connection carries one stream of text: it opens with the beginning of
    stream (BOS), which has the voice settings, and a flush sends the empty
    text that ends it (EOS).  A reset closes the connection and dials another;
    the reader of a session dials again when its read fails.

    Connections and sessions are numbered in the order they are made.  The
    operations are whole steps; the reader has two, one that picks the
    connection up and one for the outcome of its [ReadMessage], so that the
    operations fall in between.  Whether a dial or a write succeeds is an
    argument; the close frame is left out. *)

From Stdlib Require Import Strings.Byte QArith.QArith_base.
From S2P Require Import Prelude Core Audio AudioProofs SpeechWire.

Local Open Scope string_scope.
Local Open Scope list_scope.
Local Open Scope Z_scope.

(** A float64 is the rational it stands for. *)
Record ElevenLabsTTSConfig := mkElevenLabsConfig {
  APIKey : string;
  BaseURL : string;
  VoiceID : string;
  ModelID : string;
  Stability : Q;
  SimilarityBoost : Q
}.

Record elBOSMessage := mkBOS {
  bos_Text : string;
  bos_Stability : Q;
  bos_SimilarityBoost : Q;
  ChunkLengthSchedule : list Z
}.

Inductive message : Type :=
| BOS (m : elBOSMessage)
| TextMessage (text : string).

Definition is_BOS (m : message) : bool := match m with BOS _ => true | TextMessage _ => false end.

(** Where the goroutine [handleIncomingMessages] stands. *)
Inductive reader_at : Type :=
| AtLoop
| Reading (k : nat).

(** [live] are the sessions whose channels have not been cleared, [readers] the
    sessions whose reader runs; [ctxDone]: the context was cancelled. *)
Record ElevenLabsTTS := mkElevenLabs {
  config : ElevenLabsTTSConfig;
  conn : option nat;
  currentSession : option nat;
  isInitialized : bool;
  heartbeatStarted : bool;
  ctxDone : bool;
  dialed : nat;
  sessions : nat;
  live : gset nat;
  readers : gmap nat reader_at
}.

Definition q_default (q d : Q) : Q := if Qeq_bool q 0 then d else q.

Definition NewElevenLabsTTS (c : ElevenLabsTTSConfig) : ElevenLabsTTS :=
  mkElevenLabs
    (mkElevenLabsConfig (APIKey c)
       (or_default (BaseURL c) "wss://api.elevenlabs.io/v1/text-to-speech")
       (or_default (VoiceID c) "21m00Tcm4TlvDq8ikWAM")
       (or_default (ModelID c) "eleven_turbo_v2_5")
       (q_default (Stability c) (1 # 2)) (q_default (SimilarityBoost c) (3 # 4)))
    None None false false false 0 0 ∅ ∅.

Definition outputFormatString (encoding : AudioEncodingFormat) (sampleRate : Z) : string :=
  match encoding with
  | ULAW => "ulaw_8000"
  | PCM =>
      if sampleRate =? 16000 then "pcm_16000"
      else if sampleRate =? 22050 then "pcm_22050"
      else if sampleRate =? 44100 then "pcm_44100"
      else "pcm_24000"
  | _ => "pcm_24000"
  end.

Definition set_conn (e : ElevenLabsTTS) (k : option nat) : ElevenLabsTTS :=
  mkElevenLabs (config e) k (currentSession e) (isInitialized e) (heartbeatStarted e) (ctxDone e)
    (dialed e) (sessions e) (live e) (readers e).

Definition set_reader (e : ElevenLabsTTS) (s : nat) (r : option reader_at) : ElevenLabsTTS :=
  mkElevenLabs (config e) (conn e) (currentSession e) (isInitialized e) (heartbeatStarted e) (ctxDone e)
    (dialed e) (sessions e) (live e) (partial_alter (λ _, r) s (readers e)).

Definition Initialize (e : ElevenLabsTTS) : ElevenLabsTTS * result unit :=
  if isInitialized e then (e, Ok tt)
  else if String.eqb (APIKey (config e)) "" then (e, Err "ElevenLabs API key is required")
  else (mkElevenLabs (config e) (conn e) (currentSession e) true (heartbeatStarted e) false
          (dialed e) (sessions e) (live e) (readers e), Ok tt).

Definition closeConnectionLocked (e : ElevenLabsTTS) : ElevenLabsTTS := set_conn e None.

Definition cleanupSessionLocked (e : ElevenLabsTTS) (s : nat) : ElevenLabsTTS :=
  mkElevenLabs (config e) None
    (if bool_decide (currentSession e = Some s) then None else currentSession e)
    (isInitialized e) (heartbeatStarted e) (ctxDone e) (dialed e) (sessions e) (live e ∖ {[s]})
    (readers e).

Definition Cleanup (e : ElevenLabsTTS) : ElevenLabsTTS :=
  if negb (isInitialized e) then e
  else mkElevenLabs (config e) None None false false true (dialed e) (sessions e) (live e) (readers e).

(** The address dialled; the key travels in the header [xi-api-key]. *)
Definition dial_url (e : ElevenLabsTTS) : string :=
  BaseURL (config e) +:+ "/" +:+ VoiceID (config e) +:+ "/stream-input?model_id=" +:+
  ModelID (config e) +:+ "&output_format=" +:+ outputFormatString PCM 24000.

Definition establishConnection (e : ElevenLabsTTS) (net : network) : ElevenLabsTTS * result nat :=
  match attempts maxRetries 0 "" (dial net) (cancelled net) "" with
  | Ok _ =>
      (mkElevenLabs (config e) (conn e) (currentSession e) (isInitialized e) (heartbeatStarted e)
         (ctxDone e) (S (dialed e)) (sessions e) (live e) (readers e), Ok (dialed e))
  | Err err => (e, Err err)
  end.

Definition bos_message (e : ElevenLabsTTS) : elBOSMessage :=
  mkBOS " " (Stability (config e)) (SimilarityBoost (config e)) [120; 160; 250; 290].

(** What an operation wrote, each message with its connection. *)
Abbreviation written := (list (nat * message)).

(** [write] is the outcome of the write. *)
Definition sendBOSLocked (write : result unit) (e : ElevenLabsTTS) (k : nat) : written * result unit :=
  match write with
  | Ok _ => ([(k, BOS (bos_message e))], Ok tt)
  | Err err => ([], Err err)
  end.

Definition outcome : Type := ElevenLabsTTS * written * result unit.

(** Dialling, then the beginning of stream; the connection becomes the
    service's only when both succeed. *)
Definition connect_with_BOS (dial_prefix bos_prefix : string) (net : network) (write : result unit)
    (e : ElevenLabsTTS) : outcome :=
  match establishConnection e net with
  | (e1, Err err) => (e1, [], Err (dial_prefix +:+ err))
  | (e1, Ok k) =>
      match sendBOSLocked write e1 k with
      | (w, Err err) => (e1, w, Err (bos_prefix +:+ err))
      | (w, Ok _) => (set_conn e1 (Some k), w, Ok tt)
      end
  end.

(** [nil_chan] names the first nil channel among the arguments, if any. *)
Definition StartTTSSession (e : ElevenLabsTTS) (nil_chan : option string) (net : network)
    (write : result unit) : outcome :=
  if negb (isInitialized e) then (e, [], Err "service not initialized")
  else match nil_chan with
  | Some ch => (e, [], Err (ch +:+ " cannot be nil"))
  | None =>
      let e1 := match currentSession e with Some s => cleanupSessionLocked e s | None => e end in
      match establishConnection e1 net with
      | (e2, Err err) => (e2, [], Err ("failed to establish WebSocket connection: " +:+ err))
      | (e2, Ok k) =>
          let s := sessions e2 in
          match sendBOSLocked write e2 k with
          | (w, Err err) =>
              (mkElevenLabs (config e2) None None (isInitialized e2) (heartbeatStarted e2) (ctxDone e2)
                 (dialed e2) (S s) ({[s]} ∪ live e2) (readers e2), w,
               Err ("failed to send BOS: " +:+ err))
          | (w, Ok _) =>
              (mkElevenLabs (config e2) (Some k) (Some s) (isInitialized e2) true (ctxDone e2)
                 (dialed e2) (S s) ({[s]} ∪ live e2) (<[s := AtLoop]> (readers e2)), w, Ok tt)
          end
      end
  end.

Definition reconnect (net : network) (write : result unit) (e : ElevenLabsTTS) : outcome :=
  connect_with_BOS "" "failed to send BOS after reconnect: " net write (closeConnectionLocked e).

Definition IsConnected (e : ElevenLabsTTS) : bool :=
  match conn e, currentSession e with Some _, Some _ => true | _, _ => false end.

(** The checks the operations open with, and the connection they use. *)
Definition session_check (e : ElevenLabsTTS) : result nat :=
  if negb (isInitialized e) then Err "service not initialized"
  else match conn e, currentSession e with
  | Some k, Some _ => Ok k
  | _, _ => Err "no active TTS session"
  end.

Definition send_text (write : result unit) (e : ElevenLabsTTS) (k : nat) (text : string) : outcome :=
  match write with
  | Ok _ => (e, [(k, TextMessage text)], Ok tt)
  | Err err => (e, [], Err err)
  end.

Definition BufferText (write : result unit) (e : ElevenLabsTTS) (text : string) : outcome :=
  match session_check e with
  | Err err => (e, [], Err err)
  | Ok k => if String.eqb text "" then (e, [], Err "text cannot be empty") else send_text write e k text
  end.

Definition Flush (write : result unit) (e : ElevenLabsTTS) : outcome :=
  match session_check e with
  | Err err => (e, [], Err err)
  | Ok k => send_text write e k ""
  end.

Definition Reset (net : network) (write : result unit) (e : ElevenLabsTTS) : outcome :=
  match session_check e with
  | Err err => (e, [], Err err)
  | Ok _ =>
      connect_with_BOS "failed to reconnect after reset: " "failed to send BOS after reset: "
        net write (closeConnectionLocked e)
  end.

(** ** Reading *)

(** A JSON frame, by what its fields hold: the text of a non-null [error], with
    its message and code when they parse, and a non-null [audio] with
    [isFinal], when they parse. *)
Record frame := mkFrame {
  fr_error : option (string * option (string * Z));
  fr_audio : option (option (string * bool))
}.

Definition sendError (e : ElevenLabsTTS) (s : nat) (ready : bool) (err : string) : list received :=
  to_session (live e) s ready (GotError err).

Definition forward (e : ElevenLabsTTS) (s : nat) (ready : bool) (raw : bytes_) : list received :=
  to_session (live e) s ready (GotAudio (pcm24 raw)).

(** [None]: not a JSON object. *)
Definition handleTextMessage (e : ElevenLabsTTS) (s : nat) (ready : bool) (message : option frame)
    : list received :=
  match message with
  | None => []
  | Some f =>
      match fr_error f with
      | Some (_, Some (msg, code)) =>
          sendError e s ready ("ElevenLabs error: " +:+ msg +:+ " (code: " +:+ itoa code +:+ ")")
      | Some (raw, None) => sendError e s ready ("ElevenLabs error: " +:+ raw)
      | None =>
          match fr_audio f with
          | Some (Some (audio, _)) =>
              if String.eqb audio "" then []
              else match b64_decode audio with
                   | Some raw => forward e s ready raw
                   | None => []
                   end
          | _ => []
          end
      end
  end.

Inductive read_outcome : Type :=
| ReadFailed
| GotText (message : option frame)
| GotBinary (raw : bytes_).

(** The deferred function, and the end of the goroutine. *)
Definition reader_exits (e : ElevenLabsTTS) (s : nat) : ElevenLabsTTS :=
  set_reader (if bool_decide (currentSession e = Some s) then cleanupSessionLocked e s else e) s None.

Definition reader_outcome : Type := ElevenLabsTTS * written * list received.

Definition reader_reconnects (e : ElevenLabsTTS) (s : nat) (net : network) (write : result unit)
    (ready : bool) (why : string) : reader_outcome :=
  match reconnect net write e with
  | (e1, w, Ok _) => (set_reader e1 s (Some AtLoop), w, [])
  | (e1, w, Err err) =>
      (reader_exits e1 s, w, sendError e1 s ready ("reconnect failed" +:+ why +:+ ": " +:+ err))
  end.

(** The top of the loop: the reader takes the connection up, or dials one. *)
Definition reader_takes (e : ElevenLabsTTS) (s : nat) (net : network) (write : result unit)
    (ready : bool) : reader_outcome :=
  if ctxDone e then (reader_exits e s, [], [])
  else match conn e with
  | None => reader_reconnects e s net write ready ""
  | Some k => (set_reader e s (Some (Reading k)), [], [])
  end.

(** [ReadMessage] returned. *)
Definition reader_reads (e : ElevenLabsTTS) (s : nat) (net : network) (write : result unit)
    (ready : bool) (o : read_outcome) : reader_outcome :=
  match o with
  | ReadFailed =>
      if ctxDone e then (reader_exits e s, [], [])
      else reader_reconnects e s net write ready " after read error"
  | GotText m => (set_reader e s (Some AtLoop), [], handleTextMessage e s ready m)
  | GotBinary raw => (set_reader e s (Some AtLoop), [], forward e s ready raw)
  end.

Definition reader_step (e : ElevenLabsTTS) (s : nat) (net : network) (write : result unit)
    (ready : bool) (o : read_outcome) : reader_outcome :=
  match readers e !! s with
  | None => (e, [], [])
  | Some AtLoop => reader_takes e s net write ready
  | Some (Reading _) => reader_reads e s net write ready o
  end.

(** A ping of the heartbeat. *)
Definition heartbeat_tick (e : ElevenLabsTTS) (ping : result unit) : ElevenLabsTTS :=
  match conn e, ping with
  | Some _, Err _ => closeConnectionLocked e
  | _, _ => e
  end.

(** ** Runs *)

Inductive op : Type :=
| OpInitialize
| OpCleanup
| OpStart (nil_chan : option string) (net : network) (write : result unit)
| OpBuffer (text : string) (write : result unit)
| OpFlush (write : result unit)
| OpReset (net : network) (write : result unit)
| OpReader (s : nat) (net : network) (write : result unit) (ready : bool) (o : read_outcome)
| OpPing (ping : result unit).

Definition step (e : ElevenLabsTTS) (o : op) : ElevenLabsTTS * written :=
  match o with
  | OpInitialize => ((Initialize e).1, [])
  | OpCleanup => (Cleanup e, [])
  | OpStart nil_chan net w => (StartTTSSession e nil_chan net w).1
  | OpBuffer text w => (BufferText w e text).1
  | OpFlush w => (Flush w e).1
  | OpReset net w => (Reset net w e).1
  | OpReader s net w ready r => (reader_step e s net w ready r).1
  | OpPing ping => (heartbeat_tick e ping, [])
  end.

Fixpoint run (e : ElevenLabsTTS) (ops : list op) : ElevenLabsTTS * written :=
  match ops with
  | [] => (e, [])
  | o :: ops' =>
      let '(e1, w1) := step e o in
      let '(e2, w2) := run e1 ops' in
      (e2, w1 ++ w2)
  end.

(** The messages written to one connection, in order. *)
Definition on_connection (k : nat) (w : written) : list message :=
  map snd (filter (λ m, m.1 = k) w).

(** ** What a step does to the connections *)

Inductive effect (e e' : ElevenLabsTTS) : written → Prop :=
| effect_quiet : config e' = config e → (dialed e ≤ dialed e')%nat →
    conn e' = conn e ∨ conn e' = None → effect e e' []
| effect_opens : config e' = config e → dialed e' = S (dialed e) → conn e' = Some (dialed e) →
    effect e e' [(dialed e, BOS (bos_message e))]
| effect_says k text : config e' = config e → dialed e' = dialed e → conn e' = conn e →
    conn e = Some k → effect e e' [(k, TextMessage text)].

(** A change that leaves the connection alone. *)
Lemma effect_same e e1 e2 w :
  effect e e1 w → config e2 = config e1 → dialed e2 = dialed e1 → conn e2 = conn e1 → effect e e2 w.
Proof.
  intros [Hc Hd Hk|Hc Hd Hk|k text Hc Hd Hk Hs] E1 E2 E3.
  - apply effect_quiet; [congruence|lia|]. rewrite E3. done.
  - apply effect_opens; congruence.
  - eapply effect_says; try congruence.
Qed.

Lemma quiet_refl e : effect e e [].
Proof. apply effect_quiet; auto. Qed.

#[local] Hint Resolve quiet_refl : core.

(** Changes that write nothing, one after the other. *)
Lemma effect_after e e1 e2 w : effect e e1 [] → effect e1 e2 [] → conn e2 = None → w = [] → effect e e2 w.
Proof.
  intros Ha Hb Hn ->. inversion Ha as [Hc1 Hd1 _| |]. inversion Hb as [Hc2 Hd2 _| |].
  apply effect_quiet; [congruence|lia|auto].
Qed.

Lemma connect_effect dp bp net w e e0 :
  config e = config e0 → dialed e = dialed e0 → conn e = None →
  match connect_with_BOS dp bp net w e with
  | (e1, ms, Ok _) => effect e0 e1 ms
  | (e1, ms, Err _) => ms = [] ∧ effect e0 e1 [] ∧ conn e1 = None
  end.
Proof.
  intros Hc Hd Hk. unfold connect_with_BOS, establishConnection.
  destruct (attempts _ _ _ _ _ _) as [u|err]; [destruct w as [u'|err]|]; cbn.
  - rewrite Hd. replace (bos_message _) with (bos_message e0); [by apply effect_opens; cbn; congruence|].
    unfold bos_message. cbn. by rewrite Hc.
  - split; [done|]. split; [|done]. apply effect_quiet; cbn; [done|lia|auto].
  - split; [done|]. split; [|done]. apply effect_quiet; [done|lia|auto].
Qed.

Lemma connect_steps dp bp net w e : effect e (connect_with_BOS dp bp net w (closeConnectionLocked e)).1.1
  (connect_with_BOS dp bp net w (closeConnectionLocked e)).1.2.
Proof.
  pose proof (connect_effect dp bp net w (closeConnectionLocked e) e eq_refl eq_refl eq_refl) as H1.
  destruct (connect_with_BOS _ _ _ _ _) as [[e1 ms] [u|err]]; [done|]. cbn in *.
  by destruct H1 as (-> & H1 & _).
Qed.

Lemma cleanup_session_effect e s : effect e (cleanupSessionLocked e s) [].
Proof. apply effect_quiet; cbn; auto. Qed.

Lemma reader_exits_effect e s : effect e (reader_exits e s) [].
Proof.
  unfold reader_exits. case_bool_decide.
  - by apply (effect_same e (cleanupSessionLocked e s)); [apply cleanup_session_effect|..].
  - by apply (effect_same e e).
Qed.

Lemma reader_exits_conn e s : conn e = None → conn (reader_exits e s) = None.
Proof. intros Hk. unfold reader_exits. by case_bool_decide. Qed.

Lemma reader_reconnects_effect e s net w ready why :
  effect e (reader_reconnects e s net w ready why).1.1 (reader_reconnects e s net w ready why).1.2.
Proof.
  unfold reader_reconnects, reconnect.
  pose proof (connect_effect "" "failed to send BOS after reconnect: " net w (closeConnectionLocked e) e
                eq_refl eq_refl eq_refl) as H1.
  destruct (connect_with_BOS _ _ _ _ _) as [[e1 ms] [u|err]]; cbn in *.
  - by apply (effect_same e e1).
  - destruct H1 as (-> & H1 & Hk). apply (effect_after e e1); [done| | |done].
    + apply reader_exits_effect.
    + by apply reader_exits_conn.
Qed.

Lemma reader_step_effect e s net w ready o :
  effect e (reader_step e s net w ready o).1.1 (reader_step e s net w ready o).1.2.
Proof.
  assert (∀ r, effect e (set_reader e s r) []) as Hset by (intros r; by apply (effect_same e e)).
  unfold reader_step, reader_takes, reader_reads.
  destruct (readers e !! s) as [[|k]|]; [..|done].
  - destruct (ctxDone e); [apply reader_exits_effect|].
    destruct (conn e); [apply Hset|apply reader_reconnects_effect].
  - destruct o; try apply Hset. destruct (ctxDone e); [apply reader_exits_effect|].
    apply reader_reconnects_effect.
Qed.

Lemma start_effect e nil_chan net w :
  effect e (StartTTSSession e nil_chan net w).1.1 (StartTTSSession e nil_chan net w).1.2.
Proof.
  unfold StartTTSSession. destruct (negb (isInitialized e)), nil_chan; try done.
  set (e1 := match currentSession e with Some s => _ | None => e end).
  assert (effect e e1 [] ∧ config e1 = config e ∧ dialed e1 = dialed e) as (Hq & Hc & Hd)
    by (unfold e1; destruct (currentSession e); split_and!; done || apply cleanup_session_effect).
  unfold establishConnection. destruct (attempts _ _ _ _ _ _); cbn; [|done].
  destruct w; cbn.
  - rewrite Hd. replace (bos_message _) with (bos_message e)
      by (unfold bos_message; cbn; by rewrite Hc).
    apply effect_opens; cbn; congruence.
  - apply effect_quiet; cbn; [done|lia|auto].
Qed.

Lemma text_effect e k text w :
  session_check e = Ok k → effect e (send_text w e k text).1.1 (send_text w e k text).1.2.
Proof.
  unfold session_check. destruct (negb (isInitialized e)); [done|].
  destruct (conn e) eqn:Ek, (currentSession e); try done. intros [= <-]. destruct w; [|done].
  by eapply effect_says.
Qed.

Lemma step_effect e o : effect e (step e o).1 (step e o).2.
Proof.
  destruct o as [| |nil_chan net w|text w|w|net w|s net w ready r|ping]; cbn [step].
  - unfold Initialize. destruct (isInitialized e); [done|]. destruct (String.eqb _ _); [done|].
    by apply (effect_same e e).
  - unfold Cleanup. destruct (negb (isInitialized e)); [done|]. apply effect_quiet; cbn; auto.
  - apply start_effect.
  - unfold BufferText. destruct (session_check e) eqn:Es; [|done]. destruct (String.eqb text ""); [done|].
    by apply text_effect.
  - unfold Flush. destruct (session_check e) eqn:Es; [|done]. by apply text_effect.
  - unfold Reset. destruct (session_check e); [apply connect_steps|done].
  - apply reader_step_effect.
  - unfold heartbeat_tick. destruct (conn e), ping; try done. apply effect_quiet; cbn; auto.
Qed.

(** ** The stream of a connection *)

(** Nothing yet, or a beginning of stream followed by texts only. *)
Definition stream (b : elBOSMessage) (ms : list message) : Prop :=
  ms = [] ∨ ∃ texts, ms = BOS b :: texts ∧ Forall (λ m, is_BOS m = false) texts.

Record streams_ok (e : ElevenLabsTTS) (w : written) : Prop := {
  fresh_unused k : (dialed e ≤ k)%nat → on_connection k w = [];
  all_streams k : stream (bos_message e) (on_connection k w);
  current_open k : conn e = Some k → on_connection k w ≠ []
}.

Lemma on_connection_app k a b : on_connection k (a ++ b) = on_connection k a ++ on_connection k b.
Proof. unfold on_connection. by rewrite filter_app, map_app. Qed.

Lemma on_connection_one k j m : on_connection k [(j, m)] = if decide (j = k) then [m] else [].
Proof. unfold on_connection. rewrite filter_cons. cbn. by destruct (decide (j = k)). Qed.

Lemma stream_text b ms t : stream b ms → ms ≠ [] → stream b (ms ++ [TextMessage t]).
Proof.
  intros [->|(texts & -> & Ht)] Hne; [done|]. right. exists (texts ++ [TextMessage t]). split; [done|].
  apply Forall_app. auto.
Qed.

Lemma effect_streams e e' w w' : effect e e' w' → streams_ok e w → streams_ok e' (w ++ w').
Proof.
  intros Heff [H1 H2 H3]. assert (bos_message e' = bos_message e) as Hb
    by (unfold bos_message; by destruct Heff as [->| ->|k t ->]).
  destruct Heff as [Hc Hd Hk|Hc Hd Hk|k text Hc Hd Hk Hs].
  - rewrite app_nil_r. split; [intros k Hk'; apply H1; lia|by rewrite Hb|].
    intros k Hk'. destruct Hk; [apply H3|]; congruence.
  - pose proof (H1 (dialed e) (le_n _)) as Hfresh.
    split; intros k; rewrite on_connection_app, on_connection_one; destruct (decide (dialed e = k)) as [<-|Hn].
    + lia.
    + intros Hk'. rewrite app_nil_r. apply H1. lia.
    + rewrite Hfresh, Hb. right. by exists [].
    + rewrite app_nil_r, Hb. apply H2.
    + by rewrite Hfresh.
    + congruence.
  - pose proof (H3 k Hs) as Hne.
    split; intros j; rewrite on_connection_app, on_connection_one; destruct (decide (k = j)) as [<-|Hn].
    + intros Hj. exfalso. apply Hne, H1. lia.
    + intros Hj. rewrite app_nil_r. apply H1. lia.
    + rewrite Hb. by apply stream_text.
    + rewrite app_nil_r, Hb. apply H2.
    + intros _ E. by apply app_eq_nil in E as [_ E].
    + intros Hj. congruence.
Qed.

Lemma run_streams ops e w :
  streams_ok e w → streams_ok (run e ops).1 (w ++ (run e ops).2) ∧ config (run e ops).1 = config e.
Proof.
  revert e w. induction ops as [|o ops IH]; intros e w Hok; [cbn; by rewrite app_nil_r|]. cbn [run].
  pose proof (step_effect e o) as Heff. destruct (step e o) as [e1 w1]. cbn in Heff.
  pose proof (effect_streams e e1 w w1 Heff Hok) as Hok1. destruct (IH e1 _ Hok1) as [IH1 IH2].
  destruct (run e1 ops) as [e2 w2]. cbn in *. rewrite <-app_assoc in IH1. split; [done|].
  rewrite IH2. by destruct Heff.
Qed.

(** ** What the service guarantees *)

(** Whatever is called, and however dials, writes and reads turn out, the
    messages of each connection are one stream: the first is the beginning of
    stream with the configured voice settings (0.5 and 0.75 where none are
    given), sent once, and texts follow it. *)
Theorem every_stream_opens_once (config0 : ElevenLabsTTSConfig) (ops : list op) (k : nat) :
  let sent := on_connection k (run (NewElevenLabsTTS config0) ops).2 in
  sent = [] ∨
  ∃ texts, sent = BOS (mkBOS " " (q_default (Stability config0) (1 # 2))
                         (q_default (SimilarityBoost config0) (3 # 4)) [120; 160; 250; 290]) :: texts ∧
           Forall (λ m, is_BOS m = false) texts.
Proof.
  destruct (run_streams ops (NewElevenLabsTTS config0) []) as [[_ H2 _] Hc].
  - split; [done| |done]. by left.
  - specialize (H2 k). unfold bos_message in H2. by rewrite Hc in H2.
Qed.

Definition example_config : ElevenLabsTTSConfig := mkElevenLabsConfig "key" "" "" "" 0%Q (9 # 10).

(** Two utterances, the first ended by a flush after which the service closes
    the connection and the reader dials the next. *)
Definition example_ops : list op :=
  [OpInitialize; OpStart None online (Ok tt); OpReader 0 online (Ok tt) true ReadFailed;
   OpBuffer "Hello" (Ok tt); OpFlush (Ok tt); OpReader 0 online (Ok tt) true ReadFailed;
   OpBuffer "Bye" (Ok tt)].

Example example_streams :
  let w := (run (NewElevenLabsTTS example_config) example_ops).2 in
  map (λ k, on_connection k w) [0; 1; 2]%nat =
    [[BOS (mkBOS " " (1 # 2) (9 # 10) [120; 160; 250; 290]); TextMessage "Hello"; TextMessage ""];
     [BOS (mkBOS " " (1 # 2) (9 # 10) [120; 160; 250; 290]); TextMessage "Bye"]; []].
Proof. vm_compute. reflexivity. Qed.

(** A reset closes the connection the reader is blocked on, so the reader's
    read fails and it dials again: the connection the reset made is closed, and
    with it what was buffered there. *)
Lemma reset_dials_twice e s k text ready :
  isInitialized e = true → ctxDone e = false → currentSession e = Some s → conn e = Some k →
  readers e !! s = Some (Reading k) → text ≠ "" →
  let d := dialed e in
  let '(e', w) := run e [OpReset online (Ok tt); OpBuffer text (Ok tt);
                         OpReader s online (Ok tt) ready ReadFailed] in
  w = [(d, BOS (bos_message e)); (d, TextMessage text); (S d, BOS (bos_message e))] ∧
  conn e' = Some (S d).
Proof.
  intros Hi Hx Hs Hk Hr Ht. destruct e as [cfg con cs init hb done_ dl ss lv rd]. cbn in *. subst.
  cbn. unfold BufferText. cbn. rewrite (proj2 (String.eqb_neq text "") Ht). cbn.
  unfold reader_step. cbn. rewrite Hr. cbn. done.
Qed.

(** Between a flush and the end of its connection, text goes to the stream
    that was ended. *)
Lemma text_after_end_of_stream e k s text :
  isInitialized e = true → conn e = Some k → currentSession e = Some s → text ≠ "" →
  (run e [OpFlush (Ok tt); OpBuffer text (Ok tt)]).2 = [(k, TextMessage ""); (k, TextMessage text)].
Proof.
  intros Hi Hk Hs Ht. cbn. unfold Flush, BufferText, session_check. rewrite Hi, Hk, Hs. cbn.
  rewrite Hi, Hk, Hs. cbn. rewrite (proj2 (String.eqb_neq text "") Ht). done.
Qed.

(** Audio the service sends arrives byte by byte. *)
Lemma audio_intact e s raw final :
  s ∈ live e → raw ≠ [] →
  handleTextMessage e s true (Some (mkFrame None (Some (Some (b64_encode raw, final))))) =
  [GotAudio (pcm24 raw)].
Proof.
  intros Hs Hraw. unfold handleTextMessage. cbn [fr_error fr_audio].
  rewrite b64_encode_not_empty, b64_roundtrip by done. unfold forward, to_session.
  by rewrite bool_decide_eq_true_2.
Qed.
