(* ===== verification/OpenAI.v ===== *)
(** * The OpenAI service: [services/openai/llm/llm.go]

    The completion client behind the LLM handler: conversion of messages and
    tools, the streaming loop that assembles tool calls from fragments, and the
    life of its contexts and streams.  The HTTP client is outside: the decoded
    responses of a request are an argument.  Two pieces of Go are parameters:
    the JSON decoder for the arguments of a call, and the order in which a
    [range] over a map visits it, which the language leaves open. *)

From Stdlib Require Import Strings.Byte.
From S2P Require Import Prelude Core LlmHandler LlmHandlerProofs.

Local Open Scope string_scope.
Local Open Scope list_scope.
Local Open Scope Z_scope.

(** ** Conversions *)

Definition convertRole (role : string) : string :=
  if String.eqb role LLMMessageRoleUser then "user"
  else if String.eqb role LLMMessageRoleAssistant then "assistant"
  else if String.eqb role LLMMessageRoleSystem then "system"
  else if String.eqb role LLMMessageRoleTool then "tool"
  else "user".

Definition convertParameterType (t : LLMParamterType) : string :=
  match t with
  | LLMParameterTypeString => "string"
  | LLMParameterTypeInteger => "integer"
  | LLMParameterTypeBoolean => "boolean"
  | LLMParameterTypeObject => "object"
  end.

Definition convertMediaType (t : string) : string :=
  if existsb (String.eqb t)
       ["image/png"; "image/jpeg"; "audio/wav"; "audio/pcm"; "video/mp4"; "video/webm"] then t
  else if String.eqb t "audio/mp3" then "audio/mpeg"
  else "application/octet-stream".

(** The media bytes as [%s] prints them. *)
Definition bytes_text (bs : list Byte.byte) : string :=
  str_of_chars (map Ascii.ascii_of_byte bs).

Definition convertMediaToURL (m : LLMMedia) : string :=
  "data:" +:+ convertMediaType (m_MediaType m) +:+ ";base64," +:+ bytes_text (m_Data m).

Inductive message_part : Type :=
| TextPart (text : string)
| ImagePart (url : string).

Record openai_message := mkOpenAIMessage {
  om_Role : string;
  om_Content : string;
  om_MultiContent : list message_part
}.

Definition convert_message (msg : LLMMessage) : openai_message :=
  match Media msg with
  | Some (m :: ms) =>
      mkOpenAIMessage (convertRole (Role msg)) ""
        (TextPart (Message msg) :: map (λ m, ImagePart (convertMediaToURL m)) (m :: ms))
  | _ => mkOpenAIMessage (convertRole (Role msg)) (Message msg) []
  end.

(** No conversion of a medium fails. *)
Definition convertMessages (ms : list LLMMessage) : list openai_message := map convert_message ms.

Record property := mkProperty { pr_type : string; pr_description : string; pr_example : option string }.

Record openai_tool := mkOpenAITool {
  ot_Name : string;
  ot_Description : string;
  ot_properties : gmap string property;
  ot_required : list string
}.

Definition convert_parameter (p : Parameter_) : property :=
  mkProperty (convertParameterType (p_Type p)) (p_Description p)
    (if String.eqb (p_Example p) "" then None else Some (p_Example p)).

Definition convert_tool (t : LLMTool) : openai_tool :=
  mkOpenAITool (ToolId t) (tl_Description t)
    (fold_left (λ m p, <[p_Name p := convert_parameter p]> m) (tl_Parameters t) ∅)
    (map p_Name (List.filter p_Required (tl_Parameters t))).

Definition convertTools (ts : list LLMTool) : list openai_tool := map convert_tool ts.

(** ** Tool calls *)

Record ToolCall := mkToolCall { call_ID : string; call_Name : string; call_Arguments : string }.

(** A fragment of a call in a streamed delta. *)
Record tool_delta := mkToolDelta {
  td_Index : option Z;
  td_ID : string;
  td_Name : string;
  td_Arguments : string
}.

Class GoRuntime := {
  decode_object : string → option (gmap string any);
  iterate : gmap Z ToolCall → list (Z * ToolCall);
  iterate_perm m : iterate m ≡ₚ map_to_list m
}.

Section streaming.
Context `{GoRuntime}.

(** Arguments that do not decode are passed on as they are. *)
Definition convertToolCall (c : ToolCall) : LLMToolCall :=
  mkLLMToolCall (call_Name c)
    (Some (if String.eqb (call_Arguments c) "" then ∅
           else match decode_object (call_Arguments c) with
                | Some m => m
                | None => {["raw_arguments" := AnyString (call_Arguments c)]}
                end)).

(** One fragment added to the calls under construction. *)
Definition add_delta (b : gmap Z ToolCall) (d : tool_delta) : gmap Z ToolCall :=
  match td_Index d with
  | None => b
  | Some idx =>
      let c := default (mkToolCall (td_ID d) "" "") (b !! idx) in
      <[idx := mkToolCall (if String.eqb (td_ID d) "" then call_ID c else td_ID d)
                 (if String.eqb (td_Name d) "" then call_Name c else td_Name d)
                 (call_Arguments c +:+ td_Arguments d)]> b
  end.

(** The calls with a name, in the order of the map. *)
Definition finished_calls (b : gmap Z ToolCall) : list service_output :=
  omap (λ ic, if String.eqb (call_Name ic.2) "" then None
              else Some (OutToolCall (convertToolCall ic.2))) (iterate b).

(** The first choice of a streamed response, if any. *)
Record choice := mkChoice {
  Content : string;
  ToolCalls : list tool_delta;
  FinishReason : string
}.

Definition content_out (c : choice) : list service_output :=
  if String.eqb (Content c) "" then [] else [OutMessage (Content c)].

(** The receive loop over the responses up to the end of the stream or its
    first error; [alive k] tells whether the captured context is alive in round
    [k].  A context that ends while a send waits is the next round's. *)
Fixpoint stream_loop (alive : nat → bool) (k : nat) (b : gmap Z ToolCall)
    (rs : list (option choice)) : list service_output :=
  if negb (alive k) then [] else
  match rs with
  | [] => []
  | None :: rs' => stream_loop alive (S k) b rs'
  | Some c :: rs' =>
      let b1 := fold_left add_delta (ToolCalls c) b in
      if String.eqb (FinishReason c) "tool_calls"
      then content_out c ++ finished_calls b1 ++ stream_loop alive (S k) ∅ rs'
      else content_out c ++ stream_loop alive (S k) b1 rs'
  end.

(** A complete response: its content and its calls. *)
Definition message_out (content : string) (calls : list ToolCall) : list service_output :=
  (if String.eqb content "" then [] else [OutMessage content]) ++
  map (λ c, OutToolCall (convertToolCall c)) calls.

(** ** The service *)

(** A context is numbered by the [Reset] that made it; [live] tells whether the
    current one is.  Streams are kept by their id's number. *)
Record OpenAILLMService := mkOpenAI {
  apiKey : string;
  streaming : bool;
  isInitialized : bool;
  ctx : nat;
  live : bool;
  activeStreams : gmap nat nat
}.

Definition Initialize (s : OpenAILLMService) : OpenAILLMService * result unit :=
  if String.eqb (apiKey s) "" then (s, Err "OpenAI API key is required")
  else (mkOpenAI (apiKey s) (streaming s) true (S (ctx s)) true (activeStreams s), Ok tt).

(** Every registered stream is closed and forgotten. *)
Definition stopAllStreams (s : OpenAILLMService) : OpenAILLMService :=
  mkOpenAI (apiKey s) (streaming s) (isInitialized s) (ctx s) (live s) ∅.

Definition Reset (s : OpenAILLMService) : OpenAILLMService :=
  mkOpenAI (apiKey s) (streaming s) (isInitialized s) (S (ctx s)) true ∅.

Definition Cleanup (s : OpenAILLMService) : OpenAILLMService :=
  mkOpenAI (apiKey s) (streaming s) false (ctx s) false ∅.

(** A context captured earlier is cancelled once another has been made. *)
Definition context_alive (s : OpenAILLMService) (captured : nat) : bool :=
  Nat.eqb captured (ctx s) && live s.

Definition generateStreamID (s : OpenAILLMService) : nat := size (activeStreams s).
Definition registerStream (s : OpenAILLMService) (id stream : nat) : OpenAILLMService :=
  mkOpenAI (apiKey s) (streaming s) (isInitialized s) (ctx s) (live s)
    (<[id := stream]> (activeStreams s)).
Definition unregisterStream (s : OpenAILLMService) (id : nat) : OpenAILLMService :=
  mkOpenAI (apiKey s) (streaming s) (isInitialized s) (ctx s) (live s) (delete id (activeStreams s)).

Inductive completion_out : Type :=
| Out (o : service_output)
| FatalServiceError (msg : string).

(** What the request gives: a stream when [streaming] is set, a complete message
    otherwise, or an error. *)
Inductive provider_answer : Type :=
| StreamOf (rs : list (option choice))
| MessageOf (reply : option (string * list ToolCall))   (* [None]: no choice *)
| RequestFailed (msg : string).

(** [alive] is the state of the captured context round by round, its first
    value at the start.  The sends of the start and end signals find the event
    loop receiving. *)
Definition RunCompletion (s : OpenAILLMService) (alive : nat → bool) (ans : provider_answer)
    : list completion_out :=
  if negb (isInitialized s) then [FatalServiceError "OpenAI service not initialized"]
  else if negb (alive 0%nat) then [FatalServiceError "service was reset during completion"]
  else
    Out OutStart ::
    (match ans with
     | RequestFailed e =>
         if alive 1%nat
         then [FatalServiceError
                 ((if streaming s then "failed to create completion stream: "
                   else "failed to create completion: ") +:+ e)]
         else []
     | StreamOf rs => map Out (stream_loop alive 1 ∅ rs)
     | MessageOf None => []
     | MessageOf (Some (content, calls)) =>
         if alive 1%nat then map Out (message_out content calls) else []
     end) ++ [Out OutEnd].

Definition loop_inputs (os : list completion_out) : list service_output :=
  omap (λ o, match o with Out o => Some o | FatalServiceError _ => None end) os.

(** [GenerateJsonOutput] on the content of the reply. *)
Definition GenerateJsonOutput (s : OpenAILLMService) (answer : result (option string))
    : result (gmap string any) :=
  if negb (isInitialized s) then Err "OpenAI service not initialized"
  else match answer with
  | Err e => Err ("failed to create JSON completion: " +:+ e)
  | Ok None | Ok (Some "") => Err "empty completion response"
  | Ok (Some content) =>
      match decode_object content with
      | Some m => Ok m
      | None => Err "failed to decode JSON response"
      end
  end.

(** ** Specification of the assembled calls *)

Definition fragments (i : Z) (ds : list tool_delta) : list tool_delta :=
  filter (λ d, td_Index d = Some i) ds.

Definition nonempty (s : string) : Prop := s ≠ "".

(** All the argument text of a call, and the last name it was given. *)
Definition arguments_of (i : Z) (ds : list tool_delta) : string :=
  str_join "" (map td_Arguments (fragments i ds)).
Definition name_of (i : Z) (ds : list tool_delta) : string :=
  default "" (last (filter nonempty (map td_Name (fragments i ds)))).

Definition indices (ds : list tool_delta) : gset Z := list_to_set (omap td_Index ds).

Definition named (ds : list tool_delta) (i : Z) : Prop := name_of i ds ≠ "".

Definition expected_calls (ds : list tool_delta) : list service_output :=
  (λ i, OutToolCall (convertToolCall (mkToolCall "" (name_of i ds) (arguments_of i ds)))) <$>
  filter (named ds) (elements (indices ds)).

(** ** Lemmas *)

Lemma convertToolCall_id a b n args :
  convertToolCall (mkToolCall a n args) = convertToolCall (mkToolCall b n args).
Proof. reflexivity. Qed.

Lemma fragments_snoc i ds d :
  fragments i (ds ++ [d]) = fragments i ds ++ (if decide (td_Index d = Some i) then [d] else []).
Proof. unfold fragments. rewrite filter_app, filter_cons, filter_nil. done. Qed.

Lemma built_calls ds i :
  match fold_left add_delta ds ∅ !! i with
  | Some c => fragments i ds ≠ [] ∧ call_Name c = name_of i ds ∧ call_Arguments c = arguments_of i ds
  | None => fragments i ds = []
  end.
Proof.
  induction ds as [|d ds IH] using rev_ind; [done|].
  rewrite fold_left_app. cbn [fold_left]. set (b := fold_left add_delta ds ∅) in *.
  unfold name_of, arguments_of in *. rewrite !fragments_snoc.
  unfold add_delta. destruct (td_Index d) as [j|] eqn:Ej.
  2: { rewrite decide_False by congruence. by rewrite !app_nil_r. }
  destruct (decide (j = i)) as [->|Hne].
  - rewrite lookup_insert_eq, decide_True by done. split; [by destruct (fragments i ds)|].
    rewrite !map_app, filter_app, last_app, str_join_nil_app. cbn [map].
    rewrite filter_cons, filter_nil. cbn [str_join].
    destruct (b !! i) as [c|]; cbn [from_option id call_Name call_Arguments].
    + destruct IH as (_ & Hn & Ha). split; [|by rewrite Ha].
      destruct (String.eqb_spec (td_Name d) "") as [E|E]; unfold nonempty.
      * rewrite decide_False by tauto. cbn. by rewrite Hn.
      * rewrite decide_True by done. done.
    + rewrite IH. cbn. split; [|done].
      destruct (String.eqb_spec (td_Name d) "") as [E|E]; unfold nonempty.
      * by rewrite decide_False by tauto.
      * by rewrite decide_True by done.
  - rewrite lookup_insert_ne by done. rewrite decide_False by congruence. by rewrite !app_nil_r.
Qed.

Lemma elem_of_indices i ds : i ∈ indices ds ↔ fragments i ds ≠ [].
Proof.
  unfold indices, fragments. rewrite elem_of_list_to_set, list_elem_of_omap. split.
  - intros (d & Hd & Hi) E.
    assert (d ∈ filter (λ d, td_Index d = Some i) ds) as Hin by (by apply list_elem_of_filter).
    rewrite E in Hin. by apply elem_of_nil in Hin.
  - intros Hne. destruct (filter _ ds) as [|d l] eqn:E; [done|]. exists d.
    assert (d ∈ filter (λ d, td_Index d = Some i) ds) as Hd by (rewrite E; apply list_elem_of_here).
    apply list_elem_of_filter in Hd. tauto.
Qed.

Lemma built_list ds :
  map_to_list (fold_left add_delta ds ∅) ≡ₚ
  (λ i, (i, default (mkToolCall "" "" "") (fold_left add_delta ds ∅ !! i))) <$> elements (indices ds).
Proof.
  apply NoDup_Permutation.
  - apply NoDup_map_to_list.
  - apply NoDup_fmap_2; [by intros ?? [= ->]|apply NoDup_elements].
  - intros [i c]. rewrite elem_of_map_to_list, list_elem_of_fmap. pose proof (built_calls ds i) as Hb.
    split.
    + intros E. rewrite E in Hb. exists i. rewrite E. split; [done|].
      apply elem_of_elements, elem_of_indices, Hb.
    + intros (j & [= -> ->] & Hj). apply elem_of_elements, elem_of_indices in Hj.
      by destruct (fold_left add_delta ds ∅ !! j).
Qed.

Lemma finished_calls_spec ds : finished_calls (fold_left add_delta ds ∅) ≡ₚ expected_calls ds.
Proof.
  unfold finished_calls, expected_calls. rewrite iterate_perm, built_list.
  assert (∀ i, i ∈ elements (indices ds) → fragments i ds ≠ []) as Hl
    by (intros i ?%elem_of_elements; by apply elem_of_indices).
  induction (elements (indices ds)) as [|i l IH]; [done|]. cbn [fmap list_fmap omap list_omap].
  specialize (Hl i (list_elem_of_here _ _)) as Hi. pose proof (built_calls ds i) as Hb.
  destruct (fold_left add_delta ds ∅ !! i) as [c|]; [|done]. destruct Hb as (_ & Hn & Ha).
  cbn [from_option id snd]. rewrite filter_cons.
  assert (convertToolCall c = convertToolCall (mkToolCall "" (name_of i ds) (arguments_of i ds))) as Ec
    by (destruct c; cbn in *; by subst).
  destruct (String.eqb_spec (call_Name c) "") as [E|E].
  - rewrite decide_False by (unfold named; rewrite <-Hn; tauto). apply IH. intros j Hj. apply Hl. by apply list_elem_of_further.
  - rewrite decide_True by (unfold named; by rewrite <-Hn). cbn [fmap list_fmap]. rewrite Ec. apply perm_skip. apply IH.
    intros j Hj. apply Hl. by apply list_elem_of_further.
Qed.

(** Rounds without a finished call only emit content. *)
Lemma stream_loop_building rs rest b k :
  Forall (λ c, FinishReason c ≠ "tool_calls") rs →
  stream_loop (λ _, true) k b (map Some rs ++ rest) =
  concat (map content_out rs) ++
    stream_loop (λ _, true) (k + length rs) (fold_left add_delta (concat (map ToolCalls rs)) b) rest.
Proof.
  intros Hrs. revert k b. induction Hrs as [|c rs Hc Hrs IH]; intros k b.
  - cbn. by rewrite Nat.add_0_r.
  - cbn [map app stream_loop negb concat length].
    destruct (String.eqb_spec (FinishReason c) "tool_calls"); [done|].
    rewrite IH, fold_left_app, <-app_assoc.
    by replace (S k + length rs)%nat with (k + S (length rs))%nat by lia.
Qed.

Definition is_message (o : service_output) : bool :=
  match o with OutMessage _ => true | _ => false end.

Lemma finished_calls_calls b : Forall (λ o, is_body o = true ∧ message_text o = []) (finished_calls b).
Proof.
  unfold finished_calls. apply Forall_forall. intros o Ho.
  apply list_elem_of_omap in Ho as (ic & _ & E). case_match; simplify_eq. done.
Qed.

Lemma content_out_text c :
  forallb is_body (content_out c) = true ∧
  str_join "" (concat (map message_text (content_out c))) = Content c.
Proof. unfold content_out. by destruct (String.eqb_spec (Content c) "") as [->|]. Qed.

Lemma calls_text os :
  Forall (λ o, is_body o = true ∧ message_text o = []) os →
  forallb is_body os = true ∧ concat (map message_text os) = [].
Proof.
  induction 1 as [|o os [H1 H2] _ [IH1 IH2]]; [done|]. cbn. by rewrite H1, H2, IH1, IH2.
Qed.

(** Everything a live stream emits is content or calls, and the content is
    complete and in order. *)
Lemma stream_loop_text rs : ∀ k b,
  forallb is_body (stream_loop (λ _, true) k b rs) = true ∧
  str_join "" (concat (map message_text (stream_loop (λ _, true) k b rs))) =
  str_join "" (map Content (omap id rs)).
Proof.
  induction rs as [|[c|] rs IH]; intros k b; [done| |apply IH].
  cbn [stream_loop negb omap list_omap id map]. destruct (content_out_text c) as [Hb Ht].
  rewrite str_join_nil_cons.
  destruct (String.eqb (FinishReason c) "tool_calls").
  - destruct (calls_text _ (finished_calls_calls (fold_left add_delta (ToolCalls c) b))) as [Hb' Ht'].
    destruct (IH (S k) ∅) as [Hb'' Ht''].
    rewrite !forallb_app, Hb, Hb', Hb'', !map_app, !concat_app, !str_join_nil_app, Ht, Ht', Ht''.
    done.
  - destruct (IH (S k) (fold_left add_delta (ToolCalls c) b)) as [Hb'' Ht''].
    by rewrite !forallb_app, Hb, Hb'', !map_app, !concat_app, !str_join_nil_app, Ht, Ht''.
Qed.

(** ** Properties *)

(** C20: However the provider cuts its tool calls into fragments and interleaves
    them, when the stream says they are complete each call is delivered once,
    with the last name it was given and all its argument text in order; calls
    that never got a name are dropped.  The calls come after all the content
    before them; their order among themselves is that of the map. *)
Theorem tool_calls_assembled (rs : list choice) (final : choice)
    (Hrs : Forall (λ c, FinishReason c ≠ "tool_calls") rs)
    (Hfinal : FinishReason final = "tool_calls") :
  ∃ calls,
    stream_loop (λ _, true) 1 ∅ (map Some (rs ++ [final])) =
      concat (map content_out (rs ++ [final])) ++ calls ∧
    calls ≡ₚ expected_calls (concat (map ToolCalls (rs ++ [final]))).
Proof.
  exists (finished_calls (fold_left add_delta (concat (map ToolCalls (rs ++ [final]))) ∅)). split.
  - rewrite (map_app ToolCalls), concat_app, fold_left_app. cbn [map concat].
    rewrite map_app, (stream_loop_building rs) by done. cbn [map stream_loop negb].
    rewrite Hfinal, String.eqb_refl.
    rewrite (map_app content_out), concat_app. cbn [map concat]. rewrite !app_nil_r. apply app_assoc.
  - apply finished_calls_spec.
Qed.

(** When a response streams to its end without being interrupted and the LLM
    handler's event loop receives its outputs in the order they were sent, it
    sends the content to be spoken complete and in order, and records exactly one
    completed response, the filler already spoken followed by that content.
    [Completion] has what holds when the loop's [select] takes them in another
    order. *)
Theorem streamed_response_recorded (s : OpenAILLMService) (h : LLMHandler)
    (rs : list (option choice))
    (Hinit : isInitialized s = true) (Hdisc : discarding h = false) :
  let effs := (loop_run h (loop_inputs (RunCompletion s (λ _, true) (StreamOf rs)))).2 in
  let text := str_join "" (map Content (omap id rs)) in
  str_join "" (concat (map chunk_text effs)) = text ∧
  concat (map recorded_text effs) = [getConsumedFiller (filler h) +:+ text].
Proof.
  cbn zeta. unfold RunCompletion. rewrite Hinit. cbn [negb].
  set (body := stream_loop (λ _, true) 1 ∅ rs).
  assert (loop_inputs (Out OutStart :: map Out body ++ [Out OutEnd]) = OutStart :: body ++ [OutEnd])
    as ->.
  { unfold loop_inputs. cbn. f_equal. rewrite omap_app. f_equal.
    induction body as [|o os IH]; [done|]. cbn. by f_equal. }
  destruct (stream_loop_text rs 1 ∅) as [Hb Ht]. fold body in Hb, Ht.
  cbn [loop_run loop_step]. rewrite Hdisc. rewrite loop_run_app.
  set (h0 := set_fullText h (getConsumedFiller (filler h))).
  destruct (loop_body_run body h0 Hdisc Hb) as (H1 & H2 & H3).
  destruct (loop_run h0 body) as [h1 e1]. cbn [fst snd] in *. subst h1.
  cbn [loop_run loop_step]. cbn [discarding set_fullText h0]. rewrite Hdisc.
  cbn [snd app]. rewrite !map_app, !concat_app, H2, H3, str_join_nil_app, Ht.
  cbn. by rewrite string_app_nil_r.
Qed.
End streaming.

(** ** Witnesses *)

#[export] Instance demo_runtime : GoRuntime :=
  {| decode_object := λ s, if String.eqb s "{}" then Some ∅ else None;
     iterate := λ m, map_to_list m;
     iterate_perm := λ m, reflexivity (map_to_list m) |}.

Definition demo_first : choice :=
  mkChoice "Let me check." [mkToolDelta (Some 0) "call_1" "lookup" "{"] "".
Definition demo_last : choice :=
  mkChoice "" [mkToolDelta (Some 0) "" "" "}"] "tool_calls".

Lemma tool_calls_assembled_witness :
  ∃ calls,
    stream_loop (λ _, true) 1 ∅ (map Some [demo_first; demo_last]) =
      [OutMessage "Let me check."] ++ calls ∧
    calls ≡ₚ [OutToolCall (mkLLMToolCall "lookup" (Some ∅))].
Proof.
  destruct (tool_calls_assembled [demo_first] demo_last) as (calls & E & Hp).
  - repeat constructor. discriminate.
  - reflexivity.
  - exists calls. split; [exact E|]. exact Hp.
Defined.

Definition demo_openai : OpenAILLMService := (Initialize (mkOpenAI "key" true false 0 false ∅)).1.

Lemma streamed_response_recorded_witness :
  concat (map recorded_text
    (loop_run (NewLLMHandler DefaultConfig)
      (loop_inputs (RunCompletion demo_openai (λ _, true)
        (StreamOf [Some (mkChoice "Hello" [] ""); None; Some (mkChoice " there." [] "stop")])))).2) =
  ["Hello there."].
Proof.
  apply (streamed_response_recorded demo_openai (NewLLMHandler DefaultConfig)
    [Some (mkChoice "Hello" [] ""); None; Some (mkChoice " there." [] "stop")]); reflexivity.
Defined.
