(* ===== verification/Completion.v ===== *)
(** * Completions and the event loop: [services/openai/llm/llm.go] with
    [handlers/llm/llm_handler.go]

    [RunCompletion] as goroutines of the LLM service, the channels between them
    and the handler's event loop, and the [Reset]s and the [Cleanup] that come in
    between: one action per operation on what they share, any action at any
    time.  The provider is outside: what it answers to a completion is an
    argument of that completion. *)

From S2P Require Import Prelude Core LlmHandler LlmHandlerProofs OpenAI.

Local Open Scope string_scope.
Local Open Scope list_scope.
Local Open Scope nat_scope.

Section completion.
Context `{GoRuntime}.

(** ** Goroutines *)

(** What follows the outputs in hand: the receive loop on the stream
    registered under [id], [b] the calls under construction and [rs] what the stream
    still gives, or the end of the function. *)
Inductive after : Type :=
| Onward (id : nat) (b : gmap Z ToolCall) (rs : list (option choice))
| Return.

(** A call of [RunCompletion], by what it does next.  [c] is the context it
    has captured. *)
Inductive completion : Type :=
| Enter (ans : provider_answer)                   (* reads [isInitialized] *)
| Ready (ans : provider_answer)                   (* looks at [s.ctx] *)
| Announce (ans : provider_answer)                (* signals the start *)
| Launch (ans : provider_answer)                  (* captures [s.ctx] *)
| Captured (c : nat) (ans : provider_answer)      (* looks at what it captured *)
| Request (c : nat) (ans : provider_answer)       (* calls the client *)
| Register (c id : nat) (rs : list (option choice))
| Receive (c id : nat) (b : gmap Z ToolCall) (rs : list (option choice))   (* top of the loop *)
| Await (c id : nat) (b : gmap Z ToolCall) (rs : list (option choice))     (* in [stream.Recv] *)
| Deliver (c : nat) (os : list service_output) (k : after)
| Ending                                          (* deferred: signals the end *)
| Finished
| NoClient.                                       (* used the client [Cleanup] has removed *)

(** [s.mu] is held for writing between the two parts of a [Reset] or a
    [Cleanup]. *)
Inductive closing : Type := Resetting | Cleaning.

Record state := mkState {
  svc : OpenAILLMService;
  client : bool;
  locked : option closing;
  completions : list completion;
  messages : list string;                (* [messageOutChan], 10 places *)
  start_signal : bool;                   (* [completionStartChan], 1 place *)
  end_signal : bool;                     (* [completionEndChan], 1 place *)
  errors : list string;                  (* sent to [FatalServiceErrorChan] *)
  hd : LLMHandler;
  sent : list llm_effect                 (* by the event loop *)
}.

Definition message_places : nat := 10.

Definition is_locked (s : state) : bool := match locked s with Some _ => true | None => false end.

Definition set_svc (s : state) (v : OpenAILLMService) : state :=
  mkState v (client s) (locked s) (completions s) (messages s) (start_signal s) (end_signal s) (errors s) (hd s) (sent s).
Definition put_completion (s : state) (i : nat) (t : completion) : state :=
  mkState (svc s) (client s) (locked s) (<[i := t]> (completions s)) (messages s) (start_signal s) (end_signal s)
    (errors s) (hd s) (sent s).
Definition put_message (s : state) (m : string) : state :=
  mkState (svc s) (client s) (locked s) (completions s) (messages s ++ [m]) (start_signal s) (end_signal s)
    (errors s) (hd s) (sent s).
Definition put_start (s : state) : state :=
  mkState (svc s) (client s) (locked s) (completions s) (messages s) true (end_signal s) (errors s) (hd s) (sent s).
Definition put_end (s : state) : state :=
  mkState (svc s) (client s) (locked s) (completions s) (messages s) (start_signal s) true (errors s) (hd s) (sent s).
Definition put_error (s : state) (e : string) : state :=
  mkState (svc s) (client s) (locked s) (completions s) (messages s) (start_signal s) (end_signal s)
    (errors s ++ [e]) (hd s) (sent s).

(** Leaving the function that runs the request: a stream is unregistered. *)
Definition leave (s : state) (k : after) : state * completion :=
  match k with
  | Onward id _ _ => (set_svc s (unregisterStream (svc s) id), Ending)
  | Return => (s, Ending)
  end.

Definition next (c : nat) (k : after) : completion :=
  match k with
  | Onward id b rs => Receive c id b rs
  | Return => Ending
  end.

(** What one response has to deliver, and the calls kept for later ones. *)
Definition response_outputs (b : gmap Z ToolCall) (ch : choice) : list service_output * gmap Z ToolCall :=
  let b1 := fold_left add_delta (ToolCalls ch) b in
  if String.eqb (FinishReason ch) "tool_calls" then (content_out ch ++ finished_calls b1, ∅)
  else (content_out ch, b1).

(** The next operation of completion [i].  With its context cancelled, [ok]
    tells whether the client still serves it, and which way a [select] goes whose send is
    possible too. *)
Definition turn (s : state) (i : nat) (ok : bool) (t : completion) : option (state * completion) :=
  match t with
  | Enter ans =>
      if is_locked s then None
      else if isInitialized (svc s) then Some (s, Ready ans)
      else Some (put_error s "OpenAI service not initialized", Finished)
  | Ready ans =>
      if live (svc s) then Some (s, Announce ans)
      else Some (put_error s "service was reset during completion", Finished)
  | Announce ans => Some (put_start s, Launch ans)
  | Launch ans => if is_locked s then None else Some (s, Captured (ctx (svc s)) ans)
  | Captured c ans => Some (s, if context_alive (svc s) c then Request c ans else Ending)
  | Request c ans =>
      if negb (client s) then Some (s, NoClient)
      else if negb (context_alive (svc s) c) && negb ok then Some (s, Ending)
      else match ans with
      | RequestFailed e =>
          if context_alive (svc s) c
          then Some (put_error s ((if streaming (svc s) then "failed to create completion stream: "
                                   else "failed to create completion: ") +:+ e), Ending)
          else Some (s, Ending)
      | StreamOf rs => Some (s, Register c (generateStreamID (svc s)) rs)
      | MessageOf None => Some (s, Ending)
      | MessageOf (Some (content, calls)) => Some (s, Deliver c (message_out content calls) Return)
      end
  | Register c id rs => Some (set_svc s (registerStream (svc s) id i), Receive c id ∅ rs)
  | Receive c id b rs =>
      if context_alive (svc s) c then Some (s, Await c id b rs) else Some (leave s (Onward id b rs))
  | Await c id b rs =>
      if negb (context_alive (svc s) c) && negb ok then Some (leave s (Onward id b rs))
      else match rs with
      | [] => Some (leave s (Onward id b rs))
      | None :: rs' => Some (s, Receive c id b rs')
      | Some ch :: rs' =>
          let '(os, b') := response_outputs b ch in Some (s, Deliver c os (Onward id b' rs'))
      end
  | Deliver c [] k => Some (s, next c k)
  | Deliver c (o :: os) k =>
      let cancelled := negb (context_alive (svc s) c) in
      match o with
      | OutMessage m =>
          if bool_decide (length (messages s) < message_places) && (negb cancelled || ok)
          then Some (put_message s m, Deliver c os k)
          else if cancelled then Some (leave s k) else None
      | _ => if cancelled then Some (leave s k) else None
      end
  | Ending => Some (put_end s, Finished)
  | Finished | NoClient => None
  end.

(** ** Everything together *)

Inductive action : Type :=
| Turn (i : nat) (ok : bool)
| ReadMessage | ReadStart | ReadEnd         (* the event loop's [select] *)
| HandOver (i : nat)                        (* a call, from a completion to the loop *)
| Spawn (ans : provider_answer)             (* [go ... RunCompletion] *)
| Closes (k : closing)                      (* streams stopped, context cancelled *)
| Closed                                    (* the rest of it *)
| Handles (p : EventPacket)                 (* the handler's [HandleEvent] *)
| Fills (op : filler_op).                   (* a filler goroutine *)

Definition set_loop (s : state) (ms : list string) (st en : bool) (r : LLMHandler * list llm_effect) : state :=
  mkState (svc s) (client s) (locked s) (completions s) ms st en (errors s) r.1 (sent s ++ r.2).

Definition set_hd (s : state) (h : LLMHandler) : state :=
  mkState (svc s) (client s) (locked s) (completions s) (messages s) (start_signal s) (end_signal s) (errors s) h (sent s).

(** The streams are stopped, then the context is cancelled. *)
Definition cancel_context (v : OpenAILLMService) : OpenAILLMService :=
  let v1 := stopAllStreams v in
  mkOpenAI (apiKey v1) (streaming v1) (isInitialized v1) (ctx v1) false (activeStreams v1).

Definition close (s : state) (k : closing) : option state :=
  match locked s with
  | Some _ => None
  | None => Some (mkState (cancel_context (svc s)) (client s) (Some k) (completions s) (messages s) (start_signal s)
                    (end_signal s) (errors s) (hd s) (sent s))
  end.

Definition finish_close (s : state) : option state :=
  match locked s with
  | Some Resetting => Some (mkState (OpenAI.Reset (svc s)) true None (completions s) (messages s) (start_signal s)
                              (end_signal s) (errors s) (hd s) (sent s))
  | Some Cleaning => Some (mkState (OpenAI.Cleanup (svc s)) false None (completions s) (messages s) (start_signal s)
                              (end_signal s) (errors s) (hd s) (sent s))
  | None => None
  end.

Definition hand_over (s : state) (i : nat) : option state :=
  match completions s !! i with
  | Some (Deliver c (OutToolCall call :: os) k) =>
      Some (put_completion (set_loop s (messages s) (start_signal s) (end_signal s)
              (loop_step (hd s) (OutToolCall call))) i (Deliver c os k))
  | _ => None
  end.

Definition fire (s : state) (a : action) : option state :=
  match a with
  | Turn i ok =>
      match completions s !! i with
      | Some t => (λ r, put_completion r.1 i r.2) <$> turn s i ok t
      | None => None
      end
  | ReadMessage =>
      match messages s with
      | m :: ms => Some (set_loop s ms (start_signal s) (end_signal s) (loop_step (hd s) (OutMessage m)))
      | [] => None
      end
  | ReadStart =>
      if start_signal s then Some (set_loop s (messages s) false (end_signal s) (loop_step (hd s) OutStart)) else None
  | ReadEnd =>
      if end_signal s then Some (set_loop s (messages s) (start_signal s) false (loop_step (hd s) OutEnd)) else None
  | HandOver i => hand_over s i
  | Spawn ans =>
      Some (mkState (svc s) (client s) (locked s) (completions s ++ [Enter ans]) (messages s) (start_signal s)
              (end_signal s) (errors s) (hd s) (sent s))
  | Closes k => close s k
  | Closed => finish_close s
  | Handles p => (λ r, set_hd s r.1) <$> LlmHandler.HandleEvent (hd s) p
  | Fills op => Some (set_hd s (set_filler (hd s) (apply_op (filler (hd s)) op).1))
  end.

Definition fires (s : state) (acts : list action) : option state := foldl (λ o a, o ≫= λ s, fire s a) (Some s) acts.

(** ** Every completion comes to its end *)

(** What the completions and the event loop do by themselves. *)
Definition internal (a : action) : bool :=
  match a with Turn _ _ | ReadMessage | ReadStart | ReadEnd | HandOver _ => true | _ => false end.

(** Operations left, each output counted with its reading. *)
Fixpoint await_work (b : gmap Z ToolCall) (rs : list (option choice)) : nat :=
  match rs with
  | [] => 3
  | None :: rs' => 2 + await_work b rs'
  | Some ch :: rs' => let '(os, b') := response_outputs b ch in 3 + 2 * length os + await_work b' rs'
  end.

Definition answer_work (ans : provider_answer) : nat :=
  match ans with
  | StreamOf rs => 2 + await_work ∅ rs
  | MessageOf (Some (content, calls)) => 3 + 2 * length (message_out content calls)
  | MessageOf None | RequestFailed _ => 2
  end.

Definition after_work (k : after) : nat := match k with Onward _ b rs => 1 + await_work b rs | Return => 2 end.

Definition work (t : completion) : nat :=
  match t with
  | Enter ans => 7 + answer_work ans
  | Ready ans => 6 + answer_work ans
  | Announce ans => 5 + answer_work ans
  | Launch ans => 3 + answer_work ans
  | Captured _ ans => 2 + answer_work ans
  | Request _ ans => 1 + answer_work ans
  | Register _ _ rs => 2 + await_work ∅ rs
  | Receive _ _ b rs => 1 + await_work b rs
  | Await _ _ b rs => await_work b rs
  | Deliver _ os k => 1 + 2 * length os + after_work k
  | Ending => 2
  | Finished | NoClient => 0
  end.

Definition channel_work (s : state) : nat :=
  length (messages s) + (if start_signal s then 1 else 0) + (if end_signal s then 1 else 0).

Definition state_work (s : state) : nat := sum_list_with work (completions s) + channel_work s.

Lemma await_work_pos b rs : 3 ≤ await_work b rs.
Proof.
  revert b. induction rs as [|[ch|] rs IH]; intros b; cbn; [done| |specialize (IH b); lia].
  destruct (response_outputs b ch) as [os b']. lia.
Qed.

Lemma answer_work_pos ans : 2 ≤ answer_work ans.
Proof. destruct ans as [rs|[[content calls]|]|e]; cbn; lia. Qed.

Lemma after_work_pos k : 2 ≤ after_work k.
Proof. destruct k as [id b rs|]; cbn; [pose proof (await_work_pos b rs); lia|done]. Qed.

Lemma leave_work s k : channel_work (leave s k).1 = channel_work s ∧ work (leave s k).2 = 2 ∧
  completions (leave s k).1 = completions s.
Proof. by destruct k. Qed.

Lemma next_work c k : work (next c k) = after_work k.
Proof. by destruct k. Qed.

Lemma leave_pays s k t n : leave s k = (t, n) → channel_work t = channel_work s ∧ work n = 2 ∧ completions t = completions s.
Proof. intros E. pose proof (leave_work s k) as Hl. by rewrite E in Hl. Qed.

Lemma turn_completions s i ok t s' t' : turn s i ok t = Some (s', t') → completions s' = completions s.
Proof.
  destruct t as [| | | | | | | | |c os k| | |]; cbn; repeat case_match; intros; simplify_eq; try done;
    match goal with E : leave _ _ = _ |- _ => apply (leave_pays _ _ _ _ E) end.
Qed.

Lemma turn_work s i ok t s' t' : turn s i ok t = Some (s', t') →
  work t' + channel_work s' < work t + channel_work s.
Proof.
  destruct t as [ans|ans|ans|ans|c ans|c ans|c id rs|c id b rs|c id b rs|c os k| | |]; cbn; intros E.
  - repeat case_match; simplify_eq; unfold channel_work; cbn; lia.
  - repeat case_match; simplify_eq; unfold channel_work; cbn; lia.
  - simplify_eq. unfold channel_work. cbn. case_match; lia.
  - repeat case_match; simplify_eq; unfold channel_work; cbn; lia.
  - pose proof (answer_work_pos ans). simplify_eq. case_match; unfold channel_work; cbn; lia.
  - pose proof (answer_work_pos ans). repeat case_match; simplify_eq; unfold channel_work; cbn; lia.
  - simplify_eq. unfold channel_work. cbn. lia.
  - pose proof (await_work_pos b rs). case_match; simplify_eq; unfold channel_work; cbn; lia.
  - pose proof (await_work_pos b rs). case_match; [simplify_eq; unfold channel_work; cbn; lia|].
    destruct rs as [|[ch|] rs]; simplify_eq; cbn in *; try (unfold channel_work; cbn; lia).
    destruct (response_outputs b ch) as [os b']. simplify_eq. cbn. lia.
  - pose proof (after_work_pos k). destruct os as [|o os]; [simplify_eq; rewrite next_work; lia|].
    destruct o; repeat case_match; simplify_eq; try (destruct (leave_pays _ _ _ _ E) as (-> & -> & _); cbn; lia).
    unfold channel_work. cbn. rewrite length_app. cbn. lia.
  - simplify_eq. unfold channel_work. cbn. case_match; lia.
  - done.
  - done.
Qed.

Lemma fire_works s a s' : internal a = true → fire s a = Some s' → state_work s' < state_work s.
Proof.
  intros Ha Hf. unfold state_work. destruct a as [i ok| | | |i| | | | |]; try done; cbn in Hf.
  - destruct (completions s !! i) as [t|] eqn:Ei; [|done]. destruct (turn s i ok t) as [[s1 t']|] eqn:Et; [|done].
    cbn in Hf. simplify_eq. pose proof (turn_work _ _ _ _ _ _ Et) as Hw. pose proof (turn_completions _ _ _ _ _ _ Et) as Ec.
    pose proof (sum_insert work _ i t t' Ei) as Hs. unfold channel_work in *. cbn. rewrite Ec. lia.
  - destruct (messages s) as [|m ms] eqn:Em; [done|]. simplify_eq. unfold channel_work. cbn. rewrite Em. cbn. lia.
  - destruct (start_signal s) eqn:Es; [|done]. simplify_eq. unfold channel_work. cbn. rewrite Es. lia.
  - destruct (end_signal s) eqn:Es; [|done]. simplify_eq. unfold channel_work. cbn. rewrite Es. lia.
  - unfold hand_over in Hf. destruct (completions s !! i) as [[]|] eqn:Ei; try done. destruct os as [|[] os]; try done.
    simplify_eq. pose proof (sum_insert work _ i _ (Deliver c os k) Ei) as Hs. unfold channel_work. cbn in *. lia.
Qed.

Definition deliverable (t : completion) : Prop := match t with Deliver _ os _ => forallb is_body os = true | _ => True end.

Lemma response_bodies b ch : forallb is_body (response_outputs b ch).1 = true.
Proof.
  unfold response_outputs. destruct (String.eqb _ _); cbn [fst]; [|apply content_out_text].
  rewrite forallb_app. destruct (content_out_text ch) as [-> _]. by destruct (calls_text _ (finished_calls_calls (fold_left add_delta (ToolCalls ch) b))) as [-> _].
Qed.

Lemma message_bodies content calls : forallb is_body (message_out content calls) = true.
Proof. unfold message_out. rewrite forallb_app. apply andb_true_iff. split; [by destruct (String.eqb _ _)|]. by induction calls. Qed.

Lemma leave_deliverable s k : deliverable (leave s k).2.
Proof. by destruct k. Qed.

Lemma turn_deliverable s i ok t s' t' : deliverable t → turn s i ok t = Some (s', t') → deliverable t'.
Proof.
  destruct t as [ans|ans|ans|ans|c ans|c ans|c id rs|c id b rs|c id b rs|c os k| | |]; cbn; intros Hd E;
    repeat case_match; simplify_eq; try done; try apply message_bodies;
    match goal with
    | E : response_outputs ?b ?ch = _ |- _ => by pose proof (response_bodies b ch) as Hb; rewrite E in Hb
    | E : leave ?s ?k = _ |- _ => by pose proof (leave_deliverable s k) as Hk; rewrite E in Hk
    | |- context [next _ ?k] => by destruct k
    end.
Qed.

Lemma fire_deliverable s a s' : Forall deliverable (completions s) → fire s a = Some s' →
  Forall deliverable (completions s').
Proof.
  intros Hs Hf. destruct a as [i ok| | | |i|ans|k| |p|op]; cbn in Hf.
  - destruct (completions s !! i) as [t|] eqn:Ei; [|done]. destruct (turn s i ok t) as [[s1 t']|] eqn:Et; [|done].
    cbn in Hf. simplify_eq. cbn. rewrite (turn_completions _ _ _ _ _ _ Et). apply Forall_insert; [done|].
    eapply turn_deliverable; [|done]. by eapply Forall_lookup_1.
  - destruct (messages s); by simplify_eq.
  - destruct (start_signal s); by simplify_eq.
  - destruct (end_signal s); by simplify_eq.
  - unfold hand_over in Hf. destruct (completions s !! i) as [[]|] eqn:Ei; try done. destruct os as [|[] os]; try done.
    simplify_eq. cbn. apply Forall_insert; [done|]. by pose proof (Forall_lookup_1 _ _ _ _ Hs Ei).
  - simplify_eq. cbn. apply Forall_app. split; [done|]. by repeat constructor.
  - unfold close in Hf. destruct (locked s); by simplify_eq.
  - unfold finish_close in Hf. destruct (locked s) as [[]|]; by simplify_eq.
  - destruct (LlmHandler.HandleEvent (hd s) p) as [[h o]|]; [|done]. cbn in Hf. by simplify_eq.
  - by simplify_eq.
Qed.

(** A session of the service and the handler before the first completion. *)
Definition start (v : OpenAILLMService) (h : LLMHandler) : state :=
  mkState v true None [] [] false false [] h [].

Lemma fires_cons s a acts : fires s (a :: acts) = fire s a ≫= λ s1, fires s1 acts.
Proof.
  unfold fires. cbn. destruct (fire s a) as [s1|]; [done|]. cbn. induction acts; [done|]. by cbn.
Qed.

(** An invariant that every action keeps holds after every run. *)
Lemma fires_keeps (P : state → Prop) : (∀ s a s', P s → fire s a = Some s' → P s') →
  ∀ acts s s', P s → fires s acts = Some s' → P s'.
Proof.
  intros Hk acts. induction acts as [|a acts IH]; intros s s' Hs Hf; [by injection Hf as <-|].
  rewrite fires_cons in Hf. destruct (fire s a) as [s1|] eqn:E; [|done]. cbn in Hf. eauto.
Qed.

Lemma fires_deliverable acts s s' : Forall deliverable (completions s) → fires s acts = Some s' →
  Forall deliverable (completions s').
Proof. apply (fires_keeps (λ s, Forall deliverable (completions s))), fire_deliverable. Qed.

Lemma fires_work acts s s' : Forall (λ a, internal a = true) acts → fires s acts = Some s' →
  state_work s' + length acts ≤ state_work s.
Proof.
  intros Ha. revert s. induction Ha as [|a acts Ha _ IH]; intros s Hf; [injection Hf as <-; cbn; lia|].
  rewrite fires_cons in Hf. destruct (fire s a) as [s1|] eqn:E; [|done]. cbn in Hf.
  specialize (IH _ Hf). pose proof (fire_works _ _ _ Ha E). cbn. lia.
Qed.

(** Nothing is left that the completions or the event loop could do. *)
Definition at_rest (s : state) : Prop := ∀ a, internal a = true → fire s a = None.

Definition over (t : completion) : Prop := t = Finished ∨ t = NoClient.

Lemma turn_possible s i t : is_locked s = false → messages s = [] → deliverable t → hand_over (put_completion s i t) i = None →
  turn s i true t = None → i < length (completions s) → over t.
Proof.
  intros Hl Hm Hd Hh Ht Hi. destruct t as [ans|ans|ans|ans|c ans|c ans|c id rs|c id b rs|c id b rs|c os k| | |]; cbn in Ht;
    rewrite ?Hl in Ht; try done; try (by left); try (by right); try (by repeat case_match).
  destruct os as [|o os]; [done|]. destruct o as [m|call| |]; try done.
  - rewrite Hm in Ht. cbn in Ht. by rewrite orb_true_r in Ht.
  - unfold hand_over in Hh. cbn in Hh. by rewrite list_lookup_insert_eq in Hh.
Qed.

Lemma rest_is_over s : Forall deliverable (completions s) → locked s = None → at_rest s →
  Forall over (completions s) ∧ messages s = [] ∧ start_signal s = false ∧ end_signal s = false.
Proof.
  intros Hd Hl Hr.
  assert (messages s = []) as Hm by (pose proof (Hr ReadMessage eq_refl) as E; cbn in E; by destruct (messages s)).
  split_and!; [|done|by pose proof (Hr ReadStart eq_refl) as E; cbn in E; destruct (start_signal s)
    |by pose proof (Hr ReadEnd eq_refl) as E; cbn in E; destruct (end_signal s)].
  apply Forall_lookup. intros i t Hi. pose proof (Hr (Turn i true) eq_refl) as Ht. pose proof (Hr (HandOver i) eq_refl) as Hh.
  cbn in Ht, Hh. rewrite Hi in Ht. destruct (turn s i true t) as [|] eqn:Et; [done|].
  apply (turn_possible s i t); try done; [by unfold is_locked; rewrite Hl|by eapply Forall_lookup_1| |by eapply lookup_lt_Some].
  unfold hand_over in *. cbn. rewrite list_lookup_insert_eq by (by eapply lookup_lt_Some). rewrite Hi in Hh. by destruct t as [| | | | | | | | |? [|[] ?] ?| | |].
Qed.


(** ** What the completions put out *)

(** The message or call that completion [i] parts with in an action. *)
Definition turn_output (s : state) (ok : bool) (t : completion) : list service_output :=
  match t with
  | Deliver c (OutMessage m :: _) _ =>
      if bool_decide (length (messages s) < message_places) && (negb (negb (context_alive (svc s) c)) || ok)
      then [OutMessage m] else []
  | _ => []
  end.

Definition output (s : state) (a : action) : list (nat * service_output) :=
  match a with
  | Turn i ok => match completions s !! i with Some t => map (pair i) (turn_output s ok t) | None => [] end
  | HandOver i =>
      match completions s !! i with
      | Some (Deliver _ (OutToolCall call :: _) _) => [(i, OutToolCall call)]
      | _ => []
      end
  | _ => []
  end.

Fixpoint outputs (s : state) (acts : list action) : list (nat * service_output) :=
  match acts with
  | [] => []
  | a :: acts' => output s a ++ match fire s a with Some s1 => outputs s1 acts' | None => [] end
  end.

Definition outputs_of (i : nat) (log : list (nat * service_output)) : list service_output :=
  map snd (filter (λ x, x.1 = i) log).

Definition spawned (acts : list action) : list provider_answer :=
  omap (λ a, match a with Spawn ans => Some ans | _ => None end) acts.

(** What an answer amounts to when nothing cancels it: [OpenAI.stream_loop]
    and [OpenAI.message_out]. *)
Definition expected_outputs (ans : provider_answer) : list service_output :=
  match ans with
  | StreamOf rs => stream_loop (λ _, true) 0 ∅ rs
  | MessageOf (Some (content, calls)) => message_out content calls
  | MessageOf None | RequestFailed _ => []
  end.

Definition after_outputs (k : after) : list service_output :=
  match k with Onward _ b rs => stream_loop (λ _, true) 0 b rs | Return => [] end.

Definition pending (t : completion) : list service_output :=
  match t with
  | Enter ans | Ready ans | Announce ans | Launch ans | Captured _ ans | Request _ ans => expected_outputs ans
  | Register _ _ rs => stream_loop (λ _, true) 0 ∅ rs
  | Receive _ _ b rs | Await _ _ b rs => stream_loop (λ _, true) 0 b rs
  | Deliver _ os k => os ++ after_outputs k
  | Ending | Finished | NoClient => []
  end.

Definition captured (t : completion) : option nat :=
  match t with
  | Captured c _ | Request c _ | Register c _ _ | Receive c _ _ _ | Await c _ _ _ | Deliver c _ _ => Some c
  | _ => None
  end.

Lemma stream_loop_shift rs : ∀ k k' b, stream_loop (λ _, true) k b rs = stream_loop (λ _, true) k' b rs.
Proof.
  induction rs as [|[ch|] rs IH]; intros k k' b; [done| |by apply IH]. cbn [stream_loop negb].
  destruct (String.eqb _ _); [by rewrite (IH (S k) (S k'))|by rewrite (IH (S k) (S k'))].
Qed.

Lemma stream_loop_response b ch rs : stream_loop (λ _, true) 0 b (Some ch :: rs) =
  (response_outputs b ch).1 ++ stream_loop (λ _, true) 0 (response_outputs b ch).2 rs.
Proof.
  unfold response_outputs. cbn [stream_loop negb]. rewrite !(stream_loop_shift rs 1 0).
  destruct (String.eqb _ _); cbn [fst snd]; [by rewrite app_assoc|done].
Qed.

(** A service at work, its context alive. *)
Definition serving (s : state) : Prop :=
  isInitialized (svc s) = true ∧ live (svc s) = true ∧ client s = true ∧
  Forall (λ t, ∀ c, captured t = Some c → c = ctx (svc s)) (completions s).

Lemma alive_here v : live v = true → context_alive v (ctx v) = true.
Proof. intros Hl. unfold context_alive. by rewrite Nat.eqb_refl, Hl. Qed.

(** While the context lives, a completion gives up nothing it owes. *)
Lemma turn_pending s i ok t s' t' : isInitialized (svc s) = true → live (svc s) = true → client s = true →
  (∀ c, captured t = Some c → c = ctx (svc s)) → turn s i ok t = Some (s', t') →
  turn_output s ok t ++ pending t' = pending t ∧ (∀ c, captured t' = Some c → c = ctx (svc s)).
Proof.
  intros Hi Hl Hc Hcap E. pose proof (alive_here _ Hl) as Ha.
  destruct t as [ans|ans|ans|ans|c ans|c ans|c id rs|c id b rs|c id b rs|c os k| | |]; cbn in E, Hcap |- *;
    try (specialize (Hcap c eq_refl); subst c); rewrite ?Hi, ?Hl, ?Hc, ?Ha in E; cbn in E; simplify_eq; cbn; try done.
  - destruct (is_locked s); by simplify_eq.
  - destruct (is_locked s); simplify_eq. cbn. split; [done|]. by intros c [= ->].
  - split; [done|]. by intros c [= ->].
  - destruct ans as [rs|[[content calls]|]|e]; simplify_eq; cbn; rewrite ?app_nil_r; split; try done; by intros c [= ->].
  - split; [done|]. by intros c [= ->].
  - split; [done|]. by intros c [= ->].
  - destruct rs as [|[ch|] rs]; cbn in E; [by simplify_eq| |simplify_eq; cbn; split; [by apply stream_loop_shift|by intros c [= ->]]].
    rewrite stream_loop_response. destruct (response_outputs b ch) as [os b']. simplify_eq. cbn. split; [done|]. by intros c [= ->].
  - destruct os as [|o os]; [simplify_eq; destruct k; cbn; split; try done; by intros c [= ->]|].
    destruct o as [m|call| |]; try done. rewrite Ha. cbn in E |- *. rewrite andb_true_r in E |- *.
    destruct (bool_decide _); [|done]. simplify_eq. cbn. split; [done|]. by intros c [= ->].
Qed.

(** Actions that cancel nothing and silence nothing. *)
Definition interrupts (p : EventPacket) : bool :=
  match Event p with VadInterruptionSuspectedEvent | VadInterruptionConfirmedEvent => true | _ => false end.

Definition quiet (a : action) : bool :=
  match a with Closes _ | Closed => false | Handles p => negb (interrupts p) | _ => true end.

Lemma quiet_handles h p h' out : discarding h = false → interrupts p = false →
  LlmHandler.HandleEvent h p = Some (h', out) → discarding h' = false.
Proof.
  intros Hd Hi Hh. unfold LlmHandler.HandleEvent in Hh. unfold interrupts in Hi.
  destruct (Event p); try done; repeat case_match; by simplify_eq.
Qed.

Lemma turn_svc s i ok t s' t' : turn s i ok t = Some (s', t') →
  ctx (svc s') = ctx (svc s) ∧ live (svc s') = live (svc s) ∧ isInitialized (svc s') = isInitialized (svc s) ∧
  client s' = client s ∧ hd s' = hd s ∧ sent s' = sent s ∧
  messages s' = messages s ++ concat (map message_text (turn_output s ok t)).
Proof.
  destruct t as [| | | | | | | | |c os k| | |]; cbn; repeat case_match; intros; simplify_eq; rewrite ?app_nil_r; try done;
    match goal with E : leave _ ?k = _ |- _ => destruct k; cbn in E; simplify_eq; by rewrite ?app_nil_r end.
Qed.

(** What completion [i] still has to put out, counting those yet to be
    spawned. *)
Definition due (s : state) (acts : list action) (i : nat) : list service_output :=
  default [] ((map pending (completions s) ++ map expected_outputs (spawned acts)) !! i).

Lemma map_update {A B} (f : A → B) l i x : map f (<[i := x]> l) = <[i := f x]> (map f l).
Proof. apply list_fmap_insert. Qed.

Lemma outputs_of_app i l1 l2 : outputs_of i (l1 ++ l2) = outputs_of i l1 ++ outputs_of i l2.
Proof. unfold outputs_of. by rewrite filter_app, map_app. Qed.

Lemma outputs_of_pair i j os : outputs_of i (map (pair j) os) = if decide (j = i) then os else [].
Proof.
  unfold outputs_of. induction os as [|o os IH]; [by destruct (decide _)|]. cbn [map]. rewrite filter_cons. cbn [fst].
  destruct (decide (j = i)); [cbn; by rewrite IH|done].
Qed.

Lemma due_put s i t t' out acts j : completions s !! i = Some t → out ++ pending t' = pending t →
  outputs_of j (map (pair i) out) ++ due (put_completion s i t') acts j = due s acts j.
Proof.
  intros Hi Ho. unfold due. cbn. rewrite map_update, outputs_of_pair.
  assert (i < length (map pending (completions s))) as Hlt by (rewrite length_map; by eapply lookup_lt_Some).
  destruct (decide (i = j)) as [->|Hne].
  - rewrite !lookup_app_l by (by rewrite ?length_insert). rewrite list_lookup_insert_eq by done.
    rewrite list_lookup_fmap, Hi. exact Ho.
  - cbn. f_equal. destruct (decide (j < length (map pending (completions s)))).
    + rewrite !lookup_app_l by (by rewrite ?length_insert). by apply list_lookup_insert_ne.
    + rewrite !lookup_app_r by (rewrite ?length_insert; lia). by rewrite length_insert.
Qed.

Lemma due_same s s' acts j : completions s' = completions s → due s' acts j = due s acts j.
Proof. intros E. unfold due. by rewrite E. Qed.

(** One quiet action: who owes what, and that the service goes on serving. *)
Lemma quiet_due s a acts s' j : serving s → quiet a = true → fire s a = Some s' →
  outputs_of j (output s a) ++ due s' acts j = due s (a :: acts) j ∧ serving s'.
Proof.
  intros (Hi & Hl & Hc & Hcap) Hq Hf. destruct a as [i ok| | | |i|ans|k| |p|op]; cbn in Hf; try done.
  - destruct (completions s !! i) as [t|] eqn:Ei; [|done]. destruct (turn s i ok t) as [[s1 t']|] eqn:Et; [|done].
    cbn in Hf. simplify_eq. cbn [output]. rewrite Ei. pose proof (turn_completions _ _ _ _ _ _ Et) as Ec.
    destruct (turn_pending _ _ _ _ _ _ Hi Hl Hc (Forall_lookup_1 _ _ _ _ Hcap Ei) Et) as [Ho Hct].
    destruct (turn_svc _ _ _ _ _ _ Et) as (E1 & E2 & E3 & E4 & _). split.
    + change (due s (Turn i ok :: acts) j) with (due s acts j). rewrite <-(due_put s i t t' _ acts j Ei Ho). f_equal. unfold due. cbn. by rewrite Ec.
    + unfold serving. cbn. rewrite E1, E2, E3, E4, Ec. split_and!; try done. by apply Forall_insert.
  - destruct (messages s); by simplify_eq.
  - destruct (start_signal s); by simplify_eq.
  - destruct (end_signal s); by simplify_eq.
  - unfold hand_over in Hf. cbn [output]. destruct (completions s !! i) as [[]|] eqn:Ei; try done. destruct os as [|[] os]; try done.
    simplify_eq. split.
    + change (due s (HandOver i :: acts) j) with (due s acts j). rewrite <-(due_put s i _ (Deliver c os k) [OutToolCall call] acts j Ei eq_refl). done.
    + unfold serving. cbn. split_and!; try done. apply Forall_insert; [done|]. exact (Forall_lookup_1 _ _ _ _ Hcap Ei).
  - simplify_eq. cbn. split.
    + unfold due. cbn. by rewrite map_app, <-app_assoc.
    + unfold serving. cbn. split_and!; try done. apply Forall_app. split; [done|]. by repeat constructor.
  - destruct (LlmHandler.HandleEvent (hd s) p) as [[h o]|]; [|done]. cbn in Hf. by simplify_eq.
  - by simplify_eq.
Qed.

Lemma quiet_run_due acts j : ∀ s s', serving s → Forall (λ a, quiet a = true) acts → fires s acts = Some s' →
  outputs_of j (outputs s acts) ++ default [] (map pending (completions s') !! j) = due s acts j.
Proof.
  induction acts as [|a acts IH]; intros s s' Hs Hq Hf.
  - injection Hf as <-. unfold due. cbn. by rewrite app_nil_r.
  - inversion Hq as [|? ? Ha Hq']; subst. rewrite fires_cons in Hf. destruct (fire s a) as [s1|] eqn:E; [|done].
    cbn in Hf. destruct (quiet_due _ _ acts _ j Hs Ha E) as [Hd Hs1].
    cbn [outputs]. rewrite E, outputs_of_app, <-app_assoc, (IH s1 s' Hs1 Hq' Hf). exact Hd.
Qed.

(** *** The event loop passes on what it reads *)

Definition spoken (effs : list llm_effect) : list string := concat (map chunk_text effs).
Definition called (effs : list llm_effect) : list (string * option (gmap string any)) :=
  concat (map (λ e, match e with
    | Send p => match Event p with LLMToolInvocationRequestedEvent id params => [(id, params)] | _ => [] end
    | _ => [] end) effs).
Definition messages_of (os : list service_output) : list string := concat (map message_text os).
Definition calls_of (os : list service_output) : list (string * option (gmap string any)) :=
  omap (λ o, match o with OutToolCall call => Some (tc_ToolId call, tc_Parameters call) | _ => None end) os.

Lemma spoken_effects_app a b : spoken (a ++ b) = spoken a ++ spoken b.
Proof. unfold spoken. by rewrite map_app, concat_app. Qed.
Lemma called_app a b : called (a ++ b) = called a ++ called b.
Proof. unfold called. by rewrite map_app, concat_app. Qed.
Lemma messages_of_app a b : messages_of (a ++ b) = messages_of a ++ messages_of b.
Proof. unfold messages_of. by rewrite map_app, concat_app. Qed.

Lemma loop_passes h o : discarding h = false →
  spoken (loop_step h o).2 = message_text o ∧ called (loop_step h o).2 = calls_of [o] ∧
  discarding (loop_step h o).1 = false.
Proof. intros Hd. destruct o; cbn; rewrite Hd; by cbn. Qed.

(** What was sent on and what still waits is what the completions put out. *)
Definition passed (s : state) (log : list (nat * service_output)) : Prop :=
  discarding (hd s) = false ∧ spoken (sent s) ++ messages s = messages_of (map snd log) ∧
  called (sent s) = calls_of (map snd log).

Lemma turn_output_message s ok t : calls_of (turn_output s ok t) = [].
Proof. destruct t as [| | | | | | | | |c [|[] os] k| | |]; cbn; try done. by destruct (_ && _). Qed.

Lemma snd_pair (i : nat) (os : list service_output) : map snd (map (pair i) os) = os.
Proof. induction os as [|o os IH]; cbn; [done|]. by rewrite IH. Qed.

Lemma quiet_passes s a s' log : passed s log → quiet a = true → fire s a = Some s' → passed s' (log ++ output s a).
Proof.
  intros (Hd & Hm & Hc) Hq Hf. unfold passed. rewrite map_app, messages_of_app, <-Hm. unfold calls_of. rewrite omap_app.
  fold (calls_of (map snd log)). rewrite <-Hc. destruct a as [i ok| | | |i|ans|k| |p|op]; cbn -[loop_step] in Hf; try done.
  - cbn [output]. destruct (completions s !! i) as [t|] eqn:Ei; [|done]. destruct (turn s i ok t) as [[s1 t']|] eqn:Et; [|done].
    cbn in Hf. simplify_eq. cbn. destruct (turn_svc _ _ _ _ _ _ Et) as (_ & _ & _ & _ & -> & -> & ->).
    rewrite snd_pair. fold (calls_of (turn_output s ok t)). rewrite turn_output_message, app_nil_r. by rewrite app_assoc.
  - destruct (messages s) as [|m ms] eqn:Em; [done|]. simplify_eq. destruct (loop_passes (hd s) (OutMessage m) Hd) as (E1 & E2 & E3).
    cbn [set_loop hd sent messages output map]. rewrite spoken_effects_app, called_app, E1, E2. cbn. by rewrite <-!app_assoc, !app_nil_r.
  - destruct (start_signal s); [|done]. simplify_eq. destruct (loop_passes (hd s) OutStart Hd) as (E1 & E2 & E3).
    cbn [set_loop hd sent messages output map]. rewrite spoken_effects_app, called_app, E1, E2. cbn. by rewrite !app_nil_r.
  - destruct (end_signal s); [|done]. simplify_eq. destruct (loop_passes (hd s) OutEnd Hd) as (E1 & E2 & E3).
    cbn [set_loop hd sent messages output map]. rewrite spoken_effects_app, called_app, E1, E2. cbn. by rewrite !app_nil_r.
  - unfold hand_over in Hf. cbn [output]. destruct (completions s !! i) as [[]|] eqn:Ei; try done. destruct os as [|[] os]; try done.
    simplify_eq. destruct (loop_passes (hd s) (OutToolCall call) Hd) as (E1 & E2 & E3).
    cbn [put_completion set_loop hd sent messages output map]. rewrite spoken_effects_app, called_app, E1, E2. cbn. by rewrite !app_nil_r.
  - simplify_eq. cbn. by rewrite !app_nil_r.
  - destruct (LlmHandler.HandleEvent (hd s) p) as [[h o]|] eqn:Eh; [|done]. cbn in Hf. simplify_eq. cbn. rewrite !app_nil_r.
    split; [|done]. cbn in Hq. apply negb_true_iff in Hq. by eapply quiet_handles.
  - simplify_eq. cbn. by rewrite !app_nil_r.
Qed.

Lemma quiet_run_passes acts : ∀ s s' log, passed s log → Forall (λ a, quiet a = true) acts → fires s acts = Some s' →
  passed s' (log ++ outputs s acts).
Proof.
  induction acts as [|a acts IH]; intros s s' log Hs Hq Hf.
  - injection Hf as <-. cbn. by rewrite app_nil_r.
  - inversion Hq as [|? ? Ha Hq']; subst. rewrite fires_cons in Hf. destruct (fire s a) as [s1|] eqn:E; [|done].
    cbn in Hf. cbn [outputs]. rewrite E, app_assoc. apply (IH s1); [|done|done]. by apply quiet_passes.
Qed.


(** ** After a reset *)

(** What a completion has in hand that its cancelled context does not take from
    it: what is left of one response. *)
Definition leftover (t : completion) : list service_output :=
  match t with
  | Request _ (MessageOf (Some (content, calls))) => message_out content calls
  | Await _ _ b (Some ch :: _) => (response_outputs b ch).1
  | Deliver _ os _ => os
  | _ => []
  end.

(** Contexts are numbered upwards: a context once cancelled stays so. *)
Definition dead (s : state) (c : nat) : Prop := context_alive (svc s) c = false ∧ c ≤ ctx (svc s).

Definition bound_to (c : nat) (t : completion) : Prop := captured t = Some c ∨ t = Ending ∨ over t.

Lemma dead_kept s c : dead s c → ∀ v, ctx v = ctx (svc s) → (live v = true → live (svc s) = true) →
  context_alive v c = false.
Proof.
  intros [Ha _] v Ec Hl. unfold context_alive in *. rewrite Ec. destruct (Nat.eqb c (ctx (svc s))); [|done].
  destruct (live v); [|done]. by rewrite Hl in Ha.
Qed.

Lemma fire_dead s a s' c : dead s c → fire s a = Some s' → dead s' c.
Proof.
  intros Hd Hf.
  assert (∀ v, ctx v = ctx (svc s) → (live v = true → live (svc s) = true) → context_alive v c = false ∧ c ≤ ctx v) as Hk.
  { intros v Ec Hl. split; [by eapply dead_kept|]. rewrite Ec. apply Hd. }
  unfold dead. destruct a as [i ok| | | |i|ans|k| |p|op]; cbn in Hf.
  - destruct (completions s !! i) as [t|]; [|done]. destruct (turn s i ok t) as [[s1 t']|] eqn:Et; [|done].
    cbn in Hf. simplify_eq. cbn. destruct (turn_svc _ _ _ _ _ _ Et) as (E1 & E2 & _). by apply Hk; [|rewrite E2].
  - destruct (messages s); by simplify_eq.
  - destruct (start_signal s); by simplify_eq.
  - destruct (end_signal s); by simplify_eq.
  - unfold hand_over in Hf. destruct (completions s !! i) as [[]|]; try done. destruct os as [|[] os]; by simplify_eq.
  - by simplify_eq.
  - unfold close in Hf. destruct (locked s); simplify_eq. by apply Hk.
  - unfold finish_close in Hf. destruct (locked s) as [[]|]; simplify_eq; cbn; [|by apply (Hk (OpenAI.Cleanup (svc s)))].
    destruct Hd as [_ Hc]. split; [|lia]. unfold context_alive. cbn. by rewrite (proj2 (Nat.eqb_neq _ _)) by lia.
  - destruct (LlmHandler.HandleEvent (hd s) p) as [[h o]|]; [|done]. cbn in Hf. by simplify_eq.
  - by simplify_eq.
Qed.

Lemma turn_leftover s i ok t s' t' c : dead s c → bound_to c t → turn s i ok t = Some (s', t') →
  bound_to c t' ∧ turn_output s ok t ++ leftover t' `prefix_of` leftover t.
Proof.
  intros [Ha _] [Hc|[->|[->| ->]]] E; [|cbn in E; simplify_eq; split; [right; right; by left|done]|done|done].
  assert (∀ os, turn_output s ok t = [] → t' = Ending → bound_to c t' ∧ turn_output s ok t ++ leftover t' `prefix_of` os) as Hend.
  { intros os -> ->. split; [right; by left|apply prefix_nil]. }
  destruct t as [ans|ans|ans|ans|c' ans|c' ans|c' id rs|c' id b rs|c' id b rs|c' os k| | |]; cbn in Hc; simplify_eq;
    cbn in E; rewrite ?Ha in E; cbn in E.
  - simplify_eq. by apply Hend.
  - destruct (client s); cbn in E; [|simplify_eq; split; [right; right; by right|apply prefix_nil]].
    destruct ok; cbn in E; [|simplify_eq; by apply Hend].
    destruct ans as [rs|[[content calls]|]|e]; simplify_eq; try (by apply Hend); split; try done; by left.
  - simplify_eq. split; [by left|done].
  - simplify_eq. by apply Hend.
  - destruct ok; cbn in E; [|simplify_eq; by apply Hend]. destruct rs as [|[ch|] rs]; [simplify_eq; by apply Hend| |].
    + destruct (response_outputs b ch) as [os b'] eqn:Er. simplify_eq. cbn. rewrite Er. split; [by left|done].
    + simplify_eq. split; [by left|apply prefix_nil].
  - destruct os as [|o os]; [simplify_eq; destruct k; split; try done; [by left|right; by left]|].
    assert (∀ r, Some (leave s k) = Some r → r.2 = Ending) as Hl by (intros r [= <-]; by destruct k).
    destruct o as [m|call| |]; cbn [turn_output]; try (by apply Hl in E; cbn in E; subst; split; [right; by left|apply prefix_nil]).
    rewrite Ha. cbn in E |- *. destruct (bool_decide _ && ok) eqn:Eo.
    + simplify_eq. split; [by left|done].
    + apply Hl in E. cbn in E. subst. split; [right; by left|apply prefix_nil].
Qed.

Lemma fire_leftover s a s' i t c : dead s c → completions s !! i = Some t → bound_to c t → fire s a = Some s' →
  ∃ t', completions s' !! i = Some t' ∧ bound_to c t' ∧ outputs_of i (output s a) ++ leftover t' `prefix_of` leftover t.
Proof.
  intros Hd Ht Hb Hf.
  assert (completions s' !! i = Some t → output s a = [] → ∃ t', completions s' !! i = Some t' ∧ bound_to c t' ∧
    outputs_of i (output s a) ++ leftover t' `prefix_of` leftover t) as Hsame by (intros ? ->; eauto).
  destruct a as [j ok| | | |j|ans|k| |p|op]; cbn in Hf.
  - destruct (completions s !! j) as [u|] eqn:Ej; [|done]. destruct (turn s j ok u) as [[s1 u']|] eqn:Et; [|done].
    cbn in Hf. simplify_eq. cbn [output put_completion completions]. rewrite (turn_completions _ _ _ _ _ _ Et), Ej, outputs_of_pair.
    destruct (decide (j = i)) as [->|Hne].
    + rewrite Ht in Ej. simplify_eq. exists u'. rewrite list_lookup_insert_eq by (by eapply lookup_lt_Some).
      split; [done|]. by eapply turn_leftover.
    + exists t. by rewrite list_lookup_insert_ne.
  - destruct (messages s); simplify_eq. by apply Hsame.
  - destruct (start_signal s); simplify_eq. by apply Hsame.
  - destruct (end_signal s); simplify_eq. by apply Hsame.
  - unfold hand_over in Hf. cbn [output]. destruct (completions s !! j) as [[]|] eqn:Ej; try done. destruct os as [|[] os]; try done.
    simplify_eq. cbn [put_completion set_loop completions]. change [(j, OutToolCall call)] with (map (pair j) [OutToolCall call]). rewrite outputs_of_pair.
    destruct (decide (j = i)) as [->|Hne].
    + rewrite Ht in Ej. simplify_eq. exists (Deliver c0 os k). rewrite list_lookup_insert_eq by (by eapply lookup_lt_Some).
      split; [done|]. split; [|done]. left. by destruct Hb as [Hb|[?|[?|?]]].
    + exists t. by rewrite list_lookup_insert_ne.
  - simplify_eq. apply Hsame; [|done]. cbn. by apply lookup_app_l_Some.
  - unfold close in Hf. destruct (locked s); simplify_eq. by apply Hsame.
  - unfold finish_close in Hf. destruct (locked s) as [[]|]; simplify_eq; by apply Hsame.
  - destruct (LlmHandler.HandleEvent (hd s) p) as [[h o]|]; [|done]. cbn in Hf. simplify_eq. by apply Hsame.
  - simplify_eq. by apply Hsame.
Qed.

(** C6: A completion whose context has been cancelled, by [Reset] or by [Cleanup], puts out at
    most what is left of the response it had received, in any further
    run: no later [Reset], no event and no interleaving gives it back the context, and it never
    delivers from another response. *)
Theorem cancelled_completion_is_cut acts s s' i t c : dead s c → completions s !! i = Some t → captured t = Some c →
  fires s acts = Some s' → outputs_of i (outputs s acts) `prefix_of` leftover t.
Proof.
  intros Hd Ht Hc. assert (bound_to c t) as Hb by (by left). clear Hc. revert s t Hd Ht Hb.
  induction acts as [|a acts IH]; intros s t Hd Ht Hb Hf; [apply prefix_nil|].
  rewrite fires_cons in Hf. destruct (fire s a) as [s1|] eqn:E; [|done]. cbn in Hf. cbn [outputs]. rewrite E, outputs_of_app.
  destruct (fire_leftover _ _ _ _ _ _ Hd Ht Hb E) as (t1 & Ht1 & Hb1 & Hp).
  etransitivity; [apply prefix_app, (IH s1 t1); [by eapply fire_dead|done..]|done].
Qed.
End completion.

(** ** Runs *)

#[local] Existing Instance demo_runtime.

Definition turns (i n : nat) : list action := repeat (Turn i true) n.

Definition says (text : string) : provider_answer := StreamOf [Some (mkChoice text [] "stop")].

Definition demo_handler : LLMHandler := NewLLMHandler LlmHandler.DefaultConfig.

Definition recorded (s : state) : list string := concat (map recorded_text (sent s)).

(** One completion streams one message and returns; the event loop then reads
    the channels, in the order [reads]. *)
Definition one_response (reads : list action) : list action :=
  Spawn (says "Good morning.") :: turns 0 14 ++ reads.

Definition final (acts : list action) : state := default (start demo_openai demo_handler) (fires (start demo_openai demo_handler) acts).



(** A reset while a message waits to be sent. *)
Definition interrupted : list action :=
  Spawn (says "Good morning.") :: turns 0 9 ++ [Closes Resetting; Closed].

Lemma cancelled_completion_is_cut_witness :
  outputs_of 0 (outputs (final interrupted) (turns 0 3)) `prefix_of` [OutMessage "Good morning."].
Proof.
  apply (cancelled_completion_is_cut (turns 0 3) (final interrupted) (final (interrupted ++ turns 0 3)) 0
    (Deliver 1 [OutMessage "Good morning."] (Onward 0 ∅ [])) 1).
  - split; vm_compute; [reflexivity|lia].
  - vm_compute. reflexivity.
  - reflexivity.
  - vm_compute. reflexivity.
Defined.

(** ** What the interleavings can break *)

(** The event loop's [select] may take the end signal before messages still in
    their channel: the response is then recorded without them, though they
    are spoken afterwards. *)
Theorem recorded_text_cut_short :
  ∃ s, fires (start demo_openai demo_handler) (one_response [ReadStart; ReadEnd; ReadMessage]) = Some s ∧
       spoken (sent s) = ["Good morning."] ∧ recorded s = [""].
Proof. eexists. split; [vm_compute; reflexivity|]. split; vm_compute; reflexivity. Qed.

(** A [Reset] between a completion's look at the context and its capture of it
    does not reach that completion: it goes on under the new context, and
    its text is spoken together with that of the generation the [Reset] was made
    for. *)
Definition overtaken : list action :=
  Spawn (says "It is raining.") :: turns 0 3 ++
  [Handles (next_packet (LLMGenerateResponseEvent (mkLLMContext [] [])) "UserContextHandler");
   Closes Resetting; Closed; Spawn (says "It is sunny.")] ++
  turns 0 11 ++ turns 1 14 ++ [ReadStart; ReadMessage; ReadMessage; ReadEnd].

Theorem reset_misses_starting_completion :
  ∃ s, fires (start demo_openai demo_handler) overtaken = Some s ∧ completions s = [Finished; Finished] ∧
       recorded s = ["It is raining.It is sunny."].
Proof. eexists. split; [vm_compute; reflexivity|]. split; vm_compute; reflexivity. Qed.

(** [s.ctx] is looked at without the lock: in the middle of a [Reset] the
    completion reports a fatal error, for which the handler gives up its service. *)
Theorem reset_reported_as_failure :
  ∃ s, fires (start demo_openai demo_handler) [Spawn (says "Good morning."); Turn 0 true; Closes Resetting; Turn 0 true] = Some s ∧
       completions s = [Finished] ∧ errors s = ["service was reset during completion"].
Proof. eexists. split; [vm_compute; reflexivity|]. split; vm_compute; reflexivity. Qed.

(** Stream ids are the number of streams registered, read before registering:
    two streams get the same id, and only one of them is there to be stopped. *)
Theorem stream_id_given_twice :
  ∃ s, fires (start demo_openai demo_handler)
         (Spawn (says "a") :: Spawn (says "b") :: turns 0 6 ++ turns 1 6 ++ turns 0 1 ++ turns 1 1) = Some s ∧
       activeStreams (svc s) = {[0 := 1]} ∧
       Forall (λ t, match t with Receive _ id _ _ => id = 0 | _ => False end) (completions s).
Proof. eexists. split; [vm_compute; reflexivity|]. split; [vm_compute; reflexivity|]. repeat constructor. Qed.
