(* ===== verification/McpTools.v ===== *)
(** * MCP tools: [handlers/context/mcp_manager.go], [mcp_schema.go],
    [core/mcp.go]

    Tools of external MCP servers: connecting, naming, converting a tool's JSON
    schema to the parameters the model sees, and routing a call back to the
    server that owns the tool.  The MCP library is outside: what a server lists
    or answers is an argument.  Go's [range] over a map is the class
    [RangeOrder]: any order of the entries. *)

From S2P Require Import Prelude Core.

Local Open Scope string_scope.
Local Open Scope list_scope.
Local Open Scope Z_scope.

Class RangeOrder := {
  range_ : ∀ {A : Type}, gmap string A → list (string * A);
  range_perm {A : Type} (m : gmap string A) : range_ m ≡ₚ map_to_list m
}.

(** ** Configuration: [core/mcp.go] *)

Record MCPCommandConfig := mkCommandConfig {
  Path : string;
  Args : list string;
  Env : list string
}.

Record MCPURLConfig := mkURLConfig { mu_URL : string; Headers : gmap string string }.

Record MCPServerConfig := mkServerConfig {
  sc_Name : string;
  ToolPrefix : string;
  Command : option MCPCommandConfig;
  SSE : option MCPURLConfig;
  Streamable : option MCPURLConfig
}.

(** The transports of the library with what the code gives them; the headers
    of a URL are not among it. *)
Inductive mcp_transport : Type :=
| CommandTransport (path : string) (args env : list string)
| SSEClientTransport (endpoint : string)
| StreamableClientTransport (endpoint : string).

(** [environ]: the process's environment, added only when the server has its
    own variables. *)
Definition buildTransport (environ : list string) (cfg : MCPServerConfig) : result mcp_transport :=
  match Command cfg, SSE cfg, Streamable cfg with
  | Some c, _, _ =>
      Ok (CommandTransport (Path c) (Args c) (match Env c with [] => [] | e => environ ++ e end))
  | None, Some u, _ => Ok (SSEClientTransport (mu_URL u))
  | None, None, Some u => Ok (StreamableClientTransport (mu_URL u))
  | None, None, None => Err ("no transport configured for MCP server " +:+ quote (sc_Name cfg))
  end.

(** ** Schemas: [mcp_schema.go] *)

(** A key of a decoded JSON object. *)
Definition get_key (key : string) (l : list (string * any)) : option any :=
  snd <$> List.find (λ kv, String.eqb kv.1 key) l.

Definition any_string (v : option any) : option string :=
  match v with Some (AnyString s) => Some s | _ => None end.
Definition any_list (v : option any) : option (list any) :=
  match v with Some (AnyList l) => Some l | _ => None end.
Definition any_map (v : option any) : option (list (string * any)) :=
  match v with Some (AnyMap l) => Some l | _ => None end.

Definition mapSchemaType (schema : list (string * any)) : LLMParamterType :=
  let t := default "" (any_string (get_key "type" schema)) in
  if String.eqb t "string" then LLMParameterTypeString
  else if String.eqb t "integer" || String.eqb t "number" then LLMParameterTypeInteger
  else if String.eqb t "boolean" then LLMParameterTypeBoolean
  else if String.eqb t "object" then LLMParameterTypeObject
  else LLMParameterTypeString.

(** The sentence that lists the values of an enumeration. *)
Definition enum_suffix (description : string) (schema : list (string * any)) : string :=
  match any_list (get_key "enum" schema) with
  | Some (v :: vs) =>
      (if String.eqb description "" then "" else " ") +:+
      "(one of: " +:+ str_join ", " (map format_v (v :: vs)) +:+ ")"
  | _ => ""
  end.

Definition convertProperty (name : string) (schema : list (string * any)) (required : bool)
    : Parameter_ :=
  let desc := default "" (any_string (get_key "description" schema)) in
  mkParameter name (desc +:+ enum_suffix desc schema) required
    (match any_list (get_key "examples" schema) with Some (e :: _) => format_v e | _ => "" end)
    (mapSchemaType schema).

(** The names of the [required] list. *)
Definition required_names (schema : list (string * any)) : gset string :=
  list_to_set (omap (λ v, any_string (Some v)) (default [] (any_list (get_key "required" schema)))).

Section tools.
Context `{RangeOrder}.

Definition extractParameters (schema : list (string * any)) : list Parameter_ :=
  match any_map (get_key "properties" schema) with
  | None => []
  | Some props =>
      omap (λ kv, (λ s, convertProperty kv.1 s (bool_decide (kv.1 ∈ required_names schema)))
                    <$> any_map (Some kv.2))
        (range_ (list_to_map props : gmap string any))
  end.

(** A tool as a server lists it. *)
Record mcp_Tool := mkMcpTool {
  mt_Name : string;
  mt_Description : string;
  InputSchema : any
}.

Definition convertMCPTool (toolID : string) (tool : mcp_Tool) : LLMTool :=
  mkLLMTool toolID toolID (mt_Description tool)
    (match InputSchema tool with AnyMap schema => extractParameters schema | _ => [] end) "".

(** ** The manager *)

(** Sessions are numbered in the order they are opened. *)
Record mcpConnection := mkConnection {
  name : string;
  toolPrefix : string;
  session : nat;
  tools : gmap string mcp_Tool
}.

Record MCPManager := mkManager { connections : list mcpConnection; opened : nat }.

Definition NewMCPManager : MCPManager := mkManager [] 0.

Definition makeToolID (prefix toolName : string) : string :=
  if String.eqb prefix "" then toolName else prefix +:+ "_" +:+ toolName.

(** The tools of one server by id: of two with one id the later remains. *)
Definition discover (prefix : string) (listed : list mcp_Tool) : gmap string mcp_Tool :=
  fold_left (λ m t, <[makeToolID prefix (mt_Name t) := t]> m) listed ∅.

(** What connecting to a server and listing its tools gives. *)
Record server_answer := mkAnswer { sa_connect : result unit; sa_list : result (list mcp_Tool) }.

Definition connectOne (environ : list string) (m : MCPManager) (cfg : MCPServerConfig)
    (a : server_answer) : MCPManager * result mcpConnection :=
  match buildTransport environ cfg with
  | Err e => (m, Err ("build transport: " +:+ e))
  | Ok _ =>
      match sa_connect a with
      | Err e => (m, Err ("connect: " +:+ e))
      | Ok _ =>
          let m' := mkManager (connections m) (S (opened m)) in
          match sa_list a with
          | Err e => (m', Err ("list tools: " +:+ e))
          | Ok listed =>
              (m', Ok (mkConnection (sc_Name cfg) (ToolPrefix cfg) (opened m)
                         (discover (ToolPrefix cfg) listed)))
          end
      end
  end.

(** A server that cannot be reached is skipped. *)
Fixpoint Connect (environ : list string) (m : MCPManager)
    (servers : list (MCPServerConfig * server_answer)) : MCPManager :=
  match servers with
  | [] => m
  | (cfg, a) :: rest =>
      match connectOne environ m cfg a with
      | (m', Err _) => Connect environ m' rest
      | (m', Ok conn) => Connect environ (mkManager (connections m' ++ [conn]) (opened m')) rest
      end
  end.

Definition Tools (m : MCPManager) : list LLMTool :=
  flat_map (λ conn, map (λ kv, convertMCPTool kv.1 kv.2) (range_ (tools conn))) (connections m).

(** What a server answers to a call. *)
Inductive mcp_content : Type :=
| TextContent (text : string)
| ImageContent (mime : string)
| AudioContent (mime : string)
| OtherContent.

Record CallToolResult := mkCallResult { Content : list mcp_content; IsError : bool }.

Definition content_text (c : mcp_content) : string :=
  match c with
  | TextContent text => text
  | ImageContent mime => "[Image: " +:+ mime +:+ "]"
  | AudioContent mime => "[Audio: " +:+ mime +:+ "]"
  | OtherContent => "[unsupported content type]"
  end.

Definition extractMCPResult (r : CallToolResult) : string :=
  let text := str_join newline (map content_text (Content r)) in
  if IsError r then "Error: " +:+ text else text.

(** The first connection with the tool, and the name its server knows it by. *)
Definition route (m : MCPManager) (toolID : string) : option (mcpConnection * string) :=
  head (omap (λ conn, (λ t, (conn, mt_Name t)) <$> tools conn !! toolID) (connections m)).

(** [call session name params] is the server's answer. *)
Definition CallTool (call : nat → string → gmap string any → result CallToolResult)
    (m : MCPManager) (toolID : string) (params : gmap string any) : result string :=
  match route m toolID with
  | None => Err ("no MCP server owns tool " +:+ quote toolID)
  | Some (conn, tool) =>
      match call (session conn) tool params with
      | Err e => Err ("MCP call to " +:+ name conn +:+ "/" +:+ tool +:+ " failed: " +:+ e)
      | Ok r => Ok (extractMCPResult r)
      end
  end.

(** The sessions closed, and the manager after. *)
Definition Close (m : MCPManager) : MCPManager * list nat :=
  (mkManager [] (opened m), map session (connections m)).

(** ** Lemmas *)

Lemma range_elem {A} (m : gmap string A) k v : (k, v) ∈ range_ m ↔ m !! k = Some v.
Proof. rewrite range_perm. apply elem_of_map_to_list. Qed.

Lemma range_keys_NoDup {A} (m : gmap string A) : NoDup (range_ m).*1.
Proof. rewrite range_perm. apply NoDup_fst_map_to_list. Qed.

(** The names of what is kept of a list with distinct keys are distinct. *)
Lemma omap_names_NoDup {A B} (f : string * A → option B) (nm : B → string) (l : list (string * A)) :
  (∀ kv b, f kv = Some b → nm b = kv.1) → NoDup l.*1 → NoDup (map nm (omap f l)).
Proof.
  intros Hf. induction l as [|kv l IH]; cbn; [constructor|].
  intros [Hn Hd]%NoDup_cons. destruct (f kv) as [b|] eqn:E; [|auto]. cbn. constructor; [|auto].
  rewrite (Hf _ _ E). intros (b' & E' & Hb)%list_elem_of_fmap. apply Hn.
  apply list_elem_of_omap in Hb as (kv' & Hin & Hkv'). apply list_elem_of_fmap. exists kv'.
  split; [|done]. rewrite E'. by apply Hf.
Qed.

(** ** Properties *)


(** Every tool is stored under its prefixed name. *)
Definition ids_ok (m : MCPManager) : Prop :=
  ∀ conn id t, conn ∈ connections m → tools conn !! id = Some t →
    id = makeToolID (toolPrefix conn) (mt_Name t).

Lemma discover_ids prefix listed id t :
  discover prefix listed !! id = Some t → id = makeToolID prefix (mt_Name t).
Proof.
  unfold discover. assert (∀ l (m : gmap string mcp_Tool),
    (∀ id t, m !! id = Some t → id = makeToolID prefix (mt_Name t)) →
    ∀ id t, fold_left (λ m t, <[makeToolID prefix (mt_Name t) := t]> m) l m !! id = Some t →
      id = makeToolID prefix (mt_Name t)) as Hl; [|by apply Hl].
  clear. induction l as [|x l IH]; intros m Hm; cbn; [done|]. apply IH. intros id t.
  destruct (decide (makeToolID prefix (mt_Name x) = id)) as [<-|Hne].
  - rewrite lookup_insert_eq. by intros [= ->].
  - rewrite lookup_insert_ne by done. apply Hm.
Qed.

Lemma Connect_ids environ servers : ∀ m, ids_ok m → ids_ok (Connect environ m servers).
Proof.
  induction servers as [|[cfg a] rest IH]; intros m Hm; cbn [Connect]; [done|].
  unfold connectOne. destruct (buildTransport environ cfg) as [tr|e]; [|by apply IH].
  destruct (sa_connect a); [|by apply IH]. destruct (sa_list a) as [listed|]; [|by apply IH].
  apply IH. intros conn id t [Hin| ->%list_elem_of_singleton]%elem_of_app; [by apply Hm|].
  apply discover_ids.
Qed.

Lemma route_first cs conn id t :
  conn ∈ cs → tools conn !! id = Some t → (∀ c, c ∈ cs → is_Some (tools c !! id) → c = conn) →
  head (omap (λ c, (λ t, (c, mt_Name t)) <$> tools c !! id) cs) = Some (conn, mt_Name t).
Proof.
  induction cs as [|c cs IH]; intros Hin Ht Hu; [by apply elem_of_nil in Hin|]. cbn.
  destruct (tools c !! id) as [t'|] eqn:E; cbn.
  - assert (c = conn) as -> by (apply Hu; [apply list_elem_of_here|by rewrite E]).
    congruence.
  - apply IH; [|done|intros; apply Hu; [by apply list_elem_of_further|done]].
    apply elem_of_cons in Hin as [<-|]; [congruence|done].
Qed.

End tools.

#[export] Instance sorted_range : RangeOrder :=
  {| range_ := λ A m, map_to_list m; range_perm := λ A m, reflexivity (map_to_list m) |}.

Definition forecast : mcp_Tool :=
  mkMcpTool "forecast" "Weather at a place"
    (AnyMap [("type", AnyString "object");
             ("properties", AnyMap [("place", AnyMap [("type", AnyString "string")]);
                                    ("days", AnyMap [("type", AnyString "integer")]);
                                    ("extra", AnyBool true)]);
             ("required", AnyList [AnyString "place"])]).

Definition weather_servers : list (MCPServerConfig * server_answer) :=
  [(mkServerConfig "down" "" None (Some (mkURLConfig "https://down" ∅)) None,
    mkAnswer (Err "refused") (Ok []));
   (mkServerConfig "weather" "wx" None None (Some (mkURLConfig "https://wx" ∅)),
    mkAnswer (Ok tt) (Ok [forecast]))].



(** Without prefixes two servers may offer a tool of one name: the model is
    offered it twice, and every call goes to the first server. *)
Lemma colliding_tools_shadowed :
  let t d := mkMcpTool "search" d AnyNil in
  let m := mkManager [mkConnection "a" "" 0 {["search" := t "in a"]};
                      mkConnection "b" "" 1 {["search" := t "in b"]}] 2 in
  map tl_Description (Tools m) = ["in a"; "in b"] ∧ map ToolId (Tools m) = ["search"; "search"] ∧
  CallTool (λ s _ _, Ok (mkCallResult [TextContent (itoa (Z.of_nat s))] false)) m "search" ∅ = Ok "0".
Proof. vm_compute. done. Qed.
