(* ===== verification/Json.v ===== *)
(** * Decoded JSON: what the program uses of [encoding/json]

    A JSON document is kept as the value it decodes to ([any] of Core), with one
    entry per field, spelled as in the struct tags.  Decoding into a field
    leaves the field's value alone when the entry is absent or null, and fails
    when the entry has another type ([None]). *)

From S2P Require Import Prelude Core.

Local Open Scope string_scope.
Local Open Scope list_scope.
Local Open Scope Z_scope.

Definition document : Type := any.

(** A field that [omitempty] leaves out when it is empty. *)
Definition optional (empty : bool) (name : string) (v : any) : list (string * any) :=
  if empty then [] else [(name, v)].

Fixpoint field (name : string) (l : list (string * any)) : option any :=
  match l with
  | [] => None
  | (k, v) :: l' => if String.eqb k name then Some v else field name l'
  end.

Definition has_field (name : string) (l : list (string * any)) : bool :=
  match field name l with Some _ => true | None => false end.

Definition string_field (name : string) (l : list (string * any)) (old : string) : option string :=
  match field name l with
  | None | Some AnyNil => Some old
  | Some (AnyString s) => Some s
  | Some _ => None
  end.

Definition bool_field (name : string) (l : list (string * any)) (old : bool) : option bool :=
  match field name l with
  | None | Some AnyNil => Some old
  | Some (AnyBool b) => Some b
  | Some _ => None
  end.

(** A number fits an integer field when it is written as an integer in range. *)
Definition digit (c : Ascii.ascii) : option Z :=
  let n := Z.of_nat (Ascii.nat_of_ascii c) - 48 in
  if (0 <=? n) && (n <=? 9) then Some n else None.

Fixpoint digits (acc : Z) (l : list Ascii.ascii) : option Z :=
  match l with
  | [] => Some acc
  | c :: l' => match digit c with Some d => digits (acc * 10 + d) l' | None => None end
  end.

Definition parse_int (s : string) : option Z :=
  match str_chars s with
  | [] => None
  | c :: l =>
      if Ascii.eqb c (Ascii.ascii_of_nat 45)
      then match l with [] => None | _ => Z.opp <$> digits 0 l end
      else digits 0 (c :: l)
  end.

Definition int_field (lo hi : Z) (name : string) (l : list (string * any)) (old : Z) : option Z :=
  match field name l with
  | None | Some AnyNil => Some old
  | Some (AnyNumber t) =>
      match parse_int t with
      | Some z => if (lo <=? z) && (z <=? hi) then Some z else None
      | None => None
      end
  | Some _ => None
  end.

(** [int] and [uint32]. *)
Definition go_int (name : string) := int_field (- 2 ^ 63) (2 ^ 63 - 1) name.
Definition go_uint32 (name : string) := int_field 0 (2 ^ 32 - 1) name.

(** A [map[string]string]. *)
Definition string_map (m : gmap string string) : any :=
  AnyMap (map (λ kv, (kv.1, AnyString kv.2)) (map_to_list m)).

Definition string_entry (kv : string * any) : option (string * string) :=
  match kv.2 with
  | AnyString s => Some (kv.1, s)
  | AnyNil => Some (kv.1, "")
  | _ => None
  end.

Definition string_map_field (name : string) (l : list (string * any)) : option (gmap string string) :=
  match field name l with
  | None | Some AnyNil => Some ∅
  | Some (AnyMap m) => match mapM string_entry m with Some kvs => Some (list_to_map kvs) | None => None end
  | Some _ => None
  end.

Lemma string_entries_back (l : list (string * string)) :
  mapM string_entry (map (λ kv, (kv.1, AnyString kv.2)) l) = Some l.
Proof. induction l as [|[k v] l IH]; [done|]. cbn. by rewrite IH. Qed.

Lemma string_map_back name m rest :
  string_map_field name ((name, string_map m) :: rest) = Some m.
Proof.
  unfold string_map_field. cbn. rewrite String.eqb_refl. cbn. rewrite string_entries_back.
  by rewrite list_to_map_to_list.
Qed.

Example parse_int_ex :
  parse_int "-120" = Some (-120) ∧ parse_int "1e3" = None ∧ parse_int "-" = None ∧
  go_uint32 "n" [("n", AnyNumber "4294967296")] 1 = None.
Proof. vm_compute. done. Qed.
