(* ===== verification/ControlPlane.v ===== *)
(** * The control-plane client: [protocol/codec.go], [protocol/messages.go],
    [controlplane/client.go], [controlplane/ws_log_writer.go]

    The agent's connection to the UI server: the envelope every message travels
    in, the send queue between the callers and the goroutine that writes, and
    the life of the client's goroutines.  A JSON document is kept as the value
    it decodes to ([any] of Core), with one entry per field; [None] stands for
    text that does not parse.  Time stamps are their texts.  The outcome of
    dialling, of a write and of a read is an argument. *)

From S2P Require Import Prelude Core Json.

Local Open Scope string_scope.
Local Open Scope list_scope.
Local Open Scope Z_scope.

(** ** Messages *)

Definition MsgRegister : string := "register".
Definition MsgHeartbeat : string := "heartbeat".
Definition MsgLog : string := "log".
Definition MsgStatus : string := "status".
Definition MsgEvent : string := "event".
Definition MsgLogEnd : string := "log_end".
Definition MsgConfigUpdate : string := "config_update".
Definition MsgRestartPipeline : string := "restart_pipeline".
Definition MsgShutdown : string := "shutdown".
Definition MsgAck : string := "ack".

(** A slice of strings; [omitempty] drops an empty one. *)
Record RegisterPayload := mkRegister {
  rg_AgentID : string;
  Version : string;
  Capabilities : list string;
  rg_Metadata : gmap string string;
  rg_Timestamp : string
}.

Definition register_json (p : RegisterPayload) : document :=
  AnyMap ([("agent_id", AnyString (rg_AgentID p))] ++
          optional (String.eqb (Version p) "") "version" (AnyString (Version p)) ++
          optional (bool_decide (Capabilities p = [])) "capabilities"
            (AnyList (map AnyString (Capabilities p))) ++
          optional (bool_decide (rg_Metadata p = ∅)) "metadata" (string_map (rg_Metadata p)) ++
          [("timestamp", AnyString (rg_Timestamp p))]).

Record HeartbeatPayload := mkHeartbeat {
  hb_AgentID : string;
  hb_Timestamp : string;
  ActiveSessions : Z;
  hb_Status : string
}.

Definition heartbeat_json (p : HeartbeatPayload) : document :=
  AnyMap [("agent_id", AnyString (hb_AgentID p)); ("timestamp", AnyString (hb_Timestamp p));
          ("active_sessions", AnyNumber (itoa (ActiveSessions p))); ("status", AnyString (hb_Status p))].

(** An attribute of a log entry is any Go value; [None] is one that JSON cannot
    encode (a channel, a function, a NaN). *)
Record LogEntry := mkLogEntry {
  le_Timestamp : string;
  Level : string;
  le_Message : string;
  Attrs : list (string * option any)
}.

Record LogPayload := mkLog { lg_AgentID : string; lg_SessionID : string; Entry : LogEntry }.

Definition attrs_json (l : list (string * option any)) : option (list (string * any)) :=
  mapM (λ kv, match kv.2 with Some v => Some (kv.1, v) | None => None end) l.

Definition log_json (p : LogPayload) : option document :=
  match attrs_json (Attrs (Entry p)) with
  | None => None
  | Some l =>
      Some (AnyMap [("agent_id", AnyString (lg_AgentID p)); ("session_id", AnyString (lg_SessionID p));
        ("entry", AnyMap ([("ts", AnyString (le_Timestamp (Entry p)));
                           ("level", AnyString (Level (Entry p)));
                           ("msg", AnyString (le_Message (Entry p)))] ++
                          optional (bool_decide (length l = 0%nat)) "attrs" (AnyMap l)))])
  end.

Record SessionInfo := mkSessionInfo {
  si_SessionID : string;
  RoomName : string;
  StartedAt : string;
  si_Status : string
}.

Definition session_json (s : SessionInfo) : document :=
  AnyMap ([("session_id", AnyString (si_SessionID s))] ++
          optional (String.eqb (RoomName s) "") "room_name" (AnyString (RoomName s)) ++
          [("started_at", AnyString (StartedAt s)); ("status", AnyString (si_Status s))]).

(** [None] is the nil slice, which is [null] in JSON. *)
Record StatusPayload := mkStatus {
  st_AgentID : string;
  st_Status : string;
  Sessions : option (list SessionInfo)
}.

Definition status_json (p : StatusPayload) : document :=
  AnyMap [("agent_id", AnyString (st_AgentID p)); ("status", AnyString (st_Status p));
          ("sessions", match Sessions p with
                       | Some l => AnyList (map session_json l)
                       | None => AnyNil
                       end)].

Record EventPayload := mkEvent {
  ev_AgentID : string;
  ev_SessionID : string;
  EventID : string;
  ev_Data : option document
}.

Definition event_json (p : EventPayload) : document :=
  AnyMap ([("agent_id", AnyString (ev_AgentID p))] ++
          optional (String.eqb (ev_SessionID p) "") "session_id" (AnyString (ev_SessionID p)) ++
          [("event_id", AnyString (EventID p)); ("data", default AnyNil (ev_Data p))]).

Record LogEndPayload := mkLogEnd { ln_AgentID : string; ln_SessionID : string }.

Definition log_end_json (p : LogEndPayload) : document :=
  AnyMap [("agent_id", AnyString (ln_AgentID p)); ("session_id", AnyString (ln_SessionID p))].

Record ConfigUpdatePayload := mkConfigUpdate {
  Settings : option document;
  Keys : gmap string string
}.

Definition config_update_json (p : ConfigUpdatePayload) : document :=
  AnyMap (match Settings p with Some d => [("settings", d)] | None => [] end ++
          optional (bool_decide (Keys p = ∅)) "keys" (string_map (Keys p))).

Record ShutdownPayload := mkShutdown { Reason : string; GraceSeconds : Z }.

Definition shutdown_json (p : ShutdownPayload) : document :=
  AnyMap (optional (String.eqb (Reason p) "") "reason" (AnyString (Reason p)) ++
          optional (GraceSeconds p =? 0) "grace_seconds" (AnyNumber (itoa (GraceSeconds p)))).

(** ** The codec *)

(** The envelope of a payload; [payload] is [None] for a nil payload, and its
    own [None] for one that JSON cannot encode. *)
Definition Marshal (msgType : string) (payload : option (option document)) : result document :=
  match payload with
  | Some None => Err ("protocol: marshal payload for " +:+ quote msgType +:+ ": unsupported value")
  | Some (Some d) => Ok (AnyMap [("type", AnyString msgType); ("payload", d)])
  | None => Ok (AnyMap [("type", AnyString msgType)])
  end.

(** The type of an envelope; [None]: not a string. *)
Definition envelope_type (l : list (string * any)) : option string :=
  match field "type" l with
  | None | Some AnyNil => Some ""
  | Some (AnyString t) => Some t
  | Some _ => None
  end.

Definition Unmarshal (data : option document) : result (string * option document) :=
  match data with
  | Some AnyNil => Err "protocol: envelope missing type field"
  | Some (AnyMap l) =>
      match envelope_type l with
      | None => Err "protocol: unmarshal envelope: wrong type"
      | Some t =>
          if String.eqb t "" then Err "protocol: envelope missing type field"
          else Ok (t, field "payload" l)
      end
  | _ => Err "protocol: unmarshal envelope: not an object"
  end.

(** [UnmarshalPayload[ConfigUpdatePayload]]; a nil payload is empty input. *)
Definition unmarshal_config_update (raw : option document) : result ConfigUpdatePayload :=
  match raw with
  | Some (AnyMap l) =>
      match string_map_field "keys" l with
      | Some keys => Ok (mkConfigUpdate (field "settings" l) keys)
      | None => Err "protocol: unmarshal payload: wrong type"
      end
  | Some AnyNil => Ok (mkConfigUpdate None ∅)
  | Some _ => Err "protocol: unmarshal payload: not an object"
  | None => Err "protocol: unmarshal payload: unexpected end of JSON input"
  end.

(** [UnmarshalPayload[ShutdownPayload]], of which only the reason is read: it is
    set even when the other field does not fit. *)
Definition shutdown_reason (raw : option document) : string :=
  match raw with
  | Some (AnyMap l) => default "" (string_field "reason" l "")
  | _ => ""
  end.

(** ** The send queue *)

Definition defaultSendBufferSize : nat := 256.

(** A call of [enqueue] between its three selects. *)
Inductive sender_at : Type :=
| FirstSelect (data : document)
| DropSelect (data : document)
| LastSelect (data : document).

(** [accepted] and [taken] record what went into the channel and what the
    writer took out of it. *)
Record queue := mkQueue {
  sendCh : list document;
  senders : gmap nat sender_at;
  accepted : list document;
  taken : list document
}.

Definition empty_queue : queue := mkQueue [] ∅ [] [].

Definition has_room (ch : list document) : bool := Nat.ltb (length ch) defaultSendBufferSize.

Definition push (q : queue) (i : nat) (data : document) : queue :=
  mkQueue (sendCh q ++ [data]) (delete i (senders q)) (accepted q ++ [data]) (taken q).

(** One select of the call of sender [i]. *)
Definition enqueue_step (q : queue) (i : nat) : queue :=
  match senders q !! i with
  | None => q
  | Some (FirstSelect data) =>
      if has_room (sendCh q) then push q i data
      else mkQueue (sendCh q) (<[i := DropSelect data]> (senders q)) (accepted q) (taken q)
  | Some (DropSelect data) =>
      mkQueue (tail (sendCh q)) (<[i := LastSelect data]> (senders q)) (accepted q) (taken q)
  | Some (LastSelect data) =>
      if has_room (sendCh q) then push q i data
      else mkQueue (sendCh q) (delete i (senders q)) (accepted q) (taken q)
  end.

Inductive queue_op : Type :=
| Begin (i : nat) (data : document)        (* a call of [enqueue] *)
| Select (i : nat)
| Take.                                    (* the writer receives *)

Definition queue_step (q : queue) (o : queue_op) : queue :=
  match o with
  | Begin i data =>
      match senders q !! i with
      | None => mkQueue (sendCh q) (<[i := FirstSelect data]> (senders q)) (accepted q) (taken q)
      | Some _ => q
      end
  | Select i => enqueue_step q i
  | Take =>
      match sendCh q with
      | [] => q
      | d :: ch => mkQueue ch (senders q) (accepted q) (taken q ++ [d])
      end
  end.

Definition queue_run (q : queue) (ops : list queue_op) : queue := fold_left queue_step ops q.

(** A call of [enqueue] that nothing else interrupts. *)
Definition enqueue (q : queue) (i : nat) (data : document) : queue :=
  queue_run q [Begin i data; Select i; Select i; Select i].

(** ** The client *)

Record ClientConfig := mkClientConfig {
  ConnectURL : string;
  AgentID : string;
  cc_Version : string;
  Metadata : gmap string string;
  HeartbeatInterval : Z
}.

Definition second_ns : Z := 1000000000.
Definition defaultHeartbeatInterval : Z := 5 * second_ns.

(** [has_cancel]: [Connect] was called; [cancelled]: the context is over;
    [once]: [once.Do] ran; the last three are the goroutines that run. *)
Record Client := mkClient {
  config : ClientConfig;
  has_cancel : bool;
  cancelled : bool;
  conn_open : bool;
  done_closed : bool;
  once : bool;
  reading : bool;
  writing : bool;
  beating : bool;
  out : queue;
  wire : list document                  (* written to the connection *)
}.

Definition NewClient (cfg : ClientConfig) : Client :=
  mkClient (mkClientConfig (ConnectURL cfg) (AgentID cfg) (cc_Version cfg) (Metadata cfg)
              (if HeartbeatInterval cfg =? 0 then defaultHeartbeatInterval else HeartbeatInterval cfg))
    false false false false false false false false empty_queue [].

Definition set_out (c : Client) (q : queue) : Client :=
  mkClient (config c) (has_cancel c) (cancelled c) (conn_open c) (done_closed c) (once c)
    (reading c) (writing c) (beating c) q (wire c).

(** A client with a new context and, when dialling succeeded, a connection. *)
Definition connected (c : Client) (over open running : bool) (sent : list document) : Client :=
  mkClient (config c) true over open (done_closed c) (once c) (reading c || running)
    (writing c || running) (beating c || running) (out c) (wire c ++ sent).

Definition register_payload (c : Client) (now : string) : RegisterPayload :=
  mkRegister (AgentID (config c)) (cc_Version (config c)) [] (Metadata (config c)) now.

Definition Connect (c : Client) (dial write : result unit) (now : string) : Client * result unit :=
  match dial with
  | Err e => (connected c true (conn_open c) false [],
              Err ("controlplane: dial " +:+ quote (ConnectURL (config c)) +:+ ": " +:+ e))
  | Ok _ =>
      match Marshal MsgRegister (Some (Some (register_json (register_payload c now)))), write with
      | Err e, _ | Ok _, Err e =>
          (connected c true false false [], Err ("controlplane: send register: " +:+ e))
      | Ok reg, Ok _ => (connected c false true true [reg], Ok tt)
      end
  end.

(** [c.enqueue(msgType, payload)] of caller [i], up to its first select; a payload
    that cannot be encoded is dropped. *)
Definition begin_enqueue (c : Client) (i : nat) (msgType : string) (payload : option document) : Client :=
  match Marshal msgType (Some payload) with
  | Ok data => set_out c (queue_step (out c) (Begin i data))
  | Err _ => c
  end.

Definition SendLog (c : Client) (i : nat) (sessionID : string) (entry : LogEntry) : Client :=
  begin_enqueue c i MsgLog (log_json (mkLog (AgentID (config c)) sessionID entry)).

Definition SendStatus (c : Client) (i : nat) (status : string) (sessions : option (list SessionInfo))
    : Client :=
  begin_enqueue c i MsgStatus (Some (status_json (mkStatus (AgentID (config c)) status sessions))).

Definition SendEvent (c : Client) (i : nat) (sessionID eventID : string) (data : option document)
    : Client :=
  begin_enqueue c i MsgEvent (Some (event_json (mkEvent (AgentID (config c)) sessionID eventID data))).

Definition SendLogEnd (c : Client) (i : nat) (sessionID : string) : Client :=
  begin_enqueue c i MsgLogEnd (Some (log_end_json (mkLogEnd (AgentID (config c)) sessionID))).

(** The log writer of a session ([WSLogWriter]). *)
Definition WSLogWriter_Write (c : Client) (i : nat) (sessionID now level msg : string)
    (attrs : list (string * option any)) : Client :=
  SendLog c i sessionID (mkLogEntry now level msg attrs).

Definition WSLogWriter_Close (c : Client) (i : nat) (sessionID : string) : Client :=
  SendLogEnd c i sessionID.

(** [None]: before [Connect] there is no cancel function, and calling it panics. *)
Definition Close (c : Client) : option Client :=
  if once c then Some c
  else if has_cancel c then
    Some (mkClient (config c) true true false (done_closed c) true (reading c) (writing c) (beating c)
            (out c) (wire c))
  else None.

(** Whether [Wait] returns. *)
Definition Wait_returns (c : Client) : bool := done_closed c.

(** ** The goroutines *)

Inductive callback : Type :=
| OnConfigUpdate (settings : option document) (keys : gmap string string)
| OnRestartPipeline
| OnShutdown (reason : string).

(** The deferred function of [readLoop]. *)
Definition reader_exits (c : Client) : Client :=
  mkClient (config c) (has_cancel c) true (conn_open c) (done_closed c || negb (once c)) true
    false (writing c) (beating c) (out c) (wire c).

Definition default_shutdown_reason : string := "shutdown requested by control plane".

Inductive read_outcome : Type :=
| ReadError
| ReadData (data : option document).

(** A round of [readLoop], all three callbacks set: what it calls. *)
Definition readLoop (c : Client) (o : read_outcome) : Client * list callback :=
  if negb (reading c) then (c, [])
  else match o with
  | ReadError => (reader_exits c, [])
  | ReadData data =>
      match Unmarshal data with
      | Err _ => (c, [])
      | Ok (msgType, payload) =>
          if String.eqb msgType MsgConfigUpdate then
            match unmarshal_config_update payload with
            | Ok p => (c, [OnConfigUpdate (Settings p) (Keys p)])
            | Err _ => (c, [])
            end
          else if String.eqb msgType MsgRestartPipeline then (c, [OnRestartPipeline])
          else if String.eqb msgType MsgShutdown then
            let reason := shutdown_reason payload in
            (reader_exits c,
             [OnShutdown (if String.eqb reason "" then default_shutdown_reason else reason)])
          else (c, [])
      end
  end.

(** A round of [writeLoop]: [stop] when the select takes the end of the
    context, which it may only when the context is over. *)
Definition writeLoop (c : Client) (stop : bool) (write : result unit) : Client :=
  let ends q w := mkClient (config c) (has_cancel c) (cancelled c) (conn_open c) (done_closed c) (once c)
                    (reading c) false (beating c) q w in
  if negb (writing c) then c
  else if stop then if cancelled c then ends (out c) (wire c) else c
  else match sendCh (out c) with
  | [] => c
  | d :: _ =>
      let q := queue_step (out c) Take in
      match write with
      | Ok _ => mkClient (config c) (has_cancel c) (cancelled c) (conn_open c) (done_closed c) (once c)
                  (reading c) (writing c) (beating c) q (wire c ++ [d])
      | Err _ => ends q (wire c)
      end
  end.

Definition heartbeat (c : Client) (now : string) : HeartbeatPayload :=
  mkHeartbeat (AgentID (config c)) now 0 "idle".

(** A round of [heartbeatLoop], whose calls of [enqueue] are those of sender 0. *)
Definition heartbeatLoop (c : Client) (stop : bool) (now : string) : Client :=
  if negb (beating c) then c
  else if stop then
    if cancelled c
    then mkClient (config c) (has_cancel c) (cancelled c) (conn_open c) (done_closed c) (once c)
           (reading c) (writing c) false (out c) (wire c)
    else c
  else begin_enqueue c 0 MsgHeartbeat (Some (heartbeat_json (heartbeat c now))).

Inductive op : Type :=
| OpConnect (dial write : result unit) (now : string)
| OpSend (i : nat) (msgType : string) (payload : option document)
| OpSelect (i : nat)
| OpClose
| OpCancel                              (* the context given to [Connect] ends *)
| OpRead (o : read_outcome)
| OpWrite (stop : bool) (write : result unit)
| OpBeat (stop : bool) (now : string).

Definition step (c : Client) (o : op) : Client * list callback :=
  match o with
  | OpConnect dial write now => ((Connect c dial write now).1, [])
  | OpSend i t p => (begin_enqueue c i t p, [])
  | OpSelect i => (set_out c (queue_step (out c) (Select i)), [])
  | OpClose => (default c (Close c), [])
  | OpCancel =>
      (mkClient (config c) (has_cancel c) (has_cancel c || cancelled c) (conn_open c) (done_closed c)
         (once c) (reading c) (writing c) (beating c) (out c) (wire c), [])
  | OpRead r => readLoop c r
  | OpWrite stop w => (writeLoop c stop w, [])
  | OpBeat stop now => (heartbeatLoop c stop now, [])
  end.

Fixpoint run (c : Client) (ops : list op) : Client * list callback :=
  match ops with
  | [] => (c, [])
  | o :: ops' =>
      let '(c1, l1) := step c o in
      let '(c2, l2) := run c1 ops' in
      (c2, l1 ++ l2)
  end.

(** ** The queue *)

(** What is written, in order, is part of what was accepted, and what waits is
    the end of it. *)
Record queue_ok (q : queue) : Prop := {
  queue_bound : (length (sendCh q) ≤ defaultSendBufferSize)%nat;
  queue_newest : sendCh q `suffix_of` accepted q;
  queue_order : (taken q ++ sendCh q) `sublist_of` accepted q
}.

Lemma empty_queue_ok : queue_ok empty_queue.
Proof. split; cbn; [unfold defaultSendBufferSize; lia|done|done]. Qed.

Lemma has_room_spec ch : has_room ch = true ↔ (length ch < defaultSendBufferSize)%nat.
Proof. unfold has_room. apply Nat.ltb_lt. Qed.

Lemma push_ok q i data : has_room (sendCh q) = true → queue_ok q → queue_ok (push q i data).
Proof.
  intros Hr%has_room_spec [H1 H2 H3]. split; cbn.
  - rewrite length_app. cbn. lia.
  - by apply suffix_app.
  - rewrite app_assoc. by apply sublist_app.
Qed.

(** Steps that only lose elements at the front. *)
Lemma queue_ok_drop q q' :
  accepted q' = accepted q → taken q' = taken q → sendCh q' = sendCh q ∨ sendCh q' = tail (sendCh q) →
  queue_ok q → queue_ok q'.
Proof.
  intros Ea Et Ech [H1 H2 H3]. split; rewrite ?Ea, ?Et; destruct Ech as [-> | ->]; try done;
    destruct (sendCh q) as [|d ch]; try done; cbn in *.
  - lia.
  - eapply suffix_cons_l. exact H2.
  - etrans; [|exact H3]. apply sublist_app; [done|]. by apply sublist_cons.
Qed.

Lemma enqueue_step_ok q i : queue_ok q → queue_ok (enqueue_step q i).
Proof.
  intros Hok. unfold enqueue_step. destruct (senders q !! i) as [[d|d|d]|]; [| | |done].
  - destruct (has_room (sendCh q)) eqn:E; [by apply push_ok|].
    apply (queue_ok_drop q); cbn; auto.
  - apply (queue_ok_drop q); cbn; auto.
  - destruct (has_room (sendCh q)) eqn:E; [by apply push_ok|].
    apply (queue_ok_drop q); cbn; auto.
Qed.

Lemma queue_step_ok q o : queue_ok q → queue_ok (queue_step q o).
Proof.
  intros Hok. destruct o as [i d|i|]; cbn.
  - destruct (senders q !! i); [done|]. apply (queue_ok_drop q); cbn; auto.
  - by apply enqueue_step_ok.
  - destruct (sendCh q) as [|d ch] eqn:E; [done|]. destruct Hok as [H1 H2 H3]. rewrite E in *.
    split; cbn in *; [lia|by eapply suffix_cons_l|by rewrite <-app_assoc].
Qed.

Lemma select_at q i a : senders q !! i = Some a → enqueue_step q i =
  match a with
  | FirstSelect data =>
      if has_room (sendCh q) then push q i data
      else mkQueue (sendCh q) (<[i := DropSelect data]> (senders q)) (accepted q) (taken q)
  | DropSelect data =>
      mkQueue (tail (sendCh q)) (<[i := LastSelect data]> (senders q)) (accepted q) (taken q)
  | LastSelect data =>
      if has_room (sendCh q) then push q i data
      else mkQueue (sendCh q) (delete i (senders q)) (accepted q) (taken q)
  end.
Proof. unfold enqueue_step. by intros ->. Qed.

Lemma select_idle q i : senders q !! i = None → enqueue_step q i = q.
Proof. unfold enqueue_step. by intros ->. Qed.

(** One caller at a time, with room or not: the message goes in, and only the
    oldest goes out. *)
Lemma enqueue_alone q i data :
  senders q !! i = None → queue_ok q →
  sendCh (enqueue q i data) =
    (if has_room (sendCh q) then sendCh q else tail (sendCh q)) ++ [data] ∧
  senders (enqueue q i data) !! i = None ∧ accepted (enqueue q i data) = accepted q ++ [data].
Proof.
  intros Hs [H1 _ _]. unfold enqueue, queue_run. cbn [fold_left]. unfold queue_step. rewrite Hs.
  set (q1 := mkQueue _ _ _ _).
  assert (senders q1 !! i = Some (FirstSelect data)) as E1 by apply lookup_insert_eq.
  rewrite (select_at q1 i _ E1). cbn [sendCh q1]. destruct (has_room (sendCh q)) eqn:E.
  - assert (senders (push q1 i data) !! i = None) as Hi by apply lookup_delete_eq.
    rewrite !(select_idle _ _ Hi). done.
  - set (q2 := mkQueue _ (<[i:=DropSelect data]> _) _ _).
    assert (senders q2 !! i = Some (DropSelect data)) as E2 by apply lookup_insert_eq.
    rewrite (select_at q2 i _ E2). set (q3 := mkQueue _ (<[i:=LastSelect data]> _) _ _).
    assert (senders q3 !! i = Some (LastSelect data)) as E3 by apply lookup_insert_eq.
    rewrite (select_at q3 i _ E3).
    replace (has_room (sendCh q3)) with true; [split; [done|]; split; [apply lookup_delete_eq|done]|].
    symmetry. apply has_room_spec. apply Nat.ltb_ge in E. cbn.
    destruct (sendCh q); cbn in *; unfold defaultSendBufferSize in *; lia.
Qed.

(** ** What the server sees *)

Record client_ok (reg : document) (c : Client) : Prop := {
  client_queue : queue_ok (out c);
  client_wire : ∃ rest, wire c = reg :: rest ∧ rest `sublist_of` taken (out c)
}.

Lemma set_out_ok reg c o : client_ok reg c → o ≠ Take → client_ok reg (set_out c (queue_step (out c) o)).
Proof.
  intros [H1 (rest & Hw & Hr)] Ho. split; cbn; [by apply queue_step_ok|]. exists rest. split; [done|].
  destruct o as [i d|i|]; [| |done]; cbn.
  - by destruct (senders (out c) !! i).
  - unfold enqueue_step. destruct (senders (out c) !! i) as [[d|d|d]|];
      [destruct (has_room (sendCh (out c)))| |destruct (has_room (sendCh (out c)))|]; exact Hr.
Qed.

Lemma begin_enqueue_ok reg c i t p : client_ok reg c → client_ok reg (begin_enqueue c i t p).
Proof.
  intros Hok. unfold begin_enqueue. destruct (Marshal t (Some p)); [by apply set_out_ok|done].
Qed.

(** A change of the flags only. *)
Lemma flags_ok reg c c' : client_ok reg c → out c' = out c → wire c' = wire c → client_ok reg c'.
Proof. intros [H1 H2] Eo Ew. split; rewrite Eo; [done|by rewrite Ew]. Qed.

Lemma writeLoop_ok reg c stop w : client_ok reg c → client_ok reg (writeLoop c stop w).
Proof.
  intros Hok. unfold writeLoop. destruct (negb (writing c)); [done|].
  destruct stop; [destruct (cancelled c); [by apply (flags_ok reg c)|done]|].
  destruct (sendCh (out c)) as [|d ch] eqn:E; [done|].
  pose proof (queue_step_ok (out c) Take (client_queue _ _ Hok)) as Hq. cbn in Hq. rewrite E in Hq.
  destruct Hok as [_ (rest & Hw & Hr)]. destruct w; (split; cbn; rewrite E; [done|]).
  - exists (rest ++ [d]). rewrite Hw. split; [done|]. by apply sublist_app.
  - exists rest. split; [done|]. cbn. by apply sublist_inserts_r.
Qed.

Definition is_connect (o : op) : bool := match o with OpConnect _ _ _ => true | _ => false end.

Lemma client_step_ok reg c o : is_connect o = false → client_ok reg c → client_ok reg (step c o).1.
Proof.
  intros Ho Hok. destruct o as [dl w now|i t p|i| | |r|stop w|stop now]; cbn [step fst]; [done|..].
  - by apply begin_enqueue_ok.
  - by apply set_out_ok.
  - unfold Close. destruct (once c), (has_cancel c); try done; by apply (flags_ok reg c).
  - by apply (flags_ok reg c).
  - assert (client_ok reg (reader_exits c)) as Hexit by (by apply (flags_ok reg c)).
    unfold readLoop. destruct (negb (reading c)); [done|]. destruct r as [|data]; [done|].
    destruct (Unmarshal data) as [[t payload]|]; [|done].
    destruct (String.eqb t MsgConfigUpdate); [by destruct (unmarshal_config_update payload)|].
    destruct (String.eqb t MsgRestartPipeline); [done|]. by destruct (String.eqb t MsgShutdown).
  - by apply writeLoop_ok.
  - unfold heartbeatLoop. destruct (negb (beating c)); [done|].
    destruct stop; [destruct (cancelled c); [by apply (flags_ok reg c)|done]|]. by apply begin_enqueue_ok.
Qed.

Lemma run_invariant (P : Client → Prop) (allowed : op → Prop) :
  (∀ c o, allowed o → P c → P (step c o).1) →
  ∀ ops c, Forall allowed ops → P c → P (run c ops).1.
Proof.
  intros Hstep ops. induction ops as [|o ops IH]; intros c Hops Hc; [done|]. cbn [run].
  apply Forall_cons_1 in Hops as [Ho Hops]. pose proof (Hstep c o Ho Hc) as H1.
  destruct (step c o) as [c1 l1]. cbn in H1. pose proof (IH c1 Hops H1) as H2.
  by destruct (run c1 ops) as [c2 l2].
Qed.

(** C26: What the server receives after a client connects is the registration
    and then messages that were accepted for sending, in the order they were
    accepted; at most 256 wait, and they are the newest.  This holds for every
    interleaving of the callers' selects, the writer, the reader, the
    heartbeat and the end of the client. *)
Theorem server_sees_registration_then_accepted (cfg : ClientConfig) (now : string) (ops : list op) :
  Forall (λ o, is_connect o = false) ops →
  let c := (run (Connect (NewClient cfg) (Ok tt) (Ok tt) now).1 ops).1 in
  (∃ rest, wire c = AnyMap [("type", AnyString "register");
                            ("payload", register_json (mkRegister (AgentID cfg) (cc_Version cfg) []
                                                         (Metadata cfg) now))] :: rest ∧
           (rest ++ sendCh (out c)) `sublist_of` accepted (out c)) ∧
  sendCh (out c) `suffix_of` accepted (out c) ∧
  (length (sendCh (out c)) ≤ 256)%nat.
Proof.
  intros Hops c. set (reg := AnyMap _).
  assert (client_ok reg c) as [[H1 H2 H3] (rest & Hw & Hr)].
  { apply (run_invariant (client_ok reg) (λ o, is_connect o = false)); [intros; by apply client_step_ok|done|].
    split; [apply empty_queue_ok|]. by exists []. }
  split; [|done]. exists rest. split; [done|]. etrans; [|exact H3]. by apply sublist_app.
Qed.

(** ** The end of the client *)

Definition finished_without_signal (c : Client) : Prop := once c = true ∧ done_closed c = false.

(** Once [Close] ran, the reader's own [once.Do] does nothing, and that is the
    only place that closes [done]. *)
Lemma step_unsignalled c o : finished_without_signal c → finished_without_signal (step c o).1.
Proof.
  intros [H1 H2]. unfold finished_without_signal.
  destruct o as [dl w now|i t p|i| | |r|stop w|stop now]; cbn [step fst].
  - unfold Connect. destruct dl; [|done]. by destruct (Marshal _ _), w.
  - unfold begin_enqueue. by destruct (Marshal _ _).
  - done.
  - unfold Close. rewrite H1. done.
  - done.
  - assert (once (reader_exits c) = true ∧ done_closed (reader_exits c) = false) as Hx
      by (cbn; by rewrite H1, H2).
    unfold readLoop. destruct (negb (reading c)); [done|]. destruct r; [done|].
    destruct (Unmarshal data) as [[t payload]|]; [|done].
    destruct (String.eqb t _); [by destruct (unmarshal_config_update payload)|].
    destruct (String.eqb t _); [done|]. by destruct (String.eqb t _).
  - unfold writeLoop. destruct (negb (writing c)); [done|]. destruct stop; [by destruct (cancelled c)|].
    destruct (sendCh (out c)); [done|]. by destruct w.
  - unfold heartbeatLoop, begin_enqueue. destruct (negb (beating c)); [done|].
    destruct stop; [by destruct (cancelled c)|]. by destruct (Marshal _ _).
Qed.

(** A client that was closed never lets [Wait] return. *)
Lemma closed_client_waits_forever c c' ops :
  once c = false → done_closed c = false → Close c = Some c' → Wait_returns (run c' ops).1 = false.
Proof.
  intros H1 H2 Hc. unfold Close in Hc. rewrite H1 in Hc. destruct (has_cancel c); [|done].
  injection Hc as <-. unfold Wait_returns.
  refine (proj2 (run_invariant finished_without_signal (λ _, True) _ ops _ _ _)).
  - intros; by apply step_unsignalled.
  - by apply Forall_true.
  - split; [done|exact H2].
Qed.

(** The end of the connection reaches the agent: when the reader's read
    fails, or the server asks for a shutdown in any form, and [Close] was not
    called, [Wait] returns and the context is over; a shutdown is announced once,
    with the reason given or a default one. *)
Theorem end_of_connection_is_noticed (c : Client) (o : read_outcome) (payload : option document) :
  reading c = true → once c = false →
  o = ReadError ∨ o = ReadData (Some (AnyMap (("type", AnyString MsgShutdown) ::
                                      match payload with Some d => [("payload", d)] | None => [] end))) →
  let '(c', calls) := readLoop c o in
  Wait_returns c' = true ∧ cancelled c' = true ∧ reading c' = false ∧
  calls = match o with
          | ReadError => []
          | ReadData _ =>
              [OnShutdown (if String.eqb (shutdown_reason payload) "" then default_shutdown_reason
                           else shutdown_reason payload)]
          end.
Proof.
  intros Hr Ho Hcase. unfold readLoop. rewrite Hr. cbn [negb].
  destruct Hcase as [-> | ->].
  - cbn. rewrite Ho. cbn. rewrite orb_true_r. done.
  - destruct payload; cbn; rewrite Ho; cbn; rewrite orb_true_r; done.
Qed.

(** The end of the caller's context stops the writer and the heartbeat only: the
    connection stays open, the reader goes on, and [Wait] does not return. *)
Lemma cancelled_context_keeps_connection c :
  let c' := (step c OpCancel).1 in
  conn_open c' = conn_open c ∧ reading c' = reading c ∧ Wait_returns c' = Wait_returns c.
Proof. done. Qed.

(** ** The codec *)

Lemma codec_roundtrip t payload :
  t ≠ "" →
  ∃ d, Marshal t (match payload with Some p => Some (Some p) | None => None end) = Ok d ∧
       Unmarshal (Some d) = Ok (t, payload).
Proof.
  intros Ht%String.eqb_neq. destruct payload as [p|]; cbn; eexists; (split; [done|]); cbn; by rewrite Ht.
Qed.

Lemma config_update_back p : unmarshal_config_update (Some (config_update_json p)) = Ok p.
Proof.
  destruct p as [settings keys]. unfold config_update_json, optional, unmarshal_config_update. cbn [Settings Keys].
  destruct settings as [d|]; case_bool_decide as Hk; cbn [app].
  - subst keys. done.
  - unfold string_map_field. cbn [field String.eqb]. cbn. rewrite string_entries_back.
    by rewrite list_to_map_to_list.
  - subst keys. done.
  - rewrite string_map_back. done.
Qed.

(** A configuration update the server encodes reaches the agent's callback
    with the same settings and keys, and the connection goes on. *)
Theorem config_update_delivered (c : Client) (p : ConfigUpdatePayload) :
  reading c = true →
  ∃ data, Marshal MsgConfigUpdate (Some (Some (config_update_json p))) = Ok data ∧
          readLoop c (ReadData (Some data)) = (c, [OnConfigUpdate (Settings p) (Keys p)]).
Proof.
  intros Hr. destruct (codec_roundtrip MsgConfigUpdate (Some (config_update_json p))) as (d & Hm & Hu); [done|].
  exists d. split; [exact Hm|]. unfold readLoop. rewrite Hr, Hu. cbn [negb].
  replace (String.eqb MsgConfigUpdate MsgConfigUpdate) with true by done. by rewrite config_update_back.
Qed.

(** A payload JSON cannot encode is dropped without a trace on the queue. *)
Lemma unencodable_log_dropped c i sessionID now level msg k :
  WSLogWriter_Write c i sessionID now level msg [(k, None)] = c.
Proof. reflexivity. Qed.

(** ** Examples *)

Definition example_config : ClientConfig := mkClientConfig "ws://ui/agent" "agent" "1.0.0" ∅ 0.
Definition example_client : Client := (Connect (NewClient example_config) (Ok tt) (Ok tt) "t0").1.

(** A log entry and a heartbeat whose selects interleave, a write, the end. *)
Definition example_ops : list op :=
  [OpSend 1 MsgLog (log_json (mkLog "agent" "s" (mkLogEntry "t1" "INFO" "hi" []))); OpBeat false "t2";
   OpSelect 0; OpSelect 1; OpWrite false (Ok tt); OpRead ReadError; OpWrite true (Ok tt)].

Lemma server_sees_registration_then_accepted_witness :
  (∃ rest, wire (run example_client example_ops).1 =
             AnyMap [("type", AnyString "register");
                     ("payload", register_json (mkRegister "agent" "1.0.0" [] ∅ "t0"))] :: rest ∧
           (rest ++ sendCh (out (run example_client example_ops).1)) `sublist_of`
             accepted (out (run example_client example_ops).1)) ∧
  length (wire (run example_client example_ops).1) = 2%nat.
Proof.
  split; [|vm_compute; reflexivity].
  refine (proj1 (server_sees_registration_then_accepted example_config "t0" example_ops _)).
  repeat constructor.
Defined.

Definition example_reason : any := AnyMap [("grace_seconds", AnyString "soon"); ("reason", AnyString "update")].
Definition example_shutdown : read_outcome :=
  ReadData (Some (AnyMap [("type", AnyString MsgShutdown); ("payload", example_reason)])).

Lemma end_of_connection_is_noticed_witness :
  let '(c', calls) := readLoop example_client example_shutdown in
  Wait_returns c' = true ∧ cancelled c' = true ∧ reading c' = false ∧ calls = [OnShutdown "update"].
Proof.
  exact (end_of_connection_is_noticed example_client example_shutdown (Some example_reason)
           eq_refl eq_refl (or_intror eq_refl)).
Defined.

Lemma config_update_delivered_witness :
  ∃ data, Marshal MsgConfigUpdate
            (Some (Some (config_update_json (mkConfigUpdate None {["openai" := "key"]})))) = Ok data ∧
          readLoop example_client (ReadData (Some data)) =
            (example_client, [OnConfigUpdate None {["openai" := "key"]}]).
Proof. apply (config_update_delivered example_client). reflexivity. Defined.

(** After [Close] the read error that follows leaves [Wait] blocked. *)
Example close_then_wait :
  Wait_returns (run example_client [OpClose; OpRead ReadError]).1 = false ∧
  Wait_returns (run example_client [OpRead ReadError; OpClose]).1 = true.
Proof. vm_compute. done. Qed.
