(* ===== verification/DailyTransport.v ===== *)
(** * The Daily transport: [transports/daily/*.go]

    A relay sends the caller's audio over a WebSocket, one session per
    connection; rooms and tokens come from Daily's REST API.  Reads, writes and
    HTTP exchanges are arguments, random suffixes and times too; a session's job
    is the handler the provider was given, which returns by itself. *)

From Stdlib Require Import Strings.Byte.
From S2P Require Import Prelude Core Json Audio AudioProofs SpeechWire.

Local Open Scope string_scope.
Local Open Scope list_scope.
Local Open Scope Z_scope.
Local Open Scope go_scope.

Record Config := mkConfig {
  APIKey : string;
  APIBaseURL : string;
  RoomName : string;
  RoomURLPrefix : string;
  ExpirySeconds : Z;
  MaxParticipants : Z;
  Port : Z;
  Path : string;
  ReadBufferSize : Z;
  WriteBufferSize : Z;
  MaxMessageSize : Z;
  AudioSampleRate : Z;
  AudioChannels : Z;
  EnableTLS : bool;
  TLSCertFile : string;
  TLSKeyFile : string;
  BotName : string;
  IsOwner : bool
}.

Definition DefaultConfig : Config :=
  mkConfig "" "https://api.daily.co/v1" "" "" 3600 2 8090 "/daily-media" 4096 4096 65536 24000 1
    false "" "" "ai-agent" false.

(** ** The relay service *)

Record DailyMediaMessage := mkMessage {
  Type_ : string;
  Payload : string;
  msg_Timestamp : Z;
  Room_ : string;
  msg_SampleRate : Z;
  msg_Channels : Z;
  msg_Format : string;
  Action : string
}.

Section relay.
Context {L : AudioLibs}.

(** [ctx]: the context's end, once [Initialize] made it; [closed]: [closeOnce]
    ran. *)
Record DailyTransportService := mkService {
  config : Config;
  roomName : string;
  connected : bool;
  closed : bool;
  ctx : option bool;
  conn_open : bool;
  wire : list DailyMediaMessage;
  pools : Pools
}.

Definition NewDailyTransportService (cfg : Config) (room : string) (ps : Pools) : DailyTransportService :=
  mkService cfg room true false None true [] ps.

Definition Initialize (s : DailyTransportService) : DailyTransportService :=
  mkService (config s) (roomName s) (connected s) (closed s) (Some false) (conn_open s) (wire s) (pools s).

Definition Connect (s : DailyTransportService) : DailyTransportService :=
  if connected s then s
  else mkService (config s) (roomName s) true (closed s) (ctx s) (conn_open s) (wire s) (pools s).

Definition Close (s : DailyTransportService) : DailyTransportService :=
  if closed s then s
  else mkService (config s) (roomName s) false true
         (match ctx s with Some _ => Some true | None => None end) false (wire s) (pools s).

Definition Cleanup (s : DailyTransportService) : DailyTransportService := Close s.
Definition Reset (s : DailyTransportService) : DailyTransportService := s.
Definition GetRoomName (s : DailyTransportService) : string := roomName s.

(** *** Receiving *)

(** [room]: the output channel takes the chunk. *)
Definition handleAudioMessage (s : DailyTransportService) (m : DailyMediaMessage) (room : bool)
    : list MediaChunk :=
  if String.eqb (Payload m) "" then []
  else match b64_decode (Payload m) with
  | None => []
  | Some audioData =>
      let rate := if 0 <? msg_SampleRate m then msg_SampleRate m else AudioSampleRate (config s) in
      let channels := if 0 <? msg_Channels m then msg_Channels m else AudioChannels (config s) in
      let format := if String.eqb (msg_Format m) "opus" then OPUS else PCM in
      if room then [audio_media (mkAudioChunk (Some audioData) rate channels format 0)] else []
  end.

Definition handleTextMessage (m : DailyMediaMessage) (room : bool) : list MediaChunk :=
  if String.eqb (Payload m) "" then [] else if room then [text_media (Payload m)] else [].

Definition handleControlMessage (s : DailyTransportService) (m : DailyMediaMessage)
    : DailyTransportService :=
  if String.eqb (Action m) "stop" then Close s else s.

(** What [ReadJSON] gives: a message, or an error that may be an unexpected
    close. *)
Inductive read_outcome : Type :=
| ReadMessage (m : DailyMediaMessage)
| ReadFailed (unexpected : bool) (msg : string).

Record received := mkReceived { chunks : list MediaChunk; errors : list string }.

(** The deferred [Close] ends every way out of the loop. *)
Fixpoint StartReceiving (s : DailyTransportService) (reads : list (read_outcome * bool))
    : DailyTransportService * received * bool :=
  if bool_decide (ctx s = Some true) then (Close s, mkReceived [] [], true)
  else match reads with
  | [] => (s, mkReceived [] [], false)
  | (ReadFailed unexpected e, _) :: _ =>
      (Close s, mkReceived [] (if unexpected then ["daily websocket error: " +:+ e] else []), true)
  | (ReadMessage m, room) :: reads' =>
      let '(s1, out) :=
        if String.eqb (Type_ m) "audio" then (s, handleAudioMessage s m room)
        else if String.eqb (Type_ m) "text" then (s, handleTextMessage m room)
        else if String.eqb (Type_ m) "control" then (handleControlMessage s m, [])
        else (s, []) in
      let '(s2, r, done) := StartReceiving s1 reads' in
      (s2, mkReceived (out ++ chunks r) (errors r), done)
  end.

(** *** Sending *)

Definition writeJSON (s : DailyTransportService) (m : DailyMediaMessage) (write : result unit)
    : DailyTransportService * result unit :=
  match write with
  | Err e => (s, Err e)
  | Ok _ => (mkService (config s) (roomName s) (connected s) (closed s) (ctx s) (conn_open s)
               (wire s ++ [m]) (pools s), Ok tt)
  end.

Definition control_message (s : DailyTransportService) (action : string) (now : Z) : DailyMediaMessage :=
  mkMessage "control" "" now (roomName s) 0 0 "" action.

Definition text_message (s : DailyTransportService) (msgType text : string) (now : Z) : DailyMediaMessage :=
  mkMessage msgType text now (roomName s) 0 0 "" "".

Definition audio_message (s : DailyTransportService) (pcm : bytes_) (now : Z) : DailyMediaMessage :=
  mkMessage "audio" (b64_encode pcm) now "" (AudioSampleRate (config s)) (AudioChannels (config s))
    "pcm16" "".

Definition set_pools (s : DailyTransportService) (ps : Pools) : DailyTransportService :=
  mkService (config s) (roomName s) (connected s) (closed s) (ctx s) (conn_open s) (wire s) ps.

Definition convert (s : DailyTransportService) (c : AudioChunk) : option (Pools * result AudioChunk) :=
  ConvertAudioChunk (pools s) c PCM (AudioChannels (config s)) (AudioSampleRate (config s)).

(** The message an event is sent as, apart from audio. *)
Definition plain_message (s : DailyTransportService) (e : IEvent) (now : Z) : option DailyMediaMessage :=
  match e with
  | TTSSpeakingStartedEvent => Some (control_message s "speaking_started" now)
  | TTSSpeakingEndedEvent => Some (control_message s "speaking_ended" now)
  | LLMResponseChunkEvent t _ =>
      if String.eqb t "" then None else Some (text_message s "transcription" t now)
  | LLMResponseCompletedEvent t =>
      if String.eqb t "" then None else Some (text_message s "transcription_final" t now)
  | LLMGenerateResponseEvent _ | LLMResponseStartedEvent => Some (control_message s "thinking" now)
  | VadUserSpeechStartedEvent => Some (control_message s "user_speech_started" now)
  | VadUserSpeechEndedEvent => Some (control_message s "user_speech_ended" now)
  | VadInterruptionSuspectedEvent => Some (control_message s "interruption" now)
  | VadInterruptionConfirmedEvent => Some (control_message s "interruption_confirmed" now)
  | _ => None
  end.

(** [None]: the conversion panics. *)
Definition SendEvent (s : DailyTransportService) (e : IEvent) (now : Z) (write : result unit)
    : option (DailyTransportService * result unit) :=
  if negb (connected s) then Some (s, Err "transport service not connected")
  else match e with
  | TTSOutputEvent c =>
      match Data c with
      | None | Some [] => Some (s, Ok tt)
      | Some _ =>
          match convert s c with
          | None => None
          | Some (ps, Err err) => Some (set_pools s ps, Err err)
          | Some (ps, Ok pcm) =>
              match Data pcm with
              | None => None
              | Some d => Some (writeJSON (set_pools s ps) (audio_message s d now) write)
              end
          end
      end
  | _ =>
      match plain_message s e now with
      | None => Some (s, Ok tt)
      | Some m => Some (writeJSON s m write)
      end
  end.
(** ** The REST API *)

Record DailyAPIClient := mkAPI { apiKey : string; baseURL : string }.

Definition NewDailyAPIClient (key url : string) : DailyAPIClient :=
  mkAPI key (or_default url "https://api.daily.co/v1").

Record http_request := mkRequest {
  Method : string;
  URL_ : string;
  Headers_ : list (string * string);
  Body : option document
}.

(** The status, the text of the body, and the document it holds, if any. *)
Record http_response := mkResponse { StatusCode : Z; body_text : string; body_json : option document }.

Definition http : Type := http_request → result http_response.

Definition api_headers (c : DailyAPIClient) : list (string * string) :=
  [("Content-Type", "application/json"); ("Authorization", "Bearer " +:+ apiKey c)].

(** Sending a request and checking its status. *)
Definition exchange (c : DailyAPIClient) (do_ : http) (what method path : string) (body : option document)
    : result http_response :=
  match do_ (mkRequest method (baseURL c +:+ path) (api_headers c) body) with
  | Err e => Err (what +:+ " request: " +:+ e)
  | Ok r =>
      if (StatusCode r <? 200) || (300 <=? StatusCode r)
      then Err (what +:+ ": status " +:+ itoa (StatusCode r) +:+ ": " +:+ body_text r)
      else Ok r
  end.

Record RoomProperties := mkProperties {
  rp_MaxParticipants : Z;
  rp_ExpiresAt : Z;
  StartVideoOff : bool;
  StartAudioOff : bool
}.

Record RoomConfig := mkRoomConfig { rc_Name : string; rc_Privacy : string; rc_Properties : option RoomProperties }.

Definition properties_json (p : RoomProperties) : document :=
  AnyMap (optional (rp_MaxParticipants p =? 0) "max_participants" (AnyNumber (itoa (rp_MaxParticipants p))) ++
          optional (rp_ExpiresAt p =? 0) "exp" (AnyNumber (itoa (rp_ExpiresAt p))) ++
          optional (negb (StartVideoOff p)) "start_video_off" (AnyBool (StartVideoOff p)) ++
          optional (negb (StartAudioOff p)) "start_audio_off" (AnyBool (StartAudioOff p))).

Definition room_config_json (c : RoomConfig) : document :=
  AnyMap (optional (String.eqb (rc_Name c) "") "name" (AnyString (rc_Name c)) ++
          optional (String.eqb (rc_Privacy c) "") "privacy" (AnyString (rc_Privacy c)) ++
          match rc_Properties c with Some p => [("properties", properties_json p)] | None => [] end).

Record Room := mkRoom {
  ID : string;
  Name : string;
  URL : string;
  APICreated : bool;
  Privacy : string;
  Properties : option RoomProperties;
  CreatedAt : string
}.

Definition decode_properties (d : document) : option (option RoomProperties) :=
  match d with
  | AnyNil => Some None
  | AnyMap l =>
      m ← go_int "max_participants" l 0; x ← go_int "exp" l 0;
      v ← bool_field "start_video_off" l false; a ← bool_field "start_audio_off" l false;
      Some (Some (mkProperties m x v a))
  | _ => None
  end.

Definition decode_room (d : document) : option Room :=
  match d with
  | AnyNil => Some (mkRoom "" "" "" false "" None "")
  | AnyMap l =>
      i ← string_field "id" l ""; n ← string_field "name" l ""; u ← string_field "url" l "";
      c ← bool_field "api_created" l false; p ← string_field "privacy" l "";
      ps ← match field "config" l with Some d => decode_properties d | None => Some None end;
      t ← string_field "created_at" l "";
      Some (mkRoom i n u c p ps t)
  | _ => None
  end.

Definition room_of (r : http_response) : result Room :=
  match body_json r with
  | None => Err "decode room response: invalid JSON"
  | Some d =>
      match decode_room d with
      | Some room => Ok room
      | None => Err "decode room response: wrong type"
      end
  end.

Definition CreateRoom (c : DailyAPIClient) (do_ : http) (config : RoomConfig) : result Room :=
  let! r := exchange c do_ "create room" "POST" "/rooms" (Some (room_config_json config)) in room_of r.

Definition GetRoom (c : DailyAPIClient) (do_ : http) (room : string) : result Room :=
  let! r := exchange c do_ "get room" "GET" ("/rooms/" +:+ room) None in room_of r.

Definition DeleteRoom (c : DailyAPIClient) (do_ : http) (room : string) : result unit :=
  let! _ := exchange c do_ "delete room" "DELETE" ("/rooms/" +:+ room) None in Ok tt.

Record MeetingTokenProperties := mkTokenProperties {
  tp_RoomName : string;
  UserName : string;
  tp_IsOwner : bool;
  tp_ExpiresAt : Z
}.

Definition token_json (p : MeetingTokenProperties) : document :=
  AnyMap [("properties", AnyMap (
    [("room_name", AnyString (tp_RoomName p))] ++
    optional (String.eqb (UserName p) "") "user_name" (AnyString (UserName p)) ++
    optional (negb (tp_IsOwner p)) "is_owner" (AnyBool (tp_IsOwner p)) ++
    optional (tp_ExpiresAt p =? 0) "exp" (AnyNumber (itoa (tp_ExpiresAt p)))))].

Definition CreateMeetingToken (c : DailyAPIClient) (do_ : http) (p : MeetingTokenProperties)
    : result string :=
  let! r := exchange c do_ "create token" "POST" "/meeting-tokens" (Some (token_json p)) in
  match body_json r with
  | None => Err "decode token response: invalid JSON"
  | Some AnyNil => Ok ""
  | Some (AnyMap l) =>
      match string_field "token" l "" with
      | Some t => Ok t
      | None => Err "decode token response: wrong type"
      end
  | Some _ => Err "decode token response: wrong type"
  end.

(** ** The provider *)

(** Connections are numbered; [jobs] are the ones whose handler runs. *)
Record DailyTransportProvider := mkProvider {
  p_config : Config;
  apiClient : DailyAPIClient;
  jobHandler : bool;
  isRunning : bool;
  connections : gmap nat DailyTransportService;
  jobs : gset nat;
  accepted : nat
}.

(** [None] as configuration is nil. *)
Definition NewDailyTransportProvider (cfg : option Config) : result DailyTransportProvider :=
  let c := default DefaultConfig cfg in
  if String.eqb (APIKey c) "" then Err "Daily API key is required"
  else Ok (mkProvider c (NewDailyAPIClient (APIKey c) (APIBaseURL c)) false false ∅ ∅ 0).

Definition RegisterJobHandler (p : DailyTransportProvider) (handler_nil : bool)
    : DailyTransportProvider * result unit :=
  if handler_nil then (p, Err "handler cannot be nil")
  else (mkProvider (p_config p) (apiClient p) true (isRunning p) (connections p) (jobs p) (accepted p), Ok tt).

Definition Start (p : DailyTransportProvider) : DailyTransportProvider * result unit :=
  if isRunning p then (p, Err "provider already running")
  else (mkProvider (p_config p) (apiClient p) (jobHandler p) true (connections p) (jobs p) (accepted p), Ok tt).

(** The services that are closed are the second component; [shutdown] is the
    outcome of the server's [Shutdown]. *)
Definition Stop (p : DailyTransportProvider) (shutdown : result unit)
    : DailyTransportProvider * list DailyTransportService * result unit :=
  if negb (isRunning p) then (p, [], Ok tt)
  else
    let closed_ := map Close (map_to_list (connections p)).*2 in
    match shutdown with
    | Err e => (mkProvider (p_config p) (apiClient p) (jobHandler p) true ∅ (jobs p) (accepted p), closed_,
                Err ("error shutting down server: " +:+ e))
    | Ok _ => (mkProvider (p_config p) (apiClient p) (jobHandler p) false ∅ (jobs p) (accepted p), closed_, Ok tt)
    end.

Definition GetActiveConnections (p : DailyTransportProvider) : nat := size (connections p).

(** A connection that was upgraded, up to the call of the handler; without a
    handler it is dropped again at once. *)
Definition handleWebSocket (p : DailyTransportProvider) (room suffix : string) (ps : Pools)
    : DailyTransportProvider :=
  let roomName := if String.eqb room "" then "unknown-" +:+ suffix else room in
  let k := accepted p in
  if jobHandler p then
    mkProvider (p_config p) (apiClient p) true (isRunning p)
      (<[k := NewDailyTransportService (p_config p) roomName ps]> (connections p)) ({[k]} ∪ jobs p) (S k)
  else mkProvider (p_config p) (apiClient p) false (isRunning p) (connections p) (jobs p) (S k).

(** The handler of connection [k] returned. *)
Definition job_returns (p : DailyTransportProvider) (k : nat) : DailyTransportProvider :=
  mkProvider (p_config p) (apiClient p) (jobHandler p) (isRunning p) (delete k (connections p))
    (jobs p ∖ {[k]}) (accepted p).

(** Answer of the endpoint that creates a session. *)
Inductive session_answer : Type :=
| Failed (status : Z) (text : string)
| Created (room_name room_url bot_token user_token ws_url : string).

Definition session_room (c : Config) (suffix : string) : string :=
  if String.eqb (RoomName c) "" then "interactkit-" +:+ suffix else RoomName c.

(** [now] is the Unix time in seconds. *)
Definition handleCreateSession (p : DailyTransportProvider) (do_ : http) (method suffix : string) (now : Z)
    : session_answer :=
  if negb (String.eqb method "POST") then Failed 405 "method not allowed"
  else
    let c := p_config p in
    let expires := now + ExpirySeconds c in
    match CreateRoom (apiClient p) do_
            (mkRoomConfig (session_room c suffix) "private"
               (Some (mkProperties (MaxParticipants c) expires true false))) with
    | Err e => Failed 500 ("failed to create room: " +:+ e)
    | Ok room =>
        match CreateMeetingToken (apiClient p) do_
                (mkTokenProperties (Name room) (BotName c) (IsOwner c) expires) with
        | Err e => Failed 500 ("failed to create token: " +:+ e)
        | Ok bot =>
            match CreateMeetingToken (apiClient p) do_
                    (mkTokenProperties (Name room) "user" false expires) with
            | Err e => Failed 500 ("failed to create user token: " +:+ e)
            | Ok user =>
                Created (Name room) (URL room) bot user
                  ("ws://localhost:" +:+ itoa (Port c) +:+ Path c +:+ "?room=" +:+ Name room)
            end
        end
    end.

(** ** Lemmas *)

Lemma wire_message_rate cfg_rate rate : (rate = cfg_rate) → (if 0 <? rate then rate else cfg_rate) = rate.
Proof. intros ->. by destruct (0 <? cfg_rate). Qed.

(** What the other end of the relay makes of an audio message. *)
Lemma receive_audio (r s : DailyTransportService) (d : bytes_) now :
  config r = config s → d ≠ [] →
  handleAudioMessage r (audio_message s d now) true =
  [audio_media (mkAudioChunk (Some d) (AudioSampleRate (config s)) (AudioChannels (config s)) PCM 0)].
Proof.
  intros Hc Hd. unfold handleAudioMessage, audio_message. cbn [Payload msg_SampleRate msg_Channels msg_Format].
  rewrite b64_encode_not_empty, b64_roundtrip by done. rewrite Hc.
  by rewrite !wire_message_rate.
Qed.

Lemma resulting_pcm c channels rate : resulting_format c PCM channels rate = PCM.
Proof. unfold resulting_format. by destruct (_ && _). Qed.


(** A caller who hangs up, and every frame that does not parse, end the loop
    without a word to the handler. *)
Lemma hangup_goes_unreported s e reads room :
  ctx s ≠ Some true →
  StartReceiving s ((ReadFailed false e, room) :: reads) = (Close s, mkReceived [] [], true).
Proof. intros Hc. cbn. by rewrite bool_decide_eq_false_2. Qed.

(** The messages received before the end come out in order, whatever they are. *)
Lemma receive_texts s (ts : list string) :
  ctx s = Some false → Forall (λ t, t ≠ "") ts →
  StartReceiving s (map (λ t, (ReadMessage (mkMessage "text" t 0 "" 0 0 "" ""), true)) ts) =
  (s, mkReceived (map text_media ts) [], false).
Proof.
  intros Hc Hts. assert (ctx s ≠ Some true) as Hn by (by rewrite Hc).
  induction Hts as [|t ts Ht _ IH]; cbn [map StartReceiving]; rewrite bool_decide_eq_false_2 by done; [done|].
  cbn [Type_ String.eqb]. cbn. rewrite IH. unfold handleTextMessage. cbn [Payload].
  by rewrite (proj2 (String.eqb_neq t "") Ht).
Qed.

(** *** The provider *)

Record provider_ok (p : DailyTransportProvider) : Prop := {
  tracked_jobs : dom (connections p) ⊆ jobs p;
  jobs_numbered k : k ∈ jobs p → (k < accepted p)%nat;
  api_key_set : APIKey (p_config p) ≠ ""
}.

Inductive provider_op : Type :=
| PRegister (handler_nil : bool)
| PStart
| PStop (shutdown : result unit)
| PAccept (room suffix : string) (ps : Pools)
| PReturn (k : nat).

Definition provider_step (p : DailyTransportProvider) (o : provider_op) : DailyTransportProvider :=
  match o with
  | PRegister n => (RegisterJobHandler p n).1
  | PStart => (Start p).1
  | PStop sh => (Stop p sh).1.1
  | PAccept room suffix ps => handleWebSocket p room suffix ps
  | PReturn k => job_returns p k
  end.

Lemma provider_step_ok p o : provider_ok p → provider_ok (provider_step p o).
Proof.
  intros [H1 H2 H3]. destruct o as [n| |sh|room suffix ps|k]; cbn [provider_step].
  - by destruct n.
  - unfold Start. by destruct (isRunning p).
  - unfold Stop. destruct (negb (isRunning p)); [done|]. destruct sh; split; cbn; try done; set_solver.
  - unfold handleWebSocket. destruct (jobHandler p); split; cbn; try done.
    + rewrite dom_insert_L. set_solver.
    + intros k [->%elem_of_singleton|Hk%H2]%elem_of_union; lia.
    + intros k Hk%H2. lia.
  - split; cbn; [rewrite dom_delete_L; set_solver| |done]. intros j Hj. apply H2. set_solver.
Qed.

(** Every connection a running provider counts has its job, and a provider that
    was made has a key. *)
Lemma provider_invariant cfg p ops :
  NewDailyTransportProvider cfg = Ok p → provider_ok (fold_left provider_step ops p).
Proof.
  unfold NewDailyTransportProvider. destruct (String.eqb _ "") eqn:E; [done|]. intros [= <-].
  assert (∀ p, provider_ok p → provider_ok (fold_left provider_step ops p)) as Hfold.
  { induction ops as [|o ops IH]; intros p Hp; [done|]. cbn. by apply IH, provider_step_ok. }
  apply Hfold. split; cbn; [set_solver|set_solver|]. by apply String.eqb_neq.
Qed.

(** Stopping closes the connections but leaves the jobs running. *)
Lemma stop_leaves_jobs p shutdown : jobs (Stop p shutdown).1.1 = jobs p.
Proof. unfold Stop. destruct (negb (isRunning p)); [done|]. by destruct shutdown. Qed.

(** *** The endpoint *)

Lemma exchange_ok c do_ what method path body r :
  exchange c do_ what method path body = Ok r →
  do_ (mkRequest method (baseURL c +:+ path) (api_headers c) body) = Ok r ∧ 200 <= StatusCode r < 300.
Proof.
  unfold exchange. destruct (do_ _) as [r'|e]; [|done].
  destruct ((StatusCode r' <? 200) || (300 <=? StatusCode r')) eqn:E; [done|]. intros [= <-].
  apply orb_false_iff in E as [E1%Z.ltb_ge E2%Z.leb_gt]. split; [done|lia].
Qed.

(** A session that the endpoint reports as created exists as reported: the
    room was created with the configured limits, both
    tokens were issued for that room until the room expires, and the caller's
    token does not ask for owner rights.  Every refusal of the API is a 500. *)
Theorem created_session_is_consistent (p : DailyTransportProvider) (do_ : http)
    (method suffix : string) (now : Z) :
  match handleCreateSession p do_ method suffix now with
  | Failed status _ => status = if String.eqb method "POST" then 500 else 405
  | Created name url bot user ws =>
      method = "POST" ∧
      let c := p_config p in
      let expires := now + ExpirySeconds c in
      (∃ room, CreateRoom (apiClient p) do_ (mkRoomConfig (session_room c suffix) "private"
                 (Some (mkProperties (MaxParticipants c) expires true false))) = Ok room ∧
               Name room = name ∧ URL room = url) ∧
      CreateMeetingToken (apiClient p) do_ (mkTokenProperties name (BotName c) (IsOwner c) expires) = Ok bot ∧
      CreateMeetingToken (apiClient p) do_ (mkTokenProperties name "user" false expires) = Ok user
  end.
Proof.
  unfold handleCreateSession. destruct (String.eqb_spec method "POST") as [->|Hm]; cbn [negb]; [|done].
  destruct (CreateRoom _ _ _) as [room|e] eqn:Er; [|done].
  destruct (CreateMeetingToken _ _ (mkTokenProperties _ (BotName _) _ _)) as [bot|e] eqn:Eb; [|done].
  destruct (CreateMeetingToken _ _ (mkTokenProperties _ "user" _ _)) as [user|e] eqn:Eu; [|done].
  split_and!; [done| |done|done]. by exists room.
Qed.

End relay.

(** ** Examples *)

Definition example_service : DailyTransportService (L := toy_libs) :=
  NewDailyTransportService DefaultConfig "room" no_pools.

(** Two stereo samples, sent as mono. *)
Definition example_chunk : AudioChunk :=
  mkAudioChunk (Some [x01; x00; x03; x00; x05; x00; x07; x00]) 24000 2 PCM 9.

Definition example_sent : DailyTransportService (L := toy_libs) :=
  match SendEvent example_service (TTSOutputEvent example_chunk) 5 (Ok tt) with
  | Some (s, _) => s
  | None => example_service
  end.

Lemma example_send :
  SendEvent example_service (TTSOutputEvent example_chunk) 5 (Ok tt) = Some (example_sent, Ok tt).
Proof.
  assert (match SendEvent example_service (TTSOutputEvent example_chunk) 5 (Ok tt) with
          | Some (_, Ok _) => true | _ => false end = true) as H by (vm_compute; reflexivity).
  unfold example_sent. destruct (SendEvent _ _ _ _) as [[s [[]|e]]|]; done.
Qed.


(** An API that answers every request. *)
Definition example_http : http := λ r,
  Ok (mkResponse 200 "" (Some (AnyMap
    (if String.eqb (URL_ r) "https://api.daily.co/v1/rooms"
     then [("name", AnyString "interactkit-1234"); ("url", AnyString "https://x.daily.co/interactkit-1234")]
     else [("token", AnyString "t")])))).

Example example_session :
  match NewDailyTransportProvider (L := toy_libs)
          (Some (mkConfig "key" "" "" "" 3600 2 8090 "/daily-media" 0 0 0 24000 1 false "" "" "bot" true)) with
  | Ok p => handleCreateSession p example_http "POST" "1234" 0 =
              Created "interactkit-1234" "https://x.daily.co/interactkit-1234" "t" "t"
                "ws://localhost:8090/daily-media?room=interactkit-1234"
  | Err _ => False
  end.
Proof. vm_compute. reflexivity. Qed.
