(* ===== verification/TwilioTransport.v ===== *)
(** * The Twilio transport: [transports/twilio/*.go]

    The media-stream service over one WebSocket connection, and the provider
    that accepts the connections.  Reads, writes and times are arguments. *)

From Stdlib Require Import Strings.Byte.
From S2P Require Import Prelude Core Audio AudioProofs SpeechWire.

Local Open Scope string_scope.
Local Open Scope list_scope.
Local Open Scope Z_scope.

(** The bytes of a Go string. *)
Definition string_bytes (s : string) : bytes_ := map Ascii.byte_of_ascii (str_chars s).

Record Config := mkConfig {
  Port : Z;
  Path : string;
  EnableAuth : bool;
  AuthToken : string;
  ReadBufferSize : Z;
  WriteBufferSize : Z;
  MaxMessageSize : Z;
  AudioSampleRate : Z;
  EnableTLS : bool;
  TLSCertFile : string;
  TLSKeyFile : string
}.

Definition DefaultConfig : Config :=
  mkConfig 8080 "/media-stream" false "" 4096 4096 65536 8000 false "" "".

Record TwilioMediaMessage := mkMediaMessage {
  Event_ : string;
  MediaPayload : string;
  Start_StreamSid : string;
  Start_CallSid : string
}.

(** The payload of a message sent: an event as it is marshalled, or audio,
    which marshals as base64. *)
Inductive payload : Type :=
| EventValue (e : IEvent)
| AudioText (base64 : string).

Record sent_message := mkSent { sent_streamSid : string; sent_payload : payload; sent_at : Z }.

Record TwilioTransportService := mkService {
  config : Config;
  streamSid : string;
  callSid : string;
  connected : bool;
  conn_open : bool;
  wire : list sent_message
}.

Definition NewTwilioTransportService (cfg : Config) : TwilioTransportService :=
  mkService cfg "" "" true true [].

Definition set_connected (t : TwilioTransportService) (up open : bool) : TwilioTransportService :=
  mkService (config t) (streamSid t) (callSid t) up open (wire t).

Definition Connect (t : TwilioTransportService) : TwilioTransportService :=
  if connected t then t else set_connected t true (conn_open t).

(** [Initialize], [Cleanup] and [Reset] are those of the embedded
    [core.IService], which no code sets: calling one dereferences nil. *)
Definition embedded_IService : option (TwilioTransportService → TwilioTransportService * result unit) := None.

Definition Initialize (t : TwilioTransportService) : option (TwilioTransportService * result unit) :=
  match embedded_IService with Some f => Some (f t) | None => None end.

Definition send_media (t : TwilioTransportService) (p : payload) (now : Z) (write : result unit)
    : TwilioTransportService * result unit :=
  if negb (connected t) then (t, Err "transport service not connected")
  else match write with
  | Err e => (t, Err e)
  | Ok _ => (mkService (config t) (streamSid t) (callSid t) (connected t) (conn_open t)
               (wire t ++ [mkSent (streamSid t) p now]), Ok tt)
  end.

Definition SendEvent (t : TwilioTransportService) (e : IEvent) (now : Z) (write : result unit) :=
  send_media t (EventValue e) now write.

Definition SendAudio (t : TwilioTransportService) (audioData : bytes_) (now : Z) (write : result unit) :=
  send_media t (AudioText (b64_encode audioData)) now write.

Definition handleStartMessage (t : TwilioTransportService) (m : TwilioMediaMessage) : TwilioTransportService :=
  mkService (config t) (Start_StreamSid m) (Start_CallSid m) (connected t) (conn_open t) (wire t).

(** The payload's text as bytes. *)
Definition handleMediaMessage (t : TwilioTransportService) (m : TwilioMediaMessage) : MediaChunk :=
  audio_media (mkAudioChunk (Some (string_bytes (MediaPayload m))) (AudioSampleRate (config t)) 1 ULAW 0).

Definition handleStopMessage (t : TwilioTransportService) : TwilioTransportService :=
  set_connected t false (conn_open t).

Definition Close (t : TwilioTransportService) : TwilioTransportService :=
  if negb (connected t) then t else set_connected t false false.

Inductive read_outcome : Type :=
| ReadMessage (m : TwilioMediaMessage)
| ReadFailed (unexpected : bool) (msg : string).

(** The whole loop and its deferred [Close]: the chunks, the errors, and
    whether it ended. *)
Fixpoint StartReceiving (t : TwilioTransportService) (reads : list read_outcome)
    : TwilioTransportService * list MediaChunk * list string * bool :=
  match reads with
  | [] => (t, [], [], false)
  | ReadFailed unexpected e :: _ =>
      (Close t, [], if unexpected then ["websocket error: " +:+ e] else [], true)
  | ReadMessage m :: reads' =>
      if String.eqb (Event_ m) "stop" then (Close (handleStopMessage t), [], [], true)
      else if String.eqb (Event_ m) "start" then StartReceiving (handleStartMessage t m) reads'
      else if String.eqb (Event_ m) "media" then
        let '(t', cs, es, done) := StartReceiving t reads' in
        (t', handleMediaMessage t m :: cs, es, done)
      else StartReceiving t reads'
  end.

Definition GetStreamSid (t : TwilioTransportService) : string := streamSid t.
Definition GetCallSid (t : TwilioTransportService) : string := callSid t.

(** ** The provider *)

(** Connections are numbered; [jobs] are those whose handler runs. *)
Record TwilioTransportProvider := mkProvider {
  p_config : Config;
  jobHandler : bool;
  isRunning : bool;
  connections : gmap nat TwilioTransportService;
  jobs : gset nat;
  accepted : nat
}.

Definition NewTwilioTransportProvider (cfg : option Config) : TwilioTransportProvider :=
  mkProvider (default DefaultConfig cfg) false false ∅ ∅ 0.

Definition RegisterJobHandler (p : TwilioTransportProvider) (handler_nil : bool)
    : TwilioTransportProvider * result unit :=
  if handler_nil then (p, Err "handler cannot be nil")
  else (mkProvider (p_config p) true (isRunning p) (connections p) (jobs p) (accepted p), Ok tt).

Definition Start (p : TwilioTransportProvider) : TwilioTransportProvider * result unit :=
  if isRunning p then (p, Err "provider already running")
  else (mkProvider (p_config p) (jobHandler p) true (connections p) (jobs p) (accepted p), Ok tt).

Definition Stop (p : TwilioTransportProvider) (shutdown : result unit)
    : TwilioTransportProvider * list TwilioTransportService * result unit :=
  if negb (isRunning p) then (p, [], Ok tt)
  else
    let closed := map Close (map_to_list (connections p)).*2 in
    match shutdown with
    | Err e => (mkProvider (p_config p) (jobHandler p) true ∅ (jobs p) (accepted p), closed,
                Err ("error shutting down server: " +:+ e))
    | Ok _ => (mkProvider (p_config p) (jobHandler p) false ∅ (jobs p) (accepted p), closed, Ok tt)
    end.

(** A connection up to the call of the handler, and the handler's return. *)
Definition handleWebSocket (p : TwilioTransportProvider) : TwilioTransportProvider :=
  let k := accepted p in
  if jobHandler p then
    mkProvider (p_config p) true (isRunning p)
      (<[k := NewTwilioTransportService (p_config p)]> (connections p)) ({[k]} ∪ jobs p) (S k)
  else mkProvider (p_config p) false (isRunning p) (connections p) (jobs p) (S k).

Definition job_returns (p : TwilioTransportProvider) (k : nat) : TwilioTransportProvider :=
  mkProvider (p_config p) (jobHandler p) (isRunning p) (delete k (connections p)) (jobs p ∖ {[k]})
    (accepted p).

Definition GetActiveConnections (p : TwilioTransportProvider) : nat := size (connections p).

(** ** Lemmas *)

(** Every message carries the id of the stream that was last started. *)
Lemma sent_on_started_stream t m e now :
  connected t = true →
  (SendEvent (handleStartMessage t m) e now (Ok tt)).1 =
    mkService (config t) (Start_StreamSid m) (Start_CallSid m) true (conn_open t)
      (wire t ++ [mkSent (Start_StreamSid m) (EventValue e) now]).
Proof. intros Hc. unfold SendEvent, send_media, handleStartMessage. cbn. by rewrite Hc. Qed.

(** After a stop the loop's [Close] finds the service disconnected and leaves
    the socket open, and so does every later one. *)
Lemma stop_leaks_connection t payload sid cid reads :
  let t' := (StartReceiving t (ReadMessage (mkMediaMessage "stop" payload sid cid) :: reads)).1.1.1 in
  conn_open t' = conn_open t ∧ Close t' = t'.
Proof. done. Qed.

(** The base64 text of a frame is passed on as if it were the samples. *)
Lemma media_not_decoded t sid cid (bs : bytes_) :
  handleMediaMessage t (mkMediaMessage "media" (b64_encode bs) sid cid) =
  audio_media (mkAudioChunk (Some (string_bytes (b64_encode bs))) (AudioSampleRate (config t)) 1 ULAW 0).
Proof. done. Qed.

Example one_frame_not_decoded :
  string_bytes (b64_encode [x00; x10; x83]) = [x41; x42; x43; x44].
Proof. vm_compute. reflexivity. Qed.

Lemma initialize_panics t : Initialize t = None.
Proof. done. Qed.
