(* ===== verification/WebSocketTransport.v ===== *)
(** * The WebSocket transport: [transports/websocket/websocket.go]

    The plain service that sends and receives media chunks over one connection.
    Reads and the outcomes of writes are arguments. *)

From Stdlib Require Import Strings.Byte.
From S2P Require Import Prelude Core Json Audio AudioProofs SpeechWire.

Local Open Scope string_scope.
Local Open Scope list_scope.
Local Open Scope Z_scope.

(** A text frame is its text and the JSON object it holds, if it holds one
    ([null] counts as an empty one). *)
Inductive frame : Type :=
| TextFrame (text : string) (object : option (list (string * any)))
| BinaryFrame (data : bytes_).

Record WebSocketService := mkService {
  conn : bool;                     (* not nil *)
  started : bool;
  closed : bool
}.

Definition ErrCloseSent : string := "websocket: close sent".

Definition NewWebSocketService (conn : bool) : WebSocketService := mkService conn true false.

Definition Connect (ws : WebSocketService) : WebSocketService * result unit :=
  if negb (conn ws) then (ws, Err ErrCloseSent) else (mkService (conn ws) true (closed ws), Ok tt).

Definition Close (ws : WebSocketService) : WebSocketService :=
  mkService (conn ws) false (closed ws || conn ws).

Section codec.
(** [json.Marshal] of a map of these values. *)
Context (marshal : list (string * any) → string).

Definition json_frame (l : list (string * any)) : frame := TextFrame (marshal l) (Some l).

(** Writing frames until one fails; the answers are those of the connection. *)
Fixpoint write_all (fs : list frame) (answers : list (result unit)) : list frame * result unit :=
  match fs, answers with
  | [], _ => ([], Ok tt)
  | f :: fs', Ok _ :: answers' =>
      let '(w, r) := write_all fs' answers' in (f :: w, r)
  | _ :: _, Err e :: _ => ([], Err e)
  | _ :: _, [] => ([], Err "no answer")
  end.

Definition nonempty (d : option bytes_) : option bytes_ :=
  match d with Some (b :: bs) => Some (b :: bs) | _ => None end.

Definition format_number (f : AudioEncodingFormat) : Z :=
  match f with PCM => 0 | ULAW => 1 | ALAW => 2 | OPUS => 3 end.

(** The frames of a chunk: its text, or else its audio, or else its video. *)
Definition output_frames (c : MediaChunk) : list frame :=
  if negb (String.eqb (Text (mc_Text c)) "")
  then [json_frame [("type", AnyString "text"); ("data", AnyString (Text (mc_Text c)))]]
  else match nonempty (Data (Audio c)) with
  | Some d =>
      [json_frame [("type", AnyString "audio"); ("sampleRate", AnyNumber (itoa (SampleRate (Audio c))));
                   ("channels", AnyNumber (itoa (Channels (Audio c))));
                   ("format", AnyNumber (itoa (format_number (Format (Audio c)))));
                   ("size", AnyNumber (itoa (Z.of_nat (length d))))];
       BinaryFrame d]
  | None =>
      match nonempty (v_Data (Video c)) with
      | Some d =>
          [json_frame [("type", AnyString "video"); ("frameRate", AnyNumber (itoa (FrameRate (Video c))));
                       ("resolution", AnyString (Resolution (Video c)));
                       ("format", AnyString (v_Format (Video c)));
                       ("size", AnyNumber (itoa (Z.of_nat (length d))))];
           BinaryFrame d]
      | None => []
      end
  end.

Definition SendRawOutput (ws : WebSocketService) (c : MediaChunk) (answers : list (result unit))
    : list frame * result unit :=
  if negb (conn ws) then ([], Err ErrCloseSent) else write_all (output_frames c) answers.

(** The chunk a frame gives; [None]: a header, or nothing to send on. *)
Definition read_frame (f : frame) : option MediaChunk :=
  match f with
  | TextFrame text None => if String.eqb text "" then None else Some (text_media text)
  | TextFrame _ (Some l) =>
      match field "type" l, field "data" l with
      | Some (AnyString t), Some (AnyString d) =>
          if String.eqb t "text" && negb (String.eqb d "") then Some (text_media d) else None
      | _, _ => None
      end
  | BinaryFrame [] => None
  | BinaryFrame d => Some (audio_media (mkAudioChunk (Some d) 24000 1 PCM 0))
  end.

(** The goroutine of [StartReceiving] over what it reads ([Err]: a read error,
    after which it ends). *)
Fixpoint receive (reads : list (result frame)) : list MediaChunk * list string :=
  match reads with
  | [] => ([], [])
  | Err e :: _ => ([], [e])
  | Ok f :: reads' =>
      let '(cs, es) := receive reads' in
      (match read_frame f with Some c => c :: cs | None => cs end, es)
  end.

Definition StartReceiving (ws : WebSocketService) (reads : list (result frame)) : list MediaChunk * list string :=
  if negb (conn ws) then ([], [ErrCloseSent]) else if started ws then receive reads else ([], []).

(** ** Between two services *)

Lemma receive_app a b :
  receive (map Ok a ++ b) = (omap read_frame a ++ (receive b).1, (receive b).2).
Proof.
  induction a as [|f a IH]; cbn; [by destruct (receive b)|]. rewrite IH. by destruct (read_frame f).
Qed.

(** What the other side makes of a chunk's frames. *)
Definition arrives (c : MediaChunk) : list MediaChunk :=
  if negb (String.eqb (Text (mc_Text c)) "") then [text_media (Text (mc_Text c))]
  else match nonempty (Data (Audio c)) with
  | Some d => [audio_media (mkAudioChunk (Some d) 24000 1 PCM 0)]
  | None =>
      match nonempty (v_Data (Video c)) with
      | Some d => [audio_media (mkAudioChunk (Some d) 24000 1 PCM 0)]
      | None => []
      end
  end.

Lemma nonempty_some d b : nonempty d = Some b → d = Some b ∧ b ≠ [].
Proof. destruct d as [[|x l]|]; try done. intros [= <-]. done. Qed.

Lemma frames_arrive c : omap read_frame (output_frames c) = arrives c.
Proof.
  unfold output_frames, arrives. destruct (String.eqb (Text (mc_Text c)) "") eqn:E; cbn [negb].
  - destruct (nonempty (Data (Audio c))) as [[|b bs]|] eqn:Ea; [by apply nonempty_some in Ea as [_ []]|done|].
    destruct (nonempty (v_Data (Video c))) as [[|b bs]|] eqn:Ev; [by apply nonempty_some in Ev as [_ []]|done|done].
  - cbn. by rewrite E.
Qed.

Lemma all_frames_sent a c :
  conn a = true → (SendRawOutput a c (replicate 2 (Ok tt))).1 = output_frames c.
Proof.
  intros Ha. unfold SendRawOutput, output_frames. rewrite Ha. cbn [negb].
  destruct (negb (String.eqb (Text (mc_Text c)) "")); [done|]. destruct (nonempty (Data (Audio c))); [done|].
  by destruct (nonempty (v_Data (Video c))).
Qed.

Lemma all_frames_arrive cs : omap read_frame (mjoin (map output_frames cs)) = mjoin (map arrives cs).
Proof.
  induction cs as [|c cs IH]; [done|].
  change (omap read_frame (output_frames c ++ mjoin (map output_frames cs)) = arrives c ++ mjoin (map arrives cs)).
  by rewrite omap_app, IH, frames_arrive.
Qed.

(** Two services that talk to each other: what one sends, chunk after
    chunk, the other emits in the same order, with the text and the bytes of
    the media intact; a chunk that is text, or 24 kHz mono PCM without a time
    stamp, arrives as it was. *)
Theorem chunks_arrive_in_order (a b : WebSocketService) (cs : list MediaChunk) :
  conn a = true → conn b = true → started b = true →
  let sent := mjoin (map (λ c, (SendRawOutput a c (replicate 2 (Ok tt))).1) cs) in
  StartReceiving b (map Ok sent) = (mjoin (map arrives cs), []) ∧
  (∀ c, c ∈ cs → (∃ t, t ≠ "" ∧ c = text_media t) ∨
                 (∃ d, d ≠ [] ∧ c = audio_media (mkAudioChunk (Some d) 24000 1 PCM 0)) →
     arrives c = [c]).
Proof.
  intros Ha Hb Hs sent. split.
  - unfold StartReceiving. rewrite Hb, Hs. cbn [negb]. pose proof (receive_app sent []) as Hr.
    rewrite app_nil_r in Hr. cbn in Hr. rewrite app_nil_r in Hr. rewrite Hr. f_equal. unfold sent.
    erewrite map_ext; [apply all_frames_arrive|]. intros c. by apply all_frames_sent.
  - intros c _ [(t & Ht & ->)|(d & Hd & ->)]; unfold arrives; cbn.
    + by rewrite (proj2 (String.eqb_neq t "") Ht).
    + by destruct d.
Qed.

(** The header a sender writes before audio is read and forgotten: audio of any
    form is announced as 24 kHz mono PCM, and video as audio. *)
Lemma header_is_forgotten c d :
  Text (mc_Text c) = "" → Data (Audio c) = None → v_Data (Video c) = Some d → d ≠ [] →
  omap read_frame (output_frames c) = [audio_media (mkAudioChunk (Some d) 24000 1 PCM 0)].
Proof. intros Ht Ha Hv Hd. rewrite frames_arrive. unfold arrives. rewrite Ht, Ha, Hv. by destruct d. Qed.
End codec.

Definition example_chunks : list MediaChunk :=
  [text_media "hello"; audio_media (mkAudioChunk (Some [x01; x02]) 24000 1 PCM 0);
   audio_media (mkAudioChunk (Some [x01; x02]) 8000 1 ULAW 0)].

Definition no_text (l : list (string * any)) : string := "".

Lemma chunks_arrive_in_order_witness :
  StartReceiving (NewWebSocketService true)
    (map Ok (mjoin (map (λ c, (SendRawOutput no_text (NewWebSocketService true) c (replicate 2 (Ok tt))).1)
                      example_chunks))) =
  (mjoin (map arrives example_chunks), []) ∧
  mjoin (map arrives example_chunks) =
    [text_media "hello"; audio_media (mkAudioChunk (Some [x01; x02]) 24000 1 PCM 0);
     audio_media (mkAudioChunk (Some [x01; x02]) 24000 1 PCM 0)].
Proof.
  split; [|vm_compute; reflexivity].
  exact (proj1 (chunks_arrive_in_order no_text (NewWebSocketService true) (NewWebSocketService true)
                  example_chunks eq_refl eq_refl eq_refl)).
Defined.
