(* ===== verification/Factories.v ===== *)
(** * The factories: [factories/llm.go, stt.go, tts.go, session.go,
    settings.go, transport.go], and the configuration of [services/openai/llm]

    From a configuration to the services, handlers and providers the other files
    model: the choice of a provider, the defaults, the injection of keys, the
    session's handlers with their tools, and the parsing of [settings.json].
    Decoding the session part of the settings, which goes over every nested
    struct by reflection, is the argument [decode_session]; answers of MCP
    servers and HTTP exchanges are arguments. *)

From Stdlib Require Import QArith.QArith_base.
From S2P Require Import Prelude Core Json TaskGroup ContextManager DynamicContext.
From S2P Require Import LlmHandler TtsHandler OpenAI DeepgramStt DeepgramTts.
From S2P Require Import Audio AudioProofs SpeechWire Cartesia ElevenLabs McpTools.
From S2P Require Import LiveKitProvider DailyTransport.

Local Open Scope string_scope.
Local Open Scope list_scope.
Local Open Scope Z_scope.
Local Open Scope go_scope.

(** ** Language models *)

(** [openaillm.Config]; a float32 is the rational it stands for. *)
Record llm_Config := mkLlmConfig {
  llm_APIKey : string;
  llm_BaseURL : string;
  llm_Model : string;
  llm_MaxTokens : Z;
  llm_Temperature : Q;
  llm_Streaming : bool
}.

Definition llm_DefaultConfig : llm_Config := mkLlmConfig "" "" "gpt-4o" 1024 1 true.

(** What [NewOpenAILLMService] keeps, and the state it starts in. *)
Record LLMService := mkLLMService { settings : llm_Config; state : OpenAI.OpenAILLMService }.

Definition NewOpenAILLMService (c : llm_Config) : LLMService :=
  mkLLMService c (OpenAI.mkOpenAI (llm_APIKey c) (llm_Streaming c) false 0 false ∅).

(** The base URL of the client; [None] is the library's own. *)
Definition newClient (s : LLMService) : option string :=
  if String.eqb (llm_BaseURL (settings s)) "" then None else Some (llm_BaseURL (settings s)).

Record LLMFactoryConfig := mkLLMFactory {
  OpenAIConfig : option llm_Config;
  TogetherConfig : option llm_Config;
  GroqConfig : option llm_Config;
  DeepSeekConfig : option llm_Config;
  OpenRouterConfig : option llm_Config;
  FireworksConfig : option llm_Config;
  CerebrasConfig : option llm_Config;
  XAIConfig : option llm_Config;
  MistralConfig : option llm_Config;
  PerplexityConfig : option llm_Config
}.

Definition buildOpenAICompatible (c : llm_Config) (defaultBaseURL defaultModel : string) : LLMService :=
  NewOpenAILLMService
    (mkLlmConfig (llm_APIKey c) (or_default (llm_BaseURL c) defaultBaseURL)
       (or_default (llm_Model c) defaultModel) (llm_MaxTokens c) (llm_Temperature c) (llm_Streaming c)).

(** The compatible providers in the order of the tests, each with its field,
    its base URL and its model. *)
Definition compatible_providers (c : LLMFactoryConfig) : list (option llm_Config * string * string) :=
  [(TogetherConfig c, "https://api.together.xyz/v1", "meta-llama/Llama-3.3-70B-Instruct-Turbo");
   (GroqConfig c, "https://api.groq.com/openai/v1", "llama-3.3-70b-versatile");
   (DeepSeekConfig c, "https://api.deepseek.com/v1", "deepseek-chat");
   (OpenRouterConfig c, "https://openrouter.ai/api/v1", "openai/gpt-4o");
   (FireworksConfig c, "https://api.fireworks.ai/inference/v1",
     "accounts/fireworks/models/llama-v3p3-70b-instruct");
   (CerebrasConfig c, "https://api.cerebras.ai/v1", "llama-3.3-70b");
   (XAIConfig c, "https://api.x.ai/v1", "grok-3");
   (MistralConfig c, "https://api.mistral.ai/v1", "mistral-large-latest");
   (PerplexityConfig c, "https://api.perplexity.ai", "sonar-pro")].

Fixpoint first_compatible (l : list (option llm_Config * string * string)) : result LLMService :=
  match l with
  | [] => Err "LLMFactoryConfig: no provider config specified"
  | (Some c, url, model) :: _ => Ok (buildOpenAICompatible c url model)
  | (None, _, _) :: l' => first_compatible l'
  end.

Definition BuildLLMService (c : LLMFactoryConfig) : result LLMService :=
  match OpenAIConfig c with
  | Some cfg => Ok (NewOpenAILLMService cfg)
  | None => first_compatible (compatible_providers c)
  end.

(** ** Speech *)

Record STTFactoryConfig := mkSTTFactory { stt_DeepgramConfig : option DeepgramStt.DeepgramConfig }.

Definition BuildSTTService (c : STTFactoryConfig) : result DeepgramStt.DeepgramSTTService :=
  match stt_DeepgramConfig c with
  | Some cfg => Ok (DeepgramStt.NewDeepgramSTTService (Some cfg))
  | None => Err "STTFactoryConfig: no provider config specified"
  end.

Record TTSFactoryConfig := mkTTSFactory {
  tts_DeepgramConfig : option DeepgramTts.DepgramTTSConfig;
  ElevenLabsConfig : option ElevenLabs.ElevenLabsTTSConfig;
  CartesiaConfig : option Cartesia.CartesiaTTSConfig
}.

Inductive TTSService : Type :=
| DeepgramService (s : DeepgramTts.DepgramTTS)
| ElevenLabsService (s : ElevenLabs.ElevenLabsTTS)
| CartesiaService (s : Cartesia.CartesiaTTS).

Definition BuildTTSService (c : TTSFactoryConfig) : result TTSService :=
  match tts_DeepgramConfig c, ElevenLabsConfig c, CartesiaConfig c with
  | Some d, _, _ => Ok (DeepgramService (DeepgramTts.NewDepgramTTS d))
  | None, Some e, _ => Ok (ElevenLabsService (ElevenLabs.NewElevenLabsTTS e))
  | None, None, Some x => Ok (CartesiaService (Cartesia.NewCartesiaTTS x))
  | None, None, None => Err "TTSFactoryConfig: no provider config specified"
  end.

(** ** Handlers *)

(** The fallbacks of a handler, in order; the first that cannot be built names
    its index. *)
Fixpoint build_fallbacks {C Svc} (build : C → result Svc) (kind : string) (i : nat) (cs : list C)
    : result (list Svc) :=
  match cs with
  | [] => Ok []
  | c :: cs' =>
      match build c with
      | Err e => Err (kind +:+ " fallback[" +:+ itoa (Z.of_nat i) +:+ "]: " +:+ e)
      | Ok s => let! rest := build_fallbacks build kind (S i) cs' in Ok (s :: rest)
      end
  end.

Definition build_primary {C Svc} (build : C → result Svc) (kind : string) (c : C) : result Svc :=
  match build c with
  | Err e => Err (kind +:+ " primary service: " +:+ e)
  | Ok s => Ok s
  end.

Record SessionTTSConfig := mkSessionTTS {
  tts_HandlerConfig : TtsHandler.TTSConfig;
  tts_ServiceConfig : TTSFactoryConfig;
  tts_Fallbacks : list TTSFactoryConfig
}.

Record built_tts := mkBuiltTTS {
  tts_handler : TtsHandler.TTSHandler;
  tts_service : TTSService;
  tts_backups : list TTSService
}.

Definition tts_BuildHandler (c : SessionTTSConfig) : result built_tts :=
  let! primary := build_primary BuildTTSService "tts" (tts_ServiceConfig c) in
  let! backups := build_fallbacks BuildTTSService "tts" 0 (tts_Fallbacks c) in
  Ok (mkBuiltTTS (TtsHandler.NewTTSHandler (tts_HandlerConfig c)) primary backups).

Record SessionSTTConfig := mkSessionSTT {
  stt_ServiceConfig : STTFactoryConfig;
  stt_Fallbacks : list STTFactoryConfig
}.

Record built_stt := mkBuiltSTT {
  stt_service : DeepgramStt.DeepgramSTTService;
  stt_backups : list DeepgramStt.DeepgramSTTService
}.

Definition stt_BuildHandler (c : SessionSTTConfig) : result built_stt :=
  let! primary := build_primary BuildSTTService "stt" (stt_ServiceConfig c) in
  let! backups := build_fallbacks BuildSTTService "stt" 0 (stt_Fallbacks c) in
  Ok (mkBuiltSTT primary backups).

Record SessionLLMConfig := mkSessionLLM {
  llm_HandlerConfig : LlmHandler.LLMHandlerConfig;
  llm_ServiceConfig : LLMFactoryConfig;
  llm_Fallbacks : list LLMFactoryConfig;
  FillerServiceConfig : option LLMFactoryConfig
}.

Record built_llm := mkBuiltLLM {
  llm_handler : LlmHandler.LLMHandler;
  llm_service : LLMService;
  llm_backups : list LLMService;
  llm_filler : option LLMService
}.

Definition llm_BuildHandler (c : SessionLLMConfig) : result built_llm :=
  let! primary := build_primary BuildLLMService "llm" (llm_ServiceConfig c) in
  let! backups := build_fallbacks BuildLLMService "llm" 0 (llm_Fallbacks c) in
  let handler := LlmHandler.NewLLMHandler (llm_HandlerConfig c) in
  match FillerServiceConfig c with
  | None => Ok (mkBuiltLLM handler primary backups None)
  | Some f =>
      match BuildLLMService f with
      | Err e => Err ("llm filler service: " +:+ e)
      | Ok filler => Ok (mkBuiltLLM handler primary backups (Some filler))
      end
  end.

Record ContextConfig := mkContextConfig {
  AddKeepQuietTool : bool;
  KeepQuietInstructions : string;
  cc_Context : option LLMContext          (* what the pointer points to now *)
}.

Record SessionContextConfig := mkSessionContext {
  ManagerConfig : LLMContextManagerConfig;
  ctx_HandlerConfig : ContextConfig;
  TaskGroup : option TaskGroupConfig;
  MCPServers : list MCPServerConfig
}.

Record SessionConfig := mkSession {
  TTS : SessionTTSConfig;
  STT : SessionSTTConfig;
  LLM : SessionLLMConfig;
  Context_ : SessionContextConfig
}.

Definition no_llm : LLMFactoryConfig := mkLLMFactory None None None None None None None None None None.

Definition DefaultSessionTTSConfig : SessionTTSConfig :=
  mkSessionTTS TtsHandler.DefaultConfig (mkTTSFactory None None None) [].
Definition DefaultSessionSTTConfig : SessionSTTConfig := mkSessionSTT (mkSTTFactory None) [].
Definition DefaultSessionLLMConfig : SessionLLMConfig := mkSessionLLM LlmHandler.DefaultConfig no_llm [] None.
Definition DefaultContextConfig : ContextConfig := mkContextConfig false "" None.
Definition DefaultSessionContextConfig : SessionContextConfig :=
  mkSessionContext DefaultLLMContextManagerConfig DefaultContextConfig None [].
Definition DefaultSessionConfig : SessionConfig :=
  mkSession DefaultSessionTTSConfig DefaultSessionSTTConfig DefaultSessionLLMConfig
    DefaultSessionContextConfig.

(** ** Keys *)

Record APIKeys := mkKeys {
  k_Deepgram : string;
  k_OpenAI : string;
  k_Together : string;
  k_Groq : string;
  k_DeepSeek : string;
  k_OpenRouter : string;
  k_Fireworks : string;
  k_Cerebras : string;
  k_XAI : string;
  k_Mistral : string;
  k_Perplexity : string;
  k_ElevenLabs : string;
  k_Cartesia : string
}.

Definition key_llm (k : string) (c : llm_Config) : llm_Config :=
  mkLlmConfig (or_default (llm_APIKey c) k) (llm_BaseURL c) (llm_Model c) (llm_MaxTokens c)
    (llm_Temperature c) (llm_Streaming c).

Definition injectLLMKeys (keys : APIKeys) (c : LLMFactoryConfig) : LLMFactoryConfig :=
  mkLLMFactory
    (key_llm (k_OpenAI keys) <$> OpenAIConfig c) (key_llm (k_Together keys) <$> TogetherConfig c)
    (key_llm (k_Groq keys) <$> GroqConfig c) (key_llm (k_DeepSeek keys) <$> DeepSeekConfig c)
    (key_llm (k_OpenRouter keys) <$> OpenRouterConfig c) (key_llm (k_Fireworks keys) <$> FireworksConfig c)
    (key_llm (k_Cerebras keys) <$> CerebrasConfig c) (key_llm (k_XAI keys) <$> XAIConfig c)
    (key_llm (k_Mistral keys) <$> MistralConfig c) (key_llm (k_Perplexity keys) <$> PerplexityConfig c).

Definition key_deepgram_tts (k : string) (c : DeepgramTts.DepgramTTSConfig) : DeepgramTts.DepgramTTSConfig :=
  DeepgramTts.mkDepgramTTSConfig (or_default (DeepgramTts.APIKey c) k) (DeepgramTts.BaseURL c)
    (DeepgramTts.Model c).

Definition key_elevenlabs (k : string) (c : ElevenLabs.ElevenLabsTTSConfig) : ElevenLabs.ElevenLabsTTSConfig :=
  ElevenLabs.mkElevenLabsConfig (or_default (ElevenLabs.APIKey c) k) (ElevenLabs.BaseURL c)
    (ElevenLabs.VoiceID c) (ElevenLabs.ModelID c) (ElevenLabs.Stability c) (ElevenLabs.SimilarityBoost c).

Definition key_cartesia (k : string) (c : Cartesia.CartesiaTTSConfig) : Cartesia.CartesiaTTSConfig :=
  Cartesia.mkCartesiaConfig (or_default (Cartesia.APIKey c) k) (Cartesia.BaseURL c) (Cartesia.ModelID c)
    (Cartesia.VoiceID c) (Cartesia.Language c) (Cartesia.APIVersion c).

Definition injectTTSKeys (keys : APIKeys) (c : TTSFactoryConfig) : TTSFactoryConfig :=
  mkTTSFactory (key_deepgram_tts (k_Deepgram keys) <$> tts_DeepgramConfig c)
    (key_elevenlabs (k_ElevenLabs keys) <$> ElevenLabsConfig c)
    (key_cartesia (k_Cartesia keys) <$> CartesiaConfig c).

Definition key_deepgram_stt (k : string) (c : DeepgramStt.DeepgramConfig) : DeepgramStt.DeepgramConfig :=
  match c with
  | DeepgramStt.mkDeepgramConfig key url model lang interim punct smart diar prof red num endp vad utt
      multi kws kts srch cb cbm extra tag ents dict mip ver =>
      DeepgramStt.mkDeepgramConfig (or_default key k) url model lang interim punct smart diar prof red num
        endp vad utt multi kws kts srch cb cbm extra tag ents dict mip ver
  end.

Definition injectSTTKeys (keys : APIKeys) (c : STTFactoryConfig) : STTFactoryConfig :=
  mkSTTFactory (key_deepgram_stt (k_Deepgram keys) <$> stt_DeepgramConfig c).

Definition InjectAPIKeys (keys : APIKeys) (c : SessionConfig) : SessionConfig :=
  mkSession
    (mkSessionTTS (tts_HandlerConfig (TTS c)) (injectTTSKeys keys (tts_ServiceConfig (TTS c)))
       (map (injectTTSKeys keys) (tts_Fallbacks (TTS c))))
    (mkSessionSTT (injectSTTKeys keys (stt_ServiceConfig (STT c)))
       (map (injectSTTKeys keys) (stt_Fallbacks (STT c))))
    (mkSessionLLM (llm_HandlerConfig (LLM c)) (injectLLMKeys keys (llm_ServiceConfig (LLM c)))
       (map (injectLLMKeys keys) (llm_Fallbacks (LLM c)))
       (injectLLMKeys keys <$> FillerServiceConfig (LLM c)))
    (Context_ c).

(** ** The session's handlers *)

Record SessionHandlers := mkHandlers {
  TTS_ : built_tts;
  STT_ : built_stt;
  LLM_ : built_llm;
  ContextManager_ : DynamicContextManager;
  mcp : option MCPManager
}.

Definition default_keep_quiet : string :=
  "Remain silent and do not respond. Wait for the user to speak.".

Definition keep_quiet_tool (instructions : string) : LLMTool :=
  mkLLMTool "keep_quiet" "keep_quiet" instructions [] "".

Section session.
Context `{RangeOrder}.
(** The process's environment, what each server answers, and what a call of a
    tool on a session returns. *)
Context (environ : list string) (mcp_answer : MCPServerConfig → server_answer)
  (mcp_call : nat → string → gmap string any → result CallToolResult).

Definition mcp_handler (mgr : MCPManager) (toolID : string) : ToolHandlerFunc :=
  PureHandler (λ call,
    match CallTool mcp_call mgr toolID (default ∅ (tc_Parameters call)) with
    | Ok r => r
    | Err e => "Error: " +:+ e
    end).

Definition register_mcp (mgr : MCPManager) (d : DynamicContextManager) (t : LLMTool) : DynamicContextManager :=
  RegisterTool d t (mcp_handler mgr (ToolId t)).

(** The servers' tools are registered in the order [Tools] lists them. *)
Definition connect_mcp (d : DynamicContextManager) (servers : list MCPServerConfig)
    : DynamicContextManager * option MCPManager :=
  match servers with
  | [] => (d, None)
  | _ =>
      let mgr := McpTools.Connect environ NewMCPManager (map (λ s, (s, mcp_answer s)) servers) in
      let d1 := fold_left (register_mcp mgr) (McpTools.Tools mgr) d in
      (set_base d1 (SetCleanupHook (base d1) "mcpMgr.Close"), Some mgr)
  end.

Definition base_manager (c : SessionContextConfig) : LLMContextManager :=
  let m := NewLLMContextManager (ManagerConfig c) in
  match cc_Context (ctx_HandlerConfig c) with Some x => SetContext m x | None => m end.

Definition load_tasks (d : DynamicContextManager) (tg : option TaskGroupConfig)
    : result DynamicContextManager :=
  match tg with
  | None => Ok d
  | Some g =>
      match LoadTaskGroup d g with
      | Ok d' => Ok d'
      | Err e => Err ("session: load task group: " +:+ e)
      end
  end.

Definition add_keep_quiet (d : DynamicContextManager) (c : ContextConfig) : DynamicContextManager :=
  if AddKeepQuietTool c
  then RegisterTool d (keep_quiet_tool (or_default (KeepQuietInstructions c) default_keep_quiet))
         (PureHandler (λ _, ""))
  else d.

Definition build_context (c : SessionContextConfig) : result (DynamicContextManager * option MCPManager) :=
  let '(d, mgr) := connect_mcp (NewDynamicContextManager (base_manager c)) (MCPServers c) in
  let! d' := load_tasks d (TaskGroup c) in
  Ok (add_keep_quiet d' (ctx_HandlerConfig c), mgr).

Definition in_session {A} (r : result A) : result A :=
  match r with Ok a => Ok a | Err e => Err ("session: " +:+ e) end.

Definition BuildHandlers (c : SessionConfig) : result SessionHandlers :=
  let! tts := in_session (tts_BuildHandler (TTS c)) in
  let! stt := in_session (stt_BuildHandler (STT c)) in
  let! llm := in_session (llm_BuildHandler (LLM c)) in
  let! ctx := build_context (Context_ c) in
  Ok (mkHandlers tts stt llm ctx.1 ctx.2).

(** The configuration holds a pointer to the context, and [SetContext] installs
    that pointer: what the configuration reads after a session is the context
    its manager left. *)
Definition after_session (c : SessionConfig) (d : DynamicContextManager) : SessionConfig :=
  match cc_Context (ctx_HandlerConfig (Context_ c)) with
  | None => c
  | Some _ =>
      mkSession (TTS c) (STT c) (LLM c)
        (mkSessionContext (ManagerConfig (Context_ c))
           (mkContextConfig (AddKeepQuietTool (ctx_HandlerConfig (Context_ c)))
              (KeepQuietInstructions (ctx_HandlerConfig (Context_ c))) (context (base d)))
           (TaskGroup (Context_ c)) (MCPServers (Context_ c)))
  end.
End session.

(** ** Transport providers *)

Record LiveKitProviderConfig := mkLiveKitConfig {
  lk_URL : string;
  lk_APIKey : string;
  lk_APISecret : string;
  lk_AgentName : string;
  lk_Version : string;
  lk_MaxJobs : Z;
  lk_DevMode : bool;
  lk_HTTPPort : Z;
  DrainTimeoutSeconds : Z
}.

Record DailyProviderConfig := mkDailyConfig {
  dc_APIKey : string;
  dc_APIBaseURL : string;
  dc_RoomName : string;
  dc_RoomURLPrefix : string;
  dc_ExpirySeconds : Z;
  dc_MaxParticipants : Z;
  dc_Port : Z;
  dc_Path : string;
  dc_AudioSampleRate : Z;
  dc_AudioChannels : Z;
  dc_BotName : string;
  dc_IsOwner : bool
}.

Record TransportFactoryConfig := mkTransportFactory {
  LiveKitConfig : option LiveKitProviderConfig;
  DailyConfig : option DailyProviderConfig
}.

Record ProviderKeys := mkProviderKeys {
  LiveKitURL : string;
  LiveKitAPIKey : string;
  LiveKitAPISecret : string;
  DailyAPIKey : string
}.

Definition DefaultTransportFactoryConfig : TransportFactoryConfig :=
  let b := LiveKitProvider.DefaultConfig in
  mkTransportFactory
    (Some (mkLiveKitConfig "" "" "" (LiveKitProvider.cfg_AgentName b) (LiveKitProvider.Version b)
             (LiveKitProvider.MaxJobs b) false (LiveKitProvider.HTTPPort b) 0))
    None.

Definition empty_livekit : LiveKitProviderConfig := mkLiveKitConfig "" "" "" "" "" 0 false 0 0.
Definition empty_daily : DailyProviderConfig := mkDailyConfig "" "" "" "" 0 0 0 "" 0 0 "" false.

Definition decode_livekit (old : LiveKitProviderConfig) (l : list (string * any))
    : option LiveKitProviderConfig :=
  url ← string_field "url" l (lk_URL old); key ← string_field "api_key" l (lk_APIKey old);
  secret ← string_field "api_secret" l (lk_APISecret old);
  agent ← string_field "agent_name" l (lk_AgentName old);
  version ← string_field "version" l (lk_Version old); jobs ← go_uint32 "max_jobs" l (lk_MaxJobs old);
  dev ← bool_field "dev_mode" l (lk_DevMode old); port ← go_int "http_port" l (lk_HTTPPort old);
  drain ← go_int "drain_timeout_seconds" l (DrainTimeoutSeconds old);
  Some (mkLiveKitConfig url key secret agent version jobs dev port drain).

Definition decode_daily (old : DailyProviderConfig) (l : list (string * any)) : option DailyProviderConfig :=
  key ← string_field "api_key" l (dc_APIKey old); base ← string_field "api_base_url" l (dc_APIBaseURL old);
  room ← string_field "room_name" l (dc_RoomName old);
  prefix ← string_field "room_url_prefix" l (dc_RoomURLPrefix old);
  expiry ← go_int "expiry_seconds" l (dc_ExpirySeconds old);
  people ← go_int "max_participants" l (dc_MaxParticipants old); port ← go_int "port" l (dc_Port old);
  path ← string_field "path" l (dc_Path old); rate ← go_int "audio_sample_rate" l (dc_AudioSampleRate old);
  channels ← go_int "audio_channels" l (dc_AudioChannels old); bot ← string_field "bot_name" l (dc_BotName old);
  owner ← bool_field "is_owner" l (dc_IsOwner old);
  Some (mkDailyConfig key base room prefix expiry people port path rate channels bot owner).

(** A pointer field: null clears it, an object is decoded into what it points
    to, allocated when it is nil. *)
Definition pointer_field {A} (name : string) (l : list (string * any)) (empty : A)
    (decode : A → list (string * any) → option A) (old : option A) : option (option A) :=
  match field name l with
  | None => Some old
  | Some AnyNil => Some None
  | Some (AnyMap m) => Some <$> decode (default empty old) m
  | Some _ => None
  end.

Definition wrong_type {A} (what : string) (o : option A) : result A :=
  match o with Some a => Ok a | None => Err (what +:+ ": wrong type") end.

Definition decode_transport (l : list (string * any)) : option TransportFactoryConfig :=
  let start := if has_field "daily" l then mkTransportFactory None (Some empty_daily)
               else DefaultTransportFactoryConfig in
  lk ← pointer_field "livekit" l empty_livekit decode_livekit (LiveKitConfig start);
  dc ← pointer_field "daily" l empty_daily decode_daily (DailyConfig start);
  Some (mkTransportFactory lk dc).

Definition TransportFactoryConfigFromJSON (data : option document) : result TransportFactoryConfig :=
  match data with
  | None => Err "transport factory config: invalid JSON"
  | Some AnyNil => Ok DefaultTransportFactoryConfig
  | Some (AnyMap l) => wrong_type "transport factory config" (decode_transport l)
  | Some _ => Err "transport factory config: not an object"
  end.

Definition InjectProviderKeys (keys : ProviderKeys) (c : TransportFactoryConfig) : TransportFactoryConfig :=
  mkTransportFactory
    ((λ lk, mkLiveKitConfig (or_default (lk_URL lk) (LiveKitURL keys))
              (or_default (lk_APIKey lk) (LiveKitAPIKey keys))
              (or_default (lk_APISecret lk) (LiveKitAPISecret keys)) (lk_AgentName lk) (lk_Version lk)
              (lk_MaxJobs lk) (lk_DevMode lk) (lk_HTTPPort lk) (DrainTimeoutSeconds lk)) <$> LiveKitConfig c)
    ((λ dc, mkDailyConfig (or_default (dc_APIKey dc) (DailyAPIKey keys)) (dc_APIBaseURL dc) (dc_RoomName dc)
              (dc_RoomURLPrefix dc) (dc_ExpirySeconds dc) (dc_MaxParticipants dc) (dc_Port dc) (dc_Path dc)
              (dc_AudioSampleRate dc) (dc_AudioChannels dc) (dc_BotName dc) (dc_IsOwner dc)) <$> DailyConfig c).

(** A number of the configuration, unless it is zero. *)
Definition z_default (z d : Z) : Z := if z =? 0 then d else z.

(** [time.Duration(n) * time.Second], in the 64 bits of a duration. *)
Definition duration_seconds (n : Z) : Z := (n * second + 2 ^ 63) mod 2 ^ 64 - 2 ^ 63.

Definition livekit_config (lk : LiveKitProviderConfig) : LiveKitProvider.Config :=
  let b := LiveKitProvider.DefaultConfig in
  LiveKitProvider.mkConfig (or_default (lk_URL lk) (LiveKitProvider.URL b))
    (or_default (lk_APIKey lk) (LiveKitProvider.APIKey b))
    (or_default (lk_APISecret lk) (LiveKitProvider.APISecret b))
    (or_default (lk_AgentName lk) (LiveKitProvider.cfg_AgentName b))
    (or_default (lk_Version lk) (LiveKitProvider.Version b))
    (z_default (lk_MaxJobs lk) (LiveKitProvider.MaxJobs b))
    (lk_DevMode lk || LiveKitProvider.DevMode b)
    (if DrainTimeoutSeconds lk =? 0 then LiveKitProvider.DrainTimeout b
     else duration_seconds (DrainTimeoutSeconds lk))
    (LiveKitProvider.JobTypes b) (z_default (lk_HTTPPort lk) (LiveKitProvider.HTTPPort b))
    (LiveKitProvider.permissions b).

Definition daily_config (dc : DailyProviderConfig) : DailyTransport.Config :=
  let b := DailyTransport.DefaultConfig in
  DailyTransport.mkConfig (or_default (dc_APIKey dc) (DailyTransport.APIKey b))
    (or_default (dc_APIBaseURL dc) (DailyTransport.APIBaseURL b))
    (or_default (dc_RoomName dc) (DailyTransport.RoomName b))
    (or_default (dc_RoomURLPrefix dc) (DailyTransport.RoomURLPrefix b))
    (z_default (dc_ExpirySeconds dc) (DailyTransport.ExpirySeconds b))
    (z_default (dc_MaxParticipants dc) (DailyTransport.MaxParticipants b))
    (z_default (dc_Port dc) (DailyTransport.Port b)) (or_default (dc_Path dc) (DailyTransport.Path b))
    (DailyTransport.ReadBufferSize b) (DailyTransport.WriteBufferSize b) (DailyTransport.MaxMessageSize b)
    (z_default (dc_AudioSampleRate dc) (DailyTransport.AudioSampleRate b))
    (z_default (dc_AudioChannels dc) (DailyTransport.AudioChannels b))
    (DailyTransport.EnableTLS b) (DailyTransport.TLSCertFile b) (DailyTransport.TLSKeyFile b)
    (or_default (dc_BotName dc) (DailyTransport.BotName b)) (dc_IsOwner dc || DailyTransport.IsOwner b).

Section transport.
Context {L : AudioLibs}.

Inductive transport_provider : Type :=
| LiveKitTransportProvider (p : LiveKitProvider.Provider)
| DailyTransportProvider_ (p : DailyTransport.DailyTransportProvider).

Definition buildLiveKitProvider (c : TransportFactoryConfig) : result LiveKitProvider.Provider :=
  match LiveKitConfig c with
  | None => Err "TransportFactoryConfig: no provider config specified"
  | Some lk => LiveKitProvider.NewProvider (livekit_config lk)
  end.

Definition buildDailyProvider (c : TransportFactoryConfig) : result DailyTransport.DailyTransportProvider :=
  match DailyConfig c with
  | None => Err "TransportFactoryConfig: no Daily config specified"
  | Some dc => DailyTransport.NewDailyTransportProvider (Some (daily_config dc))
  end.

Definition GetProvider (c : TransportFactoryConfig) : result transport_provider :=
  match LiveKitConfig c, DailyConfig c with
  | Some _, _ => let! p := buildLiveKitProvider c in Ok (LiveKitTransportProvider p)
  | None, Some _ => let! p := buildDailyProvider c in Ok (DailyTransportProvider_ p)
  | None, None => Err "TransportFactoryConfig: no provider config specified"
  end.
End transport.

(** ** Settings *)

Record SessionAPIConfig := mkSessionAPI {
  api_URL : string;
  api_Method : string;
  api_Headers : gmap string string;
  api_Body : option document
}.

Record SettingsConfig := mkSettings {
  Transport : TransportFactoryConfig;
  SessionAPI : option SessionAPIConfig;
  Session : option SessionConfig
}.

Definition DefaultSettingsConfig : SettingsConfig := mkSettings DefaultTransportFactoryConfig None None.

Definition decode_session_api (old : SessionAPIConfig) (l : list (string * any)) : option SessionAPIConfig :=
  url ← string_field "url" l (api_URL old); method ← string_field "method" l (api_Method old);
  headers ← string_map_field "headers" l;
  Some (mkSessionAPI url method headers (field "body" l)).

Section settings.
(** [json.Unmarshal] into a [SessionConfig] that holds the defaults. *)
Context (decode_session : SessionConfig → document → option SessionConfig).

Definition SessionConfigFromJSON (data : option document) : result SessionConfig :=
  match data with
  | None => Err "session config: invalid JSON"
  | Some d => wrong_type "session config" (decode_session DefaultSessionConfig d)
  end.

Definition in_settings {A} (r : result A) : result A :=
  match r with Ok a => Ok a | Err e => Err ("settings: " +:+ e) end.

Definition SettingsConfigFromJSON (data : option document) : result SettingsConfig :=
  match data with
  | None => Err "settings: invalid JSON"
  | Some AnyNil => Ok DefaultSettingsConfig
  | Some (AnyMap l) =>
      let! api := wrong_type "settings"
        (pointer_field "session_api" l (mkSessionAPI "" "" ∅ None) decode_session_api None) in
      let! session := match field "session_config" l with
                      | None => Ok None
                      | Some d => let! s := in_settings (SessionConfigFromJSON (Some d)) in Ok (Some s)
                      end in
      let! transport := match field "transport" l with
                        | None => Ok DefaultTransportFactoryConfig
                        | Some d => in_settings (TransportFactoryConfigFromJSON (Some d))
                        end in
      Ok (mkSettings transport api session)
  | Some _ => Err "settings: not an object"
  end.

(** A file is what reading it gives. *)
Definition SettingsConfigFromFile (path : string) (file : result (option document)) : result SettingsConfig :=
  match file with
  | Err e => Err ("settings: read " +:+ quote path +:+ ": " +:+ e)
  | Ok data => SettingsConfigFromJSON data
  end.

(** The request of [Fetch]; a header of the configuration replaces one of the
    same name. *)
Definition fetch_request (c : SessionAPIConfig) : http_request :=
  let has_body := match api_Body c with Some _ => true | None => false end in
  let method := if String.eqb (api_Method c) "" then if has_body then "POST" else "GET" else api_Method c in
  mkRequest method (api_URL c)
    ((if has_body then [("Content-Type", "application/json")] else []) ++ map_to_list (api_Headers c))
    (api_Body c).

Definition Fetch (do_ : http) (c : SessionAPIConfig) : result SessionConfig :=
  match do_ (fetch_request c) with
  | Err e => Err ("session api: " +:+ e)
  | Ok r =>
      if (StatusCode r <? 200) || (300 <=? StatusCode r)
      then Err ("session api: unexpected status " +:+ itoa (StatusCode r) +:+ " from " +:+ api_URL c)
      else SessionConfigFromJSON (body_json r)
  end.
End settings.
