(* ===== verification/FactoriesProofs.v ===== *)
(** * Properties of the factories

    When a session can be built, which keys its services get, which tools it
    offers and whether they have handlers, which transport the settings
    choose. *)

From Stdlib Require Import QArith.QArith_base.
From S2P Require Import Prelude Core Json TaskGroup ContextManager DynamicContext DynamicContextProofs.
From S2P Require Import LlmHandler TtsHandler OpenAI DeepgramStt DeepgramTts.
From S2P Require Import Audio AudioProofs SpeechWire Cartesia ElevenLabs McpTools.
From S2P Require Import LiveKitProvider DailyTransport Factories.

Local Open Scope string_scope.
Local Open Scope list_scope.
Local Open Scope Z_scope.
Local Open Scope go_scope.

(** ** When a session can be built *)

(** Some provider field is set. *)
Definition llm_chosen (c : LLMFactoryConfig) : bool :=
  bool_decide (is_Some (OpenAIConfig c)) ||
  existsb (λ p : option llm_Config * string * string, bool_decide (is_Some p.1.1)) (compatible_providers c).
Definition tts_chosen (c : TTSFactoryConfig) : bool :=
  bool_decide (is_Some (tts_DeepgramConfig c)) || bool_decide (is_Some (ElevenLabsConfig c)) ||
  bool_decide (is_Some (CartesiaConfig c)).
Definition stt_chosen (c : STTFactoryConfig) : bool := bool_decide (is_Some (stt_DeepgramConfig c)).

Lemma is_ok_bind {A B} (m : result A) (k : A → result B) :
  is_ok (result_bind m k) = match m with Ok a => is_ok (k a) | Err _ => false end.
Proof. by destruct m. Qed.

Lemma first_compatible_ok l :
  is_ok (first_compatible l) = existsb (λ p : option llm_Config * string * string, bool_decide (is_Some p.1.1)) l.
Proof. induction l as [|[[[c|] url] model] l IH]; cbn; [done|done|exact IH]. Qed.

Lemma BuildLLMService_ok c : is_ok (BuildLLMService c) = llm_chosen c.
Proof. unfold BuildLLMService, llm_chosen. destruct (OpenAIConfig c); [done|]. apply first_compatible_ok. Qed.

Lemma BuildTTSService_ok c : is_ok (BuildTTSService c) = tts_chosen c.
Proof. destruct c as [[d|] [e|] [x|]]; reflexivity. Qed.

Lemma BuildSTTService_ok c : is_ok (BuildSTTService c) = stt_chosen c.
Proof. destruct c as [[d|]]; reflexivity. Qed.

Lemma build_fallbacks_ok {C Svc} (build : C → result Svc) kind i cs :
  is_ok (build_fallbacks build kind i cs) = forallb (λ c, is_ok (build c)) cs.
Proof.
  revert i. induction cs as [|c cs IH]; intros i; [done|]. cbn. destruct (build c); [|done].
  rewrite is_ok_bind. specialize (IH (S i)). by destruct (build_fallbacks _ _ _ _).
Qed.

Lemma build_primary_ok {C Svc} (build : C → result Svc) kind c : is_ok (build_primary build kind c) = is_ok (build c).
Proof. unfold build_primary. by destruct (build c). Qed.

Lemma in_session_ok {A} (r : result A) : is_ok (in_session r) = is_ok r.
Proof. by destruct r. Qed.

Lemma forallb_pointwise {A} (f g : A → bool) l : (∀ x, f x = g x) → forallb f l = forallb g l.
Proof. intros Hfg. induction l as [|x l IH]; cbn; [done|]. by rewrite Hfg, IH. Qed.

(** Two builds one after the other. *)
Lemma is_ok_bind2 {A B D} (m : result A) (n : result B) (k : A → B → result D) b :
  (∀ x y, is_ok (k x y) = b) →
  is_ok (result_bind m (λ x, result_bind n (λ y, k x y))) = is_ok m && is_ok n && b.
Proof. intros Hk. destruct m, n; cbn; auto. Qed.

Lemma tts_BuildHandler_ok c :
  is_ok (tts_BuildHandler c) = forallb tts_chosen (tts_ServiceConfig c :: tts_Fallbacks c).
Proof.
  unfold tts_BuildHandler. rewrite (is_ok_bind2 _ _ _ true) by done.
  rewrite build_primary_ok, build_fallbacks_ok, BuildTTSService_ok, andb_true_r. cbn. f_equal.
  apply forallb_pointwise. intros; apply BuildTTSService_ok.
Qed.

Lemma stt_BuildHandler_ok c :
  is_ok (stt_BuildHandler c) = forallb stt_chosen (stt_ServiceConfig c :: stt_Fallbacks c).
Proof.
  unfold stt_BuildHandler. rewrite (is_ok_bind2 _ _ _ true) by done.
  rewrite build_primary_ok, build_fallbacks_ok, BuildSTTService_ok, andb_true_r. cbn. f_equal.
  apply forallb_pointwise. intros; apply BuildSTTService_ok.
Qed.

Lemma llm_BuildHandler_ok c :
  is_ok (llm_BuildHandler c) =
  forallb llm_chosen (llm_ServiceConfig c :: llm_Fallbacks c ++
                      match FillerServiceConfig c with Some f => [f] | None => [] end).
Proof.
  unfold llm_BuildHandler.
  erewrite (is_ok_bind2 _ _ _ (match FillerServiceConfig c with Some f => llm_chosen f | None => true end)).
  - rewrite build_primary_ok, build_fallbacks_ok, BuildLLMService_ok. cbn. rewrite forallb_app, andb_assoc.
    f_equal; [f_equal; apply forallb_pointwise; intros; apply BuildLLMService_ok|].
    destruct (FillerServiceConfig c); cbn; [by rewrite andb_true_r|done].
  - intros x y. destruct (FillerServiceConfig c) as [f|]; [|done].
    rewrite <-BuildLLMService_ok. by destruct (BuildLLMService f).
Qed.

Section session_building.
Context `{RangeOrder} (environ : list string) (mcp_answer : MCPServerConfig → server_answer)
  (mcp_call : nat → string → gmap string any → result CallToolResult).

Definition initial_task_exists (g : TaskGroupConfig) : bool :=
  match findTaskLocked g (InitialTaskID g) with Some _ => true | None => false end.

Lemma load_tasks_ok d tg :
  is_ok (load_tasks d tg) = match tg with Some g => initial_task_exists g | None => true end.
Proof.
  destruct tg as [g|]; [|done]. unfold load_tasks, LoadTaskGroup, initial_task_exists.
  by destruct (findTaskLocked g (InitialTaskID g)).
Qed.

Lemma build_context_ok c :
  is_ok (build_context environ mcp_answer mcp_call c) =
  match TaskGroup c with Some g => initial_task_exists g | None => true end.
Proof.
  unfold build_context. destruct (connect_mcp _ _ _ _ _) as [d mgr]. rewrite is_ok_bind, <-(load_tasks_ok d).
  by destruct (load_tasks d (TaskGroup c)).
Qed.


End session_building.

(** ** Keys *)

Lemma or_default_twice a b b' : or_default (or_default a b) b' = or_default a (or_default b b').
Proof. unfold or_default. destruct (String.eqb a "") eqn:E; [done|by rewrite E]. Qed.

(** The key of the provider that is chosen. *)
Definition chosen_llm_key (keys : APIKeys) (c : LLMFactoryConfig) : string :=
  match OpenAIConfig c with
  | Some _ => k_OpenAI keys
  | None =>
      (fix first (l : list (option llm_Config * string)) : string :=
         match l with
         | [] => ""
         | (Some _, k) :: _ => k
         | (None, _) :: l' => first l'
         end)
        [(TogetherConfig c, k_Together keys); (GroqConfig c, k_Groq keys); (DeepSeekConfig c, k_DeepSeek keys);
         (OpenRouterConfig c, k_OpenRouter keys); (FireworksConfig c, k_Fireworks keys);
         (CerebrasConfig c, k_Cerebras keys); (XAIConfig c, k_XAI keys); (MistralConfig c, k_Mistral keys);
         (PerplexityConfig c, k_Perplexity keys)]
  end.

Lemma injected_llm keys c :
  BuildLLMService (injectLLMKeys keys c) =
  match BuildLLMService c with
  | Ok s => Ok (NewOpenAILLMService (key_llm (chosen_llm_key keys c) (settings s)))
  | Err e => Err e
  end.
Proof.
  destruct c as [o t g d r f b x m p]. unfold BuildLLMService, injectLLMKeys, chosen_llm_key. cbn.
  destruct o; [done|]. destruct t; [done|]. destruct g; [done|]. destruct d; [done|]. destruct r; [done|].
  destruct f; [done|]. destruct b; [done|]. destruct x; [done|]. destruct m; [done|]. by destruct p.
Qed.

(** The key a synthesis service will use. *)
Definition tts_key (s : TTSService) : string :=
  match s with
  | DeepgramService d => DeepgramTts.APIKey (DeepgramTts.config d)
  | ElevenLabsService e => ElevenLabs.APIKey (ElevenLabs.config e)
  | CartesiaService c => Cartesia.APIKey (Cartesia.config c)
  end.

Definition provider_key (keys : APIKeys) (s : TTSService) : string :=
  match s with
  | DeepgramService _ => k_Deepgram keys
  | ElevenLabsService _ => k_ElevenLabs keys
  | CartesiaService _ => k_Cartesia keys
  end.

Lemma injected_tts keys c :
  match BuildTTSService c, BuildTTSService (injectTTSKeys keys c) with
  | Ok s, Ok s' => tts_key s' = or_default (tts_key s) (provider_key keys s)
  | Err e, Err e' => e = e'
  | _, _ => False
  end.
Proof. destruct c as [[d|] [e|] [x|]]; reflexivity. Qed.

Lemma injected_stt keys c :
  match BuildSTTService c, BuildSTTService (injectSTTKeys keys c) with
  | Ok s, Ok s' => DeepgramStt.APIKey (DeepgramStt.config s') =
                   or_default (DeepgramStt.APIKey (DeepgramStt.config s)) (k_Deepgram keys)
  | Err e, Err e' => e = e'
  | _, _ => False
  end.
Proof. destruct c as [[[]|]]; reflexivity. Qed.

(** Injected keys reach exactly the services that lack one: each service
    built after the injection has the key of its configuration, or else the one
    given for its provider, every other setting is untouched, and the
    same configurations are refused with the same message as before. *)
Theorem injected_keys_reach_services (keys : APIKeys) (l : LLMFactoryConfig) (t : TTSFactoryConfig)
    (s : STTFactoryConfig) :
  match BuildLLMService l, BuildLLMService (injectLLMKeys keys l) with
  | Ok x, Ok y => settings y = mkLlmConfig (or_default (llm_APIKey (settings x)) (chosen_llm_key keys l))
                    (llm_BaseURL (settings x)) (llm_Model (settings x)) (llm_MaxTokens (settings x))
                    (llm_Temperature (settings x)) (llm_Streaming (settings x)) ∧
                  OpenAI.apiKey (state y) = llm_APIKey (settings y)
  | Err e, Err e' => e = e'
  | _, _ => False
  end ∧
  match BuildTTSService t, BuildTTSService (injectTTSKeys keys t) with
  | Ok x, Ok y => tts_key y = or_default (tts_key x) (provider_key keys x)
  | Err e, Err e' => e = e'
  | _, _ => False
  end ∧
  match BuildSTTService s, BuildSTTService (injectSTTKeys keys s) with
  | Ok x, Ok y => DeepgramStt.APIKey (DeepgramStt.config y) =
                  or_default (DeepgramStt.APIKey (DeepgramStt.config x)) (k_Deepgram keys)
  | Err e, Err e' => e = e'
  | _, _ => False
  end.
Proof.
  split; [|split; [apply injected_tts|apply injected_stt]].
  rewrite injected_llm. by destruct (BuildLLMService l).
Qed.

(** Jobs share the configuration that is injected into: doing it again changes
    nothing, and the first of two sets of keys wins where it has one. *)
Lemma key_llm_twice k k' c : key_llm k' (key_llm k c) = key_llm (or_default k k') c.
Proof. unfold key_llm. cbn. by rewrite or_default_twice. Qed.

Lemma or_default_same k : or_default k k = k.
Proof. unfold or_default. by destruct (String.eqb k "") eqn:E. Qed.

Lemma fmap_idemp {A} (f : A → A) (o : option A) : (∀ a, f (f a) = f a) → f <$> (f <$> o) = f <$> o.
Proof. intros Hf. destruct o; cbn; [by rewrite Hf|done]. Qed.

Lemma map_idemp {A} (f : A → A) l : (∀ a, f (f a) = f a) → map f (map f l) = map f l.
Proof. intros Hf. induction l as [|a l IH]; cbn; [done|by rewrite Hf, IH]. Qed.

Lemma key_llm_idemp k c : key_llm k (key_llm k c) = key_llm k c.
Proof. by rewrite key_llm_twice, or_default_same. Qed.

Lemma injectLLMKeys_idemp keys c : injectLLMKeys keys (injectLLMKeys keys c) = injectLLMKeys keys c.
Proof. unfold injectLLMKeys. cbn. by rewrite !(fmap_idemp (key_llm _)) by apply key_llm_idemp. Qed.

Lemma injectTTSKeys_idemp keys c : injectTTSKeys keys (injectTTSKeys keys c) = injectTTSKeys keys c.
Proof.
  unfold injectTTSKeys. cbn. rewrite !fmap_idemp; [done|intros []..];
    unfold key_deepgram_tts, key_elevenlabs, key_cartesia; cbn; by rewrite or_default_twice, or_default_same.
Qed.

Lemma injectSTTKeys_idemp keys c : injectSTTKeys keys (injectSTTKeys keys c) = injectSTTKeys keys c.
Proof.
  unfold injectSTTKeys. cbn. rewrite fmap_idemp; [done|]. intros []. cbn.
  by rewrite or_default_twice, or_default_same.
Qed.

Lemma InjectAPIKeys_idemp keys c : InjectAPIKeys keys (InjectAPIKeys keys c) = InjectAPIKeys keys c.
Proof.
  unfold InjectAPIKeys. cbn.
  rewrite injectTTSKeys_idemp, injectSTTKeys_idemp, injectLLMKeys_idemp, fmap_idemp, !map_idemp; try done;
    intros; auto using injectTTSKeys_idemp, injectSTTKeys_idemp, injectLLMKeys_idemp.
Qed.

(** ** The tools a session offers *)

Definition has_handler (m : LLMContextManager) (id : string) : Prop :=
  is_Some (toolHandlers m !! id) ∨ is_Some (eventToolHandlers m !! id).

(** Handlers are only ever added. *)
Definition handlers_grow (m m' : LLMContextManager) : Prop :=
  ∀ id, has_handler m id → has_handler m' id.

#[local] Instance handlers_grow_preorder : PreOrder handlers_grow.
Proof. split; [by intros m id|]. intros m1 m2 m3 H1 H2 id Hid. auto. Qed.

Lemma register_handler_grows m id h : handlers_grow m (RegisterToolHandler m id h).
Proof.
  intros i [Hi|Hi]; [left|by right]. cbn. destruct (decide (i = id)) as [->|Hn].
  - by rewrite lookup_insert_eq.
  - by rewrite lookup_insert_ne.
Qed.

Lemma register_handler_has m id h : has_handler (RegisterToolHandler m id h) id.
Proof. left. cbn. by rewrite lookup_insert_eq. Qed.

Lemma register_variable_grows acc v :
  (∀ id, id ∈ acc.2 → has_handler acc.1 id) →
  handlers_grow acc.1 (register_variable acc v).1 ∧
  (∀ id, id ∈ (register_variable acc v).2 → has_handler (register_variable acc v).1 id) ∧
  has_handler (register_variable acc v).1 (set_tool_id (tv_Name v)).
Proof.
  intros Hacc. unfold register_variable. case_bool_decide as Hin; [split; [done|]; split; [exact Hacc|by apply Hacc]|].
  assert (handlers_grow acc.1 (registerVariableTool (RegisterToolHandler acc.1 (set_tool_id (tv_Name v))
    (SetVariableHandler (tv_Name v))) (set_tool_id (tv_Name v))
    (mkVariableToolInfo (tv_Description v) (AutoConfirm v) (ConfirmPhrases v)))) as Hg
    by (intros id Hid; exact (register_handler_grows _ _ _ id Hid)).
  split; [done|]. cbn [fst snd]. split.
  - intros id [->%elem_of_singleton|Hid]%elem_of_union; [|by auto]. apply register_handler_has.
  - apply register_handler_has.
Qed.

Lemma register_variables_grow vs acc :
  (∀ id, id ∈ acc.2 → has_handler acc.1 id) →
  handlers_grow acc.1 (fold_left register_variable vs acc).1 ∧
  ∀ v, v ∈ vs → has_handler (fold_left register_variable vs acc).1 (set_tool_id (tv_Name v)).
Proof.
  revert acc. induction vs as [|v vs IH]; intros acc Hacc; cbn; [split; [done|set_solver]|].
  destruct (register_variable_grows acc v Hacc) as (H1 & H2 & H3). destruct (IH _ H2) as [I1 I2].
  split; [by transitivity (register_variable acc v).1|]. intros u [->|Hu]%elem_of_cons; auto.
Qed.

Lemma registered_variables m cfg :
  handlers_grow m (registerVariableHandlersLocked m cfg) ∧
  ∀ t v, t ∈ Tasks cfg → v ∈ Variables t →
    has_handler (registerVariableHandlersLocked m cfg) (set_tool_id (tv_Name v)).
Proof.
  destruct (register_variables_grow (concat (map Variables (Tasks cfg))) (m, ∅)) as [H1 H2]; [set_solver|].
  split; [exact H1|]. intros t v Ht Hv. apply H2. apply list_elem_of_In, in_concat. exists (Variables t).
  split; [apply in_map|]; by apply list_elem_of_In.
Qed.

(** Every registered tool has a handler, and so has every tool on offer that
    does not come from [own]. *)
Record tools_ok (own : list string) (d : DynamicContextManager) : Prop := {
  registry_own_ids : registry_keyed (toolRegistry d);
  registry_handled id : is_Some (toolRegistry d !! id) → has_handler (base d) id;
  offered_handled c t : context (base d) = Some c → t ∈ Core.Tools c →
    has_handler (base d) (ToolId t) ∨ ToolId t ∈ own
}.

Lemma RegisterTool_ok own d t h : tools_ok own d → tools_ok own (RegisterTool d t h).
Proof.
  intros [H1 H2 H3]. split.
  - by apply register_tool_keyed.
  - intros id. cbn [toolRegistry RegisterTool base]. destruct (decide (id = ToolId t)) as [->|Hn].
    + intros _. apply register_handler_has.
    + rewrite lookup_insert_ne by done. intros Hid%H2. by apply register_handler_grows.
  - intros c u Hc Hu. destruct (H3 c u Hc Hu) as [Hh|Ho]; [left|by right].
    by apply register_handler_grows.
Qed.

Lemma set_cleanup_ok own d fn : tools_ok own d → tools_ok own (set_base d (SetCleanupHook (base d) fn)).
Proof. intros [H1 H2 H3]. split; [exact H1|exact H2|exact H3]. Qed.

Lemma visible_tasks_in cfg completed t : t ∈ visibleTasksLocked cfg completed → t ∈ Tasks cfg.
Proof. unfold visibleTasksLocked. intros [Ht _]%list_elem_of_In%filter_In. by apply list_elem_of_In. Qed.

Lemma LoadTaskGroup_ok own d cfg d' : LoadTaskGroup d cfg = Ok d' → tools_ok own d → tools_ok own d'.
Proof.
  unfold LoadTaskGroup. destruct (findTaskLocked cfg (InitialTaskID cfg)) as [t0|]; [|done]. intros [= <-] [H1 H2 H3].
  set (ctx := default (mkLLMContext [] []) (context (base d))) in *.
  set (vis := visibleTasksLocked cfg ∅). set (d1 := mkDynamicContextManager _ _ _ _ _ _ _ _).
  destruct (registered_variables (base (rebuildToolsLocked d1 cfg vis)) cfg) as [Hg Hv].
  assert (handlers_grow (base d) (registerVariableHandlersLocked (base (rebuildToolsLocked d1 cfg vis)) cfg))
    as Hgrow by (etrans; [|exact Hg]; intros id Hid; exact Hid).
  split; cbn [set_base toolRegistry base].
  - exact H1.
  - intros id Hid. by apply Hgrow, H2.
  - intros c t Hc Ht. rewrite register_handlers_context in Hc. cbn in Hc. injection Hc as <-.
    cbn [Core.Tools with_tools] in Ht. unfold rebuilt_tools in Ht. cbn [permanentTools toolRegistry] in Ht.
    apply elem_of_app in Ht as [Ht|[Ht|Ht]%elem_of_app].
    + assert (has_handler (base d) (ToolId t) ∨ ToolId t ∈ own) as [Hh|Ho]; [|left; by apply Hgrow|by right].
      revert Ht. subst ctx. destruct (context (base d)) as [c|] eqn:Ec; [intros Ht; by apply (H3 c)|].
      cbn. by intros ?%not_elem_of_nil.
    + left. unfold global_tools in Ht. apply list_elem_of_omap in Ht as (id & _ & Hid). cbn in Hid.
      apply Hgrow, H2. rewrite (H1 id t Hid). by exists t.
    + left. destruct (tools_fold_spec (toolRegistry d) (collected_of d1) H1 vis) as [_ Hi].
      assert (ToolId t ∈ ToolId <$> task_tools d1 vis) as Hin by (by apply list_elem_of_fmap_2).
      apply Hi in Hin as (task & Htask & [[_ Hid]|(v & Hv' & _ & ->)]).
      * by apply Hgrow, H2.
      * eapply Hv; [|exact Hv']. by apply (visible_tasks_in cfg ∅).
Qed.

Section session_tools.
Context `{RangeOrder} (environ : list string) (mcp_answer : MCPServerConfig → server_answer)
  (mcp_call : nat → string → gmap string any → result CallToolResult).

(** The tools the configuration's own context brings. *)
Definition configured_tools (c : SessionContextConfig) : list LLMTool :=
  match cc_Context (ctx_HandlerConfig c) with Some x => Core.Tools x | None => [] end.

Lemma inject_tool_elem t u ts : t ∈ inject_tool u ts → t = u ∨ t ∈ ts.
Proof.
  unfold inject_tool. destruct (has_tool (ToolId u) ts); [auto|].
  intros [?|?%list_elem_of_singleton]%elem_of_app; auto.
Qed.

Lemma base_manager_ok c :
  tools_ok (ToolId <$> configured_tools c) (NewDynamicContextManager (base_manager c)).
Proof.
  split; [done|by intros id []|]. intros x t. cbn [NewDynamicContextManager base]. unfold base_manager, configured_tools.
  destruct (cc_Context (ctx_HandlerConfig c)) as [own|]; cbn; intros [= <-]; cbn [Core.Tools]; [|by intros ?%not_elem_of_nil].
  intros [->|Ht]%inject_tool_elem.
  - left. right. eexists. reflexivity.
  - change (allowContinueListening _) with (AllowContinueListening (ManagerConfig c)) in Ht.
    destruct (AllowContinueListening (ManagerConfig c)) eqn:Ea.
    + apply inject_tool_elem in Ht as [->|Ht]; [|right; by apply list_elem_of_fmap_2].
      left. left. unfold SetContext, NewLLMContextManager. rewrite Ea. eexists. reflexivity.
    + right. by apply list_elem_of_fmap_2.
Qed.

Lemma connect_mcp_ok own d servers :
  tools_ok own d → tools_ok own (connect_mcp environ mcp_answer mcp_call d servers).1.
Proof.
  intros Hd. unfold connect_mcp. destruct servers as [|s servers]; [done|]. cbn [fst].
  apply set_cleanup_ok. generalize (McpTools.Tools (McpTools.Connect environ NewMCPManager
    (map (λ s, (s, mcp_answer s)) (s :: servers)))) as ts. intros ts. revert d Hd.
  induction ts as [|t ts IH]; intros d Hd; [done|]. cbn. by apply IH, RegisterTool_ok.
Qed.

Lemma load_tasks_tools own d tg d' : load_tasks d tg = Ok d' → tools_ok own d → tools_ok own d'.
Proof.
  unfold load_tasks. destruct tg as [g|]; [|by intros [= <-]].
  destruct (LoadTaskGroup d g) eqn:El; [|done]. intros [= <-]. by apply (LoadTaskGroup_ok own d g).
Qed.

Lemma build_context_tools c d mgr :
  build_context environ mcp_answer mcp_call c = Ok (d, mgr) →
  tools_ok (ToolId <$> configured_tools c) d.
Proof.
  unfold build_context. pose proof (connect_mcp_ok _ _ (MCPServers c) (base_manager_ok c)) as Hc.
  destruct (connect_mcp _ _ _ _ _) as [d1 mgr1]. cbn [fst] in Hc.
  destruct (load_tasks d1 (TaskGroup c)) as [d2|] eqn:El; [|done]. cbn. intros [= <- _].
  pose proof (load_tasks_tools _ _ _ _ El Hc) as H2. unfold add_keep_quiet.
  destruct (AddKeepQuietTool _); [by apply RegisterTool_ok|done].
Qed.

Lemma BuildHandlers_context c h :
  BuildHandlers environ mcp_answer mcp_call c = Ok h →
  build_context environ mcp_answer mcp_call (Context_ c) = Ok (ContextManager_ h, mcp h).
Proof.
  unfold BuildHandlers. destruct (in_session (tts_BuildHandler (TTS c))); [|done].
  destruct (in_session (stt_BuildHandler (STT c))); [|done].
  destruct (in_session (llm_BuildHandler (LLM c))); [|done].
  destruct (build_context _ _ _ _) as [[d mgr]|]; [|done]. by intros [= <-].
Qed.

(** In a session that was built, every tool the model is offered can be
    called: it has a handler, except that the tools which the configuration's
    context itself lists may have none.  This covers the built-in tools, those of
    the MCP servers, and what the task group names or needs for its variables,
    whatever ids they have. *)
Theorem session_tools_are_handled (c : SessionConfig) (h : SessionHandlers) (x : LLMContext) (t : LLMTool)
    (Hbuild : BuildHandlers environ mcp_answer mcp_call c = Ok h)
    (Hctx : context (base (ContextManager_ h)) = Some x) (Ht : t ∈ Core.Tools x) :
  is_Some (toolHandlers (base (ContextManager_ h)) !! ToolId t) ∨
  is_Some (eventToolHandlers (base (ContextManager_ h)) !! ToolId t) ∨
  ToolId t ∈ ToolId <$> configured_tools (Context_ c).
Proof.
  pose proof (build_context_tools _ _ _ (BuildHandlers_context c h Hbuild)) as [_ _ Hoff].
  destruct (Hoff x t Hctx Ht) as [[Hh|Hh]|Ho]; auto.
Qed.

(** Without a task group nothing reads the registry: neither the tools of MCP
    servers nor [keep_quiet] are offered, though they were registered. *)
Lemma registering_is_not_offering mgr ts d :
  context (base (fold_left (register_mcp mcp_call mgr) ts d)) = context (base d).
Proof. revert d. induction ts as [|t ts IH]; intros d; [done|]. cbn. by rewrite IH. Qed.

Lemma connect_mcp_context d servers :
  context (base (connect_mcp environ mcp_answer mcp_call d servers).1) = context (base d).
Proof.
  unfold connect_mcp. destruct servers as [|s servers]; [done|]. cbn [fst set_base base].
  apply registering_is_not_offering.
Qed.

Lemma no_task_group_no_registered_tools c h :
  TaskGroup (Context_ c) = None → BuildHandlers environ mcp_answer mcp_call c = Ok h →
  context (base (ContextManager_ h)) = context (base_manager (Context_ c)).
Proof.
  intros Htg Hb%BuildHandlers_context. unfold build_context in Hb.
  pose proof (connect_mcp_context (NewDynamicContextManager (base_manager (Context_ c)))
    (MCPServers (Context_ c))) as Hc.
  destruct (connect_mcp _ _ _ _ _) as [d mgr]. rewrite Htg in Hb. cbn in Hb. injection Hb as Hd _.
  rewrite <-Hd. transitivity (context (base d)); [|exact Hc].
  unfold add_keep_quiet. by destruct (AddKeepQuietTool _).
Qed.

Lemma base_manager_messages (c : SessionContextConfig) (x : LLMContext) :
  cc_Context (ctx_HandlerConfig c) = Some x → HumanLikeSpeech (ManagerConfig c) = true →
  ∃ ts, context (base_manager c) = Some (mkLLMContext (map humanize (Messages x)) ts).
Proof.
  intros Hx Hh. unfold base_manager. rewrite Hx. unfold SetContext, prepare_context.
  change (humanLikeSpeech _) with (HumanLikeSpeech (ManagerConfig c)). rewrite Hh. eexists. reflexivity.
Qed.

(** A configuration whose context is given inline is one object for all calls:
    the next session starts with the messages of the one before, and its
    system messages get the speaking style appended once more. *)
Lemma inline_context_is_shared c h h' x said :
  cc_Context (ctx_HandlerConfig (Context_ c)) = Some x → HumanLikeSpeech (ManagerConfig (Context_ c)) = true →
  TaskGroup (Context_ c) = None →
  BuildHandlers environ mcp_answer mcp_call c = Ok h →
  let left := fold_left (λ d m, set_base d (add_message (base d) m)) said (ContextManager_ h) in
  BuildHandlers environ mcp_answer mcp_call (after_session c left) = Ok h' →
  ∃ x', context (base (ContextManager_ h')) = Some x' ∧
        Messages x' = map humanize (map humanize (Messages x) ++ said).
Proof.
  intros Hx Hhum Htg Hb left Hb'. pose proof (no_task_group_no_registered_tools c h Htg Hb) as Hc.
  destruct (base_manager_messages _ _ Hx Hhum) as [ts Hts]. rewrite <-Hc in Hts.
  assert (context (base left) = Some (mkLLMContext (map humanize (Messages x) ++ said) ts)) as Hleft.
  { subst left. clear Hb'. revert Hts. generalize (map humanize (Messages x)). generalize (ContextManager_ h).
    induction said as [|m said IH]; intros d ms Hd; cbn; [by rewrite app_nil_r|].
    rewrite (IH _ (ms ++ [m])); [by rewrite <-app_assoc|]. cbn. by rewrite (add_message_tools _ _ _ Hd). }
  unfold after_session in Hb'. rewrite Hx, Hleft in Hb'.
  match type of Hb' with BuildHandlers _ _ _ ?c' = _ =>
    rewrite (no_task_group_no_registered_tools c' h' Htg Hb');
    destruct (base_manager_messages (Context_ c') _ eq_refl Hhum) as [ts' Hts'] end.
  eauto.
Qed.
End session_tools.

(** ** The transport *)

Section transports.
Context {L : AudioLibs}.

Definition is_object (v : option any) : bool := match v with Some (AnyMap _) => true | _ => false end.

Lemma pointer_field_some {A} name l empty (decode : A → list (string * any) → option A) old r :
  pointer_field name l empty decode old = Some r →
  r = match field name l with None => old | _ => r end ∧
  (is_Some r ↔ is_object (field name l) = true ∨ (field name l = None ∧ is_Some old)).
Proof.
  unfold pointer_field. destruct (field name l) as [[| | | | |m]|]; try done.
  - intros [= <-]. split; [done|]. split; [intros []; done|intros [?|[? _]]; done].
  - destruct (decode (default empty old) m); [|done]. intros [= <-]. split; [done|]. cbn. naive_solver.
  - intros [= <-]. split; [done|]. cbn. naive_solver.
Qed.

(** The settings choose LiveKit unless they have a Daily section and no LiveKit
    one; what was injected does not change the choice. *)
Lemma decoded_transport l c :
  TransportFactoryConfigFromJSON (Some (AnyMap l)) = Ok c →
  (is_Some (LiveKitConfig c) ↔
     is_object (field "livekit" l) = true ∨ field "livekit" l = None ∧ has_field "daily" l = false) ∧
  (is_Some (DailyConfig c) ↔ is_object (field "daily" l) = true).
Proof.
  cbn [TransportFactoryConfigFromJSON]. unfold decode_transport.
  set (start := if has_field "daily" l then _ else _).
  destruct (pointer_field "livekit" _ _ _ _) as [lk|] eqn:El; [|done].
  destruct (pointer_field "daily" _ _ _ _) as [dc|] eqn:Ed; [|done]. cbn. intros [= <-]. cbn.
  apply pointer_field_some in El as [_ El]. apply pointer_field_some in Ed as [_ Ed].
  assert (is_Some (LiveKitConfig start) ↔ has_field "daily" l = false) as Hl.
  { subst start. destruct (has_field "daily" l); cbn; [split; [intros []; done|done]|].
    split; [done|]. intros _. eauto. }
  split; [rewrite El; tauto|]. rewrite Ed. split; [|auto]. intros [?|[Hn [x Hx]]]; [done|].
  exfalso. revert Hx. subst start. unfold has_field. by rewrite Hn.
Qed.

Lemma livekit_provider_config lk p :
  LiveKitProvider.NewProvider (livekit_config lk) = Ok p →
  LiveKitProvider.MaxJobs (LiveKitProvider.config p) =
    (if lk_DevMode lk then 100 else z_default (lk_MaxJobs lk) 1) ∧
  LiveKitProvider.URL (LiveKitProvider.config p) = lk_URL lk ∧ lk_URL lk ≠ "" ∧
  LiveKitProvider.APIKey (LiveKitProvider.config p) = lk_APIKey lk ∧ lk_APIKey lk ≠ "" ∧
  LiveKitProvider.APISecret (LiveKitProvider.config p) = lk_APISecret lk ∧ lk_APISecret lk ≠ "".
Proof.
  unfold LiveKitProvider.NewProvider. destruct (_ || _) eqn:E; [done|].
  apply orb_false_iff in E as [[E1 E2]%orb_false_iff E3].
  apply String.eqb_neq in E1, E2, E3. unfold livekit_config in *.
  cbn [LiveKitProvider.URL LiveKitProvider.APIKey LiveKitProvider.APISecret LiveKitProvider.DevMode] in *.
  assert (∀ s, or_default s "" = s) as Hd
    by (intros s; unfold or_default; by destruct (String.eqb_spec s "") as [->|]).
  cbn in E1, E2, E3. rewrite Hd in E1, E2, E3.
  destruct (lk_DevMode lk) eqn:Edev; cbn [orb]; cbn; intros [= <-]; cbn; rewrite !Hd; done.
Qed.

(** The settings decide the transport: a provider that is built for a JSON
    object is LiveKit's when the object has a LiveKit section or has no Daily
    one, and Daily's otherwise; LiveKit's has credentials, those of the file where
    it gives them and the injected ones elsewhere, and its capacity is the
    file's, or 1, or 100 in development mode; Daily's has an API key. *)
Theorem settings_choose_the_transport (l : list (string * any)) (keys : ProviderKeys)
    (c : TransportFactoryConfig) (p : transport_provider)
    (Hc : TransportFactoryConfigFromJSON (Some (AnyMap l)) = Ok c)
    (Hp : GetProvider (InjectProviderKeys keys c) = Ok p) :
  match p with
  | LiveKitTransportProvider q =>
      (is_object (field "livekit" l) = true ∨ has_field "daily" l = false) ∧
      ∃ lk, LiveKitConfig c = Some lk ∧
        let u := or_default (lk_URL lk) (LiveKitURL keys) in
        let k := or_default (lk_APIKey lk) (LiveKitAPIKey keys) in
        let s := or_default (lk_APISecret lk) (LiveKitAPISecret keys) in
        LiveKitProvider.MaxJobs (LiveKitProvider.config q) =
          (if lk_DevMode lk then 100 else z_default (lk_MaxJobs lk) 1) ∧
        LiveKitProvider.URL (LiveKitProvider.config q) = u ∧ u ≠ "" ∧
        LiveKitProvider.APIKey (LiveKitProvider.config q) = k ∧ k ≠ "" ∧
        LiveKitProvider.APISecret (LiveKitProvider.config q) = s ∧ s ≠ ""
  | DailyTransportProvider_ q =>
      is_object (field "daily" l) = true ∧ is_object (field "livekit" l) = false ∧
      DailyTransport.APIKey (DailyTransport.p_config q) ≠ ""
  end.
Proof.
  destruct (decoded_transport l c Hc) as [Hlk Hdc]. clear Hc.
  destruct c as [[lk|] [dc|]]; cbn in Hlk, Hdc, Hp.
  1, 2: destruct (LiveKitProvider.NewProvider _) as [q|] eqn:Eq; [|done]; injection Hp as <-;
    apply livekit_provider_config in Eq; cbn in Eq; split; [naive_solver|by exists lk].
  - unfold buildDailyProvider in Hp. cbn in Hp.
    destruct (NewDailyTransportProvider _) as [q|] eqn:Eq; [|done]. injection Hp as <-.
    split; [by apply Hdc|]. split; [destruct (is_object (field "livekit" l)); [|done];
      destruct (proj2 Hlk (or_introl eq_refl)); done|].
    apply (api_key_set _ (provider_invariant _ q [] Eq)).
  - done.
Qed.
End transports.

(** ** Examples *)

Definition example_keys : APIKeys :=
  mkKeys "dg" "oa" "" "gq" "" "" "" "" "" "" "" "" "ca".

Definition groq_only : LLMFactoryConfig :=
  mkLLMFactory None None (Some (mkLlmConfig "" "" "" 0 0 true)) None None None None None None None.

(** A session with one reachable MCP server, whose tool the task group names. *)
Definition example_session : SessionConfig :=
  mkSession
    (mkSessionTTS TtsHandler.DefaultConfig
       (mkTTSFactory None None (Some (Cartesia.mkCartesiaConfig "" "" "" "" "" ""))) [])
    (mkSessionSTT (mkSTTFactory (Some DeepgramStt.DefaultConfig)) [])
    (mkSessionLLM LlmHandler.DefaultConfig groq_only [] None)
    (mkSessionContext DefaultLLMContextManagerConfig
       (mkContextConfig true "" (Some (mkLLMContext [Core.text_message "system" "You are a receptionist."] [])))
       (Some (mkTaskGroupConfig "demo" "" "greet" ["wx_forecast"] [demo_greet; demo_contact]))
       (map fst weather_servers)).

Definition example_answer (s : MCPServerConfig) : server_answer :=
  if String.eqb (sc_Name s) "weather" then mkAnswer (Ok tt) (Ok [forecast]) else mkAnswer (Err "refused") (Ok []).
Definition example_call (k : nat) (tool : string) (ps : gmap string any) : result CallToolResult :=
  Ok (mkCallResult [TextContent "sunny"] false).

Definition example_build : result SessionHandlers :=
  BuildHandlers [] example_answer example_call (InjectAPIKeys example_keys example_session).

Definition example_offered : list string :=
  match example_build with
  | Ok h => match context (base (ContextManager_ h)) with
            | Some x => map ToolId (Core.Tools x)
            | None => []
            end
  | Err _ => []
  end.

Example example_tools :
  example_offered = ["continue_listening"; "end_call"; "wx_forecast"; "set_name"].
Proof. vm_compute. reflexivity. Qed.


Lemma session_tools_are_handled_witness :
  match example_build with
  | Ok h => match context (base (ContextManager_ h)) with
            | Some x => ∀ t, t ∈ Core.Tools x →
                is_Some (toolHandlers (base (ContextManager_ h)) !! ToolId t) ∨
                is_Some (eventToolHandlers (base (ContextManager_ h)) !! ToolId t) ∨
                ToolId t ∈ ToolId <$> configured_tools (Context_ example_session)
            | None => False
            end
  | Err _ => False
  end.
Proof.
  assert (∃ h x, example_build = Ok h ∧ context (base (ContextManager_ h)) = Some x) as (h & x & Eh & Ex).
  { assert (match example_build with
            | Ok h => bool_decide (is_Some (context (base (ContextManager_ h)))) | Err _ => false end = true) as Hb
      by (vm_compute; reflexivity).
    destruct example_build as [h|]; [|done]. apply bool_decide_eq_true_1 in Hb as [x Hx]. eauto. }
  rewrite Eh, Ex. intros t Ht.
  exact (session_tools_are_handled [] example_answer example_call
           (InjectAPIKeys example_keys example_session) h x t Eh Ex Ht).
Defined.

Definition example_settings : list (string * any) :=
  [("daily", AnyMap [("room_name", AnyString "lobby"); ("port", AnyNumber "9000")])].

Definition example_provider_keys : ProviderKeys := mkProviderKeys "" "" "" "dk".

Definition example_transport : TransportFactoryConfig :=
  mkTransportFactory None (Some (mkDailyConfig "" "" "lobby" "" 0 0 9000 "" 0 0 "" false)).

Definition example_daily : DailyTransport.DailyTransportProvider (L := toy_libs) :=
  mkProvider (daily_config (mkDailyConfig "dk" "" "lobby" "" 0 0 9000 "" 0 0 "" false))
    (NewDailyAPIClient "dk" "https://api.daily.co/v1") false false ∅ ∅ 0.

Lemma settings_choose_the_transport_witness :
  is_object (field "daily" example_settings) = true ∧ is_object (field "livekit" example_settings) = false ∧
  DailyTransport.APIKey (DailyTransport.p_config example_daily) ≠ "".
Proof.
  exact (settings_choose_the_transport (L := toy_libs) example_settings example_provider_keys example_transport
           (DailyTransportProvider_ example_daily) eq_refl eq_refl).
Defined.

(** Both sections present: LiveKit is built, although the Daily section alone
    was given defaults. *)
Example both_sections :
  match TransportFactoryConfigFromJSON (Some (AnyMap [("daily", AnyMap []); ("livekit", AnyMap [])])) with
  | Ok c => LiveKitConfig c = Some empty_livekit ∧ DailyConfig c = Some empty_daily
  | Err _ => False
  end.
Proof. vm_compute. done. Qed.

(** The only provider without a default model is OpenAI itself. *)
Example openai_without_model :
  match BuildLLMService (mkLLMFactory (Some (mkLlmConfig "k" "" "" 0 0 true)) None None None None None None None None None),
        BuildLLMService groq_only with
  | Ok o, Ok g => llm_Model (settings o) = "" ∧ llm_Model (settings g) = "llama-3.3-70b-versatile"
  | _, _ => False
  end.
Proof. vm_compute. done. Qed.
