(* ===== verification/Main.v ===== *)
(** * The entry point: [main.go]

    Environment variables with their defaults, loading the settings, the
    session a job gets, and the connected mode, in which the control plane and
    the worker share one context: [runConnectedMode] connects, then runs the
    worker, whose [Serve] blocks until the context ends, and only then starts
    the goroutine that waits for the connection. *)

From Stdlib Require Import Strings.Byte.
From S2P Require Import Prelude Core Json ContextManager DynamicContext ControlPlane.
From S2P Require Import SpeechWire DailyTransport McpTools Factories.

Local Open Scope string_scope.
Local Open Scope list_scope.
Local Open Scope Z_scope.
Local Open Scope go_scope.

(** ** The environment *)

Definition environment : Type := string → string.

Definition getEnv (env : environment) (key defaultValue : string) : string :=
  if String.eqb (env key) "" then defaultValue else env key.

(** [strconv.Atoi]. *)
Definition atoi (s : string) : option Z :=
  let unsigned := match str_chars s with
                  | c :: l => if Ascii.eqb c (Ascii.ascii_of_nat 43) then
                                match l with [] => None | _ => digits 0 l end
                              else parse_int s
                  | [] => None
                  end in
  match unsigned with
  | Some z => if (- 2 ^ 63 <=? z) && (z <? 2 ^ 63) then Some z else None
  | None => None
  end.

Definition getEnvAsInt (env : environment) (key : string) (defaultValue : Z) : Z :=
  let valStr := getEnv env key "" in
  if String.eqb valStr "" then defaultValue else default defaultValue (atoi valStr).

(** ** Settings *)

Section loading.
Context (decode_session : SessionConfig → document → option SessionConfig).
(** [json]: the document a text holds, if any; [file]: what a path holds. *)
Context (json : list Byte.byte → option document) (file : string → result (option document)).

Definition env_provider_keys (env : environment) : ProviderKeys :=
  mkProviderKeys (env "LIVEKIT_URL") (env "LIVEKIT_API_KEY") (env "LIVEKIT_API_SECRET") (env "DAILY_API_KEY").

Definition env_api_keys (env : environment) : APIKeys :=
  mkKeys (getEnv env "DEEPGRAM_API_KEY" "") (getEnv env "OPENAI_API_KEY" "") (getEnv env "TOGETHER_API_KEY" "")
    (getEnv env "GROQ_API_KEY" "") (getEnv env "DEEPSEEK_API_KEY" "") (getEnv env "OPENROUTER_API_KEY" "")
    (getEnv env "FIREWORKS_API_KEY" "") (getEnv env "CEREBRAS_API_KEY" "") (getEnv env "XAI_API_KEY" "")
    (getEnv env "MISTRAL_API_KEY" "") (getEnv env "PERPLEXITY_API_KEY" "") (getEnv env "ELEVENLABS_API_KEY" "")
    (getEnv env "CARTESIA_API_KEY" "").

Definition or_defaults (r : result SettingsConfig) : SettingsConfig :=
  match r with Ok s => s | Err _ => DefaultSettingsConfig end.

(** Settings that cannot be had are the defaults. *)
Definition loadSettingsFromEnv (env : environment) : SettingsConfig * APIKeys :=
  let b64 := env "SETTINGS_JSON_B64" in
  let settings :=
    if String.eqb b64 "" then
      let path := getEnv env "SETTINGS_PATH" "./settings.json" in
      or_defaults (SettingsConfigFromFile decode_session path (file path))
    else match b64_decode b64 with
         | None => DefaultSettingsConfig
         | Some data => or_defaults (SettingsConfigFromJSON decode_session (json data))
         end in
  (mkSettings (InjectProviderKeys (env_provider_keys env) (Transport settings)) (SessionAPI settings)
     (Session settings), env_api_keys env).

(** The session of one job: from the endpoint, or the settings themselves; the
    keys are injected last. *)
Definition job_session (do_ : http) (settings : SettingsConfig) (keys : APIKeys) : result SessionConfig :=
  match SessionAPI settings, Session settings with
  | Some api, _ =>
      match Fetch decode_session do_ api with
      | Err e => Err ("session api fetch failed: " +:+ e)
      | Ok c => Ok (InjectAPIKeys keys c)
      end
  | None, Some c => Ok (InjectAPIKeys keys c)
  | None, None => Err "no session config: set session_config or session_api in settings.json"
  end.
End loading.

(** ** The tool every job gets *)

Definition transfer_tool : LLMTool :=
  mkLLMTool "transfer_to_human" "transfer_to_human"
    "Transfer the caller to a live human agent. Use only when the caller explicitly requests it or the situation is urgent and cannot be handled by AI."
    [mkParameter "reason" "Brief reason for the transfer." true "" LLMParameterTypeString] "".

(** [None]: the type assertion on the reason panics. *)
Definition run_transfer (call : LLMToolCall) : option string :=
  let answer := "Transfer initiated. A live agent will be with the caller shortly." in
  match tc_Parameters call with
  | None => Some answer
  | Some ps =>
      match ps !! "reason" with
      | None | Some (AnyString _) => Some answer
      | Some _ => None
      end
  end.

(** ** Connected mode *)

Inductive phase : Type :=
| Serving               (* in [runWorkerMode] *)
| Watching              (* the worker returned, the goroutine waits for the client *)
| Stopped.              (* the goroutine cancelled the context *)

(** [over]: the context of [main] is cancelled. *)
Record agent := mkAgent { client : Client; at_ : phase; over : bool }.

(** The agent after [Connect] succeeded; [worker] is whether a provider could be
    built, without which the worker returns at once. *)
Definition connected_agent (c : Client) (worker : bool) : agent :=
  mkAgent c (if worker then Serving else Watching) false.

Definition is_shutdown (k : callback) : bool := match k with OnShutdown _ => true | _ => false end.

(** Cancelling the context ends the client's own. *)
Definition cancel_agent (a : agent) : agent := mkAgent (ControlPlane.step (client a) OpCancel).1 (at_ a) true.

Inductive agent_op : Type :=
| ClientStep (o : op)            (* a step of the client; [OnShutdown] cancels *)
| ServeReturns                   (* [<-ctx.Done()] in [Serve] *)
| WaitReturns.                   (* [client.Wait()] in the goroutine *)

Definition agent_step (a : agent) (o : agent_op) : agent * list callback :=
  match o with
  | ClientStep o =>
      let '(c, calls) := step (client a) o in
      let a1 := mkAgent c (at_ a) (over a) in
      (if existsb is_shutdown calls then cancel_agent a1 else a1, calls)
  | ServeReturns =>
      match at_ a with
      | Serving => (if over a then mkAgent (client a) Watching (over a) else a, [])
      | _ => (a, [])
      end
  | WaitReturns =>
      match at_ a with
      | Watching =>
          (if Wait_returns (client a)
           then let a1 := cancel_agent a in mkAgent (client a1) Stopped true else a, [])
      | _ => (a, [])
      end
  end.

Fixpoint agent_run (a : agent) (ops : list agent_op) : agent * list callback :=
  match ops with
  | [] => (a, [])
  | o :: ops' =>
      let '(a1, l1) := agent_step a o in
      let '(a2, l2) := agent_run a1 ops' in
      (a2, l1 ++ l2)
  end.

(** ** Properties *)

(** What ends a serving agent is a shutdown. *)
Definition ended_by_shutdown (a : agent) (calls : list callback) : Prop :=
  (over a = true ∨ at_ a ≠ Serving) → existsb is_shutdown calls = true.

Lemma agent_step_ended a o before :
  ended_by_shutdown a before →
  ended_by_shutdown (agent_step a o).1 (before ++ (agent_step a o).2).
Proof.
  intros Ha. unfold ended_by_shutdown in *. rewrite existsb_app. destruct o as [o| |]; cbn [agent_step].
  - destruct (step (client a) o) as [c calls]. destruct (existsb is_shutdown calls) eqn:E; cbn [fst snd].
    + rewrite E. intros _. apply orb_true_r.
    + cbn. rewrite E, orb_false_r. exact Ha.
  - destruct a as [c p ov]. cbn in *. destruct p; cbn; rewrite orb_false_r; [|exact Ha..].
    destruct ov; cbn; auto.
  - destruct a as [c p ov]. cbn in *. destruct p; cbn; rewrite orb_false_r; [exact Ha| |exact Ha].
    destruct (Wait_returns c); cbn; [|exact Ha]. intros _. apply Ha. by right.
Qed.

Lemma agent_run_ended ops a before :
  ended_by_shutdown a before →
  ended_by_shutdown (agent_run a ops).1 (before ++ (agent_run a ops).2).
Proof.
  revert a before. induction ops as [|o ops IH]; intros a before Ha; [cbn; by rewrite app_nil_r|]. cbn [agent_run].
  pose proof (agent_step_ended a o before Ha) as H1. destruct (agent_step a o) as [a1 l1]. cbn [fst snd] in H1.
  specialize (IH a1 _ H1). destruct (agent_run a1 ops) as [a2 l2]. cbn [fst snd] in *.
  by rewrite app_assoc.
Qed.

(** A shutdown of the control plane, and nothing else, stops an agent that
    serves.  Whatever happened before, a shutdown message that is read ends the
    context, the worker returns, the wait for the client is over at once and the
    agent stops; and in every run in which the agent stops serving, or its
    context ends, a shutdown was delivered, whatever else became of the
    connection. *)
Theorem shutdown_and_only_shutdown_stops (c : Client) (ops : list agent_op) (payload : option document) :
  let shutdown := OpRead (ReadData (Some (AnyMap (("type", AnyString MsgShutdown) ::
                    match payload with Some d => [("payload", d)] | None => [] end)))) in
  let '(a, calls) := agent_run (connected_agent c true) ops in
  ((over a = true ∨ at_ a ≠ Serving) → existsb is_shutdown calls = true) ∧
  (reading (client a) = true → once (client a) = false → at_ a = Serving →
   let a' := (agent_run a [ClientStep shutdown; ServeReturns; WaitReturns]).1 in
   at_ a' = Stopped ∧ over a' = true ∧ ControlPlane.cancelled (client a') = true).
Proof.
  pose proof (agent_run_ended ops (connected_agent c true) []) as Hend.
  destruct (agent_run (connected_agent c true) ops) as [a calls]. cbn [fst snd app] in Hend. split.
  - apply Hend. intros [?|[]]; done.
  - intros Hr Ho Hs. destruct a as [[] p o]. cbn in Hr, Ho, Hs. subst.
    destruct payload; cbn; rewrite !orb_true_r; done.
Qed.

(** In particular a lost connection leaves the agent serving. *)
Lemma lost_connection_keeps_serving c :
  reading c = true →
  let a := (agent_run (connected_agent c true) [ClientStep (OpRead ReadError); ServeReturns; WaitReturns]).1 in
  at_ a = Serving ∧ over a = false ∧ reading (client a) = false.
Proof. intros Hr. destruct c. cbn in Hr. subst. done. Qed.

(** With no worker to run the wait begins at once, and the loss is noticed. *)
Lemma lost_connection_without_worker c :
  reading c = true → once c = false →
  at_ (agent_run (connected_agent c false) [ClientStep (OpRead ReadError); WaitReturns]).1 = Stopped.
Proof. intros Hr Ho. destruct c. cbn in *. subst. cbn. by rewrite orb_true_r. Qed.

Lemma shutdown_and_only_shutdown_stops_witness :
  let '(a, calls) := agent_run (connected_agent example_client true)
                       [ClientStep (OpBeat false "t1"); ClientStep (OpRead (ReadData None)); WaitReturns] in
  at_ (agent_run a [ClientStep (OpRead (ReadData (Some (AnyMap [("type", AnyString MsgShutdown)]))));
                    ServeReturns; WaitReturns]).1 = Stopped.
Proof.
  exact (proj1 (proj2 (shutdown_and_only_shutdown_stops example_client
    [ClientStep (OpBeat false "t1"); ClientStep (OpRead (ReadData None)); WaitReturns] None)
    eq_refl eq_refl eq_refl)).
Defined.

Example env_examples :
  let env := λ k, if String.eqb k "WORKER_TIMEOUT_SECONDS" then "+60"
                  else if String.eqb k "BAD" then "60s" else "" in
  getEnvAsInt env "WORKER_TIMEOUT_SECONDS" 3000 = 60 ∧ getEnvAsInt env "BAD" 3000 = 3000 ∧
  getEnvAsInt env "MISSING" 3000 = 3000.
Proof. vm_compute. done. Qed.

Example transfer_panics :
  run_transfer (mkLLMToolCall "transfer_to_human" (Some {["reason" := AnyBool true]})) = None.
Proof. vm_compute. reflexivity. Qed.
