(* ===== verification/Silero.v ===== *)
(** * The Silero classifier: [vad/silero/silero.go], [vad/silero/vad.go]

    [SileroVAD] cuts the samples it is given into windows, runs a recurrent
    model on each, with the end of the window before it as context, and
    answers the probability of the last one.  [SileroVadService] is the service
    the voice-activity handler calls: it converts a chunk to 16 kHz mono,
    removes noise and asks the classifier.

    The ONNX runtime is outside: [run_session] is one inference, on the sample
    rate, the input and the hidden state, and which objects of the runtime can
    be created is an argument.  Times are nanoseconds; one reading of the clock
    stands for the two of a call.  A sample is an exact fraction: an int16
    divided by 32768 is a float32.  The scratch buffers of the conversion are
    left out; [fullInput], whose old contents can be read again, is not. *)

From Stdlib Require Import QArith.QArith_base Strings.Byte.
From S2P Require Import Prelude Core Audio AudioProofs Vad.

Local Open Scope string_scope.
Local Open Scope list_scope.
Local Open Scope Z_scope.

Class OnnxRuntime := {
  run_session : Z → list Q → list Q → result (Q * list Q)
}.

(** ** The classifier *)

(** What the runtime allocates for one sample rate, in the order of
    [createTensors]. *)
Inductive ort_object : Type :=
| InputTensor
| SrTensor
| StateTensor
| OutputTensor
| StateNTensor
| SessionObject.

#[export] Instance ort_object_eq_dec : EqDecision ort_object.
Proof. solve_decision. Defined.

Definition ort_objects : list ort_object :=
  [InputTensor; SrTensor; StateTensor; OutputTensor; StateNTensor; SessionObject].

Definition failed_to_create (o : ort_object) : string :=
  match o with
  | InputTensor => "failed to create input tensor: "
  | SrTensor => "failed to create sr tensor: "
  | StateTensor => "failed to create state tensor: "
  | OutputTensor => "failed to create output tensor: "
  | StateNTensor => "failed to create stateN tensor: "
  | SessionObject => "failed to create ONNX session: "
  end.

Record SileroVADConfig := mkSileroConfig {
  OnnxPath : string;
  OnnxLibPath : string;
  Threshold : Q
}.

(** The float32 nearest to 0.3. *)
Definition DefaultSileroVADConfig : SileroVADConfig :=
  mkSileroConfig "./models/silero_vad.onnx" "./onnx/libonnxruntime.so" (10066330 # 33554432).

(** [live] are the objects of the runtime that are not nil. *)
Record SileroVAD := mkSilero {
  config : SileroVADConfig;
  live : list ort_object;
  state : list Q;
  context : list Q;
  audioBuffer : list Q;
  lastResetTime : Z;
  lastSampleRate : Z;
  fullInput : list Q;           (* to its capacity *)
  initialized : bool
}.

Definition MODEL_RESET_STATES_TIME : Z := 2 * second.

Definition NewSileroVAD (cfg : SileroVADConfig) (now : Z) : SileroVAD :=
  mkSilero cfg [] (replicate 256 0%Q) [] [] now 0 [] false.

Definition set_live (v : SileroVAD) (os : list ort_object) : SileroVAD :=
  mkSilero (config v) os (state v) (context v) (audioBuffer v) (lastResetTime v)
    (lastSampleRate v) (fullInput v) (initialized v).

Definition set_rate (v : SileroVAD) (rate : Z) : SileroVAD :=
  mkSilero (config v) (live v) (state v) (context v) (audioBuffer v) (lastResetTime v)
    rate (fullInput v) (initialized v).

Definition set_buffer (v : SileroVAD) (xs : list Q) : SileroVAD :=
  mkSilero (config v) (live v) (state v) (context v) xs (lastResetTime v)
    (lastSampleRate v) (fullInput v) (initialized v).

Definition set_input (v : SileroVAD) (xs : list Q) : SileroVAD :=
  mkSilero (config v) (live v) (state v) (context v) (audioBuffer v) (lastResetTime v)
    (lastSampleRate v) xs (initialized v).

Definition set_initialized (v : SileroVAD) (b : bool) : SileroVAD :=
  mkSilero (config v) (live v) (state v) (context v) (audioBuffer v) (lastResetTime v)
    (lastSampleRate v) (fullInput v) b.

Definition getInputLength (sampleRate : Z) : result nat :=
  if sampleRate =? 8000 then Ok 256%nat
  else if sampleRate =? 16000 then Ok 512%nat
  else Err ("unsupported sample rate: " +:+ itoa sampleRate +:+ " (must be 8000 or 16000)").

Definition getContextSize (sampleRate : Z) : nat := if sampleRate =? 16000 then 64 else 32.

(** Go's [copy]. *)
Definition copy_into (dst src : list Q) : list Q := take (length dst) src ++ drop (length src) dst.

(** Little-endian 16-bit samples; an odd byte at the end is ignored. *)
Fixpoint bytesToFloat32Prealloc (audioBytes : list Byte.byte) : list Q :=
  match audioBytes with
  | b0 :: b1 :: rest => Qmake (int16 (uint16 [b0; b1])) 32768 :: bytesToFloat32Prealloc rest
  | _ => []
  end.

Definition resetModelState (v : SileroVAD) (now : Z) : SileroVAD :=
  mkSilero (config v) (live v) (map (λ _, 0%Q) (state v)) (map (λ _, 0%Q) (context v)) []
    now (lastSampleRate v) (fullInput v) (initialized v).

Definition destroyTensors (v : SileroVAD) : SileroVAD := set_live v [].

(** [fails o] is the error of creating [o], if it fails; what was created
    before stays. *)
Fixpoint create_objects (fails : ort_object → option string) (v : SileroVAD) (os : list ort_object)
    : SileroVAD * result unit :=
  match os with
  | [] => (v, Ok tt)
  | o :: os' =>
      match fails o with
      | Some e => (v, Err (failed_to_create o +:+ e))
      | None => create_objects fails (set_live v (live v ++ [o])) os'
      end
  end.

Definition createTensors (fails : ort_object → option string) (v : SileroVAD) : SileroVAD * result unit :=
  create_objects fails v ort_objects.

(** The session for a rate, made when there is none or the rate changed. *)
Definition ensure_session (fails : ort_object → option string) (sampleRate : Z) (v : SileroVAD)
    : SileroVAD * result unit :=
  if negb (bool_decide (SessionObject ∈ live v)) || negb (lastSampleRate v =? sampleRate) then
    match createTensors fails (destroyTensors v) with
    | (v1, Ok _) => (set_rate v1 sampleRate, Ok tt)
    | (v1, Err e) => (v1, Err e)
    end
  else (v, Ok tt).

Section classifier.
Context `{OnnxRuntime}.

(** One round of the loop over the buffer: the model sees the context and the
    next window; its new state and the last samples it saw are kept. *)
Definition infer_window (sampleRate : Z) (inputLength : nat) (v : SileroVAD) : SileroVAD * result Q :=
  let contextSize := getContextSize sampleRate in
  let expected := (contextSize + inputLength)%nat in
  let samples := take inputLength (audioBuffer v) in
  let ctx := match context v with [] => replicate contextSize 0%Q | c => c end in
  let used := copy_into (take contextSize (fullInput v)) ctx ++
              copy_into (drop contextSize (take expected (fullInput v))) samples in
  let v1 := mkSilero (config v) (live v) (state v) ctx (drop inputLength (audioBuffer v))
              (lastResetTime v) (lastSampleRate v) (used ++ drop expected (fullInput v))
              (initialized v) in
  match run_session sampleRate used (state v) with
  | Err e => (v1, Err ("inference failed: " +:+ e))
  | Ok (confidence, stateN) =>
      (mkSilero (config v) (live v) (copy_into (state v) stateN)
         (copy_into ctx (drop (length used - contextSize) used)) (audioBuffer v1)
         (lastResetTime v) (lastSampleRate v) (fullInput v1) (initialized v),
       Ok confidence)
  end.

(** The loop; the length of the buffer is enough fuel. *)
Fixpoint windows_loop (fuel : nat) (sampleRate : Z) (inputLength : nat) (v : SileroVAD)
    (lastConfidence : Q) : SileroVAD * result Q :=
  match fuel with
  | O => (v, Ok lastConfidence)
  | S fuel' =>
      if Nat.ltb (length (audioBuffer v)) inputLength then (v, Ok lastConfidence)
      else match infer_window sampleRate inputLength v with
           | (v1, Ok c) => windows_loop fuel' sampleRate inputLength v1 c
           | (v1, Err e) => (v1, Err e)
           end
  end.

(** The model is reset when it has run for two seconds. *)
Definition reset_if_due (now : Z) (v : SileroVAD) : SileroVAD :=
  if MODEL_RESET_STATES_TIME <=? now - lastResetTime v then resetModelState v now else v.

(** [fullInput] is made anew when its capacity does not suffice. *)
Definition size_input (expected : nat) (v : SileroVAD) : SileroVAD :=
  if Nat.ltb (length (fullInput v)) expected then set_input v (replicate expected 0%Q) else v.

Definition VoiceConfidence (now : Z) (fails : ort_object → option string)
    (audioBytes : list Byte.byte) (sampleRate : Z) (v : SileroVAD) : SileroVAD * result Q :=
  if negb (initialized v) then (v, Err "VAD not initialized") else
  let v0 := reset_if_due now v in
  let audioFloat32 := bytesToFloat32Prealloc audioBytes in
  match getInputLength sampleRate with
  | Err e => (v0, Err e)
  | Ok inputLength =>
      match ensure_session fails sampleRate v0 with
      | (v1, Err e) => (v1, Err e)
      | (v1, Ok _) =>
          let v2 := set_buffer v1 (audioBuffer v1 ++ audioFloat32) in
          if Nat.ltb (length (audioBuffer v2)) inputLength then (v2, Ok 0%Q)
          else
            let v3 := size_input (getContextSize sampleRate + inputLength) v2 in
            windows_loop (length (audioBuffer v3)) sampleRate inputLength v3 0%Q
      end
  end.

(** [onnxEnvOnce] is shared by the process: [env] tells whether it was used,
    [answer] what initialising the environment returns if it is called. *)
Definition Initialize (env : bool) (answer : result unit) (v : SileroVAD)
    : bool * SileroVAD * result unit :=
  if initialized v then (env, v, Ok tt)
  else match (if env then Ok tt else answer) with
       | Err e => (true, v, Err ("failed to initialize ONNX environment: " +:+ e))
       | Ok _ => (true, set_initialized v true, Ok tt)
       end.

Definition Close (v : SileroVAD) : SileroVAD :=
  if initialized v then set_initialized (destroyTensors v) false else v.

(** ** The specification: windows of one stream *)

(** [k] windows of [w] samples. *)
Fixpoint blocks (k w : nat) (xs : list Q) : list (list Q) :=
  match k with
  | O => []
  | S k' => take w xs :: blocks k' w (drop w xs)
  end.

(** The confidence of each window in turn: the model sees a window after the
    end of the one before it. *)
Fixpoint judge (rate : Z) (st ctx : list Q) (ws : list (list Q)) : option (list Q * list Q * list Q) :=
  match ws with
  | [] => Some (st, ctx, [])
  | wd :: ws' =>
      match run_session rate (ctx ++ wd) st with
      | Err _ => None
      | Ok (c, st') =>
          match judge rate st' (drop (length wd - getContextSize rate) wd) ws' with
          | Some (st2, ctx2, cs) => Some (st2, ctx2, c :: cs)
          | None => None
          end
      end
  end.

(** What is heard of a stream [xs]: the windows it fills are judged, the rest
    waits. *)
Definition hear (rate : Z) (w : nat) (st ctx xs : list Q)
    : option (list Q * list Q * list Q * list Q) :=
  match judge rate st ctx (blocks (length xs / w) w xs) with
  | Some (st', ctx', cs) => Some (st', ctx', drop (length xs / w * w) xs, cs)
  | None => None
  end.

(** Packets of [ns] samples are answered with the confidence of the last
    window they fill, or 0; [have] samples wait before the first. *)
Fixpoint answers (w have : nat) (ns : list nat) (cs : list Q) : list Q :=
  match ns with
  | [] => []
  | n :: ns' =>
      let k := ((have + n) / w)%nat in
      default 0%Q (last (take k cs)) :: answers w ((have + n) mod w) ns' (drop k cs)
  end.

(** Calls with their times, until one fails. *)
Fixpoint feed (rate : Z) (v : SileroVAD) (packets : list (Z * list Byte.byte))
    : option (SileroVAD * list Q) :=
  match packets with
  | [] => Some (v, [])
  | (now, bs) :: rest =>
      match VoiceConfidence now (λ _, None) bs rate v with
      | (_, Err _) => None
      | (v1, Ok c) =>
          match feed rate v1 rest with
          | Some (v2, cs) => Some (v2, c :: cs)
          | None => None
          end
      end
  end.
End classifier.

(** The state output has the shape [2, 1, 128] it was created with. *)
Class OnnxShapes `{OnnxRuntime} :=
  stateN_length : ∀ rate input st c st', run_session rate input st = Ok (c, st') → length st' = 256%nat.

Definition context_of (rate : Z) (v : SileroVAD) : list Q :=
  match context v with [] => replicate (getContextSize rate) 0%Q | c => c end.

(** A detector whose session for [rate] is up, between two calls. *)
Record ready (rate : Z) (w : nat) (v : SileroVAD) : Prop := mkReady {
  rd_length : getInputLength rate = Ok w;
  rd_init : initialized v = true;
  rd_session : SessionObject ∈ live v;
  rd_rate : lastSampleRate v = rate;
  rd_state : length (state v) = 256%nat;
  rd_context : length (context_of rate v) = getContextSize rate;
  rd_buffer : (length (audioBuffer v) < w)%nat
}.

Section refinement.
Context `{OnnxShapes}.

Lemma copy_into_all (dst src : list Q) : length dst = length src → copy_into dst src = src.
Proof. intros E. unfold copy_into. rewrite E, firstn_all, <-E, drop_all. apply app_nil_r. Qed.

Lemma input_window rate w : getInputLength rate = Ok w →
  (getContextSize rate <= w)%nat ∧ (0 < getContextSize rate)%nat.
Proof.
  unfold getInputLength, getContextSize. destruct (rate =? 8000) eqn:E1.
  - apply Z.eqb_eq in E1 as ->. intros [= <-]. cbn. lia.
  - destruct (rate =? 16000); [|done]. intros [= <-]. lia.
Qed.

Lemma infer_window_judges rate w v :
  getInputLength rate = Ok w → length (state v) = 256%nat →
  length (context_of rate v) = getContextSize rate → (w <= length (audioBuffer v))%nat →
  (getContextSize rate + w <= length (fullInput v))%nat →
  let wd := take w (audioBuffer v) in
  match run_session rate (context_of rate v ++ wd) (state v) with
  | Err e => ∃ v1, infer_window rate w v = (v1, Err ("inference failed: " +:+ e))
  | Ok (c, st') =>
      ∃ v1, infer_window rate w v = (v1, Ok c) ∧ state v1 = st' ∧
        context v1 = drop (w - getContextSize rate) wd ∧
        audioBuffer v1 = drop w (audioBuffer v) ∧ length (fullInput v1) = length (fullInput v) ∧
        live v1 = live v ∧ lastSampleRate v1 = lastSampleRate v ∧ initialized v1 = initialized v ∧
        lastResetTime v1 = lastResetTime v
  end.
Proof.
  intros Hw Hst Hctx Hbuf Hfull wd. destruct (input_window _ _ Hw) as [Hcw _].
  assert (length wd = w) as Hwd by (subst wd; rewrite length_take; lia).
  unfold infer_window. fold (context_of rate v). fold wd.
  rewrite (copy_into_all _ (context_of rate v)) by (rewrite length_take; lia).
  rewrite (copy_into_all _ wd) by (rewrite length_drop, length_take; lia).
  destruct (run_session rate (context_of rate v ++ wd) (state v)) as [[c st']|e] eqn:E; [|by eexists].
  eexists. split; [reflexivity|]. cbn [state context audioBuffer fullInput live lastSampleRate initialized lastResetTime].
  pose proof (stateN_length _ _ _ _ _ E) as Hs.
  rewrite (copy_into_all (state v)) by lia.
  rewrite length_app, Hctx, Hwd.
  replace (getContextSize rate + w - getContextSize rate)%nat with w by lia.
  rewrite (copy_into_all (context_of rate v)) by (rewrite length_drop, length_app; lia).
  repeat split; try done.
  - rewrite drop_app, Hctx. rewrite (drop_ge (context_of rate v)) by lia. done.
  - rewrite length_app, length_app, length_drop, Hctx, Hwd. lia.
Qed.

Lemma context_of_some rate v : context v ≠ [] → context_of rate v = context v.
Proof. unfold context_of. by destruct (context v). Qed.

Lemma windows_loop_judges rate w fuel : ∀ v last0,
  getInputLength rate = Ok w → length (state v) = 256%nat →
  length (context_of rate v) = getContextSize rate →
  (getContextSize rate + w <= length (fullInput v))%nat →
  (length (audioBuffer v) / w <= fuel)%nat →
  let k := (length (audioBuffer v) / w)%nat in
  match judge rate (state v) (context_of rate v) (blocks k w (audioBuffer v)) with
  | None => ∃ v1 e, windows_loop fuel rate w v last0 = (v1, Err e)
  | Some (st', ctx', cs) =>
      ∃ v1, windows_loop fuel rate w v last0 = (v1, Ok (default last0 (last cs))) ∧
        state v1 = st' ∧ context_of rate v1 = ctx' ∧ audioBuffer v1 = drop (k * w) (audioBuffer v) ∧
        live v1 = live v ∧ lastSampleRate v1 = lastSampleRate v ∧ initialized v1 = initialized v ∧
        lastResetTime v1 = lastResetTime v
  end.
Proof.
  induction fuel as [|fuel IH]; intros v last0 Hw Hst Hctx Hfull Hfuel k;
    destruct (input_window _ _ Hw) as [Hcw Hc0].
  - assert (k = 0%nat) as -> by (subst k; lia). by exists v.
  - cbn [windows_loop]. destruct (Nat.ltb_spec (length (audioBuffer v)) w) as [Hlt|Hge].
    { assert (k = 0%nat) as -> by (by apply Nat.div_small). by exists v. }
    assert (k = S ((length (audioBuffer v) - w) / w)) as Hk.
    { subst k. replace (length (audioBuffer v)) with ((length (audioBuffer v) - w) + 1 * w)%nat at 1 by lia.
      rewrite Nat.div_add by lia. lia. }
    rewrite Hk. cbn [blocks judge].
    pose proof (infer_window_judges rate w v Hw Hst Hctx ltac:(lia) Hfull) as Hi. cbn zeta in Hi.
    destruct (run_session rate (context_of rate v ++ take w (audioBuffer v)) (state v)) as [[c st']|e] eqn:E.
    2:{ destruct Hi as [v1 Hi]. exists v1. eexists. by rewrite Hi. }
    destruct Hi as (v1 & Hi & Hs1 & Hx1 & Hb1 & Hf1 & Hl1 & Hr1 & Hn1 & Ht1). rewrite Hi.
    assert (length (take w (audioBuffer v)) = w) as Htk by (rewrite length_take; lia).
    assert (length (context v1) = getContextSize rate) as Hxl by (rewrite Hx1, length_drop; lia).
    assert (context_of rate v1 = context v1) as Hxo.
    { apply context_of_some. intros E0. rewrite E0 in Hxl. cbn in Hxl. lia. }
    specialize (IH v1 c Hw). rewrite Hs1, Hxo, Hf1, Hb1, length_drop in IH.
    specialize (IH ltac:(by eapply stateN_length) Hxl Hfull ltac:(lia)). cbn zeta in IH.
    rewrite Hx1 in IH. rewrite Htk.
    destruct (judge rate st' _ _) as [[[st2 ctx2] cs]|]; [|done].
    destruct IH as (v2 & -> & H1 & H2 & H3 & H4 & H5 & H6 & H7).
    exists v2. repeat split; try congruence.
    + f_equal. f_equal. rewrite last_cons. by destruct (last cs).
    + rewrite H3, drop_drop. f_equal.
Qed.

Lemma judge_app rate ws1 ws2 : ∀ st ctx,
  judge rate st ctx (ws1 ++ ws2) =
  match judge rate st ctx ws1 with
  | Some (st1, ctx1, cs1) =>
      match judge rate st1 ctx1 ws2 with
      | Some (st2, ctx2, cs2) => Some (st2, ctx2, cs1 ++ cs2)
      | None => None
      end
  | None => None
  end.
Proof.
  induction ws1 as [|wd ws1 IH]; intros st ctx; cbn [app judge].
  - by destruct (judge rate st ctx ws2) as [[[]]|].
  - destruct (run_session rate (ctx ++ wd) st) as [[c st1]|]; [|done]. rewrite IH.
    destruct (judge rate st1 _ ws1) as [[[st2 ctx2] cs1]|]; [|done].
    by destruct (judge rate st2 ctx2 ws2) as [[[]]|].
Qed.

Lemma judge_shape rate w k xs : ∀ st ctx st' ctx' cs,
  getInputLength rate = Ok w → (k * w <= length xs)%nat → length st = 256%nat →
  length ctx = getContextSize rate → judge rate st ctx (blocks k w xs) = Some (st', ctx', cs) →
  length st' = 256%nat ∧ length ctx' = getContextSize rate ∧ length cs = k.
Proof.
  revert xs. induction k as [|k IH]; intros xs st ctx st' ctx' cs Hw Hk Hst Hctx; cbn [blocks judge].
  { by intros [= <- <- <-]. }
  destruct (run_session rate (ctx ++ take w xs) st) as [[c st1]|] eqn:E; [|done].
  destruct (judge rate st1 _ _) as [[[st2 ctx2] cs2]|] eqn:E2; [|done]. intros [= <- <- <-].
  destruct (input_window _ _ Hw) as [Hcw _].
  apply IH in E2 as (H1 & H2 & H3); [cbn; auto with lia|done|rewrite length_drop; lia|
    by eapply stateN_length|rewrite length_drop, length_take; lia].
Qed.

Lemma blocks_app k1 k2 w : ∀ xs, blocks (k1 + k2) w xs = blocks k1 w xs ++ blocks k2 w (drop (k1 * w) xs).
Proof.
  induction k1 as [|k1 IH]; intros xs; [done|]. cbn. f_equal. rewrite IH, drop_drop. do 2 f_equal.
Qed.

Lemma blocks_prefix k w ys : ∀ xs, (k * w <= length xs)%nat → blocks k w (xs ++ ys) = blocks k w xs.
Proof.
  induction k as [|k IH]; intros xs Hk; [done|]. cbn in *.
  rewrite take_app_le, drop_app_le by lia. f_equal. apply IH. rewrite length_drop. lia.
Qed.

Lemma hear_app rate w st ctx xs ys : (0 < w)%nat →
  hear rate w st ctx (xs ++ ys) =
  match hear rate w st ctx xs with
  | Some (st1, ctx1, rest, cs1) =>
      match hear rate w st1 ctx1 (rest ++ ys) with
      | Some (st2, ctx2, rest2, cs2) => Some (st2, ctx2, rest2, cs1 ++ cs2)
      | None => None
      end
  | None => None
  end.
Proof.
  intros Hw. unfold hear. set (k1 := (length xs / w)%nat).
  assert (k1 * w <= length xs)%nat as Hk1 by (subst k1; rewrite Nat.mul_comm; by apply Nat.Div0.mul_div_le).
  set (rest := drop (k1 * w) xs). set (k2 := (length (rest ++ ys) / w)%nat).
  assert (length (xs ++ ys) / w = k1 + k2)%nat as ->.
  { subst k2 rest. rewrite !length_app, length_drop.
    replace (length xs + length ys)%nat with (length xs - k1 * w + length ys + k1 * w)%nat by lia.
    rewrite Nat.div_add by lia. lia. }
  rewrite blocks_app, blocks_prefix by done.
  assert (drop (k1 * w) (xs ++ ys) = rest ++ ys) as Hd by (subst rest; by rewrite drop_app_le).
  rewrite Hd, judge_app. destruct (judge rate st ctx (blocks k1 w xs)) as [[[st1 ctx1] cs1]|]; [|done].
  destruct (judge rate st1 ctx1 _) as [[[st2 ctx2] cs2]|]; [|done].
  do 3 f_equal. rewrite Nat.mul_add_distr_r, <-drop_drop. by rewrite Hd.
Qed.

Lemma ensure_ready fails rate w v : ready rate w v → ensure_session fails rate v = (v, Ok tt).
Proof.
  intros [_ _ Hs Hr _ _ _]. unfold ensure_session. by rewrite bool_decide_true, Hr, Z.eqb_refl by done.
Qed.

Lemma size_input_same expected v :
  let v1 := size_input expected v in
  (expected <= length (fullInput v1))%nat ∧ state v1 = state v ∧ context v1 = context v ∧
  audioBuffer v1 = audioBuffer v ∧ live v1 = live v ∧ lastSampleRate v1 = lastSampleRate v ∧
  initialized v1 = initialized v ∧ lastResetTime v1 = lastResetTime v.
Proof.
  unfold size_input. destruct (Nat.ltb_spec (length (fullInput v)) expected); cbn; repeat split; try done.
  rewrite length_replicate. lia.
Qed.

(** One call on a ready detector. *)
Lemma call_hears rate w v now fails bs :
  ready rate w v → now - lastResetTime v < MODEL_RESET_STATES_TIME →
  match hear rate w (state v) (context_of rate v) (audioBuffer v ++ bytesToFloat32Prealloc bs) with
  | None => ∃ v1 e, VoiceConfidence now fails bs rate v = (v1, Err e)
  | Some (st', ctx', rest, cs) =>
      ∃ v1, VoiceConfidence now fails bs rate v = (v1, Ok (default 0%Q (last cs))) ∧ ready rate w v1 ∧
        state v1 = st' ∧ context_of rate v1 = ctx' ∧ audioBuffer v1 = rest ∧
        lastResetTime v1 = lastResetTime v
  end.
Proof.
  intros Hr Ht. pose proof (ensure_ready fails _ _ _ Hr) as He.
  destruct Hr as [Hw Hi Hse Hra Hst Hctx Hb]. unfold VoiceConfidence. rewrite Hi. cbn [negb].
  unfold reset_if_due. rewrite (proj2 (Z.leb_gt _ _) Ht), Hw, He. cbn [audioBuffer set_buffer].
  set (ys := audioBuffer v ++ bytesToFloat32Prealloc bs).
  destruct (input_window _ _ Hw) as [Hcw Hc0]. unfold hear.
  destruct (Nat.ltb_spec (length ys) w) as [Hlt|Hge].
  { rewrite (Nat.div_small (length ys) w) by done. cbn [blocks judge]. eexists. split; [done|]. by repeat split. }
  destruct (size_input_same (getContextSize rate + w) (set_buffer v ys)) as (Hf & S1 & S2 & S3 & S4 & S5 & S6 & S7).
  set (v3 := size_input _ _) in *. cbn in S1, S2, S3, S4, S5, S6, S7.
  assert (context_of rate v3 = context_of rate v) as Hc3 by (unfold context_of; by rewrite S2).
  pose proof (windows_loop_judges rate w (length (audioBuffer v3)) v3 0%Q Hw) as Hl.
  rewrite S1, S3, Hc3 in Hl. specialize (Hl Hst Hctx Hf ltac:(apply Nat.Div0.div_le_upper_bound; nia)).
  cbn zeta in Hl. rewrite S3.
  destruct (judge rate (state v) _ _) as [[[st' ctx'] cs]|] eqn:E; [|exact Hl].
  destruct Hl as (v1 & Hl & H1 & H2 & H3 & H4 & H5 & H6 & H7). exists v1. split; [exact Hl|].
  apply (judge_shape _ _ _ _ _ _ _ _ _ Hw) in E as (E1 & E2 & _); [|rewrite Nat.mul_comm; by apply Nat.Div0.mul_div_le|done|done].
  split; [|repeat split; congruence]. split; try congruence.
  rewrite H3, length_drop. pose proof (Nat.div_mod (length ys) w ltac:(lia)).
  pose proof (Nat.mod_upper_bound (length ys) w ltac:(lia)). lia.
Qed.

Lemma hear_counts rate w st ctx xs st' ctx' rest cs :
  getInputLength rate = Ok w → length st = 256%nat → length ctx = getContextSize rate →
  hear rate w st ctx xs = Some (st', ctx', rest, cs) →
  length cs = (length xs / w)%nat ∧ length rest = (length xs mod w)%nat.
Proof.
  intros Hw Hst Hctx. unfold hear. destruct (input_window _ _ Hw) as [Hcw Hc0].
  destruct (judge rate st ctx _) as [[[st1 ctx1] cs1]|] eqn:E; [|done]. intros [= <- <- <- <-].
  apply (judge_shape _ _ _ _ _ _ _ _ _ Hw) in E as (_ & _ & E);
    [|rewrite Nat.mul_comm; by apply Nat.Div0.mul_div_le|done|done].
  split; [done|]. rewrite length_drop. pose proof (Nat.div_mod (length xs) w ltac:(lia)). lia.
Qed.

(** C22: The classifier hears one stream.  However the samples of a stream are cut
    into packets, the windows put to the model are the successive windows of the
    stream, each after the end of the one before, with the hidden state
    carried over; a packet is answered with the confidence of the last window it
    fills, or with 0 when it fills none; and the calls fail exactly when an
    inference fails.  This is between two resets of the model. *)
Theorem classifier_hears_one_stream (rate : Z) (w : nat) (v : SileroVAD)
    (packets : list (Z * list Byte.byte)) (Hready : ready rate w v)
    (Htimes : Forall (λ p, p.1 - lastResetTime v < MODEL_RESET_STATES_TIME) packets) :
  let parts := map (λ p, bytesToFloat32Prealloc p.2) packets in
  match hear rate w (state v) (context_of rate v) (audioBuffer v ++ mjoin parts) with
  | Some (st', ctx', rest, cs) =>
      ∃ v', feed rate v packets =
              Some (v', answers w (length (audioBuffer v)) (map length parts) cs) ∧
        ready rate w v' ∧ state v' = st' ∧ context_of rate v' = ctx' ∧ audioBuffer v' = rest
  | None => feed rate v packets = None
  end.
Proof.
  intros parts. subst parts. revert v Hready Htimes.
  induction packets as [|[now bs] packets IH]; intros v Hr Ht.
  - cbn [map mjoin list_join feed answers]. rewrite app_nil_r. unfold hear.
    rewrite Nat.div_small by apply Hr. cbn. eexists. split; [reflexivity|done].
  - apply Forall_cons in Ht as [Ht0 Ht]. cbn [map mjoin list_join feed answers snd].
    destruct (input_window _ _ (rd_length _ _ _ Hr)) as [Hcw Hc0].
    rewrite app_assoc, hear_app by lia.
    pose proof (call_hears rate w v now (λ _, None) bs Hr Ht0) as Hc.
    destruct (hear rate w (state v) (context_of rate v) _) as [[[[st1 ctx1] rest1] cs1]|] eqn:E1.
    2:{ destruct Hc as (v1 & e & ->). done. }
    destruct (hear_counts _ _ _ _ _ _ _ _ _ (rd_length _ _ _ Hr) (rd_state _ _ _ Hr) (rd_context _ _ _ Hr) E1)
      as [Hn1 Hn2]. rewrite length_app in Hn1, Hn2.
    destruct Hc as (v1 & -> & Hr1 & <- & <- & <- & Htm). specialize (IH v1 Hr1). rewrite Htm in IH.
    specialize (IH Ht). destruct (hear rate w (state v1) _ _) as [[[[st2 ctx2] rest2] cs2]|]; [|by rewrite IH].
    destruct IH as (v2 & -> & Hr2 & <- & <- & <-). exists v2. split; [|done].
    rewrite <-Hn1, take_app_length, drop_app_length, <-Hn2. done.
Qed.
End refinement.

(** ** Life cycle *)

Section life_cycle.
Context `{OnnxRuntime}.

Inductive vad_op : Type :=
| OpInitialize (answer : result unit)
| OpConfidence (now : Z) (fails : ort_object → option string) (bs : list Byte.byte) (rate : Z)
| OpClose.

(** A call, with the process-wide flag of the environment. *)
Definition vad_step (s : bool * SileroVAD) (o : vad_op) : bool * SileroVAD :=
  match o with
  | OpInitialize answer => (Initialize s.1 answer s.2).1
  | OpConfidence now fails bs rate => (s.1, (VoiceConfidence now fails bs rate s.2).1)
  | OpClose => (s.1, Close s.2)
  end.

Definition vad_run (s : bool * SileroVAD) (ops : list vad_op) : bool * SileroVAD := fold_left vad_step ops s.

(** What a detector holds of the runtime. *)
Record owns (v : SileroVAD) : Prop := mkOwns {
  own_prefix : ∃ k, live v = take k ort_objects;
  own_init : live v ≠ [] → initialized v = true
}.

(** Windows change nothing of that. *)
Definition same_objects (v v' : SileroVAD) : Prop :=
  live v' = live v ∧ initialized v' = initialized v ∧ length (state v') = length (state v).

Lemma infer_window_same rate w v : same_objects v (infer_window rate w v).1.
Proof.
  unfold infer_window. destruct (run_session _ _ _) as [[c st]|]; repeat split; cbn.
  unfold copy_into. rewrite length_app, length_take, length_drop. lia.
Qed.

Lemma windows_loop_same rate w fuel : ∀ v c, same_objects v (windows_loop fuel rate w v c).1.
Proof.
  induction fuel as [|fuel IH]; intros v c; cbn [windows_loop]; [done|].
  destruct (Nat.ltb _ _); [done|]. pose proof (infer_window_same rate w v) as Hi.
  destruct (infer_window rate w v) as [v1 [c1|e]]; [|exact Hi]. specialize (IH v1 c1).
  unfold same_objects in *. cbn in Hi. intuition congruence.
Qed.

Lemma windows_loop_drains rate w fuel : ∀ v c v' c', (0 < w)%nat → (length (audioBuffer v) <= fuel)%nat →
  windows_loop fuel rate w v c = (v', Ok c') → (length (audioBuffer v') < w)%nat.
Proof.
  induction fuel as [|fuel IH]; intros v c v' c' Hw Hf; cbn [windows_loop].
  { intros [= <- _]. lia. }
  destruct (Nat.ltb_spec (length (audioBuffer v)) w); [by intros [= <- _]|].
  unfold infer_window at 1. destruct (run_session _ _ _) as [[x st]|]; [|done]. apply IH; [done|].
  cbn. rewrite length_drop. lia.
Qed.

Lemma create_objects_owns fails os : ∀ v k, live v = take k ort_objects → drop k ort_objects = os →
  ∃ k', live (create_objects fails v os).1 = take k' ort_objects ∧
    initialized (create_objects fails v os).1 = initialized v ∧
    (length (state (create_objects fails v os).1) = length (state v)).
Proof.
  induction os as [|o os IH]; intros v k Hl Hd; cbn; [by exists k|].
  destruct (fails o) as [e|]; [by exists k|].
  destruct (IH (set_live v (live v ++ [o])) (S k)) as (k' & H1 & H2 & H3); [| |by exists k'].
  - assert (ort_objects !! k = Some o) as Ho by (by rewrite <-(Nat.add_0_r k), <-lookup_drop, Hd).
    apply take_S_r in Ho. rewrite Ho, <-Hl. done.
  - by rewrite <-Nat.add_1_r, <-drop_drop, Hd.
Qed.

Lemma ensure_session_owns fails rate v : initialized v = true → owns v →
  let v1 := (ensure_session fails rate v).1 in
  owns v1 ∧ initialized v1 = true ∧ length (state v1) = length (state v).
Proof.
  intros Hi Ho. unfold ensure_session. destruct (_ || _); [|done]. unfold createTensors.
  destruct (create_objects_owns fails ort_objects (destroyTensors v) 0 eq_refl eq_refl) as (k & H1 & H2 & H3).
  destruct (create_objects fails (destroyTensors v) ort_objects) as [v1 [[]|e]]; cbn in *;
    (split; [split; [by exists k|intros _]|]); cbn; by rewrite ?H2.
Qed.

Lemma owns_same v v' : same_objects v v' → owns v → owns v'.
Proof. intros (H1 & H2 & _) [H3 H4]. split; by rewrite ?H1, ?H2. Qed.

Lemma step_owns s o : owns s.2 → owns (vad_step s o).2.
Proof.
  destruct s as [env v], o as [answer|now fails bs rate|]; cbn; intros Ho.
  - unfold Initialize. destruct (initialized v) eqn:Ei; [done|]. destruct (if env then _ else _); [|done].
    destruct Ho as [H1 H2]. split; [done|by intros _].
  - unfold VoiceConfidence. destruct (initialized v) eqn:Ei; cbn [negb]; [|done].
    assert (same_objects v (reset_if_due now v)) as Hs.
    { unfold reset_if_due. case_match; repeat split; cbn. by rewrite length_map. }
    pose proof (owns_same _ _ Hs Ho) as Ho0. destruct Hs as (_ & Hi & _).
    destruct (getInputLength rate) as [w|]; [|done].
    pose proof (ensure_session_owns fails rate _ ltac:(by rewrite Hi) Ho0) as (Ho1 & _ & _).
    destruct (ensure_session _ _ _) as [v1 [[]|]]; cbn [fst] in *; [|done].
    destruct (Nat.ltb _ _); cbn [fst]; [by apply (owns_same v1)|].
    eapply owns_same; [apply windows_loop_same|]. unfold size_input.
    case_match; by apply (owns_same v1).
  - unfold Close. destruct (initialized v) eqn:Ei; [|done]. split; [by exists 0%nat|done].
Qed.

(** Whatever is called, at whatever sample rates and with whatever failures of
    the runtime, a detector never creates an object while it holds one of the
    same kind, so none is lost; it holds objects only while it is
    initialised, and none after [Close]; and no call without an error leaves a
    whole window waiting. *)
Theorem runtime_objects_owned (cfg : SileroVADConfig) (now0 : Z) (env : bool) (ops : list vad_op) :
  let v := (vad_run (env, NewSileroVAD cfg now0) ops).2 in
  NoDup (live v) ∧ (live v ≠ [] → initialized v = true) ∧ live (Close v) = [] ∧
  ∀ now fails bs rate w v' c, getInputLength rate = Ok w →
    VoiceConfidence now fails bs rate v = (v', Ok c) → (length (audioBuffer v') < w)%nat.
Proof.
  intros v. assert (owns v) as [[k Hk] Hi].
  { subst v. unfold vad_run. set (s := (env, NewSileroVAD cfg now0)).
    assert (owns s.2) as Hs by (split; [by exists 0%nat|intros Hn; by destruct Hn]). clearbody s.
    revert s Hs. induction ops as [|o ops IH]; intros s Hs; [done|]. cbn. apply IH. by apply step_owns. }
  assert (NoDup ort_objects) as Hnd by (by apply (bool_decide_unpack _); vm_compute).
  split; [|split; [done|split]].
  - rewrite Hk. eapply sublist_NoDup; [exact Hnd|]. apply sublist_take.
  - unfold Close. destruct (initialized v) eqn:E; [done|]. destruct (live v); [done|]. by specialize (Hi ltac:(done)).
  - intros now fails bs rate w v' c Hw. unfold VoiceConfidence. destruct (negb _); [done|]. rewrite Hw.
    destruct (ensure_session _ _ _) as [v1 [[]|]]; [|done].
    destruct (Nat.ltb_spec (length (audioBuffer (set_buffer v1 (audioBuffer v1 ++ bytesToFloat32Prealloc bs)))) w);
      [by intros [= <- _]|].
    apply windows_loop_drains; [|done]. unfold getInputLength in Hw. repeat case_match; simplify_eq; lia.
Qed.
End life_cycle.

(** ** The service *)

Record Config := mkConfig {
  svc_OnnxPath : string;
  svc_OnnxRuntimePath : string;
  svc_Threshold : Q
}.

Definition DefaultConfig : Config :=
  mkConfig "./external/models/silero_vad.onnx" "./external/onnx/libonnxruntime.so" (10066330 # 33554432).

Section service.
Context `{OnnxRuntime} {L : AudioLibs}.

Record SileroVadService := mkService {
  vad : SileroVAD;
  denoiser : RNNoiseDenoiser
}.

Definition NewSileroVadService (cfg : Config) (now : Z) : result SileroVadService :=
  let v := NewSileroVAD (mkSileroConfig (svc_OnnxPath cfg) (svc_OnnxRuntimePath cfg) (svc_Threshold cfg)) now in
  match NewRNNoiseDenoiser 16000 1 with
  | Err e => Err ("failed to create RNNoise denoiser: " +:+ e)
  | Ok d => Ok (mkService v d)
  end.

Definition svc_Initialize (env : bool) (answer : result unit) (s : SileroVadService)
    : bool * SileroVadService * result unit :=
  let '(env', v, r) := Initialize env answer (vad s) in (env', mkService v (denoiser s), r).

(** [RNNoiseDenoiser.Close]: the resamplers are nil afterwards, as is the
    model. *)
Definition denoiser_Close (d : RNNoiseDenoiser) : RNNoiseDenoiser :=
  mkDenoiser (model d) (inputSR d) (inputCh d) None None (inBuf d).

Definition svc_Cleanup (s : SileroVadService) : SileroVadService :=
  mkService (Close (vad s)) (denoiser_Close (denoiser s)).

(** [None] is a panic: nil data, or one of the conversion or the denoiser. *)
Definition ProcessAudio (ps : Pools) (now : Z) (fails : ort_object → option string) (input : AudioChunk)
    (s : SileroVadService) : option (Pools * SileroVadService * result VADResult) :=
  match ConvertAudioChunk ps input PCM 1 16000 with
  | None => None
  | Some (ps1, Err e) => Some (ps1, s, Err ("convert failed: " +:+ e))
  | Some (ps1, Ok converted) =>
      match DenoiseChunk (denoiser s) converted with
      | None => None
      | Some (d, Err e) => Some (ps1, mkService (vad s) d, Err ("denoise failed: " +:+ e))
      | Some (d, Ok denoised) =>
          match (match Data denoised with
                 | None => None
                 | Some [] => Data converted
                 | Some bs => Some bs
                 end) with
          | None => None
          | Some vadInput =>
              let '(v, r) := VoiceConfidence now fails vadInput 16000 (vad s) in
              Some (ps1, mkService v d,
                    match r with
                    | Err e => Err ("VAD processing failed: " +:+ e)
                    | Ok conf => Ok (mkVADResult conf true)
                    end)
          end
      end
  end.

(** Every answer says that it is ready. *)
Lemma every_answer_is_ready ps now fails input s ps' s' r :
  ProcessAudio ps now fails input s = Some (ps', s', Ok r) → Core.Ready r = true.
Proof.
  unfold ProcessAudio. destruct (ConvertAudioChunk _ _ _ _ _) as [[ps1 [c|]]|]; [|done..].
  destruct (DenoiseChunk _ _) as [[d [x|]]|]; [|done..].
  destruct (match Data x with None => None | Some [] => Data c | Some bs => Some bs end); [|done].
  destruct (VoiceConfidence _ _ _ _ _) as [v [q|]]; [|done]. by intros [= _ _ <-].
Qed.

(** A call that fills no window is answered with confidence 0, on which the
    handler acts as on silence: here with 16 kHz mono input whose denoised
    samples do not fill a window. *)
Lemma unfilled_window_is_silence ps now fails input s d denoised bs h (t : Z) :
  Format input = PCM → Channels input = 1 → SampleRate input = 16000 →
  DenoiseChunk (denoiser s) input = Some (d, Ok denoised) → Data denoised = Some bs → bs ≠ [] →
  ready 16000 512 (vad s) → now - lastResetTime (vad s) < MODEL_RESET_STATES_TIME →
  (length (audioBuffer (vad s)) + length (bytesToFloat32Prealloc bs) < 512)%nat →
  Qle_bool (MinConfidence (Vad.config h)) 0 = false →
  ∃ s', ProcessAudio ps now fails input s = Some (ps, s', Ok (mkVADResult 0 true)) ∧
    handleTransportAudio t (Ok (mkVADResult 0 true)) h = quiet_chunk t (reset_patience t h).
Proof.
  intros Hf Hc Hr Hd Hx Hne Hready Ht Hlen Hmin. unfold ProcessAudio, ConvertAudioChunk.
  rewrite Hf, Hc, Hr. cbn [negb andb Z.eqb Pos.eqb]. rewrite bool_decide_true by done. cbn [negb andb].
  rewrite Hd, Hx. destruct bs as [|b bs]; [done|].
  pose proof (ensure_ready fails _ _ _ Hready) as He. destruct Hready as [Hw Hi _ _ _ _ _].
  unfold VoiceConfidence, reset_if_due. rewrite Hi, (proj2 (Z.leb_gt _ _) Ht), Hw, He. cbn [negb].
  cbn [audioBuffer set_buffer]. rewrite (proj2 (Nat.ltb_lt _ _)) by (rewrite length_app; lia).
  eexists. split; [done|]. unfold handleTransportAudio. cbn [Confidence].
  assert (Vad.config (reset_patience t h) = Vad.config h) as ->.
  { unfold reset_patience. by repeat case_match. }
  by rewrite Hmin.
Qed.
End service.

(** When initialising the environment failed once, later detectors report
    success although there is no environment. *)
Lemma failed_environment_forgotten cfg now e :
  (Initialize false (Err e) (NewSileroVAD cfg now)).2 = Err ("failed to initialize ONNX environment: " +:+ e) ∧
  (Initialize (Initialize false (Err e) (NewSileroVAD cfg now)).1.1 (Err e) (NewSileroVAD cfg now)).2 = Ok tt.
Proof. done. Qed.

(** ** Examples *)

(** A model that answers with its first new sample and remembers nothing. *)
#[export] Instance toy_onnx : OnnxRuntime := {|
  run_session := λ rate input st, Ok (nth (getContextSize rate) input 0%Q, replicate 256 0%Q)
|}.

#[export] Instance toy_shapes : OnnxShapes.
Proof. by intros rate input st c st' [= _ <-]. Qed.

(** Packets of [n] samples of value 1/32768. *)
Definition packet (n : nat) : list Byte.byte := mjoin (replicate n [x01; x00]).

Definition toy_detector : SileroVAD :=
  mkSilero DefaultSileroVADConfig ort_objects (replicate 256 0%Q) [] [] 0 16000 [] true.

Lemma toy_ready : ready 16000 512 toy_detector.
Proof. split; try done; [cbn; set_solver|cbn; lia]. Qed.

(** Speech in packets of 20 ms: two of five answers are 0. *)
Example speech_in_20ms_packets :
  snd <$> feed 16000 toy_detector (replicate 5 (0, packet 320)) =
  Some [0%Q; 1 # 32768; 0%Q; 1 # 32768; 1 # 32768].
Proof. vm_compute. reflexivity. Qed.

Lemma classifier_hears_one_stream_witness :
  ∃ v', feed 16000 toy_detector (replicate 2 (0, packet 320)) = Some (v', [0%Q; 1 # 32768]) ∧
    ready 16000 512 v' ∧ length (audioBuffer v') = 128%nat.
Proof.
  pose proof (classifier_hears_one_stream 16000 512 toy_detector (replicate 2 (0, packet 320)) toy_ready
    ltac:(by repeat constructor)) as Hw.
  cbn zeta in Hw.
  destruct (hear _ _ _ _ _) as [[[[st ctx] rest] cs]|] eqn:E; [|by vm_compute in E].
  vm_compute in E. injection E as <- <- <- <-. destruct Hw as (v' & E & Hr & _ & _ & Hb).
  exists v'. split; [exact E|]. by rewrite Hb.
Defined.

Lemma runtime_objects_owned_witness :
  let v := (vad_run (false, NewSileroVAD DefaultSileroVADConfig 0)
              [OpInitialize (Ok tt); OpConfidence 1 (λ _, None) (packet 10) 16000;
               OpConfidence 2 (λ o, if bool_decide (o = SessionObject) then Some "no model" else None) (packet 10) 8000]).2 in
  live v = take 5 ort_objects ∧ NoDup (live v) ∧ live (Close v) = [].
Proof.
  split; [vm_compute; reflexivity|].
  match goal with |- context [vad_run ?s ?ops] =>
    pose proof (runtime_objects_owned DefaultSileroVADConfig 0 false ops) as (H1 & _ & H2 & _) end.
  by split.
Defined.

(** After the sample rate rose the context keeps its old size, and the windows
    are shifted: the first new sample is not where the model expects it. *)
Example context_not_resized :
  let v8 := (VoiceConfidence 0 (λ _, None) (packet 256) 8000 toy_detector).1 in
  length (context v8) = 32%nat ∧
  length (context (VoiceConfidence 0 (λ _, None) (packet 1024) 16000 v8).1) = 32%nat.
Proof. vm_compute. done. Qed.
