(* ===== verification/Logger.v ===== *)
(** * Logging: [core/logger.go], [core/storage_logger.go]

    A [Logger] is a handler and attributes.  A call takes a message and
    arguments, which are either key-value pairs or the arguments of a format;
    the development handler prints a line, and a session logger also hands the
    record to a [LogWriter], here the one that appends JSON lines to a file.

    A handler is modelled by the effects of a call, which end at an exit of the
    process or a panic.  A file is the documents written to it; what the file
    system answers is an argument.  Formats are those the program uses: one verb,
    without flags or widths. *)

From stdpp Require Import sorting.
From Stdlib Require Import Ascii.
From S2P Require Import Prelude Core Json.

Local Open Scope string_scope.
Local Open Scope list_scope.
Local Open Scope Z_scope.

(** ** Values and formats *)

(** A value given to a logger.  Of the types the program does not print by
    itself ([LogOther]) the name, the text under each verb and the JSON encoding
    are given.  Errors made by [errors] and [fmt] have no exported field. *)
Inductive log_value : Type :=
| LogString (s : string)
| LogInt (z : Z)
| LogBool (b : bool)
| LogError (type msg : string)
| LogOther (type : string) (text : ascii → string) (json : option any).

Definition type_name (v : log_value) : string :=
  match v with
  | LogString _ => "string"
  | LogInt _ => "int"
  | LogBool _ => "bool"
  | LogError t _ => t
  | LogOther t _ _ => t
  end.

Definition text_v (v : log_value) : string :=
  match v with
  | LogString s => s
  | LogInt z => itoa z
  | LogBool b => if b then "true" else "false"
  | LogError _ s => s
  | LogOther _ text _ => text "v"%char
  end.

(** [json.Marshal]; [None] is its error. *)
Definition value_json (v : log_value) : option any :=
  match v with
  | LogString s => Some (AnyString s)
  | LogInt z => Some (AnyNumber (itoa z))
  | LogBool b => Some (AnyBool b)
  | LogError _ _ => Some (AnyMap [])
  | LogOther _ _ json => json
  end.

Definition bad_verb (verb : ascii) (v : log_value) : string :=
  "%!" +:+ String verb ("(" +:+ type_name v +:+ "=" +:+ text_v v +:+ ")").

Definition format_verb (verb : ascii) (v : log_value) : string :=
  match v with
  | LogOther _ text _ => text verb
  | _ =>
      if Ascii.eqb verb "v" then text_v v
      else match v with
      | LogString s | LogError _ s =>
          if Ascii.eqb verb "s" then s else if Ascii.eqb verb "q" then quote s else bad_verb verb v
      | LogInt z => if Ascii.eqb verb "d" then itoa z else bad_verb verb v
      | LogBool b => if Ascii.eqb verb "t" then text_v v else bad_verb verb v
      | LogOther _ text _ => text verb
      end
  end.

(** Arguments the format did not use. *)
Definition extra_args (args : list log_value) : string :=
  match args with
  | [] => ""
  | _ => "%!(EXTRA " +:+ str_join ", " (map (λ v, type_name v +:+ "=" +:+ text_v v) args) +:+ ")"
  end.

(** [fmt.Sprintf]. *)
Fixpoint sprintf_chars (format : list ascii) (args : list log_value) : string :=
  match format with
  | [] => extra_args args
  | c :: rest =>
      if Ascii.eqb c "%" then
        match rest with
        | [] => "%!(NOVERB)" +:+ extra_args args
        | verb :: rest' =>
            if Ascii.eqb verb "%" then "%" +:+ sprintf_chars rest' args
            else match args with
            | [] => "%!" +:+ String verb "(MISSING)" +:+ sprintf_chars rest' []
            | a :: args' => format_verb verb a +:+ sprintf_chars rest' args'
            end
        end
      else String c (sprintf_chars rest args)
  end.

Definition Sprintf (format : string) (args : list log_value) : string :=
  sprintf_chars (str_chars format) args.

(** ** Loggers *)

Abbreviation attributes := (gmap string log_value).

Inductive log_effect : Type :=
| PrintLine (stderr : bool) (level msg : string) (attrs : attributes)
| ExitProcess
| PanicWith (msg : string)
| WriteRecord (level msg : string) (attrs : attributes).    (* of the session's [LogWriter] *)

Definition log_handler : Type := string → string → attributes → list log_effect.

Record Logger := mkLogger {
  handlerFunc : option log_handler;
  attrs : attributes
}.

Definition NewLogger (handler : option log_handler) : Logger := mkLogger handler ∅.

(** One line of the development handler; Go ranges over the attributes in some
    order. *)
Definition log_line (now level msg : string) (order : list (string * log_value)) : string :=
  let attrStr := match order with
                 | [] => ""
                 | _ => " | " +:+ str_join " " (map (λ kv, kv.1 +:+ "=" +:+ text_v kv.2) order)
                 end in
  now +:+ " [" +:+ level +:+ "] " +:+ msg +:+ attrStr +:+ newline.

Definition development_handler : log_handler := λ level msg attrs,
  if String.eqb level "FATAL" then [PrintLine true level msg attrs; ExitProcess]
  else if String.eqb level "PANIC" then [PrintLine true level msg attrs; PanicWith msg]
  else [PrintLine false level msg attrs].

Definition NewDevelopmentLogger : Logger := mkLogger (Some development_handler) ∅.

Fixpoint isKeyValuePairs (args : list log_value) : bool :=
  match args with
  | [] => true
  | [_] => false
  | LogString _ :: _ :: rest => isKeyValuePairs rest
  | _ => false
  end.

Fixpoint add_pairs (m : attributes) (args : list log_value) : attributes :=
  match args with
  | LogString k :: v :: rest => add_pairs (<[k := v]> m) rest
  | _ => m
  end.

Definition log (l : Logger) (level msg : string) (args : list log_value) : list log_effect :=
  match handlerFunc l with
  | None => []
  | Some handler =>
      match args with
      | [] => handler level msg (attrs l)
      | _ => if isKeyValuePairs args then handler level msg (add_pairs (attrs l) args)
             else handler level (Sprintf msg args) (attrs l)
      end
  end.

(** The attributes given last win. *)
Definition With (l : Logger) (extra : attributes) : Logger := mkLogger (handlerFunc l) (extra ∪ attrs l).

Definition Debug (l : Logger) := log l "DEBUG".
Definition Debugf (l : Logger) := log l "DEBUG".
Definition Info (l : Logger) := log l "INFO".
Definition Infof (l : Logger) := log l "INFO".
Definition Warn (l : Logger) := log l "WARN".
Definition Warnf (l : Logger) := log l "WARN".
Definition Error (l : Logger) := log l "ERROR".
Definition Errorf (l : Logger) := log l "ERROR".
Definition Fatal (l : Logger) := log l "FATAL".
Definition Fatalf (l : Logger) := log l "FATAL".
Definition Panic (l : Logger) := log l "PANIC".
Definition Panicf (l : Logger) := log l "PANIC".
Definition Trace (l : Logger) := log l "TRACE".
Definition Tracef (l : Logger) := log l "TRACE".

(** ** The session's log *)

Definition stops (e : log_effect) : bool :=
  match e with ExitProcess | PanicWith _ => true | _ => false end.

Definition and_then (a b : list log_effect) : list log_effect := if existsb stops a then a else a ++ b.

Definition NewSessionLogger (baseLogger : Logger) : Logger :=
  mkLogger (Some (λ level msg attrs,
    and_then match handlerFunc baseLogger with Some h => h level msg attrs | None => [] end
             [WriteRecord level msg attrs])) ∅.

Record SessionMetadata := mkMetadata {
  sm_SessionID : string;
  sm_RoomName : string;
  StartedAt : string
}.

Definition metadata_json (m : SessionMetadata) : document :=
  AnyMap ([("session_id", AnyString (sm_SessionID m))] ++
          optional (String.eqb (sm_RoomName m) "") "room_name" (AnyString (sm_RoomName m)) ++
          [("started_at", AnyString (StartedAt m))]).

Record LogEntry := mkEntry {
  Timestamp : string;
  Level : string;
  Message : string;
  Attrs : attributes
}.

(** Maps are encoded with sorted keys. *)
Definition key_le (a b : string * log_value) : Prop := String.leb a.1 b.1 = true.

#[export] Instance key_le_dec : RelDecision key_le := λ a b, decide (String.leb a.1 b.1 = true).

Definition sorted_attrs (m : attributes) : list (string * log_value) := merge_sort key_le (map_to_list m).

Definition entry_json (e : LogEntry) : option document :=
  match mapM (λ kv, match value_json kv.2 with Some a => Some (kv.1, a) | None => None end)
          (sorted_attrs (Attrs e)) with
  | None => None
  | Some l => Some (AnyMap ([("ts", AnyString (Timestamp e)); ("level", AnyString (Level e));
                             ("msg", AnyString (Message e))] ++
                            optional (bool_decide (length l = 0%nat)) "attrs" (AnyMap l)))
  end.

(** The file of a session, with its marker. *)
Record SessionLogWriter := mkWriter {
  file : bool;                     (* not nil *)
  lines : list document;
  active : bool
}.

Definition NewSessionLogWriter (mkdir create : result unit) (mark : bool) (logDir filePath sessionID roomName now : string)
    : result SessionLogWriter :=
  match mkdir with
  | Err e => Err ("storage logger: mkdir " +:+ quote logDir +:+ ": " +:+ e)
  | Ok _ =>
      match create with
      | Err e => Err ("storage logger: create " +:+ quote filePath +:+ ": " +:+ e)
      | Ok _ => Ok (mkWriter true [metadata_json (mkMetadata sessionID roomName now)] mark)
      end
  end.

Definition Write (w : SessionLogWriter) (now level msg : string) (attrs : attributes) : SessionLogWriter :=
  match entry_json (mkEntry now level msg attrs) with
  | None => w
  | Some data => if file w then mkWriter true (lines w ++ [data]) (active w) else w
  end.

Definition Close (w : SessionLogWriter) : SessionLogWriter := mkWriter false (lines w) false.

(** The effects of a call on the session's writer. *)
Fixpoint apply_effects (w : SessionLogWriter) (now : string) (es : list log_effect) : SessionLogWriter :=
  match es with
  | [] => w
  | WriteRecord level msg attrs :: es' => apply_effects (Write w now level msg attrs) now es'
  | e :: es' => if stops e then w else apply_effects w now es'
  end.

(** A call through a logger derived from [l] by [With]: its time, the
    attributes given on the way, level, message and arguments. *)
Record log_call := mkCall {
  c_now : string;
  c_with : list attributes;
  c_level : string;
  c_msg : string;
  c_args : list log_value
}.

Definition do_call (l : Logger) (c : log_call) : list log_effect :=
  log (fold_left With (c_with c) l) (c_level c) (c_msg c) (c_args c).

(** Calls in turn; an exit or a panic is the end. *)
Fixpoint run_calls (l : Logger) (w : SessionLogWriter) (cs : list log_call) : SessionLogWriter :=
  match cs with
  | [] => w
  | c :: cs' =>
      let es := do_call l c in
      let w1 := apply_effects w (c_now c) es in
      if existsb stops es then w1 else run_calls l w1 cs'
  end.

(** ** Properties *)

(** The record a call stands for: what was given last for a key counts, and the
    message is formatted unless the arguments are pairs. *)
Definition record_of (c : log_call) : LogEntry :=
  let given := fold_left (λ m extra, extra ∪ m) (c_with c) ∅ in
  if isKeyValuePairs (c_args c)
  then mkEntry (c_now c) (c_level c) (c_msg c) (add_pairs given (c_args c))
  else mkEntry (c_now c) (c_level c) (Sprintf (c_msg c) (c_args c)) given.

Lemma derived_handler l ms : handlerFunc (fold_left With ms l) = handlerFunc l.
Proof. revert l. induction ms as [|m ms IH]; intros l; [done|]. cbn. by rewrite IH. Qed.

Lemma derived_attrs l ms :
  attrs (fold_left With ms l) = fold_left (λ m extra, extra ∪ m) ms (attrs l).
Proof. revert l. induction ms as [|m ms IH]; intros l; [done|]. cbn. by rewrite IH. Qed.

(** A call hands its record to the handler. *)
Lemma log_record l c : attrs l = ∅ →
  do_call l c = match handlerFunc l with
                | None => []
                | Some h => h (Level (record_of c)) (Message (record_of c)) (Attrs (record_of c))
                end.
Proof.
  intros Hl. unfold do_call, log, record_of. rewrite derived_handler, derived_attrs, Hl.
  destruct (handlerFunc l) as [h|]; [|done]. destruct (c_args c) as [|a args]; [done|].
  by destruct (isKeyValuePairs (a :: args)).
Qed.

Lemma record_level c : Level (record_of c) = c_level c.
Proof. unfold record_of. by destruct (isKeyValuePairs (c_args c)). Qed.

Lemma record_time c : Timestamp (record_of c) = c_now c.
Proof. unfold record_of. by destruct (isKeyValuePairs (c_args c)). Qed.

(** The console handler, with attributes of its own or none, and whatever
    else does not touch the session's file, is a base logger. *)
Definition quiet_base (base : Logger) (level : string) : Prop :=
  match handlerFunc base with
  | None => True
  | Some h => ∀ msg attrs, Forall (λ e, stops e = false ∧ match e with WriteRecord _ _ _ => False | _ => True end)
                              (h level msg attrs)
  end.

Lemma apply_quiet w now es rest :
  Forall (λ e, stops e = false ∧ match e with WriteRecord _ _ _ => False | _ => True end) es →
  apply_effects w now (es ++ rest) = apply_effects w now rest ∧ existsb stops es = false.
Proof.
  induction 1 as [|e es [Hs He] _ [IH1 IH2]]; [done|]. cbn. rewrite Hs, IH2. by destruct e.
Qed.


Lemma development_quiet level : level ≠ "FATAL" → level ≠ "PANIC" → quiet_base NewDevelopmentLogger level.
Proof.
  intros H1 H2 msg m. unfold development_handler.
  rewrite (proj2 (String.eqb_neq _ _) H1), (proj2 (String.eqb_neq _ _) H2). by repeat constructor.
Qed.

(** The message that ends the process is missing from the session's file. *)
Lemma fatal_not_recorded w now msg args :
  apply_effects w now (Fatal (NewSessionLogger NewDevelopmentLogger) msg args) = w.
Proof. unfold Fatal, log. destruct args as [|a args]; [done|]. by destruct (isKeyValuePairs (a :: args)). Qed.

(** A format whose arguments are strings, an even number of them, is not
    formatted: the verbs stay and the arguments become attributes. *)
Lemma string_arguments_not_formatted l h format a b :
  handlerFunc l = Some h →
  Infof l format [LogString a; LogString b] = h "INFO" format (<[a := LogString b]> (attrs l)).
Proof. intros Hh. unfold Infof, log. by rewrite Hh. Qed.

(** Errors given as attributes lose their text in the file. *)
Lemma error_text_lost now level msg key type e :
  entry_json (mkEntry now level msg {[ key := LogError type e ]}) =
  entry_json (mkEntry now level msg {[ key := LogError "" "" ]}).
Proof. unfold entry_json, sorted_attrs. cbn [Attrs]. by rewrite !map_to_list_singleton. Qed.

(** The attributes of the logger a session's is based on are dropped. *)
Lemma base_attributes_dropped base m :
  NewSessionLogger (With base m) = NewSessionLogger base.
Proof. done. Qed.

Example sprintf_ex :
  Sprintf "tool %s: %d of %v, 100%%" [LogString "a"; LogInt 2; LogBool true] = "tool a: 2 of true, 100%" ∧
  Sprintf "%s %d" [LogString "a"; LogString "b"; LogInt 3] = "a %!d(string=b)%!(EXTRA int=3)" ∧
  Sprintf "%s %s" [LogString "a"] = "a %!s(MISSING)".
Proof. vm_compute. done. Qed.

Definition example_calls : list log_call :=
  [mkCall "t1" [{[ "job" := LogString "j" ]}; {[ "error" := LogError "*errors.errorString" "refused" ]}] "WARN" "failed" [];
   mkCall "t2" [] "INFO" "tool %s: %s" [LogString "weather"; LogString "sunny"];
   mkCall "t3" [] "ERROR" "attempt %d" [LogInt 2]].

