(* ===== verification/Normaliser.v ===== *)
(** * Text normalisation: [utils/text/normaliser.go]

    [Normalize] lowers the case of a text, cuts English contractions, deletes
    every rune that is not a digit, a basic Latin letter or white space, and
    drops the filler words of a language.  The words are in FluffWords; the lower
    case of a rune beyond ASCII is a parameter, as its encoding. *)

From S2P Require Import Prelude FluffWords.

Local Open Scope string_scope.
Local Open Scope list_scope.
Local Open Scope Z_scope.

(** [unicode.ToLower] beyond ASCII, on encodings. *)
Class UnicodeCase := lower_rune : string → string.

(** ** The normaliser *)

Inductive Language : Type :=
| ENGLISH | SPANISH | FRENCH | GERMAN | JAPANESE | CHINESE | HINDI | BENGALI
| TAMIL | PUNJABI | PUNJABI_SHAHMUKHI | RUSSIAN | ARABIC | PORTUGUESE | MARATHI | GUJARATI.

Definition Fluff (l : Language) : list string :=
  match l with
  | ENGLISH => fluff_en
  | SPANISH => fluff_es
  | FRENCH => fluff_fr
  | GERMAN => fluff_de
  | JAPANESE => fluff_ja
  | CHINESE => fluff_zh
  | HINDI => fluff_hi
  | BENGALI => fluff_bn
  | TAMIL => fluff_ta
  | PUNJABI => fluff_pa
  | PUNJABI_SHAHMUKHI => fluff_pa_ps
  | RUSSIAN => fluff_ru
  | ARABIC => fluff_ar
  | PORTUGUESE => fluff_pt
  | MARATHI => fluff_mr
  | GUJARATI => fluff_gu
  end.

Record Normalizer := mkNormalizer { fluffMap : gset string }.

(** A language outside the table, [None], has no fillers. *)
Definition NewNormalizer (language : option Language) : Normalizer :=
  mkNormalizer match language with Some l => list_to_set (Fluff l) | None => ∅ end.

Definition ascii_lower (c : Ascii.ascii) : Ascii.ascii :=
  let n := Ascii.nat_of_ascii c in
  if (Nat.leb 65 n && Nat.leb n 90)%bool then Ascii.ascii_of_nat (n + 32) else c.

(** [strings.ToLower]: invalid bytes become U+FFFD. *)
Definition ToLower `{UnicodeCase} (s : string) : string :=
  str_join "" (map (λ r : string * bool,
    match r with
    | (_, false) => bytes [239; 191; 189]%nat
    | (String c EmptyString, true) => String (ascii_lower c) EmptyString
    | (enc, true) => lower_rune enc
    end) (utf8_runes s)).

Definition contractions : list string := ["'s"; "'ve"; "'re"; "'ll"; "n't"; "'d"; "'m"; "'em"].

Definition cut_contractions (s : string) : string :=
  fold_left (λ s old, replace_all s old "") contractions s.

Definition alnum (c : Ascii.ascii) : bool :=
  let n := Ascii.nat_of_ascii c in
  ((Nat.leb 97 n && Nat.leb n 122) || (Nat.leb 48 n && Nat.leb n 57))%bool.

(** RE2's [\s]. *)
Definition re_space (c : Ascii.ascii) : bool :=
  bool_decide (Ascii.nat_of_ascii c ∈ [9; 10; 12; 13; 32]%nat).

(** Replacing the matches of [[^a-z0-9\s]+] by nothing: every byte of a rune
    beyond ASCII, and every invalid one, belongs to a match. *)
Definition strip_punctuation (s : string) : string :=
  str_of_chars (List.filter (λ c, (alnum c || re_space c)%bool) (str_chars s)).

Definition Normalize `{UnicodeCase} (n : Normalizer) (input : string) : string :=
  let words := fields (strip_punctuation (cut_contractions (ToLower input))) in
  str_join " " (filter (λ w, w ∉ fluffMap n) words).

(** ** Words *)

Fixpoint all_chars (p : Ascii.ascii → bool) (s : string) : bool :=
  match s with
  | EmptyString => true
  | String c s' => (p c && all_chars p s')%bool
  end.

Definition word (w : string) : Prop := w ≠ "" ∧ all_chars alnum w = true.

Definition blank (c : Ascii.ascii) : bool := Nat.eqb (Ascii.nat_of_ascii c) 32.

(** What every result is made of. *)
Definition plain (c : Ascii.ascii) : bool := (alnum c || blank c)%bool.

Lemma all_chars_app p s t : all_chars p (s +:+ t) = (all_chars p s && all_chars p t)%bool.
Proof. induction s as [|c s IH]; [done|]. rewrite string_app_cons. cbn. by rewrite IH, andb_assoc. Qed.

Lemma all_chars_weaken (p q : Ascii.ascii → bool) s :
  (∀ c, p c = true → q c = true) → all_chars p s = true → all_chars q s = true.
Proof.
  intros Hpq. induction s as [|c s IH]; [done|]. cbn.
  intros [Hc Hs]%andb_true_iff. by rewrite (Hpq c Hc), (IH Hs).
Qed.

Lemma plain_ascii c : plain c = true →
  ascii_lower c = c ∧ Nat.ltb (Ascii.nat_of_ascii c) 128 = true ∧ (alnum c || re_space c)%bool = true.
Proof. destruct c as [[] [] [] [] [] [] [] []]; vm_compute; done. Qed.

Lemma alnum_no_space c s : alnum c = true → leading_space (String c s) = None.
Proof. destruct c as [[] [] [] [] [] [] [] []]; intros Hc; vm_compute in Hc; first [discriminate Hc|vm_compute; reflexivity]. Qed.

Lemma blank_space c s : blank c = true → leading_space (String c s) = Some 1%nat.
Proof. destruct s, c as [[] [] [] [] [] [] [] []]; intros Hc; vm_compute in Hc; first [discriminate Hc|vm_compute; reflexivity]. Qed.

(** On such texts lowering, cutting and stripping change nothing. *)
Lemma ToLower_plain `{UnicodeCase} s : all_chars plain s = true → ToLower s = s.
Proof.
  unfold ToLower, utf8_runes. induction s as [|c s IH]; [done|]. cbn [all_chars].
  intros [Hc Hs]%andb_true_iff. destruct (plain_ascii c Hc) as (Hl & Ha & _).
  cbn [String.length utf8_fuel]. assert (rune_width (String c s) = Some 1%nat) as ->.
  { unfold rune_width. cbn [byte_at String.get]. unfold byte_at. cbn [String.get]. by rewrite Ha. }
  cbn [str_take str_drop map]. rewrite str_join_nil_cons, Hl.
  rewrite string_app_cons, IH by done. f_equal.
Qed.

Lemma replace_all_absent old s :
  (∃ c, c ∈ str_chars old ∧ plain c = false) → all_chars plain s = true → replace_all s old "" = s.
Proof.
  intros (c & Hc & Hp). unfold replace_all. generalize (S (String.length s)) as fuel.
  assert (∀ t, all_chars plain t = true → has_prefix old t = false) as Hno.
  { clear -Hc Hp. revert Hc. unfold has_prefix. induction old as [|d old IH]; cbn; [by intros ?%elem_of_nil|].
    intros Hin [|x t] Ht; [done|]. cbn in Ht. apply andb_true_iff in Ht as [Hx Ht]. cbn.
    destruct (Ascii.ascii_dec d x) as [->|]; [|done].
    apply elem_of_cons in Hin as [->|Hin]; [congruence|]. by apply IH. }
  intros fuel. revert s. induction fuel as [|fuel IH]; intros s Hs; [done|]. cbn [replace_fuel].
  destruct s as [|x s]; [done|]. rewrite (Hno _ Hs). f_equal. apply IH. cbn in Hs.
  by apply andb_true_iff in Hs as [_ ?].
Qed.

Lemma cut_plain s : all_chars plain s = true → cut_contractions s = s.
Proof.
  intros Hs. unfold cut_contractions.
  assert (Forall (λ old, ∃ c, c ∈ str_chars old ∧ plain c = false) contractions) as Hc.
  { repeat constructor; exists (Ascii.ascii_of_nat 39); (split; [cbn; set_solver|done]). }
  induction Hc as [|old olds Ho _ IH]; [done|]. cbn [fold_left]. by rewrite replace_all_absent.
Qed.

Lemma strip_plain s : all_chars plain s = true → strip_punctuation s = s.
Proof.
  unfold strip_punctuation. induction s as [|c s IH]; [done|]. cbn [all_chars str_chars List.filter].
  intros [Hc Hs]%andb_true_iff. destruct (plain_ascii c Hc) as (_ & _ & ->). cbn. by rewrite IH.
Qed.

(** ** Cutting into words *)

Lemma fields_fuel_word fuel : ∀ w v s, all_chars alnum v = true →
  (String.length v <= fuel)%nat →
  fields_fuel fuel w (v +:+ s) = fields_fuel (fuel - String.length v) (w +:+ v) s.
Proof.
  induction fuel as [|fuel IH]; intros w v s Hv Hf; destruct v as [|c v]; try (cbn in Hf; lia).
  - by rewrite string_app_nil_r.
  - by rewrite string_app_nil_r, Nat.sub_0_r.
  - cbn in Hv. apply andb_true_iff in Hv as [Hc Hv]. rewrite string_app_cons.
    cbn [fields_fuel]. rewrite alnum_no_space by done. rewrite IH by (done || cbn in Hf; lia).
    cbn [String.length Nat.sub]. f_equal. by rewrite string_app_assoc, string_app_cons.
Qed.

Lemma fields_join ws : Forall word ws → ∀ fuel, (String.length (str_join " " ws) < fuel)%nat →
  fields_fuel fuel "" (str_join " " ws) = ws.
Proof.
  induction 1 as [|w ws [Hw Ha] Hws IH]; intros fuel Hf; [by destruct fuel|].
  assert (String.eqb w "" = false) as Hne by by apply String.eqb_neq.
  destruct ws as [|w2 ws].
  - cbn [str_join] in *. rewrite <-(string_app_nil_r w) at 1. rewrite fields_fuel_word by (done || lia).
    destruct (fuel - String.length w)%nat eqn:E; [lia|]. cbn [fields_fuel]. change ("" +:+ w) with w.
    by rewrite Hne.
  - change (str_join " " (w :: w2 :: ws)) with (w +:+ " " +:+ str_join " " (w2 :: ws)) in *.
    rewrite !string_length_app in Hf. cbn [String.length] in Hf.
    rewrite fields_fuel_word by (done || lia).
    destruct (fuel - String.length w)%nat as [|f] eqn:E; [lia|].
    rewrite string_app_cons. cbn [fields_fuel]. rewrite blank_space by done. change ("" +:+ w) with w.
    rewrite Hne. cbn [app str_drop]. f_equal. apply IH. lia.
Qed.

Lemma join_plain ws : Forall word ws → all_chars plain (str_join " " ws) = true.
Proof.
  induction 1 as [|w ws [Hw Ha] Hws IH]; [done|].
  assert (all_chars plain w = true) as Hp.
  { eapply all_chars_weaken; [|exact Ha]. intros c Hc. unfold plain. by rewrite Hc. }
  destruct ws as [|w2 ws]; [done|].
  change (str_join " " (w :: w2 :: ws)) with (w +:+ " " +:+ str_join " " (w2 :: ws)).
  by rewrite !all_chars_app, Hp, IH.
Qed.

(** What is cut from a stripped text is a word. *)
Lemma stripped_chars s : all_chars (λ c, (alnum c || re_space c)%bool) (strip_punctuation s) = true.
Proof.
  unfold strip_punctuation. induction (str_chars s) as [|c cs IH]; [done|]. cbn [List.filter].
  destruct (alnum c || re_space c)%bool eqn:E; [|done]. cbn. by rewrite E.
Qed.

Lemma re_space_leads c s : alnum c = false → re_space c = true → leading_space (String c s) = Some 1%nat.
Proof. destruct s, c as [[] [] [] [] [] [] [] []]; intros Ha Hc; vm_compute in Ha, Hc; first [discriminate Ha|discriminate Hc|vm_compute; reflexivity]. Qed.

Lemma fields_words fuel : ∀ w s, all_chars alnum w = true →
  all_chars (λ c, (alnum c || re_space c)%bool) s = true → Forall word (fields_fuel fuel w s).
Proof.
  assert (∀ w, all_chars alnum w = true → Forall word (if String.eqb w "" then [] else [w])) as Hflush.
  { intros w Hw. destruct (String.eqb_spec w ""); by repeat constructor. }
  induction fuel as [|fuel IH]; intros w s Hw Hs; [by apply Hflush|]. destruct s as [|c s]; [by apply Hflush|].
  cbn in Hs. apply andb_true_iff in Hs as [Hc Hs]. cbn [fields_fuel].
  destruct (alnum c) eqn:E.
  - rewrite alnum_no_space by done. apply IH; [|done]. rewrite all_chars_app, Hw. cbn. by rewrite E.
  - rewrite re_space_leads by done. apply Forall_app. split; [by apply Hflush|]. by apply IH.
Qed.

(** The result is in normal form, whatever the text, and normalising it again
    changes nothing: it is the words that remain, none of them a filler,
    each of digits and basic Latin letters in lower case, separated by single
    spaces. *)
Theorem normal_form `{UnicodeCase} (language : option Language) (input : string) :
  let n := NewNormalizer language in
  ∃ ws, Normalize n input = str_join " " ws ∧
    Forall (λ w, word w ∧ w ∉ fluffMap n) ws ∧
    Normalize n (Normalize n input) = Normalize n input.
Proof.
  intros n. set (ws := filter (λ w, w ∉ fluffMap n) (fields (strip_punctuation (cut_contractions (ToLower input))))).
  assert (Forall (λ w, word w ∧ w ∉ fluffMap n) ws) as Hws.
  { apply Forall_forall. intros w [Hn Hw]%list_elem_of_filter. split; [|done].
    revert Hw. clear Hn. revert w. apply Forall_forall, fields_words; [done|]. apply stripped_chars. }
  exists ws. split; [done|]. split; [done|].
  assert (Forall word ws) as Hwd by (eapply Forall_impl; [exact Hws|by intros w []]).
  change (Normalize n input) with (str_join " " ws). unfold Normalize.
  rewrite ToLower_plain, cut_plain, strip_plain by by apply join_plain.
  unfold fields. rewrite fields_join by (done || lia). f_equal.
  clearbody ws. clear Hwd. induction Hws as [|w ws [_ Hn] _ IH]; [done|]. by rewrite filter_cons_True, IH.
Qed.

(** A table entry with another character — an apostrophe, a hyphen, a space, a
    letter beyond basic Latin — is never compared with: it drops nothing. *)
Lemma unreachable_filler `{UnicodeCase} (input w : string) :
  all_chars alnum w = false → w ∉ fields (strip_punctuation (cut_contractions (ToLower input))).
Proof.
  intros Hw Hin. assert (word w) as [_ Ha]; [|congruence].
  clear Hw. revert w Hin. apply Forall_forall, fields_words; [done|]. apply stripped_chars.
Qed.

(** How many entries of each table can match at all. *)
Definition reachable_fillers (l : Language) : nat :=
  length (List.filter (all_chars alnum) (Fluff l)).

Example tables_without_effect :
  map reachable_fillers [JAPANESE; CHINESE; HINDI; BENGALI; TAMIL; PUNJABI; PUNJABI_SHAHMUKHI; RUSSIAN; ARABIC; MARATHI; GUJARATI] =
  replicate 11 0%nat.
Proof. vm_compute. reflexivity. Qed.

(** ** Examples *)

#[export] Instance no_case : UnicodeCase := λ enc, enc.

Example normalise_ex :
  Normalize (mkNormalizer {["well"; "i"; "to"]}) "Well, I can't book John's FLIGHT to Boston!" = "ca book john flight boston" ∧
  Normalize (NewNormalizer None) "Забронируй рейс 42" = "42".
Proof. vm_compute. done. Qed.

(** A filler of the table that a text keeps, as its hyphen is gone before the
    words are compared. *)
Example hyphenated_filler_kept :
  "uh-huh" ∈ Fluff ENGLISH ∧ Normalize (mkNormalizer {["uh-huh"]}) "uh-huh" = "uhhuh".
Proof. split; [apply (bool_decide_unpack _); vm_compute; exact I|vm_compute; reflexivity]. Qed.
