(* ===== verification/TypeGen.v ===== *)
(** * The generator of TypeScript types: [cmd/typegen/main.go]

    The command reads the Go sources of the project, collects the structs with
    JSON tags, and writes one TypeScript interface for each struct of a fixed
    list.  Go's parser is part of the input: a directory is the declarations of
    its files, in the order in which they are visited, and the tag of a field is
    its pairs of key and value.  The two global tables, of named types over other
    names and of string constants, are a state threaded through the parsing. *)

From stdpp Require Import sorting.
From Stdlib Require Import Ascii.
From S2P Require Import Prelude.

Local Open Scope string_scope.
Local Open Scope list_scope.

(** ** Syntax trees *)

Inductive expr : Type :=
| Ident (name : string)
| StarExpr (x : expr)
| ArrayType (elt : expr)
| MapType (key value : expr)
| SelectorExpr (x : expr) (sel : string)
| InterfaceType
| OtherExpr.

Record ast_field := mkField {
  f_Type : expr;
  f_Tag : option (list (string * string))
}.

Inductive type_expr : Type :=
| PlainType (e : expr)
| StructType (fields : list ast_field).

(** [values] holds the text of the string literals, [None] for other values. *)
Inductive decl : Type :=
| TypeDecl (specs : list (string * type_expr))
| ConstDecl (specs : list (option expr * list (option string)))
| OtherDecl.

(** ** The tables *)

Record fieldInfo := mkFieldInfo {
  jsonName : string;
  goType : string;
  fi_optional : bool;
  tsType : string;
  fi_isPointer : bool
}.

Record structInfo := mkStructInfo {
  si_name : string;
  si_fields : list fieldInfo;
  si_pkg : string
}.

Fixpoint assoc {A} (k : string) (l : list (string * A)) : option A :=
  match l with
  | [] => None
  | (k', v) :: l' => if String.eqb k k' then Some v else assoc k l'
  end.

Definition typeMapping : list (string * string) :=
  [("string", "string"); ("int", "number"); ("int8", "number"); ("int16", "number");
   ("int32", "number"); ("int64", "number"); ("uint", "number"); ("uint8", "number");
   ("uint16", "number"); ("uint32", "number"); ("uint64", "number"); ("float32", "number");
   ("float64", "number"); ("bool", "boolean"); ("any", "unknown"); ("interface{}", "unknown");
   ("json.RawMessage", "unknown"); ("map[string]string", "Record<string, string>");
   ("map[string]interface{}", "Record<string, unknown>"); ("map[string]any", "Record<string, unknown>")].

Definition secretStructURLOwners : list string := ["LiveKitProviderConfig"].

Definition requiredFields : list (string * list string) :=
  [("SessionInfo", ["session_id"; "started_at"; "status"; "log_file_size"; "last_modified"]);
   ("LogEntry", ["ts"; "level"; "msg"]);
   ("LLMMessage", ["role"; "message"]);
   ("ContextMessage", ["role"; "message"]);
   ("TaskDef", ["id"]);
   ("TaskVariable", ["name"])].

Definition structsToGenerate : list string :=
  ["SettingsConfig"; "SessionAPIConfig"; "TransportFactoryConfig"; "LiveKitProviderConfig";
   "DailyProviderConfig"; "SessionConfig"; "SessionSTTConfig"; "SessionLLMConfig"; "SessionTTSConfig";
   "SessionContextConfig"; "MCPServerConfig"; "MCPCommandConfig"; "MCPURLConfig"; "STTConfig";
   "LLMHandlerConfig"; "TTSConfig"; "LLMContextManagerConfig"; "ContextConfig"; "LLMContext";
   "LLMMessage"; "LLMTool"; "Parameter"; "TaskGroupConfig"; "TaskDef"; "TaskVariable";
   "DeepgramConfig"; "services/openai/llm:Config"; "DepgramTTSConfig"; "ElevenLabsTTSConfig";
   "CartesiaTTSConfig"; "STTFactoryConfig"; "LLMFactoryConfig"; "TTSFactoryConfig"; "SessionInfo";
   "LogEntry"].

Definition tsRenames : list (string * string) :=
  [("SettingsConfig", "Settings"); ("TransportFactoryConfig", "TransportConfig");
   ("LiveKitProviderConfig", "LiveKitConfig"); ("DailyProviderConfig", "DailyConfig");
   ("SessionSTTConfig", "SttConfig"); ("SessionLLMConfig", "LlmConfig");
   ("SessionTTSConfig", "TtsConfig"); ("SessionContextConfig", "ContextConfig");
   ("STTConfig", "SttHandlerConfig"); ("LLMHandlerConfig", "LlmHandlerConfig");
   ("TTSConfig", "TtsHandlerConfig"); ("LLMContextManagerConfig", "ContextManagerConfig");
   ("ContextConfig", "ContextHandlerConfig"); ("LLMContext", "LlmContext");
   ("LLMMessage", "ContextMessage"); ("LLMTool", "ContextTool"); ("Parameter", "ToolParameter");
   ("TaskDef", "TaskDefinition"); ("DeepgramConfig", "DeepgramSttConfig");
   ("services/openai/llm:Config", "OpenAiLlmConfig"); ("DepgramTTSConfig", "DeepgramTtsConfig");
   ("STTFactoryConfig", "SttServiceConfig"); ("LLMFactoryConfig", "LlmServiceConfig");
   ("TTSFactoryConfig", "TtsServiceConfig"); ("ElevenLabsTTSConfig", "ElevenLabsTtsConfig");
   ("CartesiaTTSConfig", "CartesiaTtsConfig"); ("SessionAPIConfig", "SessionApiConfig");
   ("MCPServerConfig", "McpServerConfig"); ("MCPCommandConfig", "McpCommandConfig");
   ("MCPURLConfig", "McpUrlConfig")].

Definition ts_name (goName : string) : string := default goName (assoc goName tsRenames).

(** What follows the last [c], if there is one. *)
Fixpoint after_last (c : ascii) (s : string) : option string :=
  match s with
  | EmptyString => None
  | String x s' =>
      match after_last c s' with
      | Some r => Some r
      | None => if Ascii.eqb x c then Some s' else None
      end
  end.

(** [init]: the later entry for a name wins. *)
Definition goTypeToTSRef : gmap string string :=
  fold_left (λ m name,
    let m1 := <[name := ts_name name]> m in
    match after_last ":"%char name with
    | Some plain => <[plain := ts_name name]> m1
    | None => m1
    end) structsToGenerate ∅.

Record tables := mkTables {
  typeAliases : gmap string string;
  constValues : gmap string (list string)
}.

(** ** Types *)

Fixpoint typeExprToString (e : expr) : string :=
  match e with
  | Ident n => n
  | StarExpr x => "*" +:+ typeExprToString x
  | ArrayType x => "[]" +:+ typeExprToString x
  | MapType k v => "map[" +:+ typeExprToString k +:+ "]" +:+ typeExprToString v
  | SelectorExpr x sel => typeExprToString x +:+ "." +:+ sel
  | InterfaceType => "interface{}"
  | OtherExpr => "unknown"
  end.

Definition isPointerType (e : expr) : bool := match e with StarExpr _ => true | _ => false end.

Definition trim_prefix (p s : string) : string := if has_prefix p s then str_drop (String.length p) s else s.

Definition buildUnionLiteral (vals : list string) : string :=
  str_join " | " (map (λ v, "'" +:+ v +:+ "'") vals).

(** A name with declared constants, or one that stands for another name. *)
Definition named_type (g : tables) (name : string) (again : string → option string) : option (option string) :=
  match constValues g !! name with
  | Some (v :: vs) => Some (Some (buildUnionLiteral (v :: vs)))
  | _ => again <$> typeAliases g !! name
  end.

(** [None] is running out of fuel. *)
Fixpoint resolveType (fuel : nat) (g : tables) (goType : string) : option string :=
  match fuel with
  | O => None
  | S f =>
      let clean := trim_prefix "*" goType in
      match assoc clean typeMapping with
      | Some ts => Some ts
      | None =>
          if has_prefix "[]" clean
          then (λ inner, inner +:+ "[]") <$> resolveType f g (str_drop 2 clean)
          else if has_prefix "map[" clean then Some "Record<string, unknown>"
          else match goTypeToTSRef !! clean with
          | Some tsRef => Some tsRef
          | None =>
              let qualified :=
                match after_last "."%char clean with
                | None => None
                | Some shortName =>
                    match goTypeToTSRef !! shortName with
                    | Some tsRef => Some (Some tsRef)
                    | None => named_type g shortName (resolveType f g)
                    end
                end in
              match qualified with
              | Some r => r
              | None => default (Some "unknown") (named_type g clean (resolveType f g))
              end
          end
      end
  end.

(** ** Parsing *)

Fixpoint split_commas (cur : string) (s : string) : list string :=
  match s with
  | EmptyString => [cur]
  | String c s' => if Ascii.eqb c "," then cur :: split_commas "" s' else split_commas (cur +:+ String c "") s'
  end.

Definition shouldSkipField (structName jsonName : string) : bool :=
  String.eqb jsonName "api_key" || String.eqb jsonName "api_secret" ||
  (String.eqb jsonName "url" && existsb (String.eqb structName) secretStructURLOwners).

(** A field without a JSON name, or with a secret one, is left out. *)
Definition parse_field (fuel : nat) (g : tables) (name : string) (field : ast_field)
    : option (list fieldInfo) :=
  match f_Tag field with
  | None => Some []
  | Some tag =>
      let jsonTag := default "" (assoc "json" tag) in
      if String.eqb jsonTag "" || String.eqb jsonTag "-" then Some []
      else match split_commas "" jsonTag with
      | [] => Some []
      | json :: options =>
          if String.eqb json "" || String.eqb json "-" then Some []
          else if shouldSkipField name json then Some []
          else
            let goType := typeExprToString (f_Type field) in
            let isPointer := isPointerType (f_Type field) in
            match resolveType fuel g goType with
            | None => None
            | Some ts => Some [mkFieldInfo json goType (existsb (String.eqb "omitempty") options || isPointer)
                                 ts isPointer]
            end
      end
  end.

Definition parseStruct (fuel : nat) (g : tables) (name : string) (fields : list ast_field) (pkg : string)
    : option structInfo :=
  match mapM (parse_field fuel g name) fields with
  | None => None
  | Some fis => Some (mkStructInfo name (mjoin fis) pkg)
  end.

(** [strings.Trim] of double quotes. *)
Definition trim_quotes (s : string) : string :=
  let strip := fix strip (l : list ascii) :=
    match l with
    | c :: l' => if Ascii.eqb c (ascii_of_nat 34) then strip l' else l
    | [] => []
    end in
  str_of_chars (rev (strip (rev (strip (str_chars s))))).

(** One specification of a type declaration. *)
Definition parse_type_spec (fuel : nat) (dir : string) (s : tables * gmap string structInfo)
    (spec : string * type_expr) : option (tables * gmap string structInfo) :=
  let '(g, result) := s in
  match spec.2 with
  | PlainType (Ident n) => Some (mkTables (<[spec.1 := n]> (typeAliases g)) (constValues g), result)
  | PlainType _ => Some s
  | StructType fields =>
      match parseStruct fuel g spec.1 fields dir with
      | None => None
      | Some si => Some (g, <[spec.1 := si]> result)
      end
  end.

Definition add_const (typeName : string) (g : tables) (lit : option string) : tables :=
  match lit with
  | None => g
  | Some text => mkTables (typeAliases g)
                   (<[typeName := default [] (constValues g !! typeName) ++ [trim_quotes text]]> (constValues g))
  end.

Definition parse_const_spec (g : tables) (spec : option expr * list (option string)) : tables :=
  match spec.1 with
  | None => g
  | Some e => fold_left (add_const (typeExprToString e)) spec.2 g
  end.

Definition parse_decl (fuel : nat) (dir : string) (s : tables * gmap string structInfo) (d : decl)
    : option (tables * gmap string structInfo) :=
  match d with
  | TypeDecl specs => foldl (λ acc spec, acc ≫= λ s, parse_type_spec fuel dir s spec) (Some s) specs
  | ConstDecl specs => Some (fold_left parse_const_spec specs s.1, s.2)
  | OtherDecl => Some s
  end.

(** The declarations of a directory, file after file. *)
Definition parseDir (fuel : nat) (g : tables) (dir : string) (decls : list decl)
    : option (tables * gmap string structInfo) :=
  foldl (λ acc d, acc ≫= λ s, parse_decl fuel dir s d) (Some (g, ∅)) decls.

(** ** Directories *)

Inductive tree : Type :=
| File (name : string)
| Folder (name : string) (children : list tree).

Definition skipDirs : list string := ["vendor"; "node_modules"; ".git"; ".next"; "typegen"].

Definition is_go_file (name : string) : bool := has_suffix ".go" name && negb (has_suffix "_test.go" name).

(** The directories that hold Go files, below [path]. *)
Fixpoint walk (path : string) (t : tree) : list string :=
  match t with
  | File _ => []
  | Folder name children =>
      if existsb (String.eqb name) skipDirs then []
      else
        (if existsb (λ c, match c with File n => is_go_file n | Folder _ _ => false end) children then [path] else []) ++
        flat_map (λ c, walk (path +:+ "/" +:+ match c with File n => n | Folder n _ => n end) c) children
  end.

Definition path_le (a b : string) : Prop := String.leb a b = true.

#[export] Instance path_le_dec : RelDecision path_le := λ a b, decide (String.leb a b = true).

Definition discoverGoDirs (root : string) (t : tree) : list string :=
  merge_sort path_le (remove_dups (walk root t)).

(** ** The command *)

(** The structs of a directory, under their qualified names, and under their
    plain names when those are free. *)
Definition claim_structs (relDir : string) (allStructs structs : gmap string structInfo)
    : gmap string structInfo :=
  fold_left (λ all kv,
    let all1 := <[relDir +:+ ":" +:+ kv.1 := kv.2]> all in
    match all1 !! kv.1 with
    | Some _ => all1
    | None => <[kv.1 := kv.2]> all1
    end) (map_to_list structs) allStructs.

(** Directories in turn; one that does not parse ([None]) is skipped. *)
Fixpoint collect (fuel : nat) (g : tables) (all : gmap string structInfo)
    (dirs : list (string * option (list decl))) : option (gmap string structInfo) :=
  match dirs with
  | [] => Some all
  | (_, None) :: rest => collect fuel g all rest
  | (relDir, Some decls) :: rest =>
      match parseDir fuel g relDir decls with
      | None => None
      | Some (g1, structs) => collect fuel g1 (claim_structs relDir all structs) rest
      end
  end.

Definition field_line (req : list string) (f : fieldInfo) : string :=
  "  " +:+ jsonName f +:+ (if existsb (String.eqb (jsonName f)) req then "" else "?") +:+ ": " +:+
  tsType f +:+ newline.

Definition writeInterface (tsName : string) (si : structInfo) (goName : string) : string :=
  let reqFields := default [] (match assoc goName requiredFields with
                               | Some r => Some r
                               | None => assoc tsName requiredFields
                               end) in
  "/** Generated from Go struct: " +:+ goName +:+ " */" +:+ newline +:+
  "export interface " +:+ tsName +:+ " {" +:+ newline +:+
  str_join "" (map (field_line reqFields) (si_fields si)) +:+ "}" +:+ newline +:+ newline.

Definition file_header : string :=
  "// Code generated by cmd/typegen; DO NOT EDIT." +:+ newline +:+
  "// Source: Go structs from core/, handlers/, factories/, services/" +:+ newline +:+
  "//" +:+ newline +:+
  "// Regenerate: go run ./cmd/typegen -out ui/src/types/generated.ts" +:+ newline +:+ newline.

Definition writeManualAPITypes : string :=
  "// --- API response types (not generated from Go structs) ---" +:+ newline +:+ newline +:+
  "export interface StatusResponse {" +:+ newline +:+ "  running: boolean" +:+ newline +:+
  "  pid: number" +:+ newline +:+ "}" +:+ newline +:+ newline +:+
  "export type ApiKeys = Record<string, string>" +:+ newline.

(** The interfaces written, in the order of the list. *)
Definition interfaces (all : gmap string structInfo) : list (string * structInfo) :=
  omap (λ goName, pair goName <$> all !! goName) structsToGenerate.

Definition generate (fuel : nat) (dirs : list (string * option (list decl))) : option string :=
  match collect fuel (mkTables ∅ ∅) ∅ dirs with
  | None => None
  | Some all =>
      Some (file_header +:+
            str_join "" (map (λ i, writeInterface (ts_name i.1) i.2 i.1) (interfaces all)) +:+
            writeManualAPITypes)
  end.

(** ** Secrets *)

(** No field of a parsed struct is one that is to be skipped. *)
Definition discreet (si : structInfo) : Prop :=
  Forall (λ f, shouldSkipField (si_name si) (jsonName f) = false) (si_fields si).

Lemma parse_field_discreet fuel g name field fis :
  parse_field fuel g name field = Some fis → Forall (λ f, shouldSkipField name (jsonName f) = false) fis.
Proof.
  unfold parse_field. intros Hp. repeat case_match; simplify_eq; try constructor; done.
Qed.

Lemma parseStruct_discreet fuel g name fields pkg si :
  parseStruct fuel g name fields pkg = Some si → discreet si ∧ si_name si = name.
Proof.
  unfold parseStruct. destruct (mapM _ fields) as [fis|] eqn:E; [|done]. intros [= <-]. split; [|done].
  unfold discreet. cbn. apply mapM_Some_1 in E. induction E as [|field fi fields fis Hf _ IH]; [done|].
  apply Forall_app. split; [by eapply parse_field_discreet|done].
Qed.

Lemma foldl_bind_inv {S X} (P : S → Prop) (step : S → X → option S) xs : ∀ s s',
  (∀ s x s', P s → step s x = Some s' → P s') → P s →
  foldl (λ acc x, acc ≫= λ s, step s x) (Some s) xs = Some s' → P s'.
Proof.
  intros s s' Hstep. revert s. induction xs as [|x xs IH]; intros s Hs; cbn; [by intros [= <-]|].
  destruct (step s x) as [s1|] eqn:E; [apply IH; eauto|].
  clear. assert (foldl (λ acc x, acc ≫= λ s, step s x) None xs = None) as -> by (by induction xs). done.
Qed.

Lemma parseDir_discreet fuel g dir decls g' structs :
  parseDir fuel g dir decls = Some (g', structs) → map_Forall (λ n si, discreet si ∧ si_name si = n) structs.
Proof.
  intros E. apply (foldl_bind_inv (λ s, map_Forall (λ n si, discreet si ∧ si_name si = n) s.2)) in E; [done| |].
  - intros [g1 r1] d s' Hs. destruct d as [specs|specs|]; cbn; [|by intros [= <-]|by intros [= <-]].
    apply (foldl_bind_inv (λ s, map_Forall (λ n si, discreet si ∧ si_name si = n) s.2)); [|done].
    intros [g2 r2] [n te] s2 Hs2. cbn. destruct te as [[]|fields]; try by intros [= <-].
    destruct (parseStruct _ _ _ _ _) as [si|] eqn:Ep; [|done]. intros [= <-].
    apply map_Forall_insert_2; [by eapply parseStruct_discreet|done].
  - apply map_Forall_empty.
Qed.

Lemma claim_discreet relDir all structs :
  map_Forall (λ _, discreet) all → map_Forall (λ n si, discreet si ∧ si_name si = n) structs →
  map_Forall (λ _, discreet) (claim_structs relDir all structs).
Proof.
  intros Ha Hs. unfold claim_structs.
  assert (Forall (λ kv : string * structInfo, discreet kv.2) (map_to_list structs)) as Hl.
  { apply Forall_forall. intros [k si] Hin%elem_of_map_to_list. by destruct (Hs k si Hin). }
  clear Hs. revert all Ha. induction Hl as [|[k si] kvs Hsi _ IH]; intros all Ha; [done|]. cbn. apply IH.
  assert (map_Forall (λ _, discreet) (<[relDir +:+ ":" +:+ k := si]> all)) as H1 by by apply map_Forall_insert_2.
  case_match; [done|]. by apply map_Forall_insert_2.
Qed.

Lemma collect_discreet fuel dirs : ∀ g all0 all,
  map_Forall (λ _, discreet) all0 → collect fuel g all0 dirs = Some all → map_Forall (λ _, discreet) all.
Proof.
  induction dirs as [|[d [decls|]] dirs IH]; intros g all0 all H0; cbn [collect]; [by intros [= <-]| |by apply IH].
  destruct (parseDir fuel g d decls) as [[g1 structs]|] eqn:E; [|done]. apply IH, claim_discreet; [done|].
  by eapply parseDir_discreet.
Qed.

Lemma skipped_not name json : shouldSkipField name json = false →
  json ≠ "api_key" ∧ json ≠ "api_secret" ∧ (name = "LiveKitProviderConfig" → json ≠ "url").
Proof.
  unfold shouldSkipField, secretStructURLOwners.
  destruct (String.eqb_spec json "api_key"); [done|]. destruct (String.eqb_spec json "api_secret"); [done|].
  destruct (String.eqb_spec json "url"); [|done]. cbn [existsb].
  destruct (String.eqb_spec name "LiveKitProviderConfig"); [done|]. done.
Qed.

Lemma interfaces_lookup all goName si : (goName, si) ∈ interfaces all → all !! goName = Some si.
Proof.
  unfold interfaces. generalize structsToGenerate as names. intros names.
  intros (n & _ & Hn)%list_elem_of_omap. destruct (all !! n) as [si'|] eqn:E; [|done]. by injection Hn as <- <-.
Qed.


(** ** Resolving types ends *)

(** An identifier: neither a pointer nor a slice nor qualified. *)
Definition plain_name (s : string) : Prop :=
  trim_prefix "*" s = s ∧ has_prefix "[]" s = false ∧ after_last "."%char s = None.

(** Named types that do not lead back to themselves; no chain is longer than
    [bound]. *)
Definition acyclic (g : tables) (rank : string → nat) (bound : nat) : Prop :=
  ∀ a b, typeAliases g !! a = Some b → plain_name b ∧ (rank b < rank a)%nat ∧ (rank a <= bound)%nat.

Lemma has_prefix_length p : ∀ s, has_prefix p s = true → (String.length p <= String.length s)%nat.
Proof.
  unfold has_prefix. induction p as [|a p IH]; intros [|b s]; cbn [String.length]; try (done || lia).
  intros Hp. cbn in Hp. destruct (ascii_dec a b); [|done]. specialize (IH s Hp). lia.
Qed.

Lemma trim_prefix_length p s : (String.length (trim_prefix p s) <= String.length s)%nat.
Proof. unfold trim_prefix. case_match; [rewrite str_drop_length|]; lia. Qed.

Lemma named_type_some g name again :
  (∀ b, typeAliases g !! name = Some b → is_Some (again b)) →
  named_type g name again = None ∨ ∃ ts, named_type g name again = Some (Some ts).
Proof.
  intros Ha. unfold named_type. destruct (constValues g !! name) as [[|v vs]|]; [|by right; eexists|];
    (destruct (typeAliases g !! name) as [b|] eqn:E; [|by left]; right; destruct (Ha b eq_refl) as [ts Hts];
     exists ts; cbn; by rewrite Hts).
Qed.

(** What a round needs of the next ones. *)
Lemma resolve_round fuel g t :
  (has_prefix "[]" (trim_prefix "*" t) = true → is_Some (resolveType fuel g (str_drop 2 (trim_prefix "*" t)))) →
  (∀ b, typeAliases g !! trim_prefix "*" t = Some b → is_Some (resolveType fuel g b)) →
  (∀ short b, after_last "."%char (trim_prefix "*" t) = Some short → typeAliases g !! short = Some b →
     is_Some (resolveType fuel g b)) →
  is_Some (resolveType (S fuel) g t).
Proof.
  intros Hs Ha Hq. cbn [resolveType]. set (clean := trim_prefix "*" t) in *.
  destruct (assoc clean typeMapping); [done|]. destruct (has_prefix "[]" clean).
  { destruct (Hs eq_refl) as [x ->]. done. }
  destruct (has_prefix "map[" clean); [done|]. destruct (goTypeToTSRef !! clean); [done|].
  assert (is_Some (default (Some "unknown") (named_type g clean (resolveType fuel g)))) as Hlast.
  { destruct (named_type_some g clean (resolveType fuel g) Ha) as [->|[ts ->]]; done. }
  destruct (after_last "."%char clean) as [short|]; [|exact Hlast].
  destruct (goTypeToTSRef !! short); [done|].
  destruct (named_type_some g short (resolveType fuel g) (λ b, Hq short b eq_refl)) as [->|[ts ->]]; [exact Hlast|done].
Qed.

Lemma resolve_name fuel : ∀ g rank bound a b, acyclic g rank bound → typeAliases g !! a = Some b →
  (rank a <= fuel)%nat → is_Some (resolveType fuel g b).
Proof.
  induction fuel as [|fuel IH]; intros g rank bound a b Hg Hab Hf;
    destruct (Hg a b Hab) as ((Ht & Hp & Hq) & Hlt & _); [lia|].
  apply resolve_round; rewrite Ht.
  - by rewrite Hp.
  - intros c Hc. eapply IH; [done|exact Hc|lia].
  - intros short c. by rewrite Hq.
Qed.

(** Every Go type resolves to a TypeScript type, unless named types lead in a
    circle: the length of the type and of the longest chain are enough rounds. *)
Theorem resolveType_terminates (g : tables) (rank : string → nat) (bound fuel : nat) (t : string)
    (Hg : acyclic g rank bound) (Hfuel : (String.length t + bound < fuel)%nat) :
  is_Some (resolveType fuel g t).
Proof.
  revert t Hfuel. induction fuel as [|fuel IH]; intros t Hfuel; [lia|].
  pose proof (trim_prefix_length "*" t). apply resolve_round.
  - intros Hp. apply IH. rewrite str_drop_length.
    apply has_prefix_length in Hp. cbn [String.length] in Hp. lia.
  - intros b Hb. destruct (Hg _ _ Hb) as (_ & _ & Hr). eapply resolve_name; [exact Hg|exact Hb|lia].
  - intros short b _ Hb. destruct (Hg _ _ Hb) as (_ & _ & Hr). eapply resolve_name; [exact Hg|exact Hb|lia].
Qed.

(** The tables are keyed by bare names, so types of two packages can lead in a
    circle: then no number of rounds is enough. *)
Lemma circular_names_diverge fuel :
  resolveType fuel (mkTables {["Kind" := "Level"; "Level" := "Kind"]} ∅) "Kind" = None.
Proof.
  assert (∀ n, resolveType n (mkTables {["Kind" := "Level"; "Level" := "Kind"]} ∅) "Kind" = None ∧
               resolveType n (mkTables {["Kind" := "Level"; "Level" := "Kind"]} ∅) "Level" = None) as H; [|apply H].
  intros n. induction n as [|n [IH1 IH2]]; [done|]. split; [change (resolveType n (mkTables {["Kind" := "Level"; "Level" := "Kind"]} ∅) "Level" = None)|
    change (resolveType n (mkTables {["Kind" := "Level"; "Level" := "Kind"]} ∅) "Kind" = None)]; done.
Qed.

(** ** Examples *)

Definition role_tables : tables :=
  mkTables {["LLMMessageRole" := "string"; "Seconds" := "Duration"; "Duration" := "int64"]}
    {["LLMMessageRole" := ["user"; "assistant"]]}.

Definition role_rank (s : string) : nat :=
  if String.eqb s "Seconds" then 2 else if String.eqb s "int64" then 0 else if String.eqb s "string" then 0 else 1.

Lemma resolveType_terminates_witness :
  acyclic role_tables role_rank 2 ∧ is_Some (resolveType 12 role_tables "[]Seconds") ∧
  resolveType 12 role_tables "[]Seconds" = Some "number[]".
Proof.
  assert (acyclic role_tables role_rank 2) as Ha.
  { intros a b. unfold role_tables. cbn [typeAliases].
    intros [[<- <-]|[_ [[<- <-]|[_ [<- <-]%lookup_singleton_Some]]%lookup_insert_Some]]%lookup_insert_Some;
      repeat split; vm_compute; lia. }
  split; [exact Ha|]. split; [|vm_compute; reflexivity].
  apply (resolveType_terminates role_tables role_rank 2 12 "[]Seconds" Ha). cbn. lia.
Defined.

(** A slice of a type with constants: the brackets bind only to the last one. *)
Example slice_of_union :
  resolveType 30 role_tables "[]core.LLMMessageRole" = Some "'user' | 'assistant'[]".
Proof. vm_compute. reflexivity. Qed.

Definition json_tag (s : string) : option (list (string * string)) := Some [("json", s)].

Definition message_struct : decl :=
  TypeDecl [("LLMMessage", StructType
    [mkField (Ident "LLMMessageRole") (json_tag "role"); mkField (Ident "string") (json_tag "message")])].

Definition role_decls : list decl :=
  [TypeDecl [("LLMMessageRole", PlainType (Ident "string"))];
   ConstDecl [(Some (Ident "LLMMessageRole"), [Some (double_quote +:+ "user" +:+ double_quote)])]].

(** The type of a field depends on which file of the package Go's map yields
    first. *)
Example order_of_files_matters :
  (λ all, (λ si, map tsType (si_fields si)) <$> all !! "LLMMessage") <$>
    collect 30 (mkTables ∅ ∅) ∅ [("core", Some (role_decls ++ [message_struct]))] = Some (Some ["'user'"; "string"]) ∧
  (λ all, (λ si, map tsType (si_fields si)) <$> all !! "LLMMessage") <$>
    collect 30 (mkTables ∅ ∅) ∅ [("core", Some ([message_struct] ++ role_decls))] = Some (Some ["unknown"; "string"]).
Proof. vm_compute. done. Qed.

Definition livekit_struct : decl :=
  TypeDecl [("LiveKitProviderConfig", StructType
    [mkField (Ident "string") (json_tag "url"); mkField (Ident "string") (json_tag "api_key");
     mkField (StarExpr (Ident "int")) (json_tag "max_jobs,omitempty"); mkField (Ident "bool") None])].

Definition livekit_info : structInfo :=
  mkStructInfo "LiveKitProviderConfig" [mkFieldInfo "max_jobs" "*int" true "number" true] "factories".

Definition livekit_dirs : list (string * option (list decl)) := [("factories", Some [livekit_struct])].
Definition livekit_all : gmap string structInfo := default ∅ (collect 30 (mkTables ∅ ∅) ∅ livekit_dirs).

Lemma livekit_collected : collect 30 (mkTables ∅ ∅) ∅ livekit_dirs = Some livekit_all.
Proof. vm_compute. reflexivity. Qed.

Lemma livekit_interfaces : interfaces livekit_all = [("LiveKitProviderConfig", livekit_info)].
Proof. vm_compute. reflexivity. Qed.


Example generated_interface :
  writeInterface (ts_name "LiveKitProviderConfig") livekit_info "LiveKitProviderConfig" =
  "/** Generated from Go struct: LiveKitProviderConfig */" +:+ newline +:+
  "export interface LiveKitConfig {" +:+ newline +:+ "  max_jobs?: number" +:+ newline +:+ "}" +:+ newline +:+ newline.
Proof. vm_compute. reflexivity. Qed.

(** No two interfaces have the same name. *)
Example interface_names_distinct : NoDup (map ts_name structsToGenerate).
Proof. apply (bool_decide_unpack _). vm_compute. exact I. Qed.

Example go_dirs :
  discoverGoDirs "." (Folder "sdk" [Folder "core" [File "llm.go"; File "llm_test.go"]; Folder "docs" [File "a.md"];
    Folder "cmd" [Folder "typegen" [File "main.go"]]; File "main.go"]) = ["."; "./core"].
Proof. vm_compute. reflexivity. Qed.
