(* ===== verification/Lifecycle.v ===== *)
(** * Life cycle of the handlers: channels made, closed and sent on

    What [Initialize] and [Cleanup] do to the channels of the base handler and of
    the recognition, synthesis and language-model handlers
    ([core/handler.go], [handlers/stt], [handlers/tts], [handlers/llm]), where
    closing a channel twice, closing a nil one and sending on a closed one
    panic; and [Pipeline.Serve] of [factories/pipeline.go], which registers the
    job handler with a provider. *)

From S2P Require Import Prelude Core Runner.
From S2P Require ActivityControl.

Local Open Scope string_scope.
Local Open Scope list_scope.

(** ** Channels *)

(** All channels made so far have numbers below [made]. *)
Record heap := mkHeap { made : nat; open_chans : gset nat }.

Definition no_chans : heap := mkHeap 0 ∅.

Definition make_chan (h : heap) : heap * option nat :=
  (mkHeap (S (made h)) ({[made h]} ∪ open_chans h), Some (made h)).

(** [None] is a panic. *)
Definition close_chan (h : heap) (c : option nat) : option heap :=
  match c with
  | None => None
  | Some i => if bool_decide (i ∈ open_chans h) then Some (mkHeap (made h) (open_chans h ∖ {[i]})) else None
  end.

(** [if c != nil { close(c); c = nil }]. *)
Definition close_field (h : heap) (c : option nat) : option heap :=
  match c with
  | None => Some h
  | Some _ => close_chan h c
  end.

Inductive send_result : Type :=
| Delivers            (* as soon as there is room or a receiver *)
| BlocksForever       (* a nil channel *)
| SendPanics.

Definition send (h : heap) (c : option nat) : send_result :=
  match c with
  | None => BlocksForever
  | Some i => if bool_decide (i ∈ open_chans h) then Delivers else SendPanics
  end.

(** ** The base handler *)

Record base_chans := mkBase {
  FatalServiceErrorChan : option nat;
  HandlerErrorChan : option nat
}.

Definition base_Initialize (h : heap) (service : result unit) : heap * base_chans * result unit :=
  let '(h1, fatal) := make_chan h in
  let '(h2, errs) := make_chan h1 in
  (h2, mkBase fatal errs, service).

(** The service is cleaned up last; its answer is the result. *)
Definition base_Cleanup (h : heap) (b : base_chans) (service : result unit)
    : option (heap * base_chans * result unit) :=
  match close_field h (FatalServiceErrorChan b) with
  | None => None
  | Some h1 =>
      match close_field h1 (HandlerErrorChan b) with
      | None => None
      | Some h2 => Some (h2, mkBase None None, service)
      end
  end.

(** ** Speech recognition *)

Record stt_chans := mkStt {
  stt_base : base_chans;
  stt_messageOutChan : option nat;
  interimOutChan : option nat
}.

Definition stt_Initialize (h : heap) (service : result unit) : heap * stt_chans * result unit :=
  let '(h1, message) := make_chan h in
  let '(h2, interim) := make_chan h1 in
  let '(h3, b, r) := base_Initialize h2 service in
  (h3, mkStt b message interim, r).

Definition stt_Cleanup (h : heap) (s : stt_chans) (service : result unit)
    : option (heap * stt_chans * result unit) :=
  match close_field h (stt_messageOutChan s) with
  | None => None
  | Some h1 =>
      match close_field h1 (interimOutChan s) with
      | None => None
      | Some h2 =>
          match base_Cleanup h2 (stt_base s) service with
          | None => None
          | Some (h3, b, r) => Some (h3, mkStt b None None, r)
          end
      end
  end.

(** ** Speech synthesis *)

Record tts_chans := mkTts {
  tts_base : base_chans;
  textToSpeak : option nat;
  resetSim : option nat;
  audioChunkOutChan : option nat;
  errorChan : option nat;
  doneChan : option nat
}.

Definition tts_Initialize (h : heap) (service : result unit) : heap * tts_chans * result unit :=
  let '(h1, text) := make_chan h in
  let '(h2, reset) := make_chan h1 in
  let '(h3, audio) := make_chan h2 in
  let '(h4, err) := make_chan h3 in
  let '(h5, done) := make_chan h4 in
  let '(h6, b, r) := base_Initialize h5 service in
  (h6, mkTts b text reset audio err done, r).

(** Fields closed one after the other. *)
Fixpoint close_fields (h : heap) (cs : list (option nat)) : option heap :=
  match cs with
  | [] => Some h
  | c :: cs' => match close_field h c with Some h1 => close_fields h1 cs' | None => None end
  end.

(** Once the simulation loop has ended ([TtsHandler.shutdown]). *)
Definition tts_Cleanup (h : heap) (t : tts_chans) (service : result unit)
    : option (heap * tts_chans * result unit) :=
  match close_fields h [textToSpeak t; resetSim t; audioChunkOutChan t; errorChan t; doneChan t] with
  | None => None
  | Some h1 =>
      match base_Cleanup h1 (tts_base t) service with
      | None => None
      | Some (h2, b, r) => Some (h2, mkTts b None None None None None, r)
      end
  end.

(** ** The language model *)

Record llm_chans := mkLlm {
  llm_base : base_chans;
  llm_messageOutChan : option nat;
  toolInvocationOutChan : option nat;
  completionStartChan : option nat;
  completionEndChan : option nat
}.

(** The filler service, if there is one, is initialized too; its answer is
    ignored. *)
Definition llm_Initialize (h : heap) (service : result unit) : heap * llm_chans * result unit :=
  let '(h1, message) := make_chan h in
  let '(h2, tool) := make_chan h1 in
  let '(h3, start) := make_chan h2 in
  let '(h4, end_) := make_chan h3 in
  let '(h5, b, r) := base_Initialize h4 service in
  (h5, mkLlm b message tool start end_, r).

(** The channels stay open.  The flag tells whether the service was cleaned
    up. *)
Definition llm_Cleanup (h : heap) (l : llm_chans) (filler : option (result unit)) (service : result unit)
    : option (heap * llm_chans * result unit * bool) :=
  match filler with
  | Some (Err e) => Some (h, l, Err e, false)
  | _ =>
      match base_Cleanup h (llm_base l) service with
      | None => None
      | Some (h1, b, r) =>
          Some (h1, mkLlm b (llm_messageOutChan l) (toolInvocationOutChan l)
                      (completionStartChan l) (completionEndChan l), r, true)
      end
  end.

(** ** The aggregators and activity control

    Their service does nothing. *)

(** [hooks] are the clean-up hooks of the context manager, called first. *)
Definition assistant_Cleanup (hooks : list string) (h : heap) (b : base_chans)
    : option (list string * (heap * base_chans * result unit)) :=
  (λ x, (hooks, x)) <$> base_Cleanup h b (Ok tt).

Definition user_Cleanup (h : heap) (b : base_chans) : option (heap * base_chans * result unit) :=
  base_Cleanup h b (Ok tt).

(** The confirmation timer is stopped first; [resumeChan] stays open. *)
Definition activity_Cleanup (g : ActivityControl.ActivityControlHandler) (h : heap) (b : base_chans)
    : option (ActivityControl.ActivityControlHandler * (heap * base_chans * result unit)) :=
  (λ x, (ActivityControl.stopConfirmTimer g, x)) <$> base_Cleanup h b (Ok tt).

(** ** Serving *)

Inductive serve_step : Type :=
| RegisterHandler (r : result unit)
| StartProvider (r : result unit)          (* in a goroutine, its error is only logged *)
| StopProvider (r : result unit).

(** [ctx_done]: whether the context ends; [None] is that [Serve] blocks. *)
Definition Serve (register start stop : result unit) (ctx_done : bool)
    : list serve_step * option (result unit) :=
  match register with
  | Err e => ([RegisterHandler register], Some (Err e))
  | Ok _ =>
      if ctx_done
      then ([RegisterHandler register; StartProvider start; StopProvider stop], Some (Ok tt))
      else ([RegisterHandler register; StartProvider start], None)
  end.

(** ** Channels are closed once *)

(** Channels a handler holds: open and distinct. *)
Record holds (h : heap) (cs : list (option nat)) : Prop := mkHolds {
  hd_open : ∀ i, Some i ∈ cs → i ∈ open_chans h;
  hd_distinct : NoDup (omap id cs);
  hd_made : set_Forall (λ i, (i < made h)%nat) (open_chans h)
}.

Lemma close_fields_app cs1 cs2 : ∀ h,
  close_fields h (cs1 ++ cs2) = close_fields h cs1 ≫= λ h1, close_fields h1 cs2.
Proof. induction cs1 as [|c cs1 IH]; intros h; [done|]. cbn. destruct (close_field h c); [apply IH|done]. Qed.

(** Closing what a handler holds does not panic, and leaves the channels of
    others alone. *)
Lemma close_fields_ok cs : ∀ h, holds h cs →
  ∃ h', close_fields h cs = Some h' ∧ made h' = made h ∧
    ∀ i, i ∈ open_chans h' ↔ i ∈ open_chans h ∧ Some i ∉ cs.
Proof.
  induction cs as [|[i|] cs IH]; intros h [Ho Hd Hm]; cbn [close_fields close_field].
  - exists h. split; [done|]. split; [done|]. intros i. split; [|by intros []].
    intros Hi. split; [done|]. by intros ?%elem_of_nil.
  - cbn in Hd. apply NoDup_cons in Hd as [Hi Hd]. unfold close_chan.
    rewrite bool_decide_true by (apply Ho, list_elem_of_here).
    destruct (IH (mkHeap (made h) (open_chans h ∖ {[i]}))) as (h' & E & Hm' & Ho').
    { split; [|done|intros j Hj; apply Hm; set_solver].
      intros j Hj. cbn. apply elem_of_difference. split; [apply Ho; by apply list_elem_of_further|].
      intros ->%elem_of_singleton. apply Hi, list_elem_of_omap. by exists (Some i). }
    exists h'. split; [done|]. split; [done|]. intros j. rewrite Ho'. cbn.
    rewrite elem_of_difference, elem_of_singleton, elem_of_cons.
    split; [intros ((H1 & H2) & H3); split; [done|]; intros [[= ->]|]; done|].
    intros (H1 & H2). split; [split; [done|]; intros ->; apply H2; by left|]. intros H3. apply H2. by right.
  - destruct (IH h) as (h' & E & Hm' & Ho').
    { split; [intros i Hi; apply Ho; by apply list_elem_of_further|done|done]. }
    exists h'. split; [done|]. split; [done|]. intros i. rewrite Ho', elem_of_cons.
    naive_solver.
Qed.

Definition base_list (b : base_chans) : list (option nat) := [FatalServiceErrorChan b; HandlerErrorChan b].
Definition stt_list (s : stt_chans) : list (option nat) :=
  [stt_messageOutChan s; interimOutChan s] ++ base_list (stt_base s).
Definition tts_list (t : tts_chans) : list (option nat) :=
  [textToSpeak t; resetSim t; audioChunkOutChan t; errorChan t; doneChan t] ++ base_list (tts_base t).

Lemma base_Cleanup_closes h b r :
  base_Cleanup h b r = (λ h', (h', mkBase None None, r)) <$> close_fields h (base_list b).
Proof. unfold base_Cleanup, base_list. cbn. repeat case_match; by simplify_eq. Qed.

Lemma stt_Cleanup_closes h s r :
  stt_Cleanup h s r = (λ h', (h', mkStt (mkBase None None) None None, r)) <$> close_fields h (stt_list s).
Proof.
  unfold stt_Cleanup, stt_list. rewrite close_fields_app. cbn [close_fields].
  destruct (close_field h _) as [h1|]; [|done]. destruct (close_field h1 _) as [h2|]; [|done].
  rewrite base_Cleanup_closes. cbn [mbind option_bind]. by destruct (close_fields h2 _).
Qed.

Lemma tts_Cleanup_closes h t r :
  tts_Cleanup h t r = (λ h', (h', mkTts (mkBase None None) None None None None None, r)) <$> close_fields h (tts_list t).
Proof.
  unfold tts_Cleanup, tts_list. rewrite close_fields_app. destruct (close_fields h _) as [h1|]; [|done].
  rewrite base_Cleanup_closes. cbn [mbind option_bind]. by destruct (close_fields h1 _).
Qed.

Lemma make_holds h cs : holds h cs → holds (make_chan h).1 ((make_chan h).2 :: cs).
Proof.
  intros [Ho Hd Hm]. split; cbn.
  - intros i [[= ->]|Hi]%elem_of_cons; [set_solver|]. apply elem_of_union_r. by apply Ho.
  - apply NoDup_cons. split; [|done]. intros ([j|] & Hj & [= ->])%list_elem_of_omap.
    pose proof (Hm _ (Ho _ Hj)). cbn in *. lia.
  - intros i [->%elem_of_singleton|Hi]%elem_of_union; [lia|]. specialize (Hm i Hi). cbn in Hm. lia.
Qed.

Lemma omap_id_perm (cs cs' : list (option nat)) : cs ≡ₚ cs' → omap id cs ≡ₚ omap id cs'.
Proof. intros Hp. by rewrite Hp. Qed.

Lemma holds_perm h cs cs' : cs ≡ₚ cs' → holds h cs → holds h cs'.
Proof.
  intros Hp [Ho Hd Hm]. split; [|by rewrite <-(omap_id_perm _ _ Hp)|done].
  intros i Hi. apply Ho. by rewrite Hp.
Qed.

Lemma holds_app_r h cs cs' : holds h (cs ++ cs') → holds h cs'.
Proof.
  intros [Ho Hd Hm]. split; [|by rewrite omap_app, NoDup_app in Hd; apply Hd|done].
  intros i Hi. apply Ho, elem_of_app. by right.
Qed.

Lemma holds_nones h cs n : holds h cs → holds h (replicate n None ++ cs).
Proof.
  intros Hh. induction n as [|n [Ho Hd Hm]]; [done|]. split; [|done|done].
  intros i [?|Hi]%elem_of_cons; [done|by apply Ho].
Qed.

(** Closing some of what is held leaves the rest held. *)
Lemma close_holds h cs cs' : holds h (cs ++ cs') →
  ∃ h', close_fields h cs = Some h' ∧ holds h' cs' ∧ (∀ i, Some i ∈ cs → i ∉ open_chans h').
Proof.
  intros Hh. pose proof Hh as [Ho Hd Hm]. rewrite omap_app in Hd. apply NoDup_app in Hd as (Hd1 & Hd2 & Hd3).
  destruct (close_fields_ok cs h) as (h' & E & Em & Ho').
  { split; [intros i Hi; apply Ho, elem_of_app; by left|done|done]. }
  exists h'. split; [done|]. split; [split|].
  - intros i Hi. apply Ho'. split; [apply Ho, elem_of_app; by right|]. intros Hin.
    apply (Hd2 i); apply list_elem_of_omap; by exists (Some i).
  - done.
  - intros i Hi. rewrite Em. apply Ho' in Hi as [Hi _]. by apply Hm.
  - intros i Hi Hin. apply Ho' in Hin as [_ Hn]. done.
Qed.

(** ** Two handlers of one session *)

Inductive life_op : Type :=
| SttInit (service : result unit)
| SttClean (service : result unit)
| TtsInit (service : result unit)
| TtsClean (service : result unit).

Record life := mkLife { l_heap : heap; l_stt : stt_chans; l_tts : tts_chans }.

(** [None] is a panic. *)
Definition life_step (s : life) (o : life_op) : option life :=
  match o with
  | SttInit r => let '(h, c, _) := stt_Initialize (l_heap s) r in Some (mkLife h c (l_tts s))
  | SttClean r => (λ x, mkLife x.1.1 x.1.2 (l_tts s)) <$> stt_Cleanup (l_heap s) (l_stt s) r
  | TtsInit r => let '(h, c, _) := tts_Initialize (l_heap s) r in Some (mkLife h (l_stt s) c)
  | TtsClean r => (λ x, mkLife x.1.1 (l_stt s) x.1.2) <$> tts_Cleanup (l_heap s) (l_tts s) r
  end.

Definition life_run (s : life) (ops : list life_op) : option life :=
  foldl (λ acc o, acc ≫= λ s, life_step s o) (Some s) ops.

Definition no_base : base_chans := mkBase None None.
Definition new_life : life :=
  mkLife no_chans (mkStt no_base None None) (mkTts no_base None None None None None).

Definition life_ok (s : life) : Prop := holds (l_heap s) (stt_list (l_stt s) ++ tts_list (l_tts s)).

Lemma stt_init_ok h cs r : holds h cs →
  holds (stt_Initialize h r).1.1 (stt_list (stt_Initialize h r).1.2 ++ cs).
Proof.
  intros Hh. cbn. unfold stt_list, base_list. cbn.
  do 4 apply make_holds in Hh. cbn in Hh. eapply holds_perm; [|exact Hh]. solve_Permutation.
Qed.

Lemma tts_init_ok h cs r : holds h cs →
  holds (tts_Initialize h r).1.1 (tts_list (tts_Initialize h r).1.2 ++ cs).
Proof.
  intros Hh. cbn. unfold tts_list, base_list. cbn.
  do 7 apply make_holds in Hh. cbn in Hh. eapply holds_perm; [|exact Hh]. solve_Permutation.
Qed.

Lemma stt_clean_ok h s r cs : holds h (stt_list s ++ cs) →
  ∃ h', stt_Cleanup h s r = Some (h', mkStt no_base None None, r) ∧ holds h' (replicate 4 None ++ cs) ∧
    ∀ i, Some i ∈ stt_list s → i ∉ open_chans h'.
Proof.
  intros Hh. destruct (close_holds _ _ _ Hh) as (h' & E & Hh' & Hc). exists h'.
  rewrite stt_Cleanup_closes, E. split; [done|]. split; [by apply holds_nones|done].
Qed.

Lemma tts_clean_ok h t r cs : holds h (tts_list t ++ cs) →
  ∃ h', tts_Cleanup h t r = Some (h', mkTts no_base None None None None None, r) ∧
    holds h' (replicate 7 None ++ cs) ∧ ∀ i, Some i ∈ tts_list t → i ∉ open_chans h'.
Proof.
  intros Hh. destruct (close_holds _ _ _ Hh) as (h' & E & Hh' & Hc). exists h'.
  rewrite tts_Cleanup_closes, E. split; [done|]. split; [by apply holds_nones|done].
Qed.

Lemma life_step_ok s o : life_ok s → ∃ s', life_step s o = Some s' ∧ life_ok s'.
Proof.
  unfold life_ok. intros Hs. destruct o as [r|r|r|r]; cbn [life_step].
  - eexists. split; [reflexivity|]. apply (stt_init_ok _ _ r). by apply holds_app_r in Hs.
  - destruct (stt_clean_ok _ _ r _ Hs) as (h' & -> & Hh & _). by eexists.
  - eexists. split; [reflexivity|]. cbn [l_heap l_stt l_tts].
    eapply holds_perm; [apply Permutation_app_comm|]. apply (tts_init_ok _ _ r).
    eapply holds_app_r, holds_perm; [apply Permutation_app_comm|exact Hs].
  - assert (holds (l_heap s) (tts_list (l_tts s) ++ stt_list (l_stt s))) as Hs'
      by (eapply holds_perm; [apply Permutation_app_comm|exact Hs]).
    destruct (tts_clean_ok _ _ r _ Hs') as (h' & -> & Hh & _). eexists. split; [done|].
    cbn [l_heap l_stt l_tts]. eapply holds_perm; [apply Permutation_app_comm|exact Hh].
Qed.

Lemma life_run_ok ops : ∀ s, life_ok s → ∃ s', life_run s ops = Some s' ∧ life_ok s'.
Proof.
  unfold life_run. induction ops as [|o ops IH]; intros s Hs; [by exists s|]. cbn.
  destruct (life_step_ok s o Hs) as (s1 & -> & Hs1). by apply IH.
Qed.

Lemma new_life_ok : life_ok new_life.
Proof. split; [intros i Hi; cbn in Hi; set_solver|constructor|intros i Hi; cbn in Hi; set_solver]. Qed.

(** Cleaning up never panics: in any sequence of initializations and clean-ups
    of the two speech handlers, in any order, repeated or left out, and whatever
    their services answer, no channel is closed twice; after a clean-up of a
    handler its fields are nil, and a goroutine that still has one of its
    channels, as a service does, panics when it sends on it. *)
Theorem channels_closed_once (ops : list life_op) (service : result unit) :
  ∃ s h stt', life_run new_life ops = Some s ∧
    stt_Cleanup (l_heap s) (l_stt s) service = Some (h, stt', service) ∧
    Forall (λ c, c = None) (stt_list stt') ∧
    ∀ c, c ∈ stt_list (l_stt s) → c ≠ None → send (l_heap s) c = Delivers ∧ send h c = SendPanics.
Proof.
  destruct (life_run_ok ops new_life new_life_ok) as (s & E & Hs). unfold life_ok in Hs.
  destruct (stt_clean_ok _ _ service _ Hs) as (h & Ec & _ & Hc). exists s, h, (mkStt no_base None None).
  split; [done|]. split; [done|]. split; [by repeat constructor|].
  intros [i|] Hi Hn; [|done]. cbn. destruct Hs as [Ho _ _].
  rewrite bool_decide_true by (apply Ho, elem_of_app; by left). by rewrite bool_decide_false by (by apply Hc).
Qed.

(** A transcript that arrives between the clean-up of the handler's channels and
    that of the service, which still has them, panics. *)
Lemma late_transcript_panics :
  let '(h, s, _) := stt_Initialize no_chans (Ok tt) in
  ∃ h' s', stt_Cleanup h s (Ok tt) = Some (h', s', Ok tt) ∧ send h' (stt_messageOutChan s) = SendPanics.
Proof. eexists _, _. split; [reflexivity|]. reflexivity. Qed.

(** When the filler service fails to clean up, the language model's own service
    and error channels are left as they are. *)
Lemma filler_failure_skips_cleanup h l e service :
  llm_Cleanup h l (Some (Err e)) service = Some (h, l, Err e, false).
Proof. done. Qed.

(** The channels of the language-model handler stay open. *)
Lemma llm_channels_stay_open h l service h' l' r b :
  holds h (base_list (llm_base l) ++ [llm_messageOutChan l; toolInvocationOutChan l]) →
  llm_Cleanup h l None service = Some (h', l', r, b) →
  llm_messageOutChan l ≠ None → send h' (llm_messageOutChan l) = Delivers.
Proof.
  unfold llm_Cleanup. intros Hh. destruct (close_holds _ _ _ Hh) as (h1 & E & [Ho _ _] & _).
  rewrite base_Cleanup_closes, E. intros [= <- _ _ _] Hn.
  destruct (llm_messageOutChan l) as [i|]; [|done]. cbn.
  by rewrite bool_decide_true by apply Ho, list_elem_of_here.
Qed.

(** A provider that fails to start is not noticed: [Serve] waits for its context
    all the same. *)
Lemma failed_start_keeps_serving e stop :
  (Serve (Ok tt) (Err e) stop false).2 = None ∧ (Serve (Ok tt) (Err e) stop true).2 = Some (Ok tt).
Proof. done. Qed.
